(** * Polymarket trader: decision-and-execution engine

    A shallow embedding of the TypeScript sources of the trading engine
    (strategies, paper and real executors, the unified execution gateway,
    the SQLite ledger and the real-time event reactor), followed by the
    properties of the engine that the specification states.

    Modelling conventions.
    - A JavaScript [number] holding money, prices or shares is an exact
      rational ([Q]): each arithmetic operation of the code is the exact
      operation, taken in the code's order, and comparisons are the boolean
      ones the code performs.  The source computes in IEEE binary64, where
      a computed number can differ from the exact one in its last places.
      The properties are therefore stated on the code's own expressions and
      on comparisons of its inputs; a property that restates a threshold
      tested on a computed number as a condition on the inputs keeps one
      part in ten thousand away from the threshold, a margin inside which
      the rounding decides.
      Module [Binary64] evaluates the share computation of the paper basket
      in binary64 itself, and [roundedShares] is that computation with each
      operation rounded.
      [NaN] and the infinities are outside the model: every division below
      is either guarded by the code or discussed where it is used ([Q]
      returns 0 on a zero divisor).
    - [Date.now()] and [new Date()] are an explicit argument [now : Z]
      (milliseconds).
    - [randomUUID()] is the sequence [randomUUID : nat -> string]; the ledger
      counts the draws made so far.  SQL statements are taken to succeed.
    - An [async] function is cut at its suspension points: what runs before
      the first [await] is one atomic step, what runs after the awaited call
      settles is another one.  The gateway's calls are cut at the executor
      call they await, and the real adapter's buy at its broker call
      ([executeBuy_begin], [executeBuy_resume]); a function that takes the
      broker's replies as arguments is the call run to completion with
      nothing interleaved.  Code without an [await] in its body (the paper
      simulator) runs as a single step. *)

From Stdlib Require Import QArith Qminmax Qround Qabs ZArith Lia Lqa Ascii Sorted PrimFloat.
From stdpp Require Import gmap strings list fin_maps pretty.

Open Scope Q_scope.

(** ** Numbers *)

(** [x < y], [x <= y], [x >= y], [x > y] on JavaScript numbers. *)
Definition Qltb (x y : Q) : bool := negb (Qle_bool y x).
Definition Qleb (x y : Q) : bool := Qle_bool x y.
Definition Qgeb (x y : Q) : bool := Qle_bool y x.
Definition Qgtb (x y : Q) : bool := negb (Qle_bool x y).

(** [Math.floor], as a number again. *)
Definition Math_floor (x : Q) : Q := inject_Z (Qfloor x).

(** [Math.min] of three arguments. *)
Definition Qmin3 (a b c : Q) : Q := Qmin (Qmin a b) c.

(** [xs.reduce((sum, x) => sum + f(x), 0)]. *)
Definition sumBy {A : Type} (f : A -> Q) (xs : list A) : Q :=
  fold_left (fun sum x => sum + f x) xs 0.

(** [((price - entry) / entry) * 100], the percentage of the exit rules,
    with the result of each of its three operations rounded by [rnd]; the
    identity for [rnd] gives the exact percentage. *)
Definition roundedPercent (rnd : Q -> Q) (price entry : Q) : Q :=
  rnd (rnd (rnd (price - entry) / entry) * 100).

(** The outcome of awaiting a call: a value, or an exception. *)
Inductive Completion (A : Type) : Type :=
| Returned (a : A)
| Threw.
Arguments Returned {A} a.
Arguments Threw {A}.

(** ** Strings *)

(** [toUpperCase] / [toLowerCase] on the ASCII letters. *)
Definition upper_ascii (c : ascii) : ascii :=
  let n := nat_of_ascii c in
  if andb (Nat.leb 97 n) (Nat.leb n 122) then ascii_of_nat (n - 32) else c.

Definition lower_ascii (c : ascii) : ascii :=
  let n := nat_of_ascii c in
  if andb (Nat.leb 65 n) (Nat.leb n 90) then ascii_of_nat (n + 32) else c.

Fixpoint toUpperCase (s : string) : string :=
  match s with
  | EmptyString => EmptyString
  | String c s' => String (upper_ascii c) (toUpperCase s')
  end.

Fixpoint toLowerCase (s : string) : string :=
  match s with
  | EmptyString => EmptyString
  | String c s' => String (lower_ascii c) (toLowerCase s')
  end.

(** [s.includes(sub)]. *)
Fixpoint includes (sub s : string) : bool :=
  String.prefix sub s ||
  match s with
  | EmptyString => false
  | String _ s' => includes sub s'
  end.

(** ** Data model ([types/index.ts]) *)

Inductive MarketCategory : Set :=
| politics | sports | crypto | entertainment | science | business | other.

Inductive StrategyName : Set :=
| s_arbitrage | s_value | s_whale | s_momentum | s_mean_reversion.

Inductive ConfidenceLevel : Set :=
| c_low | c_standard | c_high | c_arbitrage.

Inductive Side : Set := YES | NO.
Inductive Action : Set := BUY | SELL.
Inductive Status : Set := st_open | st_closed.

#[global] Instance MarketCategory_eq_dec : EqDecision MarketCategory.
Proof. solve_decision. Defined.
#[global] Instance StrategyName_eq_dec : EqDecision StrategyName.
Proof. solve_decision. Defined.
#[global] Instance ConfidenceLevel_eq_dec : EqDecision ConfidenceLevel.
Proof. solve_decision. Defined.
#[global] Instance Side_eq_dec : EqDecision Side.
Proof. solve_decision. Defined.
#[global] Instance Status_eq_dec : EqDecision Status.
Proof. solve_decision. Defined.

Record Outcome : Type := mkOutcome {
  o_id : string;
  o_name : string;
  o_price : Q;
  o_tokenId : string;
}.

Record Market : Type := mkMarket {
  m_id : string;
  m_question : string;
  m_category : MarketCategory;
  m_outcomes : list Outcome;
  m_volume : Q;
  m_liquidity : Q;
  m_endDate : Z;
}.

Record Position : Type := mkPosition {
  p_id : string;
  p_marketId : string;
  p_marketQuestion : string;
  p_category : MarketCategory;
  p_strategy : StrategyName;
  p_side : Side;
  p_outcomeId : string;
  p_entryPrice : Q;
  p_currentPrice : Q;
  p_size : Q;          (* USD value invested (after fees) *)
  p_cost : Q;          (* total cost deducted from balance (including fees) *)
  p_shares : Q;
  p_entryTime : Z;
  p_pnl : Q;
  p_pnlPercent : Q;
  p_status : Status;
}.

Record Trade : Type := mkTrade {
  t_id : string;
  t_positionId : string;
  t_marketId : string;
  t_marketQuestion : string;
  t_category : MarketCategory;
  t_strategy : StrategyName;
  t_side : Side;
  t_action : Action;
  t_price : Q;
  t_size : Q;
  t_shares : Q;
  t_fees : Q;
  t_timestamp : Z;
  t_pnl : option Q;    (* only for closing trades *)
}.

Record Opportunity : Type := mkOpportunity {
  opp_market : Market;
  opp_strategy : StrategyName;
  opp_side : Side;
  opp_outcomeIndex : nat;
  opp_entryPrice : Q;
  opp_estimatedProb : Q;
  opp_edge : Q;
  opp_confidence : ConfidenceLevel;
}.

Record StrategyAllocation : Type := mkAllocation {
  a_strategy : StrategyName;
  a_currentWeight : Q;
  a_minWeight : Q;
  a_maxWeight : Q;
  a_performanceScore : Q;
}.

Record Portfolio : Type := mkPortfolio {
  pf_balance : Q;
  pf_totalValue : Q;
  pf_startingBalance : Q;
  pf_totalPnl : Q;
  pf_totalPnlPercent : Q;
  pf_openPositions : list Position;
  pf_allocations : list StrategyAllocation;
  pf_drawdown : Q;
  pf_drawdownPercent : Q;
  pf_peakValue : Q;
}.

(** The [{ name, price, tokenId }] triple handed to [executeArbitrageBuy]. *)
Record ArbOutcome : Type := mkArbOutcome {
  ao_name : string;
  ao_price : Q;
  ao_tokenId : string;
}.

(** [ArbitrageOpportunity extends Opportunity]. *)
Record ArbitrageOpportunity : Type := mkArbOpportunity {
  arb_base : Opportunity;
  arb_outcomes : list ArbOutcome;
  arb_totalCost : Q;
  arb_guaranteedProfit : Q;
  arb_profitPercent : Q;
}.

(** The [{ id, question, category }] header handed to [executeArbitrageBuy]. *)
Record MarketRef : Type := mkMarketRef {
  mr_id : string;
  mr_question : string;
  mr_category : MarketCategory;
}.

(** [{ allowed, reason? }]; the reason text is not modelled. *)
Record CanTrade : Type := mkCanTrade { allowed : bool }.

(** ** Configuration ([config/index.ts], the fields the engine reads) *)

Record Config : Type := mkConfig {
  startingBalance_cfg : Q;
  maxPositionPct : Q;
  maxCategoryPct : Q;
  minBufferPct : Q;
  drawdownWarningPct : Q;
  drawdownHaltPct : Q;
  minPositionUsd : Q;
  maxPositionUsd : Q;
  minMarketLiquidity : Q;
}.

(** The defaults of [envSchema]: 10% / 30% / 20% / 15% / 25%, $10..$5000,
    liquidity floor $10000, starting balance $1000. *)
Definition defaultConfig : Config :=
  {| startingBalance_cfg := 1000;
     maxPositionPct := 10 / 100;
     maxCategoryPct := 30 / 100;
     minBufferPct := 20 / 100;
     drawdownWarningPct := 15 / 100;
     drawdownHaltPct := 25 / 100;
     minPositionUsd := 10;
     maxPositionUsd := 5000;
     minMarketLiquidity := 10000 |}.

(** What the engine takes from its surroundings: the loaded configuration
    and the values [randomUUID()] returns, in the order they are drawn. *)
Class Env : Type := mkEnv {
  config : Config;
  randomUUID : nat -> string;
}.

(** ** The ledger ([data/sqlite-store.ts]) *)

Module SQLiteStore.

(** A row of the [positions] table. *)
Record PositionRow : Type := mkRow {
  id : string;
  market_id : string;
  market_question : string;
  category : MarketCategory;
  strategy : StrategyName;
  side : Side;
  outcome_id : string;
  entry_price : Q;
  current_price : Q;
  size : Q;
  cost : Q;
  shares : Q;
  entry_time : Z;
  exit_time : option Z;
  exit_price : option Q;
  pnl : Q;
  status : Status;
}.

(** A row of [portfolio_snapshots]. *)
Record Snapshot : Type := mkSnapshot {
  snap_timestamp : Z;
  snap_balance : Q;
  snap_total_value : Q;
  snap_total_pnl : Q;
  snap_drawdown : Q;
  snap_peak_value : Q;
}.

(** The database: its tables, and the number of UUIDs drawn so far. *)
Record t : Type := mkStore {
  positions : list PositionRow;
  trades : list Trade;
  portfolio_snapshots : list Snapshot;
  allocations : list StrategyAllocation;
  uuid_draws : nat;
}.

(** [Omit<Position, 'id' | 'pnl' | 'pnlPercent' | 'status'>]. *)
Record NewPosition : Type := mkNewPosition {
  np_marketId : string;
  np_marketQuestion : string;
  np_category : MarketCategory;
  np_strategy : StrategyName;
  np_side : Side;
  np_outcomeId : string;
  np_entryPrice : Q;
  np_currentPrice : Q;
  np_size : Q;
  np_cost : Q;
  np_shares : Q;
  np_entryTime : Z;
}.

(** [row.cost || row.size]: a zero cost falls back to the size. *)
Definition cost_or_size (row : PositionRow) : Q :=
  if Qeq_bool (cost row) 0 then size row else cost row.

Definition rowToPosition (row : PositionRow) : Position :=
  let cost := cost_or_size row in
  let currentValue := current_price row * shares row in
  let pnl := currentValue - cost in
  let pnlPercent := if Qgtb cost 0 then (pnl / cost) * 100 else 0 in
  {| p_id := id row;
     p_marketId := market_id row;
     p_marketQuestion := market_question row;
     p_category := category row;
     p_strategy := strategy row;
     p_side := side row;
     p_outcomeId := outcome_id row;
     p_entryPrice := entry_price row;
     p_currentPrice := current_price row;
     p_size := size row;
     p_cost := cost;
     p_shares := shares row;
     p_entryTime := entry_time row;
     p_pnl := pnl;
     p_pnlPercent := pnlPercent;
     p_status := status row |}.

(** [SELECT * FROM positions WHERE id = ?] (first match). *)
Definition getRow (i : string) (s : t) : option PositionRow :=
  List.find (fun r => bool_decide (id r = i)) (positions s).

Definition getPosition (i : string) (s : t) : option Position :=
  rowToPosition <$> getRow i s.

(** [SELECT * FROM positions WHERE status = 'open']. *)
Definition getOpenPositions (s : t) : list Position :=
  rowToPosition <$> List.filter (fun r => bool_decide (status r = st_open)) (positions s).

Definition getAllocations (s : t) : list StrategyAllocation := allocations s.

(** [UPDATE positions SET ... WHERE id = ?]. *)
Definition update_where_id (i : string) (f : PositionRow -> PositionRow)
    (rows : list PositionRow) : list PositionRow :=
  List.map (fun r => if bool_decide (id r = i) then f r else r) rows.

Definition with_positions (rows : list PositionRow) (s : t) : t :=
  {| positions := rows;
     trades := trades s;
     portfolio_snapshots := portfolio_snapshots s;
     allocations := allocations s;
     uuid_draws := uuid_draws s |}.

Definition set_price (currentPrice pnl' : Q) (r : PositionRow) : PositionRow :=
  {| id := id r; market_id := market_id r; market_question := market_question r;
     category := category r; strategy := strategy r; side := side r;
     outcome_id := outcome_id r; entry_price := entry_price r;
     current_price := currentPrice;
     size := size r; cost := cost r; shares := shares r;
     entry_time := entry_time r; exit_time := exit_time r;
     exit_price := exit_price r;
     pnl := pnl';
     status := status r |}.

Definition set_closed (now : Z) (exitPrice pnl' : Q) (r : PositionRow) : PositionRow :=
  {| id := id r; market_id := market_id r; market_question := market_question r;
     category := category r; strategy := strategy r; side := side r;
     outcome_id := outcome_id r; entry_price := entry_price r;
     current_price := exitPrice;
     size := size r; cost := cost r; shares := shares r;
     entry_time := entry_time r; exit_time := Some now;
     exit_price := Some exitPrice;
     pnl := pnl';
     status := st_closed |}.

Definition updatePositionPrice (positionId : string) (currentPrice : Q) (s : t) : t :=
  match getPosition positionId s with
  | None => s
  | Some position =>
      (* P&L = current value - original cost (includes fees) *)
      let currentValue := currentPrice * p_shares position in
      let pnl := currentValue - p_cost position in
      with_positions
        (update_where_id positionId (set_price currentPrice pnl) (positions s)) s
  end.

Definition closePosition (now : Z) (positionId : string) (exitPrice : Q) (s : t)
    : option Position * t :=
  match getPosition positionId s with
  | None => (None, s)
  | Some position =>
      (* P&L = exit value - original cost (includes fees) *)
      let exitValue := exitPrice * p_shares position in
      let pnl := exitValue - p_cost position in
      let s' := with_positions
                  (update_where_id positionId (set_closed now exitPrice pnl) (positions s)) s in
      (getPosition positionId s', s')
  end.

Definition savePortfolioSnapshot (now : Z) (portfolio : Portfolio) (s : t) : t :=
  {| positions := positions s;
     trades := trades s;
     portfolio_snapshots :=
       portfolio_snapshots s ++
       [ {| snap_timestamp := now;
            snap_balance := pf_balance portfolio;
            snap_total_value := pf_totalValue portfolio;
            snap_total_pnl := pf_totalPnl portfolio;
            snap_drawdown := pf_drawdown portfolio;
            snap_peak_value := pf_peakValue portfolio |} ];
     allocations := allocations s;
     uuid_draws := uuid_draws s |}.

Definition updateAllocation (strat : StrategyName) (weight performanceScore : Q) (s : t) : t :=
  {| positions := positions s;
     trades := trades s;
     portfolio_snapshots := portfolio_snapshots s;
     allocations :=
       List.map (fun a => if bool_decide (a_strategy a = strat)
                          then {| a_strategy := a_strategy a;
                                  a_currentWeight := weight;
                                  a_minWeight := a_minWeight a;
                                  a_maxWeight := a_maxWeight a;
                                  a_performanceScore := performanceScore |}
                          else a) (allocations s);
     uuid_draws := uuid_draws s |}.

Section WithEnv.
Context {env : Env}.

(** [INSERT INTO positions (...) VALUES (..., 'open')] under a fresh UUID;
    the columns [exit_time], [exit_price] stay NULL and [pnl] takes its
    default 0. *)
Definition createPosition (position : NewPosition) (s : t) : Position * t :=
  let i := randomUUID (uuid_draws s) in
  let row :=
    {| id := i;
       market_id := np_marketId position;
       market_question := np_marketQuestion position;
       category := np_category position;
       strategy := np_strategy position;
       side := np_side position;
       outcome_id := np_outcomeId position;
       entry_price := np_entryPrice position;
       current_price := np_currentPrice position;
       size := np_size position;
       cost := np_cost position;
       shares := np_shares position;
       entry_time := np_entryTime position;
       exit_time := None;
       exit_price := None;
       pnl := 0;
       status := st_open |} in
  ({| p_id := i;
      p_marketId := np_marketId position;
      p_marketQuestion := np_marketQuestion position;
      p_category := np_category position;
      p_strategy := np_strategy position;
      p_side := np_side position;
      p_outcomeId := np_outcomeId position;
      p_entryPrice := np_entryPrice position;
      p_currentPrice := np_currentPrice position;
      p_size := np_size position;
      p_cost := np_cost position;
      p_shares := np_shares position;
      p_entryTime := np_entryTime position;
      p_pnl := 0;
      p_pnlPercent := 0;
      p_status := st_open |},
   {| positions := positions s ++ [row];
      trades := trades s;
      portfolio_snapshots := portfolio_snapshots s;
      allocations := allocations s;
      uuid_draws := S (uuid_draws s) |}).

(** [INSERT INTO trades ...]; the argument's [t_id] is ignored
    ([Omit<Trade, 'id'>]) and replaced by a fresh UUID. *)
Definition recordTrade (trade : Trade) (s : t) : Trade * t :=
  let i := randomUUID (uuid_draws s) in
  let trade' :=
    {| t_id := i;
       t_positionId := t_positionId trade;
       t_marketId := t_marketId trade;
       t_marketQuestion := t_marketQuestion trade;
       t_category := t_category trade;
       t_strategy := t_strategy trade;
       t_side := t_side trade;
       t_action := t_action trade;
       t_price := t_price trade;
       t_size := t_size trade;
       t_shares := t_shares trade;
       t_fees := t_fees trade;
       t_timestamp := t_timestamp trade;
       t_pnl := t_pnl trade |} in
  (trade',
   {| positions := positions s;
      trades := trades s ++ [trade'];
      portfolio_snapshots := portfolio_snapshots s;
      allocations := allocations s;
      uuid_draws := S (uuid_draws s) |}).
(** The mutating methods of the store, as data, and their effect. *)
Inductive Mutation : Type :=
| CreatePosition (position : NewPosition)
| UpdatePositionPrice (positionId : string) (currentPrice : Q)
| ClosePosition (now : Z) (positionId : string) (exitPrice : Q)
| RecordTrade (trade : Trade)
| SavePortfolioSnapshot (now : Z) (portfolio : Portfolio)
| UpdateAllocation (strat : StrategyName) (weight performanceScore : Q).

Definition apply (s : t) (m : Mutation) : t :=
  match m with
  | CreatePosition position => snd (createPosition position s)
  | UpdatePositionPrice positionId currentPrice =>
      updatePositionPrice positionId currentPrice s
  | ClosePosition now positionId exitPrice =>
      snd (closePosition now positionId exitPrice s)
  | RecordTrade trade => snd (recordTrade trade s)
  | SavePortfolioSnapshot now portfolio => savePortfolioSnapshot now portfolio s
  | UpdateAllocation strat weight performanceScore =>
      updateAllocation strat weight performanceScore s
  end.

Definition applyAll (s : t) (ms : list Mutation) : t := fold_left apply ms s.
End WithEnv.

(** [SELECT * FROM positions WHERE strategy = ?]. *)
Definition getPositionsByStrategy (strat : StrategyName) (s : t) : list Position :=
  rowToPosition <$> List.filter (fun r => bool_decide (strategy r = strat)) (positions s).

(** [SELECT balance, peak_value FROM portfolio_snapshots ORDER BY id DESC
    LIMIT 1]: the row inserted last, as [(balance, peakValue)]. *)
Definition getLatestSnapshot (s : t) : option (Q * Q) :=
  (fun snap => (snap_balance snap, snap_peak_value snap)) <$> last (portfolio_snapshots s).

(** [getTotalStats]: [COUNT( * )], [COALESCE(SUM(pnl), 0)] and
    [COALESCE(AVG(CASE WHEN pnl > 0 THEN 1.0 ELSE 0.0 END), 0)] over the
    trades whose [pnl] is not NULL. *)
Record TotalStats : Type := mkTotalStats {
  totalTrades : nat;
  totalPnl : Q;
  winRate : Q;
}.

Definition getTotalStats (s : t) : TotalStats :=
  let pnls := omap t_pnl (trades s) in
  {| totalTrades := length pnls;
     totalPnl := sumBy (fun x => x) pnls;
     winRate :=
       match pnls with
       | [] => 0
       | _ => sumBy (fun x => if Qgtb x 0 then 1 else 0) pnls
              / inject_Z (Z.of_nat (length pnls))
       end |}.

End SQLiteStore.

(** ** The strategy base class ([strategies/base-strategy.ts]) *)

Module BaseStrategy.

(** Default exit logic: exit if price moved significantly against us or if
    we have hit the profit target.  The thresholds are tested on the
    computed percentage [pnlPercent]. *)
Definition shouldExit (position : Position) (currentPrice : Q) : bool :=
  let pnlPercent :=
    ((currentPrice - p_entryPrice position) / p_entryPrice position) * 100 in
  (* Take profit at +20% *)
  if Qgeb pnlPercent 20 then true
  (* Stop loss at -15% *)
  else if Qleb pnlPercent (-15) then true
  else false.

(** The same rule with the percentage computed in rounded arithmetic. *)
Definition shouldExitRounded (rnd : Q -> Q) (position : Position) (currentPrice : Q)
    : bool :=
  let pnlPercent := roundedPercent rnd currentPrice (p_entryPrice position) in
  if Qgeb pnlPercent 20 then true
  else if Qleb pnlPercent (-15) then true
  else false.

End BaseStrategy.

(** ** The arbitrage strategy ([strategies/arbitrage.ts]) *)

Module ArbitrageStrategy.

(** Minimum profit percentage to consider (after fees). *)
Definition MIN_PROFIT_PCT : Q := 0.02.
(** Maximum profit percentage (too good = suspicious). *)
Definition MAX_PROFIT_PCT : Q := 0.15.

(** [b.profitPercent - a.profitPercent] orders by profit, highest first;
    [Array.prototype.sort] is stable, as is this insertion. *)
Fixpoint insert_by_profit (x : ArbitrageOpportunity) (l : list ArbitrageOpportunity)
    : list ArbitrageOpportunity :=
  match l with
  | [] => [x]
  | y :: ys =>
      if Qgtb (arb_profitPercent y) (arb_profitPercent x)
      then y :: insert_by_profit x ys
      else x :: y :: ys
  end.

Definition sort_by_profit (l : list ArbitrageOpportunity) : list ArbitrageOpportunity :=
  fold_right insert_by_profit [] l.

Section WithEnv.
Context {env : Env}.

Definition checkMarketForArbitrage (market : Market) : option ArbitrageOpportunity :=
  (* Need at least 2 outcomes *)
  if Nat.ltb (length (m_outcomes market)) 2 then None
  (* Check liquidity *)
  else if Qltb (m_liquidity market) (minMarketLiquidity config) then None
  (* All outcomes must have prices *)
  else if existsb (fun o => Qleb (o_price o) 0 || Qgeb (o_price o) 1) (m_outcomes market)
  then None
  else
    (* Calculate total cost of buying all outcomes *)
    let totalCost := sumBy o_price (m_outcomes market) in
    (* For arbitrage: total cost must be < $1 (guaranteed $1 payout) *)
    if Qgeb totalCost 1 then None
    else
      let guaranteedProfit := 1 - totalCost in
      let profitPercent := guaranteedProfit / totalCost in
      (* Check profit thresholds *)
      if Qltb profitPercent MIN_PROFIT_PCT then None
      else if Qgtb profitPercent MAX_PROFIT_PCT then None
      else
        Some {| arb_base :=
                  {| opp_market := market;
                     opp_strategy := s_arbitrage;
                     opp_side := YES;
                     opp_outcomeIndex := 0;
                     opp_entryPrice := totalCost;
                     opp_estimatedProb := 1;
                     opp_edge := guaranteedProfit;
                     opp_confidence := c_arbitrage |};
                arb_outcomes :=
                  List.map (fun o => {| ao_name := o_name o;
                                        ao_price := o_price o;
                                        ao_tokenId := o_tokenId o |})
                           (m_outcomes market);
                arb_totalCost := totalCost;
                arb_guaranteedProfit := guaranteedProfit;
                arb_profitPercent := profitPercent |}.

(** The loop of [scan] before sorting: one entry per market that passes. *)
Definition collect (markets : list Market) : list ArbitrageOpportunity :=
  fold_left (fun opportunities market =>
               match checkMarketForArbitrage market with
               | Some opportunity => opportunities ++ [opportunity]
               | None => opportunities
               end) markets [].

Definition scan (markets : list Market) : list ArbitrageOpportunity :=
  sort_by_profit (collect markets).
End WithEnv.

(** Arbitrage positions are held until the market resolves. *)
Definition shouldExit (_position : Position) (_currentPrice : Q) : bool := false.

(** [findMultiOutcomeArbitrage]: the static check on any market with at
    least two outcomes. *)
Record MultiOutcomeCheck : Type := mkMultiCheck {
  mc_exists : bool;
  mc_totalCost : Q;
  mc_profit : Q;
  mc_profitPct : Q;
}.

Definition findMultiOutcomeArbitrage (market : Market) : MultiOutcomeCheck :=
  if Nat.ltb (length (m_outcomes market)) 2
  then {| mc_exists := false; mc_totalCost := 0; mc_profit := 0; mc_profitPct := 0 |}
  else
    let totalCost := sumBy o_price (m_outcomes market) in
    let profit := 1 - totalCost in
    let profitPct := if Qgtb totalCost 0 then profit / totalCost else 0 in
    {| mc_exists := Qltb totalCost 1 && Qgtb profitPct 0.02;
       mc_totalCost := totalCost;
       mc_profit := profit;
       mc_profitPct := profitPct |}.

(** [findBinaryArbitrage]: for binary markets (YES/NO), check if
    YES + NO < $1. *)
Record BinaryCheck : Type := mkBinaryCheck {
  bc_exists : bool;
  bc_yesPrice : Q;
  bc_noPrice : Q;
  bc_totalCost : Q;
  bc_profit : Q;
}.

Definition noBinary : BinaryCheck :=
  {| bc_exists := false; bc_yesPrice := 0; bc_noPrice := 0;
     bc_totalCost := 0; bc_profit := 0 |}.

Definition findBinaryArbitrage (market : Market) : BinaryCheck :=
  if negb (Nat.eqb (length (m_outcomes market)) 2) then noBinary
  else
    let yesOutcome :=
      List.find (fun o => bool_decide (toLowerCase (o_name o) = "yes"%string)
                          || includes "yes" (toLowerCase (o_name o)))
                (m_outcomes market) in
    let noOutcome :=
      List.find (fun o => bool_decide (toLowerCase (o_name o) = "no"%string)
                          || includes "no" (toLowerCase (o_name o)))
                (m_outcomes market) in
    match yesOutcome, noOutcome with
    | Some yesOutcome, Some noOutcome =>
        let totalCost := o_price yesOutcome + o_price noOutcome in
        let profit := 1 - totalCost in
        {| bc_exists := Qltb totalCost 1 && Qgtb (profit / totalCost) 0.02;
           bc_yesPrice := o_price yesOutcome;
           bc_noPrice := o_price noOutcome;
           bc_totalCost := totalCost;
           bc_profit := profit |}
    | _, _ =>
        (* Not a yes/no market, treat as multi-outcome *)
        noBinary
    end.

End ArbitrageStrategy.

(** ** The paper simulator ([core/paper-executor.ts]) *)

Module PaperExecutor.

Definition SIMULATED_FEE_RATE : Q := 0.002.  (* 0.2% exchange fee *)
Definition SIMULATED_SPREAD : Q := 0.02.     (* 2% spread (buy higher, sell lower) *)
Definition SIMULATED_SLIPPAGE : Q := 0.005.  (* 0.5% slippage *)

(** The fields of the class, and the module-level set [sellingPositions]. *)
Record t : Type := mkPaper {
  balance : Q;
  peakValue : Q;
  startingBalance : Q;
  sellingPositions : gset string;
}.

Definition with_balance (b : Q) (e : t) : t :=
  {| balance := b; peakValue := peakValue e;
     startingBalance := startingBalance e;
     sellingPositions := sellingPositions e |}.

Definition with_peakValue (v : Q) (e : t) : t :=
  {| balance := balance e; peakValue := v;
     startingBalance := startingBalance e;
     sellingPositions := sellingPositions e |}.

Definition with_selling (sp : gset string) (e : t) : t :=
  {| balance := balance e; peakValue := peakValue e;
     startingBalance := startingBalance e;
     sellingPositions := sp |}.

Definition kellyFractions (c : ConfidenceLevel) : Q :=
  match c with
  | c_low => 0.15
  | c_standard => 0.25
  | c_high => 0.40
  | c_arbitrage => 0.50
  end.

(** [getPortfolio] also raises the stored peak value. *)
Definition getPortfolio (s : SQLiteStore.t) (e : t) : Portfolio * t :=
  let openPositions := SQLiteStore.getOpenPositions s in
  let allocations := SQLiteStore.getAllocations s in
  let positionsValue := sumBy (fun p => p_currentPrice p * p_shares p) openPositions in
  let totalValue := balance e + positionsValue in
  let totalPnl := totalValue - startingBalance e in
  let totalPnlPercent := (totalPnl / startingBalance e) * 100 in
  (* Update peak value *)
  let e' := if Qgtb totalValue (peakValue e) then with_peakValue totalValue e else e in
  let drawdown := peakValue e' - totalValue in
  let drawdownPercent :=
    if Qgtb (peakValue e') 0 then (drawdown / peakValue e') * 100 else 0 in
  ({| pf_balance := balance e';
      pf_totalValue := totalValue;
      pf_startingBalance := startingBalance e';
      pf_totalPnl := totalPnl;
      pf_totalPnlPercent := totalPnlPercent;
      pf_openPositions := openPositions;
      pf_allocations := allocations;
      pf_drawdown := drawdown;
      pf_drawdownPercent := drawdownPercent;
      pf_peakValue := peakValue e' |}, e').

(** [side] of a basket leg: ['YES'] for an outcome named yes, else ['NO']. *)
Definition sideOfName (name : string) : Side :=
  if bool_decide (toUpperCase name = "YES"%string) then YES else NO.

Section WithEnv.
Context {env : Env}.

Definition canTrade (s : SQLiteStore.t) (e : t) : CanTrade * t :=
  let '(portfolio, e) := getPortfolio s e in
  (* Check drawdown halt *)
  if Qgeb (pf_drawdownPercent portfolio) (drawdownHaltPct config * 100)
  then ({| allowed := false |}, e)
  else
    (* Check minimum buffer *)
    let bufferRequired := pf_totalValue portfolio * minBufferPct config in
    if Qltb (balance e) bufferRequired
    then ({| allowed := false |}, e)
    else ({| allowed := true |}, e).

Definition calculatePositionSize (opportunity : Opportunity)
    (s : SQLiteStore.t) (e : t) : Q * t :=
  let '(portfolio, e) := getPortfolio s e in
  (* Base size from Kelly criterion *)
  let edge := opp_edge opportunity in
  if Qleb edge 0 then (0, e)
  else
    let fullKelly := edge / (1 - opp_entryPrice opportunity) in
    let kellySize := fullKelly * kellyFractions (opp_confidence opportunity) in
    (* Apply portfolio percentage cap *)
    let maxPct := Qmin kellySize (maxPositionPct config) in
    let size := maxPct * pf_totalValue portfolio in
    (* Apply strategy allocation weight *)
    let size :=
      match List.find (fun a => bool_decide (a_strategy a = opp_strategy opportunity))
                      (pf_allocations portfolio) with
      | Some allocation =>
          let strategyBudget := pf_totalValue portfolio * a_currentWeight allocation in
          let currentStrategyValue :=
            sumBy p_size
              (List.filter (fun p => bool_decide (p_strategy p = opp_strategy opportunity))
                           (pf_openPositions portfolio)) in
          let remainingBudget := strategyBudget - currentStrategyValue in
          Qmin size remainingBudget
      | None => size
      end in
    (* Apply category limit *)
    let categoryValue :=
      sumBy p_size
        (List.filter
           (fun p => bool_decide (p_category p = m_category (opp_market opportunity)))
           (pf_openPositions portfolio)) in
    let categoryLimit := pf_totalValue portfolio * maxCategoryPct config in
    let categoryRemaining := categoryLimit - categoryValue in
    let size := Qmin size categoryRemaining in
    (* Apply absolute limits *)
    let size := Qmax (minPositionUsd config) (Qmin size (maxPositionUsd config)) in
    (* Can't exceed available balance *)
    let size := Qmin size (balance e * 0.95) in
    (* If drawdown warning, reduce size by 50% *)
    let size :=
      if Qgeb (pf_drawdownPercent portfolio) (drawdownWarningPct config * 100)
      then size * 0.5 else size in
    (Qmax 0 size, e).

Definition executeBuy (now : Z) (opportunity : Opportunity)
    (s : SQLiteStore.t) (e : t) : option Position * (SQLiteStore.t * t) :=
  let '(can, e) := canTrade s e in
  if negb (allowed can) then (None, (s, e))
  else
    let '(size, e) := calculatePositionSize opportunity s e in
    if Qltb size (minPositionUsd config) then (None, (s, e))
    else
      (* buy at ASK: mid + spread + slippage *)
      let executionPrice :=
        Qmin 0.99 (opp_entryPrice opportunity * (1 + SIMULATED_SPREAD + SIMULATED_SLIPPAGE)) in
      let fees := size * SIMULATED_FEE_RATE in
      let netSize := size - fees in
      let shares := netSize / executionPrice in
      (* Deduct from balance *)
      let e := with_balance (balance e - size) e in
      let market := opp_market opportunity in
      let '(position, s) :=
        SQLiteStore.createPosition
          {| SQLiteStore.np_marketId := m_id market;
             SQLiteStore.np_marketQuestion := m_question market;
             SQLiteStore.np_category := m_category market;
             SQLiteStore.np_strategy := opp_strategy opportunity;
             SQLiteStore.np_side := opp_side opportunity;
             SQLiteStore.np_outcomeId :=
               match nth_error (m_outcomes market) (opp_outcomeIndex opportunity) with
               | Some o => o_id o
               | None => ""%string
               end;
             SQLiteStore.np_entryPrice := executionPrice;
             SQLiteStore.np_currentPrice := executionPrice;
             SQLiteStore.np_size := netSize;
             SQLiteStore.np_cost := size;
             SQLiteStore.np_shares := shares;
             SQLiteStore.np_entryTime := now |} s in
      let '(_, s) :=
        SQLiteStore.recordTrade
          {| t_id := ""%string;
             t_positionId := p_id position;
             t_marketId := m_id market;
             t_marketQuestion := m_question market;
             t_category := m_category market;
             t_strategy := opp_strategy opportunity;
             t_side := opp_side opportunity;
             t_action := BUY;
             t_price := executionPrice;
             t_size := netSize;
             t_shares := shares;
             t_fees := fees;
             t_timestamp := now;
             t_pnl := None |} s in
      let '(portfolio, e) := getPortfolio s e in
      let s := SQLiteStore.savePortfolioSnapshot now portfolio s in
      (Some position, (s, e)).

Definition executeSell (now : Z) (position : Position) (currentPrice : Q)
    (s : SQLiteStore.t) (e : t) : option Trade * (SQLiteStore.t * t) :=
  (* Prevent duplicate sells *)
  if bool_decide (p_id position ∈ sellingPositions e) then (None, (s, e))
  else
    let e := with_selling ({[ p_id position ]} ∪ sellingPositions e) e in
    (* sell at BID: mid - spread - slippage *)
    let executionPrice :=
      Qmax 0.01 (currentPrice * (1 - SIMULATED_SPREAD - SIMULATED_SLIPPAGE)) in
    let fees := p_shares position * executionPrice * SIMULATED_FEE_RATE in
    let grossProceeds := p_shares position * executionPrice in
    let netProceeds := grossProceeds - fees in
    let pnl := netProceeds - p_size position in
    (* Add to balance *)
    let e := with_balance (balance e + netProceeds) e in
    (* Close position *)
    let '(_, s) := SQLiteStore.closePosition now (p_id position) executionPrice s in
    (* Record trade *)
    let '(trade, s) :=
      SQLiteStore.recordTrade
        {| t_id := ""%string;
           t_positionId := p_id position;
           t_marketId := p_marketId position;
           t_marketQuestion := p_marketQuestion position;
           t_category := p_category position;
           t_strategy := p_strategy position;
           t_side := p_side position;
           t_action := SELL;
           t_price := executionPrice;
           t_size := netProceeds;
           t_shares := p_shares position;
           t_fees := fees;
           t_timestamp := now;
           t_pnl := Some pnl |} s in
    (* Save snapshot *)
    let '(portfolio, e) := getPortfolio s e in
    let s := SQLiteStore.savePortfolioSnapshot now portfolio s in
    (* finally *)
    let e := with_selling (sellingPositions e ∖ {[ p_id position ]}) e in
    (Some trade, (s, e)).

(** One turn of the [for (const outcome of outcomes)] loop.  The shares
    are the quotient of two computed numbers; [Binary64.shares] is the same
    computation in binary64 and [roundedShares] the one with rounded
    operations. *)
Definition arbitrageLeg (now : Z) (market : MarketRef) (nOutcomes : nat)
    (totalCost totalInvestment netInvestment fees : Q)
    (acc : list Position * SQLiteStore.t) (outcome : ArbOutcome)
    : list Position * SQLiteStore.t :=
  let '(positions, s) := acc in
  let outcomeSize := (netInvestment * ao_price outcome) / totalCost in
  (* Proportional cost including fees *)
  let outcomeCost := (totalInvestment * ao_price outcome) / totalCost in
  let shares := outcomeSize / ao_price outcome in
  let '(position, s) :=
    SQLiteStore.createPosition
      {| SQLiteStore.np_marketId := mr_id market;
         SQLiteStore.np_marketQuestion := mr_question market;
         SQLiteStore.np_category := mr_category market;
         SQLiteStore.np_strategy := s_arbitrage;
         SQLiteStore.np_side := sideOfName (ao_name outcome);
         SQLiteStore.np_outcomeId := ao_tokenId outcome;
         SQLiteStore.np_entryPrice := ao_price outcome;
         SQLiteStore.np_currentPrice := ao_price outcome;
         SQLiteStore.np_size := outcomeSize;
         SQLiteStore.np_cost := outcomeCost;
         SQLiteStore.np_shares := shares;
         SQLiteStore.np_entryTime := now |} s in
  let '(_, s) :=
    SQLiteStore.recordTrade
      {| t_id := ""%string;
         t_positionId := p_id position;
         t_marketId := mr_id market;
         t_marketQuestion := mr_question market;
         t_category := mr_category market;
         t_strategy := s_arbitrage;
         t_side := p_side position;
         t_action := BUY;
         t_price := ao_price outcome;
         t_size := outcomeSize;
         t_shares := shares;
         t_fees := fees / inject_Z (Z.of_nat nOutcomes);
         t_timestamp := now;
         t_pnl := None |} s in
  (positions ++ [position], s).

(** For arbitrage: buy all outcomes. *)
Definition executeArbitrageBuy (now : Z) (market : MarketRef)
    (outcomes : list ArbOutcome) (totalCost guaranteedProfit : Q)
    (s : SQLiteStore.t) (e : t) : list Position * (SQLiteStore.t * t) :=
  let '(can, e) := canTrade s e in
  if negb (allowed can) then ([], (s, e))
  else
    (* Calculate size (how many "sets" of all outcomes to buy) *)
    let '(portfolio, e) := getPortfolio s e in
    let maxSize :=
      Qmin3 (pf_totalValue portfolio * maxPositionPct config)
            (balance e * 0.9)
            (maxPositionUsd config) in
    let sets := Math_floor (maxSize / totalCost) in
    if Qltb sets 1 then ([], (s, e))
    else
      let totalInvestment := sets * totalCost in
      let fees := totalInvestment * SIMULATED_FEE_RATE in
      let netInvestment := totalInvestment - fees in
      (* Deduct from balance *)
      let e := with_balance (balance e - totalInvestment) e in
      (* Create position for each outcome *)
      let '(positions, s) :=
        fold_left (arbitrageLeg now market (length outcomes)
                                totalCost totalInvestment netInvestment fees)
                  outcomes ([], s) in
      let '(portfolio, e) := getPortfolio s e in
      let s := SQLiteStore.savePortfolioSnapshot now portfolio s in
      (positions, (s, e)).
End WithEnv.

Definition updateBalance (newBalance : Q) (e : t) : t := with_balance newBalance e.

Section Lifecycle.
Context {env : Env}.

(** The constructor: restore from the last snapshot, if any.  The
    module-level set [sellingPositions] starts empty. *)
Definition constructor (s : SQLiteStore.t) : t :=
  match SQLiteStore.getLatestSnapshot s with
  | Some (b, pk) =>
      {| balance := b; peakValue := pk;
         startingBalance := startingBalance_cfg config;
         sellingPositions := ∅ |}
  | None =>
      {| balance := startingBalance_cfg config;
         peakValue := startingBalance_cfg config;
         startingBalance := startingBalance_cfg config;
         sellingPositions := ∅ |}
  end.
End Lifecycle.

(** [this.peakValue = this.getPortfolio().totalValue]. *)
Definition resetPeakValue (s : SQLiteStore.t) (e : t) : t :=
  let '(portfolio, e) := getPortfolio s e in
  with_peakValue (pf_totalValue portfolio) e.

End PaperExecutor.

(** ** The paper basket's arithmetic in IEEE binary64 *)

Module Binary64.
#[local] Set Warnings "-inexact-float".

(** [Math.min] of two numbers, neither of them [NaN]. *)
Definition Math_min (a b : float) : float :=
  if PrimFloat.ltb b a then b else a.

(** [Math.floor]: below 2^52 in magnitude, adding and subtracting 2^52
    rounds to the nearest integer, which is then corrected downwards; from
    2^52 on every number is an integer. *)
Definition Math_floor (x : float) : float :=
  let big := 4503599627370496%float in
  if PrimFloat.leb big (PrimFloat.abs x) then x
  else
    let r := if PrimFloat.leb 0%float x
             then ((x + big) - big)%float
             else ((x - big) + big)%float in
    if PrimFloat.ltb x r then (r - 1)%float else r.

Definition SIMULATED_FEE_RATE : float := 0.002%float.

(** [netInvestment] of [executeArbitrageBuy], from the portfolio's total
    value, the cash balance, the two configured limits and the basket's
    total cost. *)
Definition netInvestment (totalValue balance maxPositionPct maxPositionUsd totalCost : float)
    : float :=
  let maxSize :=
    Math_min (Math_min (totalValue * maxPositionPct)%float (balance * 0.9)%float) maxPositionUsd in
  let sets := Math_floor (maxSize / totalCost)%float in
  let totalInvestment := (sets * totalCost)%float in
  let fees := (totalInvestment * SIMULATED_FEE_RATE)%float in
  (totalInvestment - fees)%float.

(** [shares] of one outcome of the basket. *)
Definition shares (netInvestment totalCost price : float) : float :=
  let outcomeSize := ((netInvestment * price) / totalCost)%float in
  (outcomeSize / price)%float.

End Binary64.

(** ** The paper basket's arithmetic with rounded operations *)

(** [shares] of one outcome of the basket with the result of each of the
    three operations rounded by [rnd]; [rnd] the identity gives the exact
    computation of [PaperExecutor.arbitrageLeg]. *)
Definition roundedShares (rnd : Q -> Q) (netInvestment totalCost price : Q) : Q :=
  let outcomeSize := rnd (rnd (netInvestment * price) / totalCost) in
  rnd (outcomeSize / price).

(** A rounding of relative error at most [u], as binary64 is with
    [u = 2^-53] on results in its normal range. *)
Definition roundsWithin (u : Q) (rnd : Q -> Q) : Prop :=
  forall x, Qabs (rnd x - x) <= u * Qabs x.

(** A rounding of relative error at most 1e-9; binary64, with 2^-53, is
    far inside. *)
Definition roundsFinely (rnd : Q -> Q) : Prop :=
  exists u, 0 <= u /\ u <= 0.000000001 /\ roundsWithin u rnd.

(** ** The broker ([clients/clob-client.ts], interface only) *)

Inductive OrderStatus : Set := LIVE | FILLED | CANCELLED | EXPIRED | PARTIAL.

#[global] Instance OrderStatus_eq_dec : EqDecision OrderStatus.
Proof. solve_decision. Defined.

Record ClobOrderResponse : Type := mkOrderResponse {
  or_status : OrderStatus;
  or_filledAmount : Q;
  or_avgFillPrice : Q;
}.

(** [x || y] on numbers: a zero [x] gives [y]. *)
Definition num_or (x y : Q) : Q := if Qeq_bool x 0 then y else x.

(** ** The real broker adapter ([core/real-executor.ts])

    The replies of the broker are arguments: [order] is what
    [await clobClient.placeMarketOrder(...)] settles to and [bal] what
    [await clobClient.getBalance()] settles to.  Each function runs the
    call to completion given those replies. *)

Module RealExecutor.

Definition REAL_FEE_RATE : Q := 0.002.  (* 0.2% Polymarket fee *)

Record t : Type := mkReal {
  initialized : bool;
  realBalance : Q;
  peakValue : Q;
  startingBalance : Q;
}.

Definition with_realBalance (b : Q) (e : t) : t :=
  {| initialized := initialized e; realBalance := b;
     peakValue := peakValue e; startingBalance := startingBalance e |}.

(** Half the paper fractions for real money (more conservative). *)
Definition kellyFractions (c : ConfidenceLevel) : Q :=
  match c with
  | c_low => 0.075
  | c_standard => 0.125
  | c_high => 0.20
  | c_arbitrage => 0.25
  end.

Section WithEnv.
Context {env : Env}.

Definition canTrade (e : t) : CanTrade :=
  if negb (initialized e) then {| allowed := false |}
  (* Additional safety checks for real trading *)
  else if Qltb (realBalance e) (minPositionUsd config * 2) then {| allowed := false |}
  else {| allowed := true |}.

Definition calculatePositionSize (opportunity : Opportunity) (e : t) : Q :=
  (* More conservative sizing for real trading *)
  let edge := opp_edge opportunity in
  if Qleb edge 0 then 0
  else
    let fullKelly := edge / (1 - opp_entryPrice opportunity) in
    let kellySize := fullKelly * kellyFractions (opp_confidence opportunity) in
    (* Stricter position limits for real trading *)
    let maxPct := Qmin kellySize (maxPositionPct config * 0.5) in
    let size := maxPct * realBalance e in
    (* Apply absolute limits (more conservative) *)
    let size := Qmax (minPositionUsd config) (Qmin size (maxPositionUsd config * 0.5)) in
    (* Leave larger buffer for real trading *)
    let size := Qmin size (realBalance e * 0.8) in
    Qmax 0 size.

(** The order counts as unfilled when
    [status !== 'FILLED' && filledAmount === 0]. *)
Definition notFilled (r : ClobOrderResponse) : bool :=
  negb (bool_decide (or_status r = FILLED)) && Qeq_bool (or_filledAmount r) 0.

(** [executeBuy] with nothing interleaved at its [await]s: the ledger and
    the adapter that the guards read are those the position is written to.
    [executeBuy_begin] and [executeBuy_resume] below are its two halves. *)
Definition executeBuy (now : Z) (order : Completion ClobOrderResponse)
    (bal : Completion Q) (opportunity : Opportunity)
    (s : SQLiteStore.t) (e : t) : option Position * (SQLiteStore.t * t) :=
  if negb (initialized e) then (None, (s, e))
  else if negb (allowed (canTrade e)) then (None, (s, e))
  else
    let size := calculatePositionSize opportunity e in
    if Qltb size (minPositionUsd config) then (None, (s, e))
    else
      let market := opp_market opportunity in
      match nth_error (m_outcomes market) (opp_outcomeIndex opportunity) with
      | None => (None, (s, e))
      | Some o =>
          let tokenId := o_tokenId o in
          if bool_decide (tokenId = ""%string) then (None, (s, e))
          else
            (* Calculate shares to buy *)
            let shares := size / opp_entryPrice opportunity in
            (* Place market order on CLOB *)
            match order with
            | Threw => (None, (s, e))
            | Returned orderResult =>
                if notFilled orderResult then (None, (s, e))
                else
                  let filledShares := num_or (or_filledAmount orderResult) shares in
                  let avgPrice :=
                    num_or (or_avgFillPrice orderResult) (opp_entryPrice opportunity) in
                  let actualSize := filledShares * avgPrice in
                  let fees := actualSize * REAL_FEE_RATE in
                  (* cost = total spent, size = net after fees *)
                  let '(position, s) :=
                    SQLiteStore.createPosition
                      {| SQLiteStore.np_marketId := m_id market;
                         SQLiteStore.np_marketQuestion := m_question market;
                         SQLiteStore.np_category := m_category market;
                         SQLiteStore.np_strategy := opp_strategy opportunity;
                         SQLiteStore.np_side := opp_side opportunity;
                         SQLiteStore.np_outcomeId := tokenId;
                         SQLiteStore.np_entryPrice := avgPrice;
                         SQLiteStore.np_currentPrice := avgPrice;
                         SQLiteStore.np_size := actualSize - fees;
                         SQLiteStore.np_cost := actualSize;
                         SQLiteStore.np_shares := filledShares;
                         SQLiteStore.np_entryTime := now |} s in
                  let '(_, s) :=
                    SQLiteStore.recordTrade
                      {| t_id := ""%string;
                         t_positionId := p_id position;
                         t_marketId := m_id market;
                         t_marketQuestion := m_question market;
                         t_category := m_category market;
                         t_strategy := opp_strategy opportunity;
                         t_side := opp_side opportunity;
                         t_action := BUY;
                         t_price := avgPrice;
                         t_size := actualSize - fees;
                         t_shares := filledShares;
                         t_fees := fees;
                         t_timestamp := now;
                         t_pnl := None |} s in
                  (* Update balance; a failure here is caught and yields null *)
                  match bal with
                  | Threw => (None, (s, e))
                  | Returned b => (Some position, (s, with_realBalance b e))
                  end
            end
      end.

(** What [executeBuy] holds while [placeMarketOrder] is awaited. *)
Record PendingBuy : Type := mkPendingBuy {
  pb_tokenId : string;
  pb_shares : Q;
}.

(** [executeBuy] up to its first [await]: the guards and the order placed;
    [None] is one of the early [return null]. *)
Definition executeBuy_begin (opportunity : Opportunity) (e : t) : option PendingBuy :=
  if negb (initialized e) then None
  else if negb (allowed (canTrade e)) then None
  else
    let size := calculatePositionSize opportunity e in
    if Qltb size (minPositionUsd config) then None
    else
      let market := opp_market opportunity in
      match nth_error (m_outcomes market) (opp_outcomeIndex opportunity) with
      | None => None
      | Some o =>
          let tokenId := o_tokenId o in
          if bool_decide (tokenId = EmptyString) then None
          else
            (* Calculate shares to buy *)
            let shares := size / opp_entryPrice opportunity in
            Some {| pb_tokenId := tokenId; pb_shares := shares |}
      end.

(** [executeBuy] from the broker's reply on, on the ledger [s] and the
    adapter [e] as they are when the reply arrives: nothing is checked
    again before the position is created. *)
Definition executeBuy_resume (now : Z) (order : Completion ClobOrderResponse)
    (bal : Completion Q) (opportunity : Opportunity) (pending : PendingBuy)
    (s : SQLiteStore.t) (e : t) : option Position * (SQLiteStore.t * t) :=
  let market := opp_market opportunity in
  let tokenId := pb_tokenId pending in
  let shares := pb_shares pending in
  match order with
  | Threw => (None, (s, e))
  | Returned orderResult =>
      if notFilled orderResult then (None, (s, e))
      else
        let filledShares := num_or (or_filledAmount orderResult) shares in
        let avgPrice :=
          num_or (or_avgFillPrice orderResult) (opp_entryPrice opportunity) in
        let actualSize := filledShares * avgPrice in
        let fees := actualSize * REAL_FEE_RATE in
        (* cost = total spent, size = net after fees *)
        let '(position, s) :=
          SQLiteStore.createPosition
            {| SQLiteStore.np_marketId := m_id market;
               SQLiteStore.np_marketQuestion := m_question market;
               SQLiteStore.np_category := m_category market;
               SQLiteStore.np_strategy := opp_strategy opportunity;
               SQLiteStore.np_side := opp_side opportunity;
               SQLiteStore.np_outcomeId := tokenId;
               SQLiteStore.np_entryPrice := avgPrice;
               SQLiteStore.np_currentPrice := avgPrice;
               SQLiteStore.np_size := actualSize - fees;
               SQLiteStore.np_cost := actualSize;
               SQLiteStore.np_shares := filledShares;
               SQLiteStore.np_entryTime := now |} s in
        let '(_, s) :=
          SQLiteStore.recordTrade
            {| t_id := EmptyString;
               t_positionId := p_id position;
               t_marketId := m_id market;
               t_marketQuestion := m_question market;
               t_category := m_category market;
               t_strategy := opp_strategy opportunity;
               t_side := opp_side opportunity;
               t_action := BUY;
               t_price := avgPrice;
               t_size := actualSize - fees;
               t_shares := filledShares;
               t_fees := fees;
               t_timestamp := now;
               t_pnl := None |} s in
        (* Update balance; a failure here is caught and yields null *)
        match bal with
        | Threw => (None, (s, e))
        | Returned b => (Some position, (s, with_realBalance b e))
        end
  end.

Definition executeSell (now : Z) (order : Completion ClobOrderResponse)
    (bal : Completion Q) (position : Position) (currentPrice : Q)
    (s : SQLiteStore.t) (e : t) : option Trade * (SQLiteStore.t * t) :=
  if negb (initialized e) then (None, (s, e))
  else
    (* Place market sell order on CLOB *)
    match order with
    | Threw => (None, (s, e))
    | Returned orderResult =>
        if notFilled orderResult then (None, (s, e))
        else
          let filledShares := num_or (or_filledAmount orderResult) (p_shares position) in
          let avgPrice := num_or (or_avgFillPrice orderResult) currentPrice in
          let grossProceeds := filledShares * avgPrice in
          let fees := grossProceeds * REAL_FEE_RATE in
          let netProceeds := grossProceeds - fees in
          let pnl := netProceeds - p_size position in
          (* Close local position *)
          let '(_, s) := SQLiteStore.closePosition now (p_id position) avgPrice s in
          (* Record trade *)
          let '(trade, s) :=
            SQLiteStore.recordTrade
              {| t_id := ""%string;
                 t_positionId := p_id position;
                 t_marketId := p_marketId position;
                 t_marketQuestion := p_marketQuestion position;
                 t_category := p_category position;
                 t_strategy := p_strategy position;
                 t_side := p_side position;
                 t_action := SELL;
                 t_price := avgPrice;
                 t_size := netProceeds;
                 t_shares := filledShares;
                 t_fees := fees;
                 t_timestamp := now;
                 t_pnl := Some pnl |} s in
          (* Update balance *)
          match bal with
          | Threw => (None, (s, e))
          | Returned b => (Some trade, (s, with_realBalance b e))
          end
    end.

(** The basket loop; [orders k] is the broker's reply for leg [k].  A
    reply that throws leaves the loop through [catch], which returns
    the positions created so far ([false] in the result). *)
Fixpoint arbitrageLegs (now : Z) (market : MarketRef) (totalCost totalInvestment : Q)
    (orders : nat -> Completion ClobOrderResponse) (k : nat)
    (outcomes : list ArbOutcome) (positions : list Position) (s : SQLiteStore.t)
    : list Position * SQLiteStore.t * bool :=
  match outcomes with
  | [] => (positions, s, true)
  | outcome :: rest =>
      let outcomeSize := (totalInvestment * ao_price outcome) / totalCost in
      let shares := outcomeSize / ao_price outcome in
      match orders k with
      | Threw => (positions, s, false)
      | Returned orderResult =>
          if Qgtb (or_filledAmount orderResult) 0 then
            let filledShares := or_filledAmount orderResult in
            let avgPrice := num_or (or_avgFillPrice orderResult) (ao_price outcome) in
            let actualSize := filledShares * avgPrice in
            let fees := actualSize * REAL_FEE_RATE in
            let '(position, s) :=
              SQLiteStore.createPosition
                {| SQLiteStore.np_marketId := mr_id market;
                   SQLiteStore.np_marketQuestion := mr_question market;
                   SQLiteStore.np_category := mr_category market;
                   SQLiteStore.np_strategy := s_arbitrage;
                   SQLiteStore.np_side := PaperExecutor.sideOfName (ao_name outcome);
                   SQLiteStore.np_outcomeId := ao_tokenId outcome;
                   SQLiteStore.np_entryPrice := avgPrice;
                   SQLiteStore.np_currentPrice := avgPrice;
                   SQLiteStore.np_size := actualSize - fees;
                   SQLiteStore.np_cost := actualSize;
                   SQLiteStore.np_shares := filledShares;
                   SQLiteStore.np_entryTime := now |} s in
            let '(_, s) :=
              SQLiteStore.recordTrade
                {| t_id := ""%string;
                   t_positionId := p_id position;
                   t_marketId := mr_id market;
                   t_marketQuestion := mr_question market;
                   t_category := mr_category market;
                   t_strategy := s_arbitrage;
                   t_side := p_side position;
                   t_action := BUY;
                   t_price := avgPrice;
                   t_size := actualSize - fees;
                   t_shares := filledShares;
                   t_fees := fees;
                   t_timestamp := now;
                   t_pnl := None |} s in
            arbitrageLegs now market totalCost totalInvestment orders (S k) rest
                          (positions ++ [position]) s
          else
            arbitrageLegs now market totalCost totalInvestment orders (S k) rest
                          positions s
      end
  end.

(** Arbitrage on real markets (buy all outcomes). *)
Definition executeArbitrageBuy (now : Z) (orders : nat -> Completion ClobOrderResponse)
    (bal : Completion Q) (market : MarketRef) (outcomes : list ArbOutcome)
    (totalCost guaranteedProfit : Q)
    (s : SQLiteStore.t) (e : t) : list Position * (SQLiteStore.t * t) :=
  if negb (initialized e) then ([], (s, e))
  else if negb (allowed (canTrade e)) then ([], (s, e))
  else
    (* Very conservative for real arbitrage *)
    let maxSize := Qmin (realBalance e * 0.3) (maxPositionUsd config * 0.25) in
    let sets := Math_floor (maxSize / totalCost) in
    if Qltb sets 1 then ([], (s, e))
    else
      let totalInvestment := sets * totalCost in
      let '(positions, s, completed) :=
        arbitrageLegs now market totalCost totalInvestment orders 0 outcomes [] s in
      if completed then
        match bal with
        | Threw => (positions, (s, e))
        | Returned b => (positions, (s, with_realBalance b e))
        end
      else (positions, (s, e)).
End WithEnv.

End RealExecutor.

(** ** The unified execution gateway ([core/executor.ts])

    The source tree holds three revisions of the gateway.  The one embedded
    here is the most guarded: its [executeBuy] looks for an open position
    on the market and side, then tests the cooldown.  Of the two others,
    one has the cooldown without the open-position check and the other
    calls the executor with no guard at all. *)

Module UnifiedExecutor.

Inductive Mode : Set := paper | real.

(** 5 second cooldown between buys for same market+side. *)
Definition BUY_COOLDOWN_MS : Z := 5000.

(** The mode flag and the two module-level deduplication tables:
    [pendingBuys] (marketId+side -> timestamp) and [pendingSells]
    (position ids). *)
Record t : Type := mkGateway {
  mode : Mode;
  pendingBuys : gmap string Z;
  pendingSells : gset string;
}.

Definition with_pendingBuys (m : gmap string Z) (g : t) : t :=
  {| mode := mode g; pendingBuys := m; pendingSells := pendingSells g |}.

Definition with_pendingSells (x : gset string) (g : t) : t :=
  {| mode := mode g; pendingBuys := pendingBuys g; pendingSells := x |}.

Definition sideName (sd : Side) : string :=
  match sd with YES => "YES" | NO => "NO" end.

(** [`${opportunity.market.id}|${opportunity.side}`]. *)
Definition keyOf (marketId : string) (sd : Side) : string :=
  marketId +:+ "|" +:+ sideName sd.

Definition buyKey (opportunity : Opportunity) : string :=
  keyOf (m_id (opp_market opportunity)) (opp_side opportunity).

(** How the synchronous head of [executeBuy] ends: with one of the two
    early [return null], or by going on to the executor. *)
Inductive BuyGuard : Type :=
| SkipExisting (existingPosition : Position)
| SkipCooldown
| Dispatch.

(** [lastBuy && now - lastBuy < BUY_COOLDOWN_MS]. *)
Definition inCooldown (now : Z) (lastBuy : option Z) : bool :=
  match lastBuy with
  | Some last => negb (last =? 0)%Z && (now - last <? BUY_COOLDOWN_MS)%Z
  | None => false
  end.

(** [executeBuy] up to its [await]: the open-position check, the cooldown
    check, and the pending mark. *)
Definition executeBuy_enter (now : Z) (opportunity : Opportunity)
    (s : SQLiteStore.t) (g : t) : BuyGuard * t :=
  (* Check if we already have an open position for this market+side *)
  let openPositions := SQLiteStore.getOpenPositions s in
  match List.find (fun p => bool_decide (p_marketId p = m_id (opp_market opportunity))
                            && bool_decide (p_side p = opp_side opportunity))
                  openPositions with
  | Some existingPosition => (SkipExisting existingPosition, g)
  | None =>
      (* Deduplication: prevent buying same market+side within cooldown *)
      let lastBuy := pendingBuys g !! buyKey opportunity in
      if inCooldown now lastBuy then (SkipCooldown, g)
      else
        (* Mark as pending BEFORE execution *)
        (Dispatch, with_pendingBuys (<[ buyKey opportunity := now ]> (pendingBuys g)) g)
  end.

(** [executeBuy] after its [await]: the result is passed on; on error the
    key is removed from pending to allow retry, and the error rethrown. *)
Definition executeBuy_settle {A : Type} (opportunity : Opportunity)
    (r : Completion A) (g : t) : Completion A * t :=
  match r with
  | Returned a => (Returned a, g)
  | Threw => (Threw, with_pendingBuys (delete (buyKey opportunity) (pendingBuys g)) g)
  end.

(** [executeSell] up to its [await]: [false] is the early [return null]. *)
Definition executeSell_enter (position : Position) (g : t) : bool * t :=
  if bool_decide (p_id position ∈ pendingSells g) then (false, g)
  else (true, with_pendingSells ({[ p_id position ]} ∪ pendingSells g) g).

(** The [finally] of [executeSell]: always remove from pending. *)
Definition executeSell_settle (position : Position) (g : t) : t :=
  with_pendingSells (pendingSells g ∖ {[ p_id position ]}) g.

(** *** The gateway as a transition system

    A step is one uninterrupted piece of a call.  [BuyEnter] carries the
    ledger the call reads; [BuySettle] and [SellSettle] are the resumption
    of a dispatched call once the executor has settled. *)
Inductive Event : Type :=
| BuyEnter (now : Z) (opportunity : Opportunity) (s : SQLiteStore.t)
| BuySettle (opportunity : Opportunity) (threw : bool)
| SellEnter (position : Position)
| SellSettle (position : Position).

Definition step (g : t) (ev : Event) : t :=
  match ev with
  | BuyEnter now opportunity s => snd (executeBuy_enter now opportunity s g)
  | BuySettle opportunity threw =>
      snd (executeBuy_settle opportunity
             (if threw then Threw else Returned tt) g)
  | SellEnter position => snd (executeSell_enter position g)
  | SellSettle position => executeSell_settle position g
  end.

Definition run (g : t) (evs : list Event) : t := fold_left step evs g.

(** *** The whole engine state, and calls run to completion *)

Record World : Type := mkWorld {
  store : SQLiteStore.t;
  paperExec : PaperExecutor.t;
  realExec : RealExecutor.t;
  gateway : t;
}.

(** The broker's replies during one call (real mode only). *)
Record Broker : Type := mkBroker {
  orders : nat -> Completion ClobOrderResponse;
  bal : Completion Q;
}.

Definition with_gateway (g : t) (w : World) : World :=
  {| store := store w; paperExec := paperExec w; realExec := realExec w; gateway := g |}.

Section WithEnv.
Context {env : Env}.

Definition canTrade (w : World) : CanTrade * World :=
  match mode (gateway w) with
  | real => (RealExecutor.canTrade (realExec w), w)
  | paper =>
      let '(r, e) := PaperExecutor.canTrade (store w) (paperExec w) in
      (r, {| store := store w; paperExec := e; realExec := realExec w;
             gateway := gateway w |})
  end.

Definition calculatePositionSize (opportunity : Opportunity) (w : World) : Q * World :=
  match mode (gateway w) with
  | real => (RealExecutor.calculatePositionSize opportunity (realExec w), w)
  | paper =>
      let '(r, e) := PaperExecutor.calculatePositionSize opportunity (store w) (paperExec w) in
      (r, {| store := store w; paperExec := e; realExec := realExec w;
             gateway := gateway w |})
  end.

(** The executor call awaited by [executeBuy]. *)
Definition buy_inner (now : Z) (io : Broker) (opportunity : Opportunity) (w : World)
    : option Position * World :=
  match mode (gateway w) with
  | real =>
      let '(r, (s, e)) :=
        RealExecutor.executeBuy now (orders io 0) (bal io) opportunity
                                (store w) (realExec w) in
      (r, {| store := s; paperExec := paperExec w; realExec := e; gateway := gateway w |})
  | paper =>
      let '(r, (s, e)) :=
        PaperExecutor.executeBuy now opportunity (store w) (paperExec w) in
      (r, {| store := s; paperExec := e; realExec := realExec w; gateway := gateway w |})
  end.

(** A real-mode [executeBuy] of the gateway up to the broker call: the
    gateway's guards and mark, then the adapter's own guards. *)
Definition realBuy_enter (now : Z) (opportunity : Opportunity) (w : World)
    : option RealExecutor.PendingBuy * World :=
  match executeBuy_enter now opportunity (store w) (gateway w) with
  | (Dispatch, g) =>
      (RealExecutor.executeBuy_begin opportunity (realExec w), with_gateway g w)
  | (_, g) => (None, with_gateway g w)
  end.

(** The same call from the broker's reply on, in the world as it is then. *)
Definition realBuy_resume (now : Z) (io : Broker) (opportunity : Opportunity)
    (pending : RealExecutor.PendingBuy) (w : World) : option Position * World :=
  let '(r, (s, e)) :=
    RealExecutor.executeBuy_resume now (orders io 0) (bal io) opportunity pending
                                   (store w) (realExec w) in
  (r, {| store := s; paperExec := paperExec w; realExec := e; gateway := gateway w |}).

(** [executeBuy] run to completion, with no other call between its guards
    and the executor's insert.  A paper buy always runs so (the simulator
    has no [await] in its body); a real buy does when nothing else is
    scheduled while the broker is awaited ([realBuy_enter] and
    [realBuy_resume] are its two halves). *)
Definition executeBuy (now : Z) (io : Broker) (opportunity : Opportunity) (w : World)
    : option Position * World :=
  match executeBuy_enter now opportunity (store w) (gateway w) with
  | (Dispatch, g) => buy_inner now io opportunity (with_gateway g w)
  | (_, g) => (None, with_gateway g w)
  end.

(** The executor call awaited by [executeSell]. *)
Definition sell_inner (now : Z) (io : Broker) (position : Position) (currentPrice : Q)
    (w : World) : option Trade * World :=
  match mode (gateway w) with
  | real =>
      let '(r, (s, e)) :=
        RealExecutor.executeSell now (orders io 0) (bal io) position currentPrice
                                 (store w) (realExec w) in
      (r, {| store := s; paperExec := paperExec w; realExec := e; gateway := gateway w |})
  | paper =>
      let '(r, (s, e)) :=
        PaperExecutor.executeSell now position currentPrice (store w) (paperExec w) in
      (r, {| store := s; paperExec := e; realExec := realExec w; gateway := gateway w |})
  end.

(** [executeSell] run to completion. *)
Definition executeSell (now : Z) (io : Broker) (position : Position) (currentPrice : Q)
    (w : World) : option Trade * World :=
  match executeSell_enter position (gateway w) with
  | (false, g) => (None, with_gateway g w)
  | (true, g) =>
      let '(r, w) := sell_inner now io position currentPrice (with_gateway g w) in
      (r, with_gateway (executeSell_settle position (gateway w)) w)
  end.

(** [executeArbitrageBuy] only routes by mode. *)
Definition executeArbitrageBuy (now : Z) (io : Broker) (market : MarketRef)
    (outcomes : list ArbOutcome) (totalCost guaranteedProfit : Q) (w : World)
    : list Position * World :=
  match mode (gateway w) with
  | real =>
      let '(r, (s, e)) :=
        RealExecutor.executeArbitrageBuy now (orders io) (bal io) market outcomes
                                         totalCost guaranteedProfit
                                         (store w) (realExec w) in
      (r, {| store := s; paperExec := paperExec w; realExec := e; gateway := gateway w |})
  | paper =>
      let '(r, (s, e)) :=
        PaperExecutor.executeArbitrageBuy now market outcomes totalCost guaranteedProfit
                                          (store w) (paperExec w) in
      (r, {| store := s; paperExec := e; realExec := realExec w; gateway := gateway w |})
  end.
End WithEnv.

End UnifiedExecutor.

(** ** Whale aggregation ([strategies/whale-tracking.ts], the recording side)

    Every [recordTrade] ends in [cleanup], which rebuilds the activity table
    from the retained trades; the retained trades are therefore the state. *)

Module WhaleTracker.

Record WhaleTrade : Type := mkWhaleTrade {
  wt_assetId : string;
  wt_price : Q;
  wt_size : Q;
  wt_side : Action;
  wt_timestamp : Z;
}.

Definition WHALE_TRADE_MIN_SIZE : Q := 1000.            (* $1000+ is a whale trade *)
Definition LOOKBACK_WINDOW_MS : Z := 30 * 60 * 1000.    (* 30 minutes *)

Record t : Type := mkTracker { trades : list WhaleTrade }.

Definition cleanup (now : Z) (w : t) : t :=
  let cutoff := (now - LOOKBACK_WINDOW_MS)%Z in
  {| trades := List.filter (fun tr => (cutoff <=? wt_timestamp tr)%Z) (trades w) |}.

Definition recordTrade (now : Z) (trade : WhaleTrade) (w : t) : t :=
  (* Only track whale-sized trades *)
  if Qltb (wt_size trade) WHALE_TRADE_MIN_SIZE then w
  else cleanup now {| trades := trades w ++ [trade] |}.

End WhaleTracker.

(** ** Whale aggregation, with the activity table and the signals
    ([strategies/whale-tracking.ts]) *)

Module WhaleTracking.
Import WhaleTracker.

Record WhaleActivity : Type := mkActivity {
  wa_assetId : string;
  totalBuyVolume : Q;
  totalSellVolume : Q;
  netVolume : Q;
  tradeCount : nat;
  avgBuyPrice : Q;
  avgSellPrice : Q;
  lastUpdate : Z;
}.

Definition WHALE_SIGNAL_MIN_NET_VOLUME : Q := 5000.  (* $5000 net buying/selling *)
Definition WHALE_SIGNAL_MIN_TRADES : nat := 3.       (* At least 3 whale trades *)

(** The fields of the class. *)
Record t : Type := mkTracking {
  trades : list WhaleTrade;
  activity : gmap string WhaleActivity;
}.

(** The entry created for an asset seen for the first time. *)
Definition newActivity (trade : WhaleTrade) : WhaleActivity :=
  {| wa_assetId := wt_assetId trade;
     totalBuyVolume := 0;
     totalSellVolume := 0;
     netVolume := 0;
     tradeCount := 0;
     avgBuyPrice := 0;
     avgSellPrice := 0;
     lastUpdate := wt_timestamp trade |}.

(** The update of an entry in [recordTrade]. *)
Definition aggregate (trade : WhaleTrade) (a : WhaleActivity) : WhaleActivity :=
  let buy :=
    match wt_side trade with BUY => totalBuyVolume a + wt_size trade | SELL => totalBuyVolume a end in
  let sell :=
    match wt_side trade with BUY => totalSellVolume a | SELL => totalSellVolume a + wt_size trade end in
  {| wa_assetId := wa_assetId a;
     totalBuyVolume := buy;
     totalSellVolume := sell;
     netVolume := buy - sell;
     tradeCount := S (tradeCount a);
     avgBuyPrice :=
       match wt_side trade with
       | BUY => (avgBuyPrice a * totalBuyVolume a + wt_price trade * wt_size trade) / buy
       | SELL => avgBuyPrice a
       end;
     avgSellPrice :=
       match wt_side trade with
       | BUY => avgSellPrice a
       | SELL => (avgSellPrice a * totalSellVolume a + wt_price trade * wt_size trade) / sell
       end;
     lastUpdate := wt_timestamp trade |}.

(** The update of an entry in [cleanup]: the averages are recomputed only
    over a positive volume, and [lastUpdate] never goes back.  The running
    averages are quotients of computed numbers. *)
Definition reaggregate (trade : WhaleTrade) (a : WhaleActivity) : WhaleActivity :=
  let buy :=
    match wt_side trade with BUY => totalBuyVolume a + wt_size trade | SELL => totalBuyVolume a end in
  let sell :=
    match wt_side trade with BUY => totalSellVolume a | SELL => totalSellVolume a + wt_size trade end in
  {| wa_assetId := wa_assetId a;
     totalBuyVolume := buy;
     totalSellVolume := sell;
     netVolume := buy - sell;
     tradeCount := S (tradeCount a);
     avgBuyPrice :=
       match wt_side trade with
       | BUY => if Qgtb buy 0
                then (avgBuyPrice a * totalBuyVolume a + wt_price trade * wt_size trade) / buy
                else avgBuyPrice a
       | SELL => avgBuyPrice a
       end;
     avgSellPrice :=
       match wt_side trade with
       | BUY => avgSellPrice a
       | SELL => if Qgtb sell 0
                 then (avgSellPrice a * totalSellVolume a + wt_price trade * wt_size trade)
                      / sell
                 else avgSellPrice a
       end;
     lastUpdate := Z.max (lastUpdate a) (wt_timestamp trade) |}.

(** Recalculate activity from the remaining trades. *)
Definition recalculate (remaining : list WhaleTrade) : gmap string WhaleActivity :=
  fold_left (fun table trade =>
               <[ wt_assetId trade :=
                    reaggregate trade
                      (default (newActivity trade) (table !! wt_assetId trade)) ]> table)
            remaining ∅.

Definition cleanup (now : Z) (w : t) : t :=
  let cutoff := (now - LOOKBACK_WINDOW_MS)%Z in
  (* Remove old trades *)
  let kept := List.filter (fun tr => (cutoff <=? wt_timestamp tr)%Z) (trades w) in
  {| trades := kept; activity := recalculate kept |}.

Definition recordTrade (now : Z) (trade : WhaleTrade) (w : t) : t :=
  (* Only track whale-sized trades *)
  if Qltb (wt_size trade) WHALE_TRADE_MIN_SIZE then w
  else
    let w :=
      {| trades := trades w ++ [trade];
         activity :=
           <[ wt_assetId trade :=
                aggregate trade
                  (default (newActivity trade) (activity w !! wt_assetId trade)) ]>
             (activity w) |} in
    (* Clean up old data *)
    cleanup now w.

(** The result of [analyzeWhaleActivity]; the reason text is not modelled. *)
Record Signal : Type := mkSignal {
  sg_estimatedProb : Q;
  sg_edge : Q;
  sg_confidence : ConfidenceLevel;
}.

(** The estimated probability and the edge are computed numbers, and the
    edge threshold is tested on one. *)
Definition analyzeWhaleActivity (a : WhaleActivity) (currentPrice : Q) : option Signal :=
  (* Need minimum activity *)
  if Nat.ltb (tradeCount a) WHALE_SIGNAL_MIN_TRADES then None
  else
    let absNetVolume := Qabs (netVolume a) in
    if Qltb absNetVolume WHALE_SIGNAL_MIN_NET_VOLUME then None
    else
      (* Determine signal direction *)
      let isBullish := Qgtb (netVolume a) 0 in
      let estimatedProb :=
        if isBullish
        then (* Net buying - whales think price should be higher *)
          let buyPremium := 0.05 + Qmin 0.15 (absNetVolume / 50000) in
          Qmin 0.95 (currentPrice + buyPremium)
        else (* Net selling - whales think price should be lower *)
          let sellDiscount := 0.05 + Qmin 0.15 (absNetVolume / 50000) in
          Qmax 0.05 (currentPrice - sellDiscount) in
      let edge := estimatedProb - currentPrice in
      (* Only signal if there's meaningful edge *)
      if Qltb (Qabs edge) 0.03 then None
      else
        (* Confidence based on volume and trade count *)
        let confidence :=
          if Qgeb absNetVolume 20000 && Nat.leb 5 (tradeCount a) then c_high
          else if Qgeb absNetVolume 10000 || Nat.leb 4 (tradeCount a) then c_standard
          else c_low in
        (* We want to follow whale BUYING *)
        if negb isBullish then None
        else Some {| sg_estimatedProb := estimatedProb;
                     sg_edge := edge;
                     sg_confidence := confidence |}.

(** The edge of a bullish signal with rounded operations; the identity for
    [rnd] gives the edge that [analyzeWhaleActivity] stores. *)
Definition bullishEdgeRounded (rnd : Q -> Q) (absNetVolume currentPrice : Q) : Q :=
  let buyPremium := rnd (0.05 + Qmin 0.15 (rnd (absNetVolume / 50000))) in
  let estimatedProb := Qmin 0.95 (rnd (currentPrice + buyPremium)) in
  rnd (estimatedProb - currentPrice).

(** [b.edge - a.edge] orders by edge, highest first (a stable sort). *)
Fixpoint insert_by_edge (x : Opportunity) (l : list Opportunity) : list Opportunity :=
  match l with
  | [] => [x]
  | y :: ys =>
      if Qgtb (opp_edge y) (opp_edge x)
      then y :: insert_by_edge x ys
      else x :: y :: ys
  end.

Definition sort_by_edge (l : list Opportunity) : list Opportunity :=
  fold_right insert_by_edge [] l.

(** The opportunities of one market, in the order of its outcomes. *)
Definition marketSignals (w : t) (market : Market) : list Opportunity :=
  omap (fun io : nat * Outcome =>
          let '(i, outcome) := io in
          if bool_decide (o_tokenId outcome = ""%string) then None
          else
            match activity w !! o_tokenId outcome with
            | None => None
            | Some a =>
                match analyzeWhaleActivity a (o_price outcome) with
                | None => None
                | Some signal =>
                    Some {| opp_market := market;
                            opp_strategy := s_whale;
                            opp_side := if includes "yes" (toLowerCase (o_name outcome))
                                        then YES else NO;
                            opp_outcomeIndex := i;
                            opp_entryPrice := o_price outcome;
                            opp_estimatedProb := sg_estimatedProb signal;
                            opp_edge := sg_edge signal;
                            opp_confidence := sg_confidence signal |}
                end
            end)
       (imap (fun i o => (i, o)) (m_outcomes market)).

Definition getSignals (w : t) (markets : list Market) : list Opportunity :=
  sort_by_edge (concat (List.map (marketSignals w) markets)).

Definition getActivity (assetId : string) (w : t) : option WhaleActivity :=
  activity w !! assetId.

(** [xs.slice(start)] for an integer [start]: a negative [start] counts
    from the end. *)
Definition slice_from {A : Type} (start : Z) (xs : list A) : list A :=
  let len := Z.of_nat (length xs) in
  if (start <? 0)%Z then skipn (Z.to_nat (Z.max (len + start) 0)) xs
  else skipn (Z.to_nat (Z.min start len)) xs.

(** [this.trades.slice(-limit)]. *)
Definition getRecentTrades (limit : Z) (w : t) : list WhaleTrade :=
  slice_from (- limit) (trades w).

Record Stats : Type := mkStats {
  st_totalTrades : nat;
  st_totalVolume : Q;
  st_uniqueAssets : nat;
}.

Definition getStats (w : t) : Stats :=
  {| st_totalTrades := length (trades w);
     st_totalVolume := sumBy wt_size (trades w);
     st_uniqueAssets := size (activity w) |}.

End WhaleTracking.

(** ** The real-time event reactor ([core/event-trader.ts]) *)

Module EventTrader.

Definition PRICE_DROP_THRESHOLD : Q := 0.05.
Definition PRICE_SPIKE_THRESHOLD : Q := 0.05.
Definition WHALE_INSTANT_THRESHOLD : Q := 5000.
Definition ARB_SPREAD_THRESHOLD : Q := 0.98.
Definition PRICE_TRADE_COOLDOWN : Z := 60000.
Definition WHALE_TRADE_COOLDOWN : Z := 30000.

Record PricePoint : Type := mkPoint { pt_price : Q; pt_timestamp : Z }.

Record PriceHistory : Type := mkHistory {
  ph_assetId : string;
  ph_prices : list PricePoint;
  ph_lastTradeTime : Z;
}.

Record OutcomePrice : Type := mkOutcomePrice {
  op_assetId : string;
  op_price : Q;
  op_name : string;
}.

Record MarketPriceMap : Type := mkPriceMap {
  mp_marketId : string;
  mp_outcomes : list OutcomePrice;
  mp_lastArbCheck : Z;
}.

Record Stats : Type := mkStats {
  priceDropTrades : nat;
  whaleFollowTrades : nat;
  arbTrades : nat;
  instantExits : nat;
}.

Record t : Type := mkTrader {
  priceHistory : gmap string PriceHistory;
  marketPrices : gmap string MarketPriceMap;
  assetToMarket : gmap string (Market * nat);
  lastWhaleFollow : gmap string Z;
  enabled : bool;
  stats : Stats;
}.

Record PriceUpdate : Type := mkPriceUpdate {
  pu_assetId : string;
  pu_price : Q;
  pu_timestamp : Z;
}.

Record TradeUpdate : Type := mkTradeUpdate {
  tu_assetId : string;
  tu_price : Q;
  tu_size : Q;
  tu_side : Action;
  tu_timestamp : Z;
}.

(** The reactor together with the singletons it calls into. *)
Record System : Type := mkSystem {
  trader : t;
  whales : WhaleTracker.t;
  engine : UnifiedExecutor.World;
}.

Definition with_priceHistory (h : gmap string PriceHistory) (r : t) : t :=
  {| priceHistory := h; marketPrices := marketPrices r;
     assetToMarket := assetToMarket r; lastWhaleFollow := lastWhaleFollow r;
     enabled := enabled r; stats := stats r |}.

Definition with_marketPrices (m : gmap string MarketPriceMap) (r : t) : t :=
  {| priceHistory := priceHistory r; marketPrices := m;
     assetToMarket := assetToMarket r; lastWhaleFollow := lastWhaleFollow r;
     enabled := enabled r; stats := stats r |}.

Definition with_lastWhaleFollow (m : gmap string Z) (r : t) : t :=
  {| priceHistory := priceHistory r; marketPrices := marketPrices r;
     assetToMarket := assetToMarket r; lastWhaleFollow := m;
     enabled := enabled r; stats := stats r |}.

Definition with_enabled (b : bool) (r : t) : t :=
  {| priceHistory := priceHistory r; marketPrices := marketPrices r;
     assetToMarket := assetToMarket r; lastWhaleFollow := lastWhaleFollow r;
     enabled := b; stats := stats r |}.

Definition with_stats (st : Stats) (r : t) : t :=
  {| priceHistory := priceHistory r; marketPrices := marketPrices r;
     assetToMarket := assetToMarket r; lastWhaleFollow := lastWhaleFollow r;
     enabled := enabled r; stats := st |}.

Definition enable (r : t) : t := with_enabled true r.
Definition disable (r : t) : t := with_enabled false r.
Definition isEnabled (r : t) : bool := enabled r.

Definition clearHistory (r : t) : t :=
  with_lastWhaleFollow ∅ (with_priceHistory ∅ r).

(** [xs.slice(-n)]: the last [n] elements. *)
Definition lastN {A : Type} (n : nat) (xs : list A) : list A :=
  skipn (length xs - n) xs.

(** Register markets for tracking. *)
Definition registerMarket (r : t) (market : Market) : t :=
  let tracked :=
    List.filter (fun io => negb (bool_decide (o_tokenId (snd io) = ""%string)))
                (imap (fun i o => (i, o)) (m_outcomes market)) in
  let a2m :=
    fold_left (fun m io => <[ o_tokenId (snd io) := (market, fst io) ]> m)
              tracked (assetToMarket r) in
  let priceMap :=
    {| mp_marketId := m_id market;
       mp_outcomes :=
         List.map (fun io => {| op_assetId := o_tokenId (snd io);
                                op_price := o_price (snd io);
                                op_name := o_name (snd io) |}) tracked;
       mp_lastArbCheck := 0 |} in
  {| priceHistory := priceHistory r;
     marketPrices := <[ m_id market := priceMap ]> (marketPrices r);
     assetToMarket := a2m;
     lastWhaleFollow := lastWhaleFollow r;
     enabled := enabled r;
     stats := stats r |}.

Definition registerMarkets (markets : list Market) (r : t) : t :=
  fold_left registerMarket markets
    {| priceHistory := priceHistory r;
       marketPrices := ∅;
       assetToMarket := ∅;
       lastWhaleFollow := lastWhaleFollow r;
       enabled := enabled r;
       stats := stats r |}.

(** [outcomePrice.price = price] on the first tracked outcome of the asset. *)
Fixpoint setOutcomePrice (assetId : string) (price : Q) (os : list OutcomePrice)
    : list OutcomePrice :=
  match os with
  | [] => []
  | o :: rest =>
      if bool_decide (op_assetId o = assetId)
      then {| op_assetId := op_assetId o; op_price := price; op_name := op_name o |} :: rest
      else o :: setOutcomePrice assetId price rest
  end.

(** The bookkeeping of [handlePriceUpdate]: append to the rolling history
    (keeping the last 20 points) and refresh the market price map.  Also
    returns the previous last price, if any. *)
Definition recordPrice (update : PriceUpdate) (r : t) : option Q * t :=
  let assetId := pu_assetId update in
  let history :=
    match priceHistory r !! assetId with
    | Some h => h
    | None => {| ph_assetId := assetId; ph_prices := []; ph_lastTradeTime := 0 |}
    end in
  let lastPrice := pt_price <$> last (ph_prices history) in
  let prices :=
    ph_prices history ++ [ {| pt_price := pu_price update;
                              pt_timestamp := pu_timestamp update |} ] in
  (* Keep last 20 prices *)
  let prices := if Nat.ltb 20 (length prices) then lastN 20 prices else prices in
  let history :=
    {| ph_assetId := ph_assetId history; ph_prices := prices;
       ph_lastTradeTime := ph_lastTradeTime history |} in
  let r := with_priceHistory (<[ assetId := history ]> (priceHistory r)) r in
  (* Update market price map *)
  let r :=
    match assetToMarket r !! assetId with
    | Some (market, _) =>
        match marketPrices r !! m_id market with
        | Some priceMap =>
            with_marketPrices
              (<[ m_id market :=
                    {| mp_marketId := mp_marketId priceMap;
                       mp_outcomes :=
                         setOutcomePrice assetId (pu_price update) (mp_outcomes priceMap);
                       mp_lastArbCheck := mp_lastArbCheck priceMap |} ]>
                 (marketPrices r)) r
        | None => r
        end
    | None => r
    end in
  (lastPrice, r).

(** The arguments of a call to [executor.executeArbitrageBuy]. *)
Record ArbCall : Type := mkArbCall {
  ac_market : MarketRef;
  ac_outcomes : list ArbOutcome;
  ac_totalCost : Q;
  ac_guaranteedProfit : Q;
}.

(** [checkArbSpread] up to its [await]: stamps the check time and decides
    whether, and with what arguments, the arbitrage buy is issued. *)
Definition arbSpreadDecision (now : Z) (market : Market) (r : t) : option ArbCall * t :=
  match marketPrices r !! m_id market with
  | None => (None, r)
  | Some priceMap =>
      (* Cooldown per market *)
      if (now - mp_lastArbCheck priceMap <? 5000)%Z then (None, r)
      else
        let priceMap :=
          {| mp_marketId := mp_marketId priceMap;
             mp_outcomes := mp_outcomes priceMap;
             mp_lastArbCheck := now |} in
        let r := with_marketPrices (<[ m_id market := priceMap ]> (marketPrices r)) r in
        (* Only binary markets for now *)
        if negb (Nat.eqb (length (mp_outcomes priceMap)) 2) then (None, r)
        else
          let totalPrice := sumBy op_price (mp_outcomes priceMap) in
          (* Check for arb opportunity *)
          if Qltb totalPrice ARB_SPREAD_THRESHOLD && Qgtb totalPrice 0.8 then
            let profit := 1 - totalPrice in
            let profitPercent := profit / totalPrice in
            (* Need meaningful profit (at least 1%) *)
            if Qltb profitPercent 0.01 then (None, r)
            else
              (* Verify both outcomes have valid prices *)
              let validPrices :=
                forallb (fun o => Qgtb (op_price o) 0.02 && Qltb (op_price o) 0.98)
                        (mp_outcomes priceMap) in
              if negb validPrices then (None, r)
              else
                (Some {| ac_market := {| mr_id := m_id market;
                                         mr_question := m_question market;
                                         mr_category := m_category market |};
                         ac_outcomes :=
                           List.map (fun o => {| ao_name := op_name o;
                                                 ao_price := op_price o;
                                                 ao_tokenId := op_assetId o |})
                                    (mp_outcomes priceMap);
                         ac_totalCost := totalPrice;
                         ac_guaranteedProfit := profit |}, r)
          else (None, r)
  end.

Definition sideOfOutcome (name : string) : Side :=
  if includes "yes" (toLowerCase name) then YES else NO.

Definition bump_priceDrop (st : Stats) : Stats :=
  {| priceDropTrades := S (priceDropTrades st); whaleFollowTrades := whaleFollowTrades st;
     arbTrades := arbTrades st; instantExits := instantExits st |}.
Definition bump_whaleFollow (st : Stats) : Stats :=
  {| priceDropTrades := priceDropTrades st; whaleFollowTrades := S (whaleFollowTrades st);
     arbTrades := arbTrades st; instantExits := instantExits st |}.
Definition bump_arb (st : Stats) : Stats :=
  {| priceDropTrades := priceDropTrades st; whaleFollowTrades := whaleFollowTrades st;
     arbTrades := S (arbTrades st); instantExits := instantExits st |}.
Definition bump_exits (st : Stats) : Stats :=
  {| priceDropTrades := priceDropTrades st; whaleFollowTrades := whaleFollowTrades st;
     arbTrades := arbTrades st; instantExits := S (instantExits st) |}.

Definition with_trader (r : t) (sys : System) : System :=
  {| trader := r; whales := whales sys; engine := engine sys |}.
Definition with_engine (w : UnifiedExecutor.World) (sys : System) : System :=
  {| trader := trader sys; whales := whales sys; engine := w |}.

Section WithEnv.
Context {env : Env}.

(** The handlers below run each executor call to completion; [ios k] are
    the broker's replies to the [k]-th executor call of the handler.  The
    drop and edge thresholds of [handlePriceDrop] are tested on computed
    numbers (a mean, a difference), and the edge of [handleWhaleTrade] is a
    computed difference. *)

Definition handlePriceDrop (now : Z) (io : UnifiedExecutor.Broker)
    (assetId : string) (currentPrice : Q) (sys : System) : System :=
  let r := trader sys in
  let history := priceHistory r !! assetId in
  (* Check cooldown *)
  if match history with
     | Some h => (now - ph_lastTradeTime h <? PRICE_TRADE_COOLDOWN)%Z
     | None => false
     end
  then sys
  else
    (* Get market info *)
    match assetToMarket r !! assetId with
    | None => sys
    | Some (market, outcomeIndex) =>
        (* Skip if price is extreme *)
        if Qltb currentPrice 0.05 || Qgtb currentPrice 0.95 then sys
        (* Skip low liquidity *)
        else if Qltb (m_liquidity market) (minMarketLiquidity config) then sys
        else
          (* Calculate mean from recent prices *)
          let recentPrices :=
            match history with Some h => lastN 10 (ph_prices h) | None => [] end in
          if Nat.ltb (length recentPrices) 3 then sys
          else
            let meanPrice :=
              sumBy pt_price recentPrices / inject_Z (Z.of_nat (length recentPrices)) in
            let deviation := currentPrice - meanPrice in
            (* Only trade if price dropped significantly below mean *)
            if Qgtb deviation (-0.03) then sys
            else
              (* Estimate edge based on mean reversion *)
              let estimatedProb := Qmin 0.9 (meanPrice + 0.02) in
              let edge := estimatedProb - currentPrice in
              if Qltb edge 0.03 then sys
              else
                match nth_error (m_outcomes market) outcomeIndex with
                | None => sys  (* [outcome.name] raises: nothing is traded *)
                | Some outcome =>
                    let opportunity :=
                      {| opp_market := market;
                         opp_strategy := s_value;
                         opp_side := sideOfOutcome (o_name outcome);
                         opp_outcomeIndex := outcomeIndex;
                         opp_entryPrice := currentPrice;
                         opp_estimatedProb := estimatedProb;
                         opp_edge := edge;
                         opp_confidence :=
                           if Qgeb edge 0.08 then c_high else c_standard |} in
                    let '(position, w) :=
                      UnifiedExecutor.executeBuy now io opportunity (engine sys) in
                    match position with
                    | None => with_engine w sys
                    | Some _ =>
                        let r :=
                          match history with
                          | Some h =>
                              with_priceHistory
                                (<[ assetId := {| ph_assetId := ph_assetId h;
                                                  ph_prices := ph_prices h;
                                                  ph_lastTradeTime := now |} ]>
                                   (priceHistory r)) r
                          | None => r
                          end in
                        with_engine w
                          (with_trader (with_stats (bump_priceDrop (stats r)) r) sys)
                    end
                end
    end.

Definition handleWhaleTrade (now : Z) (io : UnifiedExecutor.Broker)
    (assetId : string) (price size : Q) (sys : System) : System :=
  let r := trader sys in
  (* Check cooldown *)
  let lastFollow := default 0%Z (lastWhaleFollow r !! assetId) in
  if (now - lastFollow <? WHALE_TRADE_COOLDOWN)%Z then sys
  else
    match assetToMarket r !! assetId with
    | None => sys
    | Some (market, outcomeIndex) =>
        (* Skip extreme prices *)
        if Qltb price 0.05 || Qgtb price 0.95 then sys
        (* Skip low liquidity *)
        else if Qltb (m_liquidity market) (minMarketLiquidity config) then sys
        else
          match nth_error (m_outcomes market) outcomeIndex with
          | None => sys  (* [outcome.name] raises: nothing is traded *)
          | Some outcome =>
              (* Whales have edge, follow them with modest position *)
              let estimatedProb := Qmin 0.95 (price + 0.08) in
              let edge := estimatedProb - price in
              let opportunity :=
                {| opp_market := market;
                   opp_strategy := s_whale;
                   opp_side := sideOfOutcome (o_name outcome);
                   opp_outcomeIndex := outcomeIndex;
                   opp_entryPrice := price;
                   opp_estimatedProb := estimatedProb;
                   opp_edge := edge;
                   opp_confidence := if Qgeb size 10000 then c_high else c_standard |} in
              let '(position, w) :=
                UnifiedExecutor.executeBuy now io opportunity (engine sys) in
              match position with
              | None => with_engine w sys
              | Some _ =>
                  let r := with_lastWhaleFollow (<[ assetId := now ]> (lastWhaleFollow r)) r in
                  with_engine w
                    (with_trader (with_stats (bump_whaleFollow (stats r)) r) sys)
              end
          end
    end.

Definition checkArbSpread (now : Z) (io : UnifiedExecutor.Broker)
    (market : Market) (sys : System) : System :=
  match arbSpreadDecision now market (trader sys) with
  | (None, r) => with_trader r sys
  | (Some call, r) =>
      (* Execute arb (simplified - buy all outcomes) *)
      let '(positions, w) :=
        UnifiedExecutor.executeArbitrageBuy now io (ac_market call) (ac_outcomes call)
          (ac_totalCost call) (ac_guaranteedProfit call) (engine sys) in
      let r := if Nat.ltb 0 (length positions)
               then with_stats (bump_arb (stats r)) r else r in
      with_engine w (with_trader r sys)
  end.

(** One turn of the loop of [checkInstantExit]; the 15% threshold is
    tested on the computed percentage [pnlPercent]. *)
Definition instantExitOne (now : Z) (ios : nat -> UnifiedExecutor.Broker)
    (assetId : string) (currentPrice : Q)
    (acc : nat * System) (position : Position) : nat * System :=
  let '(k, sys) := acc in
  if negb (bool_decide (p_outcomeId position = assetId)) then (k, sys)
  else
    let pnlPercent :=
      ((currentPrice - p_entryPrice position) / p_entryPrice position) * 100 in
    (* Take profit on big spike; stop loss on extreme prices *)
    let shouldExit :=
      Qgeb pnlPercent 15 || (Qgeb currentPrice 0.97 || Qleb currentPrice 0.03) in
    if shouldExit then
      let '(trade, w) :=
        UnifiedExecutor.executeSell now (ios k) position currentPrice (engine sys) in
      match trade with
      | Some _ =>
          (S k, with_engine w
                  (with_trader (with_stats (bump_exits (stats (trader sys))) (trader sys))
                               sys))
      | None => (S k, with_engine w sys)
      end
    else (k, sys).

Definition checkInstantExit (now : Z) (ios : nat -> UnifiedExecutor.Broker)
    (assetId : string) (currentPrice : Q) (sys : System) : System :=
  let positions := SQLiteStore.getOpenPositions (UnifiedExecutor.store (engine sys)) in
  snd (fold_left (instantExitOne now ios assetId currentPrice) positions (0%nat, sys)).

(** Handle real-time price update. *)
Definition handlePriceUpdate (now : Z) (ios : nat -> nat -> UnifiedExecutor.Broker)
    (update : PriceUpdate) (sys : System) : System :=
  if negb (enabled (trader sys)) then sys
  else
    let assetId := pu_assetId update in
    let price := pu_price update in
    (* Update price history and market price map *)
    let '(lastPrice, r) := recordPrice update (trader sys) in
    let sys := with_trader r sys in
    let marketInfo := assetToMarket r !! assetId in
    (* Check for trading signals *)
    let sys :=
      match lastPrice with
      | Some lastPrice =>
          if Qgtb lastPrice 0 then
            let priceChange := (price - lastPrice) / lastPrice in
            (* 1. Check for sudden price drop (mean-reversion opportunity) *)
            let sys :=
              if Qleb priceChange (- PRICE_DROP_THRESHOLD)
              then handlePriceDrop now (ios 0%nat 0%nat) assetId price sys else sys in
            (* 2. Check for price spike on open positions (potential exit) *)
            if Qgeb priceChange PRICE_SPIKE_THRESHOLD
            then checkInstantExit now (ios 1%nat) assetId price sys else sys
          else sys
      | None => sys
      end in
    (* 3. Check for arbitrage spread *)
    match marketInfo with
    | Some (market, _) => checkArbSpread now (ios 2%nat 0%nat) market sys
    | None => sys
    end.

(** Handle real-time trade update. *)
Definition handleTradeUpdate (now : Z) (io : UnifiedExecutor.Broker)
    (update : TradeUpdate) (sys : System) : System :=
  if negb (enabled (trader sys)) then sys
  else
    (* Record for whale tracking *)
    let sys :=
      if Qgeb (tu_size update) 1000
      then {| trader := trader sys;
              whales :=
                WhaleTracker.recordTrade now
                  {| WhaleTracker.wt_assetId := tu_assetId update;
                     WhaleTracker.wt_price := tu_price update;
                     WhaleTracker.wt_size := tu_size update;
                     WhaleTracker.wt_side := tu_side update;
                     WhaleTracker.wt_timestamp := tu_timestamp update |}
                  (whales sys);
              engine := engine sys |}
      else sys in
    (* Instant whale follow for very large trades *)
    if Qgeb (tu_size update) WHALE_INSTANT_THRESHOLD
       && match tu_side update with BUY => true | SELL => false end
    then handleWhaleTrade now io (tu_assetId update) (tu_price update) (tu_size update) sys
    else sys.
End WithEnv.

End EventTrader.

(** ** The value strategy ([strategies/value-betting.ts], its exit rule) *)

Module ValueBettingStrategy.

(** The thresholds are tested on the computed percentage [pnlPercent], the
    trailing stop on the larger of it and the percentage of the stored
    price. *)
Definition shouldExit (position : Position) (currentPrice : Q) : bool :=
  let pnlPercent :=
    ((currentPrice - p_entryPrice position) / p_entryPrice position) * 100 in
  (* Take profit at +15% *)
  if Qgeb pnlPercent 15 then true
  (* Stop loss at -20% *)
  else if Qleb pnlPercent (-20) then true
  (* Exit if price moved to extreme (almost resolved) *)
  else if Qgeb currentPrice 0.95 || Qleb currentPrice 0.05 then true
  else
    (* Trailing stop: if we were up 10%+ and now only up 3%, exit *)
    let peakPnl :=
      Qmax (((p_currentPrice position - p_entryPrice position) / p_entryPrice position)
            * 100)
           pnlPercent in
    if Qgeb peakPnl 10 && Qltb pnlPercent 3 then true
    else false.

(** The same rule with the percentages computed in rounded arithmetic. *)
Definition shouldExitRounded (rnd : Q -> Q) (position : Position) (currentPrice : Q)
    : bool :=
  let pnlPercent := roundedPercent rnd currentPrice (p_entryPrice position) in
  if Qgeb pnlPercent 15 then true
  else if Qleb pnlPercent (-20) then true
  else if Qgeb currentPrice 0.95 || Qleb currentPrice 0.05 then true
  else
    let peakPnl :=
      Qmax (roundedPercent rnd (p_currentPrice position) (p_entryPrice position))
           pnlPercent in
    if Qgeb peakPnl 10 && Qltb pnlPercent 3 then true
    else false.

End ValueBettingStrategy.

(** ** The scan loop's exit check ([index.ts], [checkExits])

    [cache] is the price cache of the WebSocket client, [markets] the
    markets loaded last; [nows k] is the clock and [ios k] the broker's
    replies in the [k]-th turn of the loop. *)

Module PolymarketTrader.

(** A missing or zero number is falsy. *)
Definition truthy (x : option Q) : option Q :=
  match x with
  | Some p => if Qeq_bool p 0 then None else Some p
  | None => None
  end.

(** The current price of a position: from the WebSocket cache, else from
    the market data. *)
Definition currentPriceOf (cache : gmap string Q) (markets : list Market)
    (position : Position) : option Q :=
  match truthy (cache !! p_outcomeId position) with
  | Some p => Some p
  | None =>
      truthy
        match List.find (fun m => bool_decide (m_id m = p_marketId position)) markets with
        | Some market =>
            match List.find (fun o => bool_decide (o_id o = p_outcomeId position))
                            (m_outcomes market) with
            | Some outcome => Some (o_price outcome)
            | None => None
            end
        | None => None
        end
  end.

Section WithEnv.
Context {env : Env}.

(** One turn of the loop of [checkExits]. *)
Definition checkExitOne (nows : nat -> Z) (ios : nat -> UnifiedExecutor.Broker)
    (cache : gmap string Q) (markets : list Market)
    (acc : nat * UnifiedExecutor.World) (position : Position)
    : nat * UnifiedExecutor.World :=
  let '(k, w) := acc in
  match currentPriceOf cache markets position with
  | None => (S k, w)
  | Some currentPrice =>
      (* Update position price *)
      let w :=
        {| UnifiedExecutor.store :=
             SQLiteStore.updatePositionPrice (p_id position) currentPrice
               (UnifiedExecutor.store w);
           UnifiedExecutor.paperExec := UnifiedExecutor.paperExec w;
           UnifiedExecutor.realExec := UnifiedExecutor.realExec w;
           UnifiedExecutor.gateway := UnifiedExecutor.gateway w |} in
      (* Enforce minimum hold time (60 seconds) to prevent instant flip trades *)
      let holdTime := (nows k - p_entryTime position)%Z in
      if (holdTime <? 60000)%Z then (S k, w)
      else
        (* Check exit conditions based on strategy *)
        let exit :=
          match p_strategy position with
          | s_arbitrage => ArbitrageStrategy.shouldExit position currentPrice
          | _ => ValueBettingStrategy.shouldExit position currentPrice
          end in
        if exit
        then (S k, snd (UnifiedExecutor.executeSell (nows k) (ios k) position currentPrice w))
        else (S k, w)
  end.

Definition checkExits (nows : nat -> Z) (ios : nat -> UnifiedExecutor.Broker)
    (cache : gmap string Q) (markets : list Market) (w : UnifiedExecutor.World)
    : UnifiedExecutor.World :=
  let positions := SQLiteStore.getOpenPositions (UnifiedExecutor.store w) in
  snd (fold_left (checkExitOne nows ios cache markets) positions (0%nat, w)).
End WithEnv.

End PolymarketTrader.

(** * Vocabulary of the properties *)

(** A row keeps its identity, and stays closed once it is closed. *)
Definition row_kept (r r' : SQLiteStore.PositionRow) : Prop :=
  SQLiteStore.id r' = SQLiteStore.id r
  /\ (SQLiteStore.status r = st_closed -> SQLiteStore.status r' = st_closed).

(** The [positions] table of [s'] is the one of [s], row by row, each row
    kept in the sense above, followed by newly inserted rows. *)
Definition ledger_grows (s s' : SQLiteStore.t) : Prop :=
  exists upd ext,
    SQLiteStore.positions s' = upd ++ ext
    /\ Forall2 row_kept (SQLiteStore.positions s) upd.

(** [s'] is [s] with one more row, an open position on [(marketId, sd)]. *)
Definition appended_open (marketId : string) (sd : Side) (s s' : SQLiteStore.t) : Prop :=
  exists row,
    SQLiteStore.positions s' = SQLiteStore.positions s ++ [row]
    /\ SQLiteStore.market_id row = marketId
    /\ SQLiteStore.side row = sd
    /\ SQLiteStore.status row = st_open.

(** The open rows on [(marketId, sd)]. *)
Definition open_on (marketId : string) (sd : Side) (rows : list SQLiteStore.PositionRow)
    : list SQLiteStore.PositionRow :=
  List.filter (fun r => bool_decide (SQLiteStore.status r = st_open)
                        && bool_decide (SQLiteStore.market_id r = marketId)
                        && bool_decide (SQLiteStore.side r = sd)) rows.

(** At most one open position per (marketId, side) pair. *)
Definition at_most_one_open (s : SQLiteStore.t) : Prop :=
  forall marketId sd, (length (open_on marketId sd (SQLiteStore.positions s)) <= 1)%nat.

(** The sizing pipeline in the words of the specification, on a portfolio
    snapshot: [multiplier] is the confidence-tier multiplier and
    [cashFraction] the share of the cash balance a position may take. *)
Definition sizerSpec (multiplier : ConfidenceLevel -> Q) (cashFraction : Q)
    (cfg : Config) (pf : Portfolio) (opp : Opportunity) : Q :=
  if Qleb (opp_edge opp) 0 then 0
  else
    let kelly := opp_edge opp / (1 - opp_entryPrice opp) in
    let fraction := Qmin (kelly * multiplier (opp_confidence opp)) (maxPositionPct cfg) in
    let size := fraction * pf_totalValue pf in
    let investedInStrategy :=
      sumBy p_size (List.filter (fun p => bool_decide (p_strategy p = opp_strategy opp))
                                (pf_openPositions pf)) in
    let size :=
      match List.find (fun a => bool_decide (a_strategy a = opp_strategy opp))
                      (pf_allocations pf) with
      | Some a => Qmin size (a_currentWeight a * pf_totalValue pf - investedInStrategy)
      | None => size
      end in
    let investedInCategory :=
      sumBy p_size
        (List.filter (fun p => bool_decide (p_category p = m_category (opp_market opp)))
                     (pf_openPositions pf)) in
    let size := Qmin size (maxCategoryPct cfg * pf_totalValue pf - investedInCategory) in
    let size := Qmax (minPositionUsd cfg) (Qmin size (maxPositionUsd cfg)) in
    let size := Qmin size (cashFraction * pf_balance pf) in
    let size :=
      if Qgeb (pf_drawdownPercent pf) (drawdownWarningPct cfg * 100) then size / 2 else size in
    Qmax 0 size.

(** What the real broker adapter computes instead, from the cash balance
    alone. *)
Definition realSizerSpec (cfg : Config) (cash : Q) (opp : Opportunity) : Q :=
  if Qleb (opp_edge opp) 0 then 0
  else
    let kelly := opp_edge opp / (1 - opp_entryPrice opp) in
    let fraction :=
      Qmin (kelly * RealExecutor.kellyFractions (opp_confidence opp))
           (maxPositionPct cfg / 2) in
    let size := fraction * cash in
    let size := Qmax (minPositionUsd cfg) (Qmin size (maxPositionUsd cfg / 2)) in
    let size := Qmin size (0.8 * cash) in
    Qmax 0 size.

(** The mutation neither reprices nor closes position [i]. *)
Definition keeps_pnl_of (i : string) (m : SQLiteStore.Mutation) : Prop :=
  match m with
  | SQLiteStore.UpdatePositionPrice j _ => j <> i
  | SQLiteStore.ClosePosition _ j _ => j <> i
  | _ => True
  end.

(** ** The event reactor's bookkeeping *)


(** The recorded prices of an asset. *)
Definition prices_of (r : EventTrader.t) (assetId : string)
    : option (list EventTrader.PricePoint) :=
  EventTrader.ph_prices <$> EventTrader.priceHistory r !! assetId.

(** The bookkeeping of the reactor is the same in [sys'] as in [sys]: the
    recorded prices of every asset and the whale aggregation. *)
Definition history_kept (sys sys' : EventTrader.System) : Prop :=
  EventTrader.whales sys' = EventTrader.whales sys
  /\ forall a, prices_of (EventTrader.trader sys') a = prices_of (EventTrader.trader sys) a.

(** Moreover the market price maps and the asset index are the same. *)
Definition tracking_kept (sys sys' : EventTrader.System) : Prop :=
  history_kept sys sys'
  /\ EventTrader.marketPrices (EventTrader.trader sys')
     = EventTrader.marketPrices (EventTrader.trader sys)
  /\ EventTrader.assetToMarket (EventTrader.trader sys')
     = EventTrader.assetToMarket (EventTrader.trader sys).

(** ** Traces of the gateway *)

(** No step of the trace is the failure of a buy on [key]. *)
Definition no_throw_on (key : string) (evs : list UnifiedExecutor.Event) : Prop :=
  Forall (fun ev => match ev with
                    | UnifiedExecutor.BuySettle opportunity true =>
                        UnifiedExecutor.buyKey opportunity <> key
                    | _ => True
                    end) evs.

(** Every buy of the trace starts no later than [t]. *)
Definition buys_by (t : Z) (evs : list UnifiedExecutor.Event) : Prop :=
  Forall (fun ev => match ev with
                    | UnifiedExecutor.BuyEnter now _ _ => (now <= t)%Z
                    | _ => True
                    end) evs.

(** No step of the trace is the completion of a sell of position [i]. *)
Definition no_settle_of (i : string) (evs : list UnifiedExecutor.Event) : Prop :=
  Forall (fun ev => match ev with
                    | UnifiedExecutor.SellSettle position => p_id position <> i
                    | _ => True
                    end) evs.

(** The guard of a buy is one of the two early returns. *)
Definition refused (g : UnifiedExecutor.BuyGuard) : Prop :=
  match g with UnifiedExecutor.Dispatch => False | _ => True end.

(** The last character of a string, if any. *)
Fixpoint final_char (s : string) : option ascii :=
  match s with
  | EmptyString => None
  | String c EmptyString => Some c
  | String _ s' => final_char s'
  end.

(** ** Orders, sums and tables the properties speak of *)

Section ArbitrageVocabulary.
Import ArbitrageStrategy.

(** Ordered by profit percent, the higher first. *)
Definition by_profit (a b : ArbitrageOpportunity) : Prop :=
  arb_profitPercent b <= arb_profitPercent a.

End ArbitrageVocabulary.

(** The trades of an asset among [l], and the volume and the traded value
    (price times size) of its buys and of its sells. *)
Definition tradesOf (a : string) (l : list WhaleTracker.WhaleTrade)
    : list WhaleTracker.WhaleTrade :=
  List.filter (fun tr => bool_decide (WhaleTracker.wt_assetId tr = a)) l.

Definition isBuy (tr : WhaleTracker.WhaleTrade) : bool :=
  match WhaleTracker.wt_side tr with BUY => true | SELL => false end.

Definition volumeOf (buys : bool) (l : list WhaleTracker.WhaleTrade) : Q :=
  sumBy WhaleTracker.wt_size (List.filter (fun tr => Bool.eqb (isBuy tr) buys) l).

Section WhaleVocabulary.
Import WhaleTracker WhaleTracking.

(** One step of the loop of [recalculate], on the table and on one entry of it. *)
Definition stepTable (table : gmap string WhaleActivity) (trade : WhaleTrade)
    : gmap string WhaleActivity :=
  <[ wt_assetId trade :=
       reaggregate trade (default (newActivity trade) (table !! wt_assetId trade)) ]> table.

Definition stepEntry (entry : option WhaleActivity) (trade : WhaleTrade)
    : option WhaleActivity :=
  Some (reaggregate trade (default (newActivity trade) entry)).

End WhaleVocabulary.

(** The legs of a real basket that the broker fills before its first
    failing reply: [orders k], [orders (k + 1)], ... are the replies for the
    [n] legs. *)
Fixpoint filledLegs (orders : nat -> Completion ClobOrderResponse) (k n : nat) : nat :=
  match n with
  | O => O
  | S n' =>
      match orders k with
      | Threw => O
      | Returned r =>
          (if Qgtb (or_filledAmount r) 0 then 1 else 0) + filledLegs orders (S k) n'
      end
  end.

(** The test of [checkInstantExit] on one open position: it is on the
    asset, and either up 15% on its entry price or at an extreme price. *)
Definition exitTest (assetId : string) (currentPrice : Q) (position : Position) : bool :=
  bool_decide (p_outcomeId position = assetId)
  && (Qgeb (((currentPrice - p_entryPrice position) / p_entryPrice position) * 100) 15
      || (Qgeb currentPrice 0.97 || Qleb currentPrice 0.03)).

(** The same test one part in ten thousand away from its 15% threshold,
    where the rounding of the percentage cannot change it: the position is
    on the asset, and the price is at least 1.15 times the entry price or
    extreme. *)
Definition clearExit (assetId : string) (currentPrice : Q) (position : Position) : bool :=
  bool_decide (p_outcomeId position = assetId)
  && (Qgeb currentPrice (1.15 * p_entryPrice position)
      || (Qgeb currentPrice 0.97 || Qleb currentPrice 0.03)).

(** The test of [checkInstantExit] with the percentage computed in rounded
    arithmetic. *)
Definition exitTestRounded (rnd : Q -> Q) (assetId : string) (currentPrice : Q)
    (position : Position) : bool :=
  bool_decide (p_outcomeId position = assetId)
  && (Qgeb (roundedPercent rnd currentPrice (p_entryPrice position)) 15
      || (Qgeb currentPrice 0.97 || Qleb currentPrice 0.03)).

(** A price is off the 15% threshold of a position when it is not within
    one part in ten thousand of 1.15 times the (positive) entry price. *)
Definition offThreshold (currentPrice : Q) (position : Position) : Prop :=
  0 < p_entryPrice position
  /\ (1.1501 * p_entryPrice position <= currentPrice
      \/ currentPrice <= 1.1499 * p_entryPrice position).

(** The mean of the last 10 recorded prices of a history. *)
Definition recentMean (h : EventTrader.PriceHistory) : Q :=
  sumBy EventTrader.pt_price (EventTrader.lastN 10 (EventTrader.ph_prices h))
  / inject_Z (Z.of_nat (length (EventTrader.lastN 10 (EventTrader.ph_prices h)))).

(** The opportunity [handlePriceDrop] buys. *)
Definition dropOpportunity (market : Market) (outcomeIndex : nat) (outcome : Outcome)
    (h : EventTrader.PriceHistory) (currentPrice : Q) : Opportunity :=
  {| opp_market := market;
     opp_strategy := s_value;
     opp_side := EventTrader.sideOfOutcome (o_name outcome);
     opp_outcomeIndex := outcomeIndex;
     opp_entryPrice := currentPrice;
     opp_estimatedProb := Qmin 0.9 (recentMean h + 0.02);
     opp_edge := Qmin 0.9 (recentMean h + 0.02) - currentPrice;
     opp_confidence :=
       if Qgeb (Qmin 0.9 (recentMean h + 0.02) - currentPrice) 0.08
       then c_high else c_standard |}.

(** What [handlePriceDrop] tests before it looks at the size of the drop. *)
Definition dropReached {env : Env} (now : Z) (r : EventTrader.t) (assetId : string)
    (currentPrice : Q) (market : Market) (outcomeIndex : nat) (outcome : Outcome)
    (h : EventTrader.PriceHistory) : Prop :=
  EventTrader.priceHistory r !! assetId = Some h
  /\ (EventTrader.PRICE_TRADE_COOLDOWN <= now - EventTrader.ph_lastTradeTime h)%Z
  /\ EventTrader.assetToMarket r !! assetId = Some (market, outcomeIndex)
  /\ nth_error (m_outcomes market) outcomeIndex = Some outcome
  /\ 0.05 <= currentPrice /\ currentPrice <= 0.95
  /\ minMarketLiquidity config <= m_liquidity market
  /\ (3 <= length (EventTrader.ph_prices h))%nat.

(** A drop that is clear of both thresholds of [handlePriceDrop] by one
    part in ten thousand: the price is at least 0.0301 below the mean of
    the last 10 recorded prices, and the edge is at least 0.0301. *)
Definition clearDrop (h : EventTrader.PriceHistory) (currentPrice : Q) : Prop :=
  currentPrice <= recentMean h - 0.0301
  /\ 0.0301 <= Qmin 0.9 (recentMean h + 0.02) - currentPrice.

(** The opportunity [handleWhaleTrade] buys. *)
Definition followOpportunity (market : Market) (outcomeIndex : nat) (outcome : Outcome)
    (price size : Q) : Opportunity :=
  {| opp_market := market;
     opp_strategy := s_whale;
     opp_side := EventTrader.sideOfOutcome (o_name outcome);
     opp_outcomeIndex := outcomeIndex;
     opp_entryPrice := price;
     opp_estimatedProb := Qmin 0.95 (price + 0.08);
     opp_edge := Qmin 0.95 (price + 0.08) - price;
     opp_confidence := if Qgeb size 10000 then c_high else c_standard |}.

(** The conditions under which [handleWhaleTrade] reaches the buy. *)
Definition followConditions {env : Env} (now : Z) (r : EventTrader.t) (assetId : string)
    (price : Q) (market : Market) (outcomeIndex : nat) (outcome : Outcome) : Prop :=
  (EventTrader.WHALE_TRADE_COOLDOWN
   <= now - default 0%Z (EventTrader.lastWhaleFollow r !! assetId))%Z
  /\ EventTrader.assetToMarket r !! assetId = Some (market, outcomeIndex)
  /\ nth_error (m_outcomes market) outcomeIndex = Some outcome
  /\ 0.05 <= price /\ price <= 0.95
  /\ minMarketLiquidity config <= m_liquidity market.

(** The mean of [handlePriceDrop] with rounded operations, and its two
    tests on the size of the drop: [true] when neither returns. *)
Definition roundedMean (rnd : Q -> Q) (recentPrices : list EventTrader.PricePoint) : Q :=
  rnd (fold_left (fun sum p => rnd (sum + EventTrader.pt_price p)) recentPrices 0
       / inject_Z (Z.of_nat (length recentPrices))).

Definition dropTestsRounded (rnd : Q -> Q) (recentPrices : list EventTrader.PricePoint)
    (currentPrice : Q) : bool :=
  let meanPrice := roundedMean rnd recentPrices in
  let deviation := rnd (currentPrice - meanPrice) in
  if Qgtb deviation (-0.03) then false
  else
    let estimatedProb := Qmin 0.9 (rnd (meanPrice + 0.02)) in
    let edge := rnd (estimatedProb - currentPrice) in
    negb (Qltb edge 0.03).

(** Recorded prices that are probabilities. *)
Definition unitPrices (l : list EventTrader.PricePoint) : Prop :=
  Forall (fun p => 0 <= EventTrader.pt_price p /\ EventTrader.pt_price p <= 1) l.

(** The edge of [handleWhaleTrade] with rounded operations. *)
Definition followEdgeRounded (rnd : Q -> Q) (price : Q) : Q :=
  let estimatedProb := Qmin 0.95 (rnd (price + 0.08)) in
  rnd (estimatedProb - price).

(** What a buy of [opportunity] by a handler of the reactor leaves behind:
    the engine as the gateway's [executeBuy] leaves it, and the reactor's
    tables changed, by [stamp], only when a position came back. *)
Definition boughtBy {env : Env} (now : Z) (io : UnifiedExecutor.Broker)
    (opportunity : Opportunity) (stamp : EventTrader.t -> EventTrader.t -> Prop)
    (sys sys' : EventTrader.System) : Prop :=
  let bought := UnifiedExecutor.executeBuy now io opportunity (EventTrader.engine sys) in
  EventTrader.engine sys' = snd bought
  /\ EventTrader.whales sys' = EventTrader.whales sys
  /\ match fst bought with
     | Some _ => stamp (EventTrader.trader sys) (EventTrader.trader sys')
     | None => EventTrader.trader sys' = EventTrader.trader sys
     end.

(** The stamp of a price-drop trade, and of a followed whale trade. *)
Definition dropStamp (now : Z) (assetId : string) (r r' : EventTrader.t) : Prop :=
  (EventTrader.ph_lastTradeTime <$> EventTrader.priceHistory r' !! assetId) = Some now
  /\ EventTrader.priceDropTrades (EventTrader.stats r')
     = S (EventTrader.priceDropTrades (EventTrader.stats r)).

Definition followStamp (now : Z) (assetId : string) (r r' : EventTrader.t) : Prop :=
  EventTrader.lastWhaleFollow r' !! assetId = Some now
  /\ EventTrader.whaleFollowTrades (EventTrader.stats r')
     = S (EventTrader.whaleFollowTrades (EventTrader.stats r)).

(** The outcomes of a market that carry a token id, with their indices. *)
Definition trackedOutcomes (market : Market) : list (nat * Outcome) :=
  List.filter (fun io => negb (bool_decide (o_tokenId (snd io) = EmptyString)))
              (imap (fun i o => (i, o)) (m_outcomes market)).

(** One step of the loop of [registerMarkets] over the outcomes of a market. *)
Definition addAsset (market : Market) (m : gmap string (Market * nat)) (io : nat * Outcome)
    : gmap string (Market * nat) :=
  <[ o_tokenId (snd io) := (market, fst io) ]> m.

Section TrackingVocabulary.
Import EventTrader.

(** The price map entries [registerMarkets] stores for a market. *)
Definition trackedPrices (market : Market) : list OutcomePrice :=
  List.map (fun io : nat * Outcome =>
              {| op_assetId := o_tokenId (snd io);
                 op_price := o_price (snd io);
                 op_name := o_name (snd io) |}) (trackedOutcomes market).

End TrackingVocabulary.

(** The ids of the ledger's rows with their statuses. *)
Definition ledgerStatus (s : SQLiteStore.t) : list (string * Status) :=
  List.map (fun r => (SQLiteStore.id r, SQLiteStore.status r)) (SQLiteStore.positions s).

(** What keeps [checkExits] from selling the [k]-th open position: no price,
    the arbitrage strategy, or less than a minute since its entry. *)
Definition heldBack (nows : nat -> Z) (cache : gmap string Q) (markets : list Market)
    (k : nat) (position : Position) : Prop :=
  PolymarketTrader.currentPriceOf cache markets position = None
  \/ p_strategy position = s_arbitrage
  \/ (nows k - p_entryTime position < 60000)%Z.

Section ExitVocabulary.
Import UnifiedExecutor.

(** Nothing was bought or sold between [w] and [w']: same statuses, trades,
    executors and gateway. *)
Definition sameBooks (w w' : World) : Prop :=
  ledgerStatus (store w') = ledgerStatus (store w)
  /\ SQLiteStore.trades (store w') = SQLiteStore.trades (store w)
  /\ paperExec w' = paperExec w
  /\ realExec w' = realExec w
  /\ gateway w' = gateway w.

End ExitVocabulary.

(** ** Concrete inputs for the examples *)

Definition demoUUID (n : nat) : string := "uuid-" +:+ pretty n.

(** The default configuration, with UUIDs [uuid-0], [uuid-1], ... *)
Definition demoEnv : Env := {| config := defaultConfig; randomUUID := demoUUID |}.

Definition emptyStore : SQLiteStore.t :=
  {| SQLiteStore.positions := [];
     SQLiteStore.trades := [];
     SQLiteStore.portfolio_snapshots := [];
     SQLiteStore.allocations := [];
     SQLiteStore.uuid_draws := 0 |}.

(** A paper simulator holding $1000 in cash and nothing else. *)
Definition freshPaper : PaperExecutor.t :=
  {| PaperExecutor.balance := 1000;
     PaperExecutor.peakValue := 1000;
     PaperExecutor.startingBalance := 1000;
     PaperExecutor.sellingPositions := ∅ |}.

Definition idleReal : RealExecutor.t :=
  {| RealExecutor.initialized := false;
     RealExecutor.realBalance := 0;
     RealExecutor.peakValue := 1000;
     RealExecutor.startingBalance := 1000 |}.

Definition freshGateway (m : UnifiedExecutor.Mode) : UnifiedExecutor.t :=
  {| UnifiedExecutor.mode := m;
     UnifiedExecutor.pendingBuys := ∅;
     UnifiedExecutor.pendingSells := ∅ |}.

Definition freshWorld : UnifiedExecutor.World :=
  {| UnifiedExecutor.store := emptyStore;
     UnifiedExecutor.paperExec := freshPaper;
     UnifiedExecutor.realExec := idleReal;
     UnifiedExecutor.gateway := freshGateway UnifiedExecutor.paper |}.

(** A broker that fills nothing (unused in paper mode). *)
Definition silentBroker : UnifiedExecutor.Broker :=
  {| UnifiedExecutor.orders := fun _ => Threw; UnifiedExecutor.bal := Threw |}.

(** A three-way market priced 0.30 / 0.30 / 0.35 (total 0.95). *)
Definition threeWayRef : MarketRef :=
  {| mr_id := "m1"; mr_question := "Who wins?"; mr_category := politics |}.

Definition threeWay : list ArbOutcome :=
  [ {| ao_name := "Alice"; ao_price := 0.30; ao_tokenId := "tok-a" |};
    {| ao_name := "Bob"; ao_price := 0.30; ao_tokenId := "tok-b" |};
    {| ao_name := "Carol"; ao_price := 0.35; ao_tokenId := "tok-c" |} ].

(** A binary market priced 0.40 / 0.55 (total 0.95), liquidity $20000. *)
Definition yesNoMarket : Market :=
  {| m_id := "m2";
     m_question := "Will it rain?";
     m_category := science;
     m_outcomes := [ {| o_id := "o-yes"; o_name := "Yes"; o_price := 0.40;
                        o_tokenId := "tok-yes" |};
                     {| o_id := "o-no"; o_name := "No"; o_price := 0.55;
                        o_tokenId := "tok-no" |} ];
     m_volume := 50000;
     m_liquidity := 20000;
     m_endDate := 2000000000000 |}.

(** A value opportunity on the YES side of that market. *)
Definition yesOpportunity : Opportunity :=
  {| opp_market := yesNoMarket;
     opp_strategy := s_value;
     opp_side := YES;
     opp_outcomeIndex := 0;
     opp_entryPrice := 0.40;
     opp_estimatedProb := 0.50;
     opp_edge := 0.10;
     opp_confidence := c_high |}.

(** The same opportunity once the price has caught up: no edge left. *)
Definition flatOpportunity : Opportunity :=
  {| opp_market := yesNoMarket;
     opp_strategy := s_value;
     opp_side := YES;
     opp_outcomeIndex := 0;
     opp_entryPrice := 0.50;
     opp_estimatedProb := 0.50;
     opp_edge := 0;
     opp_confidence := c_high |}.

(** A real adapter holding $1000 after a peak of $1250 (a 20% drawdown),
    and the portfolio snapshot of that state. *)
Definition drawnDownReal : RealExecutor.t :=
  {| RealExecutor.initialized := true;
     RealExecutor.realBalance := 1000;
     RealExecutor.peakValue := 1250;
     RealExecutor.startingBalance := 1250 |}.

Definition drawnDownPortfolio : Portfolio :=
  {| pf_balance := 1000;
     pf_totalValue := 1000;
     pf_startingBalance := 1250;
     pf_totalPnl := -250;
     pf_totalPnlPercent := -20;
     pf_openPositions := [];
     pf_allocations := [];
     pf_drawdown := 250;
     pf_drawdownPercent := 20;
     pf_peakValue := 1250 |}.

(** A real adapter holding $740 after a peak of $1000 (a 26% drawdown). *)
Definition haltedReal : RealExecutor.t :=
  {| RealExecutor.initialized := true;
     RealExecutor.realBalance := 740;
     RealExecutor.peakValue := 1000;
     RealExecutor.startingBalance := 1000 |}.

(** A paper simulator holding $740 after a peak of $1000. *)
Definition haltedPaper : PaperExecutor.t :=
  {| PaperExecutor.balance := 740;
     PaperExecutor.peakValue := 1000;
     PaperExecutor.startingBalance := 1000;
     PaperExecutor.sellingPositions := ∅ |}.

(** The engine after the same loss, in either mode. *)
Definition haltedWorld (m : UnifiedExecutor.Mode) : UnifiedExecutor.World :=
  {| UnifiedExecutor.store := emptyStore;
     UnifiedExecutor.paperExec := haltedPaper;
     UnifiedExecutor.realExec := haltedReal;
     UnifiedExecutor.gateway := freshGateway m |}.

(** A reactor that has seen nothing yet. *)
Definition emptyTrader : EventTrader.t :=
  {| EventTrader.priceHistory := ∅;
     EventTrader.marketPrices := ∅;
     EventTrader.assetToMarket := ∅;
     EventTrader.lastWhaleFollow := ∅;
     EventTrader.enabled := true;
     EventTrader.stats := {| EventTrader.priceDropTrades := 0;
                             EventTrader.whaleFollowTrades := 0;
                             EventTrader.arbTrades := 0;
                             EventTrader.instantExits := 0 |} |}.

(** The binary market of the examples with its two legs priced [yes], [no]. *)
Definition spreadMarket (yes no : Q) : Market :=
  {| m_id := "m2";
     m_question := "Will it rain?";
     m_category := science;
     m_outcomes := [ {| o_id := "o-yes"; o_name := "Yes"; o_price := yes;
                        o_tokenId := "tok-yes" |};
                     {| o_id := "o-no"; o_name := "No"; o_price := no;
                        o_tokenId := "tok-no" |} ];
     m_volume := 50000;
     m_liquidity := 20000;
     m_endDate := 2000000000000 |}.

(** The reactor after registering that market. *)
Definition trackingTrader (yes no : Q) : EventTrader.t :=
  EventTrader.registerMarkets [spreadMarket yes no] emptyTrader.

Definition systemOf (r : EventTrader.t) : EventTrader.System :=
  {| EventTrader.trader := r;
     EventTrader.whales := {| WhaleTracker.trades := [] |};
     EventTrader.engine := freshWorld |}.

(** A price notification and a whale-sized trade notification on the YES leg. *)
Definition tick : EventTrader.PriceUpdate :=
  {| EventTrader.pu_assetId := "tok-yes";
     EventTrader.pu_price := 0.41;
     EventTrader.pu_timestamp := 1000 |}.

Definition whaleTick : EventTrader.TradeUpdate :=
  {| EventTrader.tu_assetId := "tok-yes";
     EventTrader.tu_price := 0.41;
     EventTrader.tu_size := 2000;
     EventTrader.tu_side := SELL;
     EventTrader.tu_timestamp := 1000 |}.

(** A YES position on the binary market: 200 shares bought at 0.41 for
    $82.164 (fees included). *)
Definition heldNew : SQLiteStore.NewPosition :=
  {| SQLiteStore.np_marketId := "m2";
     SQLiteStore.np_marketQuestion := "Will it rain?";
     SQLiteStore.np_category := science;
     SQLiteStore.np_strategy := s_value;
     SQLiteStore.np_side := YES;
     SQLiteStore.np_outcomeId := "o-yes";
     SQLiteStore.np_entryPrice := 0.41;
     SQLiteStore.np_currentPrice := 0.41;
     SQLiteStore.np_size := 82;
     SQLiteStore.np_cost := 82.164;
     SQLiteStore.np_shares := 200;
     SQLiteStore.np_entryTime := 1000 |}.

Definition heldPosition : Position :=
  fst (@SQLiteStore.createPosition demoEnv heldNew emptyStore).

Definition heldStore : SQLiteStore.t :=
  snd (@SQLiteStore.createPosition demoEnv heldNew emptyStore).

Definition heldWorld : UnifiedExecutor.World :=
  {| UnifiedExecutor.store := heldStore;
     UnifiedExecutor.paperExec := PaperExecutor.with_balance 917.836 freshPaper;
     UnifiedExecutor.realExec := idleReal;
     UnifiedExecutor.gateway := freshGateway UnifiedExecutor.paper |}.

(** The gateway while a buy of [yesOpportunity] entered at time 1000 is
    awaited, and while a sell of [heldPosition] is awaited. *)
Definition buyingGateway : UnifiedExecutor.t :=
  snd (UnifiedExecutor.executeBuy_enter 1000 yesOpportunity emptyStore
         (freshGateway UnifiedExecutor.paper)).

Definition sellingGateway : UnifiedExecutor.t :=
  snd (UnifiedExecutor.executeSell_enter heldPosition (freshGateway UnifiedExecutor.paper)).

(** The system with the reactor switched off, tracking the binary market. *)
Definition disabledSystem : EventTrader.System :=
  systemOf (EventTrader.disable (trackingTrader 0.40 0.55)).

(** The held position as the ledger returns it. *)
Definition storedHeld : Position :=
  hd heldPosition (SQLiteStore.getOpenPositions heldStore).

(** The price cache after one notification on the held outcome. *)
Definition yesCache : gmap string Q := {[ "o-yes"%string := 0.5 ]}.

(** A broker reply: 100 shares filled at 0.41. *)
Definition demoFill : ClobOrderResponse :=
  {| or_status := FILLED; or_filledAmount := 100; or_avgFillPrice := 0.41 |}.

(** A broker that fills the first order and fails at the second. *)
Definition partialOrders (k : nat) : Completion ClobOrderResponse :=
  match k with
  | O => Returned demoFill
  | _ => Threw
  end.

(** Three whale trades, two of them on one asset. *)
Definition demoWhaleTrades : list WhaleTracker.WhaleTrade :=
  [ {| WhaleTracker.wt_assetId := "tok-yes"; WhaleTracker.wt_price := 0.40;
       WhaleTracker.wt_size := 3000; WhaleTracker.wt_side := BUY;
       WhaleTracker.wt_timestamp := 1000 |};
    {| WhaleTracker.wt_assetId := "tok-no"; WhaleTracker.wt_price := 0.55;
       WhaleTracker.wt_size := 2000; WhaleTracker.wt_side := SELL;
       WhaleTracker.wt_timestamp := 2000 |};
    {| WhaleTracker.wt_assetId := "tok-yes"; WhaleTracker.wt_price := 0.50;
       WhaleTracker.wt_size := 1000; WhaleTracker.wt_side := BUY;
       WhaleTracker.wt_timestamp := 3000 |} ].



(** A broker that fills every order with 100 shares at 0.41 and reports a
    balance of $900. *)
Definition fillingBroker : UnifiedExecutor.Broker :=
  {| UnifiedExecutor.orders := fun _ => Returned demoFill;
     UnifiedExecutor.bal := Returned 900 |}.

(** The engine in real mode, holding the position of [heldStore]. *)
Definition heldRealWorld : UnifiedExecutor.World :=
  {| UnifiedExecutor.store := heldStore;
     UnifiedExecutor.paperExec := freshPaper;
     UnifiedExecutor.realExec := haltedReal;
     UnifiedExecutor.gateway := freshGateway UnifiedExecutor.real |}.

(** * Properties *)

(** ** Comparisons *)

Lemma Qltb_lt (x y : Q) : Qltb x y = true <-> x < y.
Proof.
  unfold Qltb. rewrite negb_true_iff.
  split.
  - intros H. apply Qnot_le_lt. intros Hle. apply Qle_bool_iff in Hle. congruence.
  - intros H. destruct (Qle_bool y x) eqn:E; [|reflexivity].
    apply Qle_bool_iff in E. exfalso. exact (Qlt_not_le _ _ H E).
Qed.

Lemma Qltb_ge (x y : Q) : Qltb x y = false <-> y <= x.
Proof.
  unfold Qltb. rewrite negb_false_iff. apply Qle_bool_iff.
Qed.

Lemma Qleb_le (x y : Q) : Qleb x y = true <-> x <= y.
Proof. apply Qle_bool_iff. Qed.

Lemma Qleb_gt (x y : Q) : Qleb x y = false <-> y < x.
Proof.
  rewrite <- (Qltb_lt y x). unfold Qleb, Qltb.
  destruct (Qle_bool x y); simpl; split; congruence.
Qed.

Lemma Qgeb_ge (x y : Q) : Qgeb x y = true <-> y <= x.
Proof. apply Qle_bool_iff. Qed.

Lemma Qgeb_lt (x y : Q) : Qgeb x y = false <-> x < y.
Proof. apply Qleb_gt. Qed.

Lemma Qgtb_gt (x y : Q) : Qgtb x y = true <-> y < x.
Proof. apply Qltb_lt. Qed.

Lemma Qgtb_le (x y : Q) : Qgtb x y = false <-> x <= y.
Proof. apply Qltb_ge. Qed.

(** Turn the boolean tests of the code into order facts, and back. *)
Ltac q_tests :=
  repeat match goal with
    | H : Qltb _ _ = true |- _ => apply Qltb_lt in H
    | H : Qltb _ _ = false |- _ => apply Qltb_ge in H
    | H : Qleb _ _ = true |- _ => apply Qleb_le in H
    | H : Qleb _ _ = false |- _ => apply Qleb_gt in H
    | H : Qgeb _ _ = true |- _ => apply Qgeb_ge in H
    | H : Qgeb _ _ = false |- _ => apply Qgeb_lt in H
    | H : Qgtb _ _ = true |- _ => apply Qgtb_gt in H
    | H : Qgtb _ _ = false |- _ => apply Qgtb_le in H
    end.

Lemma Qltb_true (x y : Q) : x < y -> Qltb x y = true.
Proof. apply Qltb_lt. Qed.
Lemma Qltb_false (x y : Q) : y <= x -> Qltb x y = false.
Proof. apply Qltb_ge. Qed.
Lemma Qleb_true (x y : Q) : x <= y -> Qleb x y = true.
Proof. apply Qleb_le. Qed.
Lemma Qleb_false (x y : Q) : y < x -> Qleb x y = false.
Proof. apply Qleb_gt. Qed.
Lemma Qgeb_true (x y : Q) : y <= x -> Qgeb x y = true.
Proof. apply Qgeb_ge. Qed.
Lemma Qgeb_false (x y : Q) : x < y -> Qgeb x y = false.
Proof. apply Qgeb_lt. Qed.
Lemma Qgtb_true (x y : Q) : y < x -> Qgtb x y = true.
Proof. apply Qgtb_gt. Qed.
Lemma Qgtb_false (x y : Q) : x <= y -> Qgtb x y = false.
Proof. apply Qgtb_le. Qed.

(** ** The arbitrage strategy *)

Section ArbitrageFacts.
Context {env : Env}.
Import ArbitrageStrategy.

Lemma insert_by_profit_perm (x : ArbitrageOpportunity) (l : list ArbitrageOpportunity) :
  insert_by_profit x l ≡ₚ x :: l.
Proof.
  induction l as [|y ys IH]; simpl; [reflexivity|].
  destruct (Qgtb _ _); [|reflexivity].
  rewrite IH. apply Permutation_swap.
Qed.

Lemma sort_by_profit_perm (l : list ArbitrageOpportunity) : sort_by_profit l ≡ₚ l.
Proof.
  induction l as [|x xs IH]; simpl; [reflexivity|].
  rewrite insert_by_profit_perm. by rewrite IH.
Qed.

(** The loop of [scan] keeps, in order, the opportunity of every market
    that has one. *)
Lemma collect_omap (markets : list Market) :
  collect markets = omap checkMarketForArbitrage markets.
Proof.
  unfold collect.
  enough (G : forall acc,
             fold_left (fun opportunities market =>
                          match checkMarketForArbitrage market with
                          | Some opportunity => opportunities ++ [opportunity]
                          | None => opportunities
                          end) markets acc
             = acc ++ omap checkMarketForArbitrage markets)
    by apply (G []).
  induction markets as [|m ms IH]; intros acc; simpl.
  - by rewrite app_nil_r.
  - destruct (checkMarketForArbitrage m); rewrite IH; [|done].
    by rewrite <- app_assoc.
Qed.

Lemma scan_perm (markets : list Market) :
  scan markets ≡ₚ omap checkMarketForArbitrage markets.
Proof. unfold scan. rewrite sort_by_profit_perm. by rewrite collect_omap. Qed.

Lemma priced_in_unit_interval (os : list Outcome) :
  Forall (fun o => 0 < o_price o /\ o_price o < 1) os ->
  existsb (fun o => Qleb (o_price o) 0 || Qgeb (o_price o) 1) os = false.
Proof.
  induction 1 as [|o os [Hpos Hlt] _ IH]; simpl; [reflexivity|].
  rewrite (Qleb_false _ _ Hpos), (Qgeb_false _ _ Hlt). exact IH.
Qed.

(** A market inside the band yields its opportunity. *)
Lemma check_accepts (market : Market) :
  let S := sumBy o_price (m_outcomes market) in
  (2 <= length (m_outcomes market))%nat ->
  Forall (fun o => 0 < o_price o /\ o_price o < 1) (m_outcomes market) ->
  minMarketLiquidity config <= m_liquidity market ->
  S < 1 ->
  0.02 <= (1 - S) / S -> (1 - S) / S <= 0.15 ->
  exists opp,
    checkMarketForArbitrage market = Some opp
    /\ opp_market (arb_base opp) = market
    /\ arb_totalCost opp = S
    /\ arb_guaranteedProfit opp = 1 - S
    /\ arb_profitPercent opp = (1 - S) / S.
Proof.
  intros S Hlen Hprices Hliq Hcost Hmin Hmax.
  unfold checkMarketForArbitrage.
  replace (length (m_outcomes market) <? 2)%nat with false
    by (symmetry; apply Nat.ltb_ge; exact Hlen).
  rewrite (Qltb_false _ _ Hliq).
  rewrite (priced_in_unit_interval _ Hprices).
  cbv zeta. unfold MIN_PROFIT_PCT, MAX_PROFIT_PCT. fold S.
  rewrite (Qgeb_false _ _ Hcost).
  rewrite (Qltb_false _ _ Hmin).
  rewrite (Qgtb_false _ _ Hmax).
  eexists. split; [reflexivity|]. simpl. auto.
Qed.

(** A market outside the band yields nothing, whatever else holds of it. *)
Lemma check_rejects (market : Market) :
  let S := sumBy o_price (m_outcomes market) in
  0.15 < (1 - S) / S \/ (1 - S) / S < 0.02 \/ 1 <= S ->
  checkMarketForArbitrage market = None.
Proof.
  intros S Hout.
  unfold checkMarketForArbitrage.
  destruct (_ <? 2)%nat; [reflexivity|].
  destruct (Qltb (m_liquidity market) _); [reflexivity|].
  destruct (existsb _ _); [reflexivity|].
  cbv zeta. fold S.
  destruct (Qgeb S 1) eqn:Hcost; [reflexivity|].
  destruct (Qltb ((1 - S) / S) MIN_PROFIT_PCT) eqn:Hmin; [reflexivity|].
  destruct (Qgtb ((1 - S) / S) MAX_PROFIT_PCT) eqn:Hmax; [reflexivity|].
  exfalso. unfold MIN_PROFIT_PCT, MAX_PROFIT_PCT in *. q_tests.
  destruct Hout as [H|[H|H]].
  - exact (Qlt_not_le _ _ H Hmax).
  - exact (Qlt_not_le _ _ H Hmin).
  - exact (Qlt_not_le _ _ Hcost H).
Qed.

(** C4. For every market with at least two outcomes, every price strictly
    between 0 and 1, liquidity at least the configured floor, total cost
    [S] (the sum of the outcome prices) below 1 and profit percentage
    [(1 - S) / S] in [0.02, 0.15]: the market has an opportunity [opp],
    with [totalCost = S] and [guaranteedProfit = 1 - S], and a scan of any
    list of markets containing it emits exactly that one opportunity for
    it (the scan with the market is the scan without it plus [opp]).
    A market whose profit percentage exceeds 0.15 or is below 0.02, or
    whose total cost is at least 1, adds nothing to a scan. *)
Theorem arbitrage_scan_band (market : Market) :
  let S := sumBy o_price (m_outcomes market) in
  ((2 <= length (m_outcomes market))%nat ->
   Forall (fun o => 0 < o_price o /\ o_price o < 1) (m_outcomes market) ->
   minMarketLiquidity config <= m_liquidity market ->
   S < 1 ->
   0.02 <= (1 - S) / S -> (1 - S) / S <= 0.15 ->
   exists opp,
     checkMarketForArbitrage market = Some opp
     /\ opp_market (arb_base opp) = market
     /\ arb_totalCost opp = S
     /\ arb_guaranteedProfit opp = 1 - S
     /\ scan [market] = [opp]
     /\ forall before after,
          scan (before ++ market :: after) ≡ₚ opp :: scan (before ++ after))
  /\ (0.15 < (1 - S) / S \/ (1 - S) / S < 0.02 \/ 1 <= S ->
      checkMarketForArbitrage market = None
      /\ scan [market] = []
      /\ forall before after,
           scan (before ++ market :: after) = scan (before ++ after)).
Proof.
  intros S. split.
  - intros Hlen Hprices Hliq Hcost Hmin Hmax.
    destruct (check_accepts market Hlen Hprices Hliq Hcost Hmin Hmax)
      as (opp & Hopp & Hm & Htc & Hgp & _).
    exists opp. repeat split; try done.
    + unfold scan, collect. simpl. by rewrite Hopp.
    + intros before after.
      rewrite !scan_perm, !omap_app. simpl. rewrite Hopp.
      by rewrite <- Permutation_middle.
  - intros Hout. pose proof (check_rejects market Hout) as Hnone.
    repeat split; try done.
    + unfold scan, collect. simpl. by rewrite Hnone.
    + intros before after. unfold scan.
      rewrite !collect_omap, !omap_app. simpl. by rewrite Hnone.
Qed.
End ArbitrageFacts.

(** C4 on the binary market priced 0.40 / 0.55: total cost 0.95, profit
    percentage 5.26%, one opportunity. *)
Lemma arbitrage_scan_band_witness :
  exists opp,
    @ArbitrageStrategy.scan demoEnv [yesNoMarket] = [opp]
    /\ arb_totalCost opp = sumBy o_price (m_outcomes yesNoMarket)
    /\ arb_guaranteedProfit opp = 1 - sumBy o_price (m_outcomes yesNoMarket).
Proof.
  destruct (@arbitrage_scan_band demoEnv yesNoMarket) as [Hin _].
  destruct Hin as (opp & _ & _ & Hcost & Hprofit & Hscan & _).
  - simpl. lia.
  - repeat constructor; vm_compute; reflexivity.
  - vm_compute. intros H. discriminate H.
  - vm_compute. reflexivity.
  - vm_compute. intros H. discriminate H.
  - vm_compute. intros H. discriminate H.
  - exists opp. split; [exact Hscan|]. split; [exact Hcost|exact Hprofit].
Defined.

(** ** The ledger *)

Section LedgerFacts.
Context {env : Env}.
Import SQLiteStore.

Lemma row_kept_refl (r : PositionRow) : row_kept r r.
Proof. by split. Qed.

Lemma row_kept_trans (r1 r2 r3 : PositionRow) :
  row_kept r1 r2 -> row_kept r2 r3 -> row_kept r1 r3.
Proof.
  intros [Hid1 Hst1] [Hid2 Hst2]. split; [congruence | auto].
Qed.

Lemma rows_kept_refl (rows : list PositionRow) : Forall2 row_kept rows rows.
Proof. induction rows; constructor; auto using row_kept_refl. Qed.

Lemma ledger_grows_refl (s : t) : ledger_grows s s.
Proof.
  exists (positions s), []. split; [by rewrite app_nil_r | apply rows_kept_refl].
Qed.

Lemma ledger_grows_same_positions (s s' : t) :
  positions s' = positions s -> ledger_grows s s'.
Proof.
  intros E. exists (positions s), []. rewrite E.
  split; [by rewrite app_nil_r | apply rows_kept_refl].
Qed.

Lemma ledger_grows_trans (s1 s2 s3 : t) :
  ledger_grows s1 s2 -> ledger_grows s2 s3 -> ledger_grows s1 s3.
Proof.
  intros (upd & ext & E12 & F12) (upd' & ext' & E23 & F23).
  rewrite E12 in F23.
  apply Forall2_app_inv_l in F23 as (u1 & u2 & F1 & F2 & ->).
  exists u1, (u2 ++ ext'). split.
  - by rewrite E23, <- app_assoc.
  - clear -F12 F1. revert u1 F1.
    induction F12 as [|r r' rows rows' Hr _ IH]; intros u1 F1.
    + inversion F1; constructor.
    + inversion F1 as [|? r'' ? rows'' Hr' F1']; subst.
      constructor; [exact (row_kept_trans _ _ _ Hr Hr') | by apply IH].
Qed.

(** An in-place [UPDATE ... WHERE id = ?] keeps every row when the new
    values keep the row. *)
Lemma update_where_id_kept (i : string) (f : PositionRow -> PositionRow)
    (rows : list PositionRow) :
  (forall r, row_kept r (f r)) ->
  Forall2 row_kept rows (update_where_id i f rows).
Proof.
  intros Hf. unfold update_where_id.
  induction rows as [|r rows IH]; simpl; constructor; auto.
  case_bool_decide; [apply Hf | apply row_kept_refl].
Qed.

Lemma set_price_kept (currentPrice pnl' : Q) (r : PositionRow) :
  row_kept r (set_price currentPrice pnl' r).
Proof. by split. Qed.

Lemma set_closed_kept (now : Z) (exitPrice pnl' : Q) (r : PositionRow) :
  row_kept r (set_closed now exitPrice pnl' r).
Proof. by split. Qed.

Lemma createPosition_grows (position : NewPosition) (s : t) :
  ledger_grows s (snd (createPosition position s)).
Proof.
  unfold createPosition. simpl.
  eexists (positions s), [_]. split; [reflexivity | apply rows_kept_refl].
Qed.

Lemma updatePositionPrice_grows (i : string) (currentPrice : Q) (s : t) :
  ledger_grows s (updatePositionPrice i currentPrice s).
Proof.
  unfold updatePositionPrice.
  destruct (getPosition i s); [|apply ledger_grows_refl].
  eexists _, []. simpl. split; [by rewrite app_nil_r|].
  apply update_where_id_kept. intros r. apply set_price_kept.
Qed.

Lemma closePosition_grows (now : Z) (i : string) (exitPrice : Q) (s : t) :
  ledger_grows s (snd (closePosition now i exitPrice s)).
Proof.
  unfold closePosition.
  destruct (getPosition i s); [|apply ledger_grows_refl].
  eexists _, []. simpl. split; [by rewrite app_nil_r|].
  apply update_where_id_kept. intros r. apply set_closed_kept.
Qed.

Lemma recordTrade_grows (trade : Trade) (s : t) :
  ledger_grows s (snd (recordTrade trade s)).
Proof. by apply ledger_grows_same_positions. Qed.

Lemma savePortfolioSnapshot_grows (now : Z) (portfolio : Portfolio) (s : t) :
  ledger_grows s (savePortfolioSnapshot now portfolio s).
Proof. by apply ledger_grows_same_positions. Qed.

Lemma apply_grows (m : Mutation) (s : t) : ledger_grows s (apply s m).
Proof.
  destruct m; simpl.
  - apply createPosition_grows.
  - apply updatePositionPrice_grows.
  - apply closePosition_grows.
  - apply recordTrade_grows.
  - apply savePortfolioSnapshot_grows.
  - by apply ledger_grows_same_positions.
Qed.

Lemma applyAll_grows (ms : list Mutation) (s : t) : ledger_grows s (applyAll s ms).
Proof.
  revert s. induction ms as [|m ms IH]; intros s; simpl.
  - apply ledger_grows_refl.
  - eapply ledger_grows_trans; [apply apply_grows | apply IH].
Qed.

(** Looking a position up by id finds the same row, kept, later on. *)
Lemma getRow_grows (i : string) (s s' : t) (r : PositionRow) :
  ledger_grows s s' ->
  getRow i s = Some r ->
  exists r', getRow i s' = Some r' /\ row_kept r r'.
Proof.
  intros (upd & ext & E & F). unfold getRow. rewrite E. clear E.
  induction F as [|x x' rows rows' [Hid Hst] _ IH]; simpl; [discriminate|].
  rewrite Hid. case_bool_decide.
  - intros [= <-]. exists x'. by split.
  - exact IH.
Qed.

Lemma getRow_id (i : string) (s : t) (r : PositionRow) :
  getRow i s = Some r -> id r = i.
Proof.
  unfold getRow. intros H. apply find_some in H as [_ H].
  by apply bool_decide_eq_true in H.
Qed.

Lemma getRow_update (i : string) (f : PositionRow -> PositionRow)
    (rows : list PositionRow) (r : PositionRow) :
  (forall x, id (f x) = id x) ->
  List.find (fun x => bool_decide (id x = i)) rows = Some r ->
  List.find (fun x => bool_decide (id x = i)) (update_where_id i f rows) = Some (f r).
Proof.
  intros Hf. unfold update_where_id.
  induction rows as [|x rows IH]; simpl; [discriminate|].
  case_bool_decide as Hx.
  - intros [= <-]. simpl. rewrite Hf. by rewrite bool_decide_eq_true_2.
  - intros H. simpl. rewrite bool_decide_eq_false_2 by done. by apply IH.
Qed.

(** What [closePosition] writes. *)
Lemma closePosition_spec (now : Z) (i : string) (p : Q) (s : t) (position : Position) :
  getPosition i s = Some position ->
  exists row,
    getRow i (snd (closePosition now i p s)) = Some row
    /\ fst (closePosition now i p s) = Some (rowToPosition row)
    /\ status row = st_closed
    /\ exit_price row = Some p
    /\ current_price row = p
    /\ pnl row = p * p_shares position - p_cost position
    /\ p_pnl (rowToPosition row) = p * p_shares position - p_cost position
    /\ shares row = p_shares position
    /\ cost_or_size row = p_cost position.
Proof.
  intros Hpos. unfold closePosition. rewrite Hpos.
  unfold getPosition in Hpos.
  destruct (getRow i s) as [r|] eqn:Hr; [|discriminate].
  injection Hpos as <-.
  set (pnl' := p * p_shares (rowToPosition r) - p_cost (rowToPosition r)).
  exists (set_closed now p pnl' r).
  assert (Hfind : getRow i (with_positions
                    (update_where_id i (set_closed now p pnl') (positions s)) s)
                  = Some (set_closed now p pnl' r)).
  { unfold getRow. simpl. by apply getRow_update. }
  simpl. unfold getPosition. rewrite Hfind. simpl.
  repeat split; reflexivity.
Qed.
End LedgerFacts.

(** ** What the executors do to the ledger *)

Section ExecutorLedgerFacts.
Context {env : Env}.
Import SQLiteStore.

Lemma createPosition_appends (np : NewPosition) (s : t) :
  appended_open (np_marketId np) (np_side np) s (snd (createPosition np s))
  /\ p_marketId (fst (createPosition np s)) = np_marketId np
  /\ p_side (fst (createPosition np s)) = np_side np
  /\ p_shares (fst (createPosition np s)) = np_shares np
  /\ p_status (fst (createPosition np s)) = st_open.
Proof. split; [|done]. eexists. by split. Qed.

Lemma recordTrade_positions (trade : Trade) (s : t) :
  positions (snd (recordTrade trade s)) = positions s.
Proof. reflexivity. Qed.

Lemma savePortfolioSnapshot_positions (now : Z) (portfolio : Portfolio) (s : t) :
  positions (savePortfolioSnapshot now portfolio s) = positions s.
Proof. reflexivity. Qed.

Lemma appended_open_grows (marketId : string) (sd : Side) (s s' : t) :
  appended_open marketId sd s s' -> ledger_grows s s'.
Proof.
  intros (row & E & _). exists (positions s), [row].
  split; [done | apply rows_kept_refl].
Qed.

Lemma appended_open_same (marketId : string) (sd : Side) (s s' s'' : t) :
  appended_open marketId sd s s' -> positions s'' = positions s' ->
  appended_open marketId sd s s''.
Proof. intros (row & E & H) E'. exists row. by rewrite E', E. Qed.

(** Name the next ledger call of the goal, record what it does, and
    replace the call by its result. *)
Ltac ledger_step :=
  match goal with
  | |- context [createPosition ?np ?s] =>
      let A := fresh "A" in
      pose proof (createPosition_appends np s) as A;
      destruct (createPosition np s) as [? ?]; cbn [fst snd] in A
  | |- context [recordTrade ?tr ?s] =>
      let A := fresh "A" in
      pose proof (recordTrade_positions tr s) as A;
      destruct (recordTrade tr s) as [? ?]; cbn [fst snd] in A
  | |- context [closePosition ?now ?i ?p ?s] =>
      let A := fresh "A" in
      pose proof (closePosition_grows now i p s) as A;
      destruct (closePosition now i p s) as [? ?]; cbn [fst snd] in A
  | |- context [PaperExecutor.getPortfolio ?s ?e] =>
      destruct (PaperExecutor.getPortfolio s e) as [? ?]
  end.

(** A paper buy either leaves the ledger alone and returns no position, or
    appends one open position on the opportunity's market and side. *)
Lemma paper_executeBuy_positions (now : Z) (opportunity : Opportunity)
    (s : t) (e : PaperExecutor.t) :
  let r := PaperExecutor.executeBuy now opportunity s e in
  (fst r = None /\ fst (snd r) = s)
  \/ (exists position, fst r = Some position /\
      appended_open (m_id (opp_market opportunity)) (opp_side opportunity) s (fst (snd r))).
Proof.
  unfold PaperExecutor.executeBuy.
  destruct (PaperExecutor.canTrade s e) as [can e1].
  destruct (negb (allowed can)); [by left|].
  destruct (PaperExecutor.calculatePositionSize opportunity s e1) as [size e2].
  destruct (Qltb size _); [by left|].
  cbv zeta. right.
  repeat ledger_step. cbn [fst snd].
  eexists. split; [reflexivity|].
  destruct A as (A & _). cbn [np_marketId np_side] in A.
  eapply appended_open_same; [exact A|].
  by rewrite savePortfolioSnapshot_positions.
Qed.

(** A real buy either leaves the ledger alone, or appends one open position
    on the opportunity's market and side (whatever it then returns). *)
Lemma real_executeBuy_positions (now : Z) (order : Completion ClobOrderResponse)
    (bal : Completion Q) (opportunity : Opportunity) (s : t) (e : RealExecutor.t) :
  let r := RealExecutor.executeBuy now order bal opportunity s e in
  fst (snd r) = s
  \/ appended_open (m_id (opp_market opportunity)) (opp_side opportunity) s (fst (snd r)).
Proof.
  unfold RealExecutor.executeBuy.
  destruct (negb (RealExecutor.initialized e)); [by left|].
  destruct (negb (allowed _)); [by left|].
  destruct (Qltb _ _); [by left|].
  cbv zeta.
  destruct (nth_error _ _) as [o|]; [|by left].
  case_bool_decide; [by left|].
  destruct order as [orderResult|]; [|by left].
  destruct (RealExecutor.notFilled orderResult); [by left|].
  right. repeat ledger_step.
  destruct A as (A & _). cbn [np_marketId np_side] in A.
  destruct bal; cbn [fst snd]; eapply appended_open_same; eauto.
Qed.

Lemma paper_executeSell_grows (now : Z) (position : Position) (currentPrice : Q)
    (s : t) (e : PaperExecutor.t) :
  ledger_grows s (fst (snd (PaperExecutor.executeSell now position currentPrice s e))).
Proof.
  unfold PaperExecutor.executeSell.
  case_bool_decide; [apply ledger_grows_refl|].
  cbv zeta. repeat ledger_step. cbn [fst snd].
  eapply ledger_grows_trans; [exact A|].
  apply ledger_grows_same_positions. by rewrite savePortfolioSnapshot_positions.
Qed.

Lemma real_executeSell_grows (now : Z) (order : Completion ClobOrderResponse)
    (bal : Completion Q) (position : Position) (currentPrice : Q)
    (s : t) (e : RealExecutor.t) :
  ledger_grows s
    (fst (snd (RealExecutor.executeSell now order bal position currentPrice s e))).
Proof.
  unfold RealExecutor.executeSell.
  destruct (negb (RealExecutor.initialized e)); [apply ledger_grows_refl|].
  destruct order as [orderResult|]; [|apply ledger_grows_refl].
  destruct (RealExecutor.notFilled orderResult); [apply ledger_grows_refl|].
  cbv zeta. repeat ledger_step.
  destruct bal; cbn [fst snd];
    (eapply ledger_grows_trans; [exact A|]); by apply ledger_grows_same_positions.
Qed.

(** One leg of a paper basket: one more position, one more open row. *)
Lemma arbitrageLeg_spec (now : Z) (market : MarketRef) (n : nat)
    (totalCost totalInvestment netInvestment fees : Q)
    (ps : list Position) (s : t) (o : ArbOutcome) :
  let r := PaperExecutor.arbitrageLeg now market n totalCost totalInvestment
             netInvestment fees (ps, s) o in
  exists position row,
    fst r = ps ++ [position]
    /\ positions (snd r) = positions s ++ [row]
    /\ p_shares position = (netInvestment * ao_price o / totalCost) / ao_price o
    /\ p_marketId position = mr_id market
    /\ p_side position = PaperExecutor.sideOfName (ao_name o)
    /\ market_id row = mr_id market
    /\ side row = PaperExecutor.sideOfName (ao_name o)
    /\ status row = st_open.
Proof.
  unfold PaperExecutor.arbitrageLeg. cbv zeta.
  repeat ledger_step. cbn [fst snd].
  destruct A as ((row & Erow & Hm & Hs & Ho) & Hpm & Hps & Hsh & _).
  cbn [np_marketId np_side np_shares] in *.
  exists p, row. rewrite A0. by repeat split.
Qed.

(** The loop of a paper basket: one position and one open row per outcome,
    in order. *)
Lemma arbitrageLegs_spec (now : Z) (market : MarketRef) (n : nat)
    (totalCost totalInvestment netInvestment fees : Q)
    (outcomes : list ArbOutcome) (ps : list Position) (s : t) :
  let r := fold_left (PaperExecutor.arbitrageLeg now market n totalCost totalInvestment
                        netInvestment fees) outcomes (ps, s) in
  exists new rows,
    fst r = ps ++ new
    /\ positions (snd r) = positions s ++ rows
    /\ Forall2 (fun o position =>
                  p_shares position = (netInvestment * ao_price o / totalCost) / ao_price o
                  /\ p_marketId position = mr_id market
                  /\ p_side position = PaperExecutor.sideOfName (ao_name o))
               outcomes new
    /\ Forall2 (fun o row =>
                  market_id row = mr_id market
                  /\ side row = PaperExecutor.sideOfName (ao_name o)
                  /\ status row = st_open)
               outcomes rows.
Proof.
  cbv zeta. revert ps s. induction outcomes as [|o os IH]; intros ps s; cbn [fold_left].
  - exists [], []. cbn [fst snd]. rewrite !app_nil_r. repeat split; constructor.
  - destruct (arbitrageLeg_spec now market n totalCost totalInvestment
                netInvestment fees ps s o)
      as (position & row & E1 & E2 & Hsh & Hm & Hsd & Hrm & Hrs & Hro).
    destruct (PaperExecutor.arbitrageLeg _ _ _ _ _ _ _ (ps, s) o) as [ps1 s1].
    cbn [fst snd] in E1, E2. subst ps1.
    destruct (IH (ps ++ [position]) s1) as (new & rows & F1 & F2 & H1 & H2).
    exists (position :: new), (row :: rows).
    rewrite F1, F2, E2, <- !app_assoc. repeat split; try done; by constructor.
Qed.

(** What a paper basket does: nothing, or the legs above. *)
Lemma paper_executeArbitrageBuy_positions (now : Z) (market : MarketRef)
    (outcomes : list ArbOutcome) (totalCost guaranteedProfit : Q)
    (s : t) (e : PaperExecutor.t) :
  let r := PaperExecutor.executeArbitrageBuy now market outcomes totalCost
             guaranteedProfit s e in
  (fst r = [] /\ fst (snd r) = s)
  \/ (exists rows,
        positions (fst (snd r)) = positions s ++ rows
        /\ Forall2 (fun o row =>
                      market_id row = mr_id market
                      /\ side row = PaperExecutor.sideOfName (ao_name o)
                      /\ status row = st_open)
                   outcomes rows
        /\ length (fst r) = length outcomes).
Proof.
  unfold PaperExecutor.executeArbitrageBuy.
  destruct (PaperExecutor.canTrade s e) as [can e1].
  destruct (negb (allowed can)); [by left|].
  ledger_step. cbv zeta.
  destruct (Qltb _ 1); [by left|].
  right.
  match goal with
  | |- context [fold_left (PaperExecutor.arbitrageLeg ?a ?b ?c ?d ?e' ?f ?g) ?os (?ps, ?s0)] =>
      destruct (arbitrageLegs_spec a b c d e' f g os ps s0)
        as (new & rows & F1 & F2 & H1 & H2);
      destruct (fold_left (PaperExecutor.arbitrageLeg a b c d e' f g) os (ps, s0))
        as [ps1 s1]
  end.
  cbn [fst snd] in F1, F2. ledger_step. cbn [fst snd].
  exists rows. rewrite savePortfolioSnapshot_positions. repeat split; try done.
  subst ps1. simpl. symmetry. eapply Forall2_length, H1.
Qed.

Lemma positions_app_grows (s s' : t) (rows : list PositionRow) :
  positions s' = positions s ++ rows -> ledger_grows s s'.
Proof.
  intros E. exists (positions s), rows. split; [done | apply rows_kept_refl].
Qed.

Lemma real_arbitrageLegs_grows (now : Z) (market : MarketRef)
    (totalCost totalInvestment : Q) (orders : nat -> Completion ClobOrderResponse)
    (outcomes : list ArbOutcome) (k : nat) (ps : list Position) (s : t) :
  ledger_grows s
    (snd (fst (RealExecutor.arbitrageLegs now market totalCost totalInvestment
                 orders k outcomes ps s))).
Proof.
  revert k ps s.
  induction outcomes as [|o os IH]; intros k ps s; cbn [RealExecutor.arbitrageLegs].
  - apply ledger_grows_refl.
  - cbv zeta. destruct (orders k) as [orderResult|]; [|apply ledger_grows_refl].
    destruct (Qgtb _ 0); [|apply IH].
    repeat ledger_step.
    eapply ledger_grows_trans; [|apply IH].
    destruct A as (A & _). apply appended_open_grows in A.
    eapply ledger_grows_trans; [exact A|]. by apply ledger_grows_same_positions.
Qed.

Lemma real_executeArbitrageBuy_grows (now : Z)
    (orders : nat -> Completion ClobOrderResponse) (bal : Completion Q)
    (market : MarketRef) (outcomes : list ArbOutcome) (totalCost guaranteedProfit : Q)
    (s : t) (e : RealExecutor.t) :
  ledger_grows s
    (fst (snd (RealExecutor.executeArbitrageBuy now orders bal market outcomes
                 totalCost guaranteedProfit s e))).
Proof.
  unfold RealExecutor.executeArbitrageBuy.
  destruct (negb (RealExecutor.initialized e)); [apply ledger_grows_refl|].
  destruct (negb (allowed _)); [apply ledger_grows_refl|].
  cbv zeta. destruct (Qltb _ 1); [apply ledger_grows_refl|].
  match goal with
  | |- context [RealExecutor.arbitrageLegs ?a ?b ?c ?d ?o ?k ?os ?ps ?s0] =>
      pose proof (real_arbitrageLegs_grows a b c d o os k ps s0) as G;
      destruct (RealExecutor.arbitrageLegs a b c d o k os ps s0) as [[ps1 s1] completed]
  end.
  cbn [fst snd] in G. destruct completed, bal; exact G.
Qed.


Lemma closePosition_trades (now : Z) (i : string) (p : Q) (s : t) :
  trades (snd (closePosition now i p s)) = trades s.
Proof. unfold closePosition. by destruct (getPosition i s). Qed.

Lemma getRow_same_positions (i : string) (s1 s2 : t) :
  positions s1 = positions s2 -> getRow i s1 = getRow i s2.
Proof. unfold getRow. by intros ->. Qed.

(** A paper sell that is not already running: the position is closed at
    the simulated bid, and exactly one SELL trade is recorded and returned. *)
Lemma paper_sell_positions (now : Z) (sold : Position) (currentPrice : Q)
    (s : t) (e : PaperExecutor.t) :
  p_id sold ∉ PaperExecutor.sellingPositions e ->
  let q := Qmax 0.01 (currentPrice * (1 - PaperExecutor.SIMULATED_SPREAD
                                       - PaperExecutor.SIMULATED_SLIPPAGE)) in
  let r := PaperExecutor.executeSell now sold currentPrice s e in
  positions (fst (snd r)) = positions (snd (closePosition now (p_id sold) q s))
  /\ exists trade,
       fst r = Some trade
       /\ t_action trade = SELL
       /\ t_positionId trade = p_id sold
       /\ trades (fst (snd r)) = trades s ++ [trade].
Proof.
  intros Hfree. unfold PaperExecutor.executeSell.
  rewrite bool_decide_eq_false_2 by done. cbv zeta.
  match goal with
  | |- context [closePosition ?a ?b ?c ?d] =>
      pose proof (closePosition_trades a b c d) as Ht1;
      destruct (closePosition a b c d) as [closed s1]
  end.
  cbn [snd] in *.
  match goal with
  | |- context [recordTrade ?tr ?s0] =>
      pose proof (recordTrade_positions tr s0) as A;
      pose proof (eq_refl : trades (snd (recordTrade tr s0))
                            = trades s0 ++ [fst (recordTrade tr s0)]) as B;
      pose proof (eq_refl : t_action (fst (recordTrade tr s0)) = t_action tr) as C;
      pose proof (eq_refl : t_positionId (fst (recordTrade tr s0)) = t_positionId tr) as D;
      destruct (recordTrade tr s0) as [trade s2]
  end.
  cbn [fst snd t_action t_positionId] in *.
  destruct (PaperExecutor.getPortfolio _ _) as [pf e2]. cbn [fst snd].
  split; [by rewrite savePortfolioSnapshot_positions|].
  exists trade. repeat split; try done.
  change (trades (savePortfolioSnapshot now pf s2)) with (trades s2).
  by rewrite B, Ht1.
Qed.

(** A real sell whose order is filled closes the position at the average
    fill price (the requested price when the broker reports none). *)
Lemma real_sell_positions (now : Z) (orderResult : ClobOrderResponse)
    (bal : Completion Q) (sold : Position) (currentPrice : Q)
    (s : t) (e : RealExecutor.t) :
  RealExecutor.initialized e = true ->
  RealExecutor.notFilled orderResult = false ->
  let q := num_or (or_avgFillPrice orderResult) currentPrice in
  let r := RealExecutor.executeSell now (Returned orderResult) bal sold currentPrice s e in
  positions (fst (snd r)) = positions (snd (closePosition now (p_id sold) q s)).
Proof.
  intros Hinit Hfilled. unfold RealExecutor.executeSell.
  rewrite Hinit, Hfilled. cbn [negb]. cbv zeta.
  destruct (closePosition _ _ _ s) as [closed s1]. cbn [snd].
  match goal with
  | |- context [recordTrade ?tr ?s0] =>
      pose proof (recordTrade_positions tr s0) as A;
      destruct (recordTrade tr s0) as [trade s2]
  end.
  cbn [snd] in A. by destruct bal.
Qed.

End ExecutorLedgerFacts.

(** ** The gateway's calls and the ledger *)

Section GatewayLedgerFacts.
Context {env : Env}.
Import UnifiedExecutor.

Lemma paper_executeBuy_grows (now : Z) (opportunity : Opportunity)
    (s : SQLiteStore.t) (e : PaperExecutor.t) :
  ledger_grows s (fst (snd (PaperExecutor.executeBuy now opportunity s e))).
Proof.
  destruct (paper_executeBuy_positions now opportunity s e) as [[_ ->]|(_ & _ & A)].
  - apply ledger_grows_refl.
  - eapply appended_open_grows, A.
Qed.

Lemma real_executeBuy_grows (now : Z) (order : Completion ClobOrderResponse)
    (bal : Completion Q) (opportunity : Opportunity)
    (s : SQLiteStore.t) (e : RealExecutor.t) :
  ledger_grows s (fst (snd (RealExecutor.executeBuy now order bal opportunity s e))).
Proof.
  destruct (real_executeBuy_positions now order bal opportunity s e) as [->|A].
  - apply ledger_grows_refl.
  - eapply appended_open_grows, A.
Qed.

Lemma paper_executeArbitrageBuy_grows (now : Z) (market : MarketRef)
    (outcomes : list ArbOutcome) (totalCost guaranteedProfit : Q)
    (s : SQLiteStore.t) (e : PaperExecutor.t) :
  ledger_grows s
    (fst (snd (PaperExecutor.executeArbitrageBuy now market outcomes totalCost
                 guaranteedProfit s e))).
Proof.
  destruct (paper_executeArbitrageBuy_positions now market outcomes totalCost
              guaranteedProfit s e) as [[_ ->]|(rows & E & _)].
  - apply ledger_grows_refl.
  - eapply positions_app_grows, E.
Qed.

Lemma buy_inner_grows (now : Z) (io : Broker) (opportunity : Opportunity) (w : World) :
  ledger_grows (store w) (store (snd (buy_inner now io opportunity w))).
Proof.
  unfold buy_inner. destruct (mode (gateway w)).
  - pose proof (paper_executeBuy_grows now opportunity (store w) (paperExec w)) as G.
    destruct (PaperExecutor.executeBuy _ _ _ _) as [r [s e]]. exact G.
  - pose proof (real_executeBuy_grows now (orders io 0) (bal io) opportunity
                  (store w) (realExec w)) as G.
    destruct (RealExecutor.executeBuy _ _ _ _ _ _) as [r [s e]]. exact G.
Qed.

Lemma gateway_executeBuy_grows (now : Z) (io : Broker) (opportunity : Opportunity)
    (w : World) :
  ledger_grows (store w) (store (snd (executeBuy now io opportunity w))).
Proof.
  unfold executeBuy.
  destruct (executeBuy_enter now opportunity (store w) (gateway w)) as [[| |] g];
    try apply ledger_grows_refl.
  apply (buy_inner_grows now io opportunity (with_gateway g w)).
Qed.

Lemma sell_inner_grows (now : Z) (io : Broker) (position : Position) (currentPrice : Q)
    (w : World) :
  ledger_grows (store w) (store (snd (sell_inner now io position currentPrice w))).
Proof.
  unfold sell_inner. destruct (mode (gateway w)).
  - pose proof (paper_executeSell_grows now position currentPrice
                  (store w) (paperExec w)) as G.
    destruct (PaperExecutor.executeSell _ _ _ _ _) as [r [s e]]. exact G.
  - pose proof (real_executeSell_grows now (orders io 0) (bal io) position currentPrice
                  (store w) (realExec w)) as G.
    destruct (RealExecutor.executeSell _ _ _ _ _ _ _) as [r [s e]]. exact G.
Qed.

Lemma gateway_executeSell_grows (now : Z) (io : Broker) (position : Position)
    (currentPrice : Q) (w : World) :
  ledger_grows (store w) (store (snd (executeSell now io position currentPrice w))).
Proof.
  unfold executeSell.
  destruct (executeSell_enter position (gateway w)) as [[|] g];
    [|apply ledger_grows_refl].
  pose proof (sell_inner_grows now io position currentPrice (with_gateway g w)) as G.
  destruct (sell_inner _ _ _ _ _) as [r w']. exact G.
Qed.

Lemma gateway_executeArbitrageBuy_grows (now : Z) (io : Broker) (market : MarketRef)
    (outcomes : list ArbOutcome) (totalCost guaranteedProfit : Q) (w : World) :
  ledger_grows (store w)
    (store (snd (executeArbitrageBuy now io market outcomes totalCost guaranteedProfit w))).
Proof.
  unfold executeArbitrageBuy. destruct (mode (gateway w)).
  - pose proof (paper_executeArbitrageBuy_grows now market outcomes totalCost
                  guaranteedProfit (store w) (paperExec w)) as G.
    destruct (PaperExecutor.executeArbitrageBuy _ _ _ _ _ _ _) as [r [s e]]. exact G.
  - pose proof (real_executeArbitrageBuy_grows now (orders io) (bal io) market outcomes
                  totalCost guaranteedProfit (store w) (realExec w)) as G.
    destruct (RealExecutor.executeArbitrageBuy _ _ _ _ _ _ _ _ _) as [r [s e]]. exact G.
Qed.

(** A position found closed is found closed in every later ledger. *)
Lemma closed_stays_closed (i : string) (s s' : SQLiteStore.t) (position : Position) :
  ledger_grows s s' ->
  SQLiteStore.getPosition i s = Some position ->
  p_status position = st_closed ->
  exists later,
    SQLiteStore.getPosition i s' = Some later /\ p_status later = st_closed.
Proof.
  intros G Hpos Hclosed. unfold SQLiteStore.getPosition in *.
  destruct (SQLiteStore.getRow i s) as [r|] eqn:Hr; [|discriminate].
  injection Hpos as <-.
  destruct (getRow_grows i s s' r G Hr) as (r' & Hr' & _ & Hst).
  rewrite Hr'. eexists. split; [reflexivity|]. simpl. by apply Hst.
Qed.
End GatewayLedgerFacts.


(** ** One open position per market and side *)

Section OneOpenPosition.
Context {env : Env}.
Import UnifiedExecutor.

Lemma open_on_app (marketId : string) (sd : Side)
    (rows rows' : list SQLiteStore.PositionRow) :
  open_on marketId sd (rows ++ rows') = open_on marketId sd rows ++ open_on marketId sd rows'.
Proof. unfold open_on. apply List.filter_app. Qed.

(** The gateway's open-position check finds nothing exactly when no open
    row is on that market and side. *)
Lemma no_existing_position (marketId : string) (sd : Side) (s : SQLiteStore.t) :
  List.find (fun p => bool_decide (p_marketId p = marketId) && bool_decide (p_side p = sd))
            (SQLiteStore.getOpenPositions s) = None ->
  open_on marketId sd (SQLiteStore.positions s) = [].
Proof.
  unfold SQLiteStore.getOpenPositions, open_on.
  induction (SQLiteStore.positions s) as [|r rows IH]; [done|].
  cbn [List.filter]. destruct (bool_decide (SQLiteStore.status r = st_open)); cbn [andb].
  - rewrite fmap_cons. cbn [List.find SQLiteStore.rowToPosition p_marketId p_side].
    destruct (bool_decide (SQLiteStore.market_id r = marketId)
              && bool_decide (SQLiteStore.side r = sd)); [discriminate | exact IH].
  - exact IH.
Qed.

Lemma appended_open_keeps_one (marketId : string) (sd : Side) (s s' : SQLiteStore.t) :
  appended_open marketId sd s s' ->
  open_on marketId sd (SQLiteStore.positions s) = [] ->
  at_most_one_open s -> at_most_one_open s'.
Proof.
  intros (row & E & Hm & Hs & Ho) Hnone Hinv m' sd'.
  rewrite E, open_on_app, length_app.
  destruct (decide (m' = marketId /\ sd' = sd)) as [[-> ->]|Hne].
  - rewrite Hnone. unfold open_on. simpl.
    destruct (_ && _); simpl; lia.
  - specialize (Hinv m' sd').
    assert (open_on m' sd' [row] = []) as ->; [|simpl; lia].
    unfold open_on. simpl. rewrite Hm, Hs.
    destruct (bool_decide (marketId = m')) eqn:E1;
      destruct (bool_decide (sd = sd')) eqn:E2;
      rewrite ?andb_false_r; try done.
    apply bool_decide_eq_true in E1, E2. subst. by destruct Hne.
Qed.

Lemma same_positions_keeps_one (s s' : SQLiteStore.t) :
  SQLiteStore.positions s' = SQLiteStore.positions s ->
  at_most_one_open s -> at_most_one_open s'.
Proof. intros E Hinv m sd. rewrite E. apply Hinv. Qed.

End OneOpenPosition.


(** ** Rounded arithmetic *)

(** The error of two operations in sequence. *)
Lemma compose_error (x d v u : Q) :
  - v <= x -> x <= v -> - u <= d -> d <= u -> 0 <= u -> u <= 1 -> 0 <= v -> v <= 1 ->
  - (v + u + v * u) <= x + d + x * d /\ x + d + x * d <= v + u + v * u.
Proof.
  intros Lx Ux Ld Ud Hu Hu1 Hv Hv1.
  assert (0 <= (v - x) * (1 + d)) by (apply Qmult_le_0_compat; lra).
  assert (0 <= (u - d) * (1 + v)) by (apply Qmult_le_0_compat; lra).
  assert (0 <= (x + v) * (1 + d)) by (apply Qmult_le_0_compat; lra).
  assert (0 <= (d + u) * (1 - v)) by (apply Qmult_le_0_compat; lra).
  assert (0 <= v * u) by (apply Qmult_le_0_compat; lra).
  split; lra.
Qed.

(** What follows holds of every rounding of relative error at most [u]. *)
Section Rounding.
Variables (u : Q) (rnd : Q -> Q).
Hypothesis u_nonneg : 0 <= u.
Hypothesis rounds : roundsWithin u rnd.

(** A rounded number is the exact one times [1 + d], [d] within [u]. *)
Lemma rounded_factor (x : Q) : exists d, rnd x == x * (1 + d) /\ - u <= d /\ d <= u.
Proof.
  pose proof (rounds x) as H.
  destruct (Qeq_dec x 0) as [Hz|Hnz].
  - exists 0. split; [|lra].
    assert (H0 : Qabs (rnd x - x) <= 0).
    { eapply Qle_trans; [exact H|]. rewrite Hz. change (Qabs 0) with 0. lra. }
    apply Qabs_Qle_condition in H0. lra.
  - exists ((rnd x - x) / x). split; [field; exact Hnz|].
    apply Qabs_Qle_condition in H.
    destruct (Qlt_le_dec 0 x) as [Hpos|Hneg].
    + rewrite Qabs_pos in H by lra. split.
      * apply Qle_shift_div_l; [exact Hpos|]. lra.
      * apply Qle_shift_div_r; [exact Hpos|]. lra.
    + assert (Hx : x < 0) by (apply Qle_lteq in Hneg as [Hlt|Heq]; [exact Hlt|contradiction]).
      rewrite Qabs_neg in H by lra.
      assert (E : (rnd x - x) / x == (x - rnd x) / (- x)) by (field; exact Hnz).
      rewrite E. split.
      * apply Qle_shift_div_l; [lra|]. lra.
      * apply Qle_shift_div_r; [lra|]. lra.
Qed.

(** Three rounded operations stay within [4 * u] of the exact quotient. *)
Lemma roundedShares_close (netInvestment totalCost price : Q) :
  u <= 0.25 -> ~ totalCost == 0 -> ~ price == 0 ->
  Qabs (roundedShares rnd netInvestment totalCost price - netInvestment / totalCost)
  <= 4 * u * Qabs (netInvestment / totalCost).
Proof.
  intros Hu Ht Hp. unfold roundedShares. cbv zeta.
  destruct (rounded_factor (netInvestment * price)) as (d1 & E1 & L1 & U1).
  destruct (rounded_factor (rnd (netInvestment * price) / totalCost)) as (d2 & E2 & L2 & U2).
  destruct (rounded_factor (rnd (rnd (netInvestment * price) / totalCost) / price))
    as (d3 & E3 & L3 & U3).
  rewrite E3, E2, E1.
  set (e12 := d1 + d2 + d1 * d2).
  set (e := e12 + d3 + e12 * d3).
  assert (Eq : netInvestment * price * (1 + d1) / totalCost * (1 + d2) / price * (1 + d3)
               - netInvestment / totalCost
               == netInvestment / totalCost * e).
  { unfold e, e12. field. split; assumption. }
  rewrite Eq, Qabs_Qmult.
  assert (Huu : u * u <= 0.25 * u).
  { assert (0 <= u * (0.25 - u)) by (apply Qmult_le_0_compat; lra). lra. }
  destruct (compose_error d1 d2 u u) as [L12 U12]; try lra. fold e12 in L12, U12.
  destruct (compose_error e12 d3 (2.25 * u) u) as [L U]; try lra. fold e in L, U.
  assert (B : Qabs e <= 4 * u) by (apply Qabs_Qle_condition; split; lra).
  pose proof (Qabs_nonneg (netInvestment / totalCost)) as Hn.
  set (m := Qabs (netInvestment / totalCost)) in *. set (ae := Qabs e) in *.
  assert (0 <= m * (4 * u - ae)) by (apply Qmult_le_0_compat; lra). lra.
Qed.

End Rounding.

(** The percentage moves with the price. *)
Lemma percent_lower (price entry k : Q) :
  0 < entry -> k * entry <= price -> (k - 1) * 100 <= (price - entry) / entry * 100.
Proof.
  intros He H.
  assert (E : (price - entry) / entry * 100 - (k - 1) * 100
              == (price - k * entry) * (100 / entry)) by (field; lra).
  assert (P : 0 < 100 / entry) by (apply Qlt_shift_div_l; lra).
  assert (0 <= (price - k * entry) * (100 / entry)) by (apply Qmult_le_0_compat; lra).
  lra.
Qed.

(** And back. *)
Lemma percent_upper (price entry k : Q) :
  0 < entry -> price <= k * entry -> (price - entry) / entry * 100 <= (k - 1) * 100.
Proof.
  intros He H.
  assert (E : (k - 1) * 100 - (price - entry) / entry * 100
              == (k * entry - price) * (100 / entry)) by (field; lra).
  assert (P : 0 < 100 / entry) by (apply Qlt_shift_div_l; lra).
  assert (0 <= (k * entry - price) * (100 / entry)) by (apply Qmult_le_0_compat; lra).
  lra.
Qed.

Section RoundedPercent.
Variables (u : Q) (rnd : Q -> Q).
Hypothesis u_nonneg : 0 <= u.
Hypothesis u_small : u <= 0.000001.
Hypothesis rounds : roundsWithin u rnd.

(** Three rounded operations multiply the exact percentage by [1 + e],
    [e] within [4 * u]. *)
Lemma roundedPercent_factor (price entry : Q) :
  ~ entry == 0 ->
  exists e, roundedPercent rnd price entry == (price - entry) / entry * 100 * (1 + e)
            /\ - (4 * u) <= e /\ e <= 4 * u.
Proof.
  intros He. unfold roundedPercent.
  destruct (rounded_factor u rnd u_nonneg rounds (price - entry)) as (d1 & E1 & L1 & U1).
  destruct (rounded_factor u rnd u_nonneg rounds (rnd (price - entry) / entry))
    as (d2 & E2 & L2 & U2).
  destruct (rounded_factor u rnd u_nonneg rounds (rnd (rnd (price - entry) / entry) * 100))
    as (d3 & E3 & L3 & U3).
  set (e12 := d1 + d2 + d1 * d2).
  exists (e12 + d3 + e12 * d3). split.
  - rewrite E3, E2, E1. unfold e12. field. exact He.
  - assert (Huu : u * u <= 0.25 * u).
    { assert (0 <= u * (0.25 - u)) by (apply Qmult_le_0_compat; lra). lra. }
    destruct (compose_error d1 d2 u u) as [L12 U12]; try lra. fold e12 in L12, U12.
    destruct (compose_error e12 d3 (2.25 * u) u) as [L U]; try lra.
Qed.

(** A number clear of a threshold by 0.01 stays on its side of it when
    multiplied by [1 + e]. *)
Lemma scaled_above (x e c : Q) :
  - (4 * u) <= e -> e <= 4 * u -> 0 <= c -> c <= 100 ->
  c + 0.01 <= x -> c <= x * (1 + e).
Proof.
  intros Le Ue Hc Hc' Hx.
  assert (0 <= x * (e + 4 * u)) by (apply Qmult_le_0_compat; lra).
  assert (0 <= (x - (c + 0.01)) * (1 - 4 * u)) by (apply Qmult_le_0_compat; lra).
  assert (0 <= (100 - c) * u) by (apply Qmult_le_0_compat; lra).
  lra.
Qed.

(** The same from below, and for a negative threshold. *)
Lemma scaled_below (x e c : Q) :
  - (4 * u) <= e -> e <= 4 * u -> 0 <= c -> c <= 100 ->
  x <= c - 0.01 -> x * (1 + e) < c.
Proof.
  intros Le Ue Hc Hc' Hx.
  destruct (Qlt_le_dec x 0) as [Hneg|Hpos].
  - assert (0 < (- x) * (1 + e)) by (apply Qmult_lt_0_compat; lra). lra.
  - assert (0 <= x * (4 * u - e)) by (apply Qmult_le_0_compat; lra).
    assert (0 <= (c - 0.01 - x) * (1 + 4 * u)) by (apply Qmult_le_0_compat; lra).
    assert (0 <= c * u) by (apply Qmult_le_0_compat; lra).
    assert (0 <= (100 - c) * u) by (apply Qmult_le_0_compat; lra).
    lra.
Qed.

Lemma scaled_below_neg (x e c : Q) :
  - (4 * u) <= e -> e <= 4 * u -> 0 <= c -> c <= 100 ->
  x <= - (c + 0.01) -> x * (1 + e) <= - c.
Proof.
  intros Le Ue Hc Hc' Hx.
  assert (H := scaled_above (- x) e c Le Ue Hc Hc').
  assert (c <= - x * (1 + e)) by (apply H; lra). lra.
Qed.

Lemma scaled_above_neg (x e c : Q) :
  - (4 * u) <= e -> e <= 4 * u -> 0 <= c -> c <= 100 ->
  - (c - 0.01) <= x -> - c < x * (1 + e).
Proof.
  intros Le Ue Hc Hc' Hx.
  assert (H := scaled_below (- x) e c Le Ue Hc Hc').
  assert (- x * (1 + e) < c) by (apply H; lra). lra.
Qed.

(** The tests on the rounded percentage, away from the threshold [c]. *)
Lemma roundedPercent_ge (price entry c : Q) :
  0 < entry -> 0 <= c -> c <= 100 ->
  (1 + (c + 0.01) * 0.01) * entry <= price ->
  Qgeb (roundedPercent rnd price entry) c = true.
Proof.
  intros He Hc Hc' H. apply Qgeb_true.
  destruct (roundedPercent_factor price entry) as (e & -> & Le & Ue); [lra|].
  apply scaled_above; try assumption.
  pose proof (percent_lower price entry _ He H). lra.
Qed.

Lemma roundedPercent_lt (price entry c : Q) :
  0 < entry -> 0 <= c -> c <= 100 ->
  price <= (1 + (c - 0.01) * 0.01) * entry ->
  Qgeb (roundedPercent rnd price entry) c = false
  /\ Qltb (roundedPercent rnd price entry) c = true.
Proof.
  intros He Hc Hc' H.
  destruct (roundedPercent_factor price entry) as (e & E & Le & Ue); [lra|].
  assert (L : roundedPercent rnd price entry < c).
  { rewrite E. apply scaled_below; try assumption.
    pose proof (percent_upper price entry _ He H). lra. }
  split; [by apply Qgeb_false|by apply Qltb_true].
Qed.

Lemma roundedPercent_le_neg (price entry c : Q) :
  0 < entry -> 0 <= c -> c <= 100 ->
  price <= (1 - (c + 0.01) * 0.01) * entry ->
  Qleb (roundedPercent rnd price entry) (- c) = true.
Proof.
  intros He Hc Hc' H. apply Qleb_true.
  destruct (roundedPercent_factor price entry) as (e & -> & Le & Ue); [lra|].
  apply scaled_below_neg; try assumption.
  pose proof (percent_upper price entry _ He H). lra.
Qed.

Lemma roundedPercent_gt_neg (price entry c : Q) :
  0 < entry -> 0 <= c -> c <= 100 ->
  (1 - (c - 0.01) * 0.01) * entry <= price ->
  Qleb (roundedPercent rnd price entry) (- c) = false.
Proof.
  intros He Hc Hc' H. apply Qleb_false.
  destruct (roundedPercent_factor price entry) as (e & -> & Le & Ue); [lra|].
  apply scaled_above_neg; try assumption.
  pose proof (percent_lower price entry _ He H). lra.
Qed.

End RoundedPercent.

(** Exact arithmetic is a rounding of relative error 0. *)
Lemma exact_rounds : roundsWithin 0 (fun x => x).
Proof.
  intros x. assert (E : x - x == 0) by ring. rewrite E. change (Qabs 0) with 0. lra.
Qed.

Section RoundedExits.
Variables (u : Q) (rnd : Q -> Q).
Hypothesis u_nonneg : 0 <= u.
Hypothesis u_small : u <= 0.000001.
Hypothesis rounds : roundsWithin u rnd.

(** The exit rules and the instant-exit test on rounded percentages. *)
Lemma base_shouldExitRounded (position : Position) (currentPrice : Q) :
  0 < p_entryPrice position ->
  (1.2001 * p_entryPrice position <= currentPrice
   \/ currentPrice <= 0.8499 * p_entryPrice position ->
   BaseStrategy.shouldExitRounded rnd position currentPrice = true)
  /\ (0.8501 * p_entryPrice position <= currentPrice ->
      currentPrice <= 1.1999 * p_entryPrice position ->
      BaseStrategy.shouldExitRounded rnd position currentPrice = false).
Proof.
  intros He. unfold BaseStrategy.shouldExitRounded. cbv zeta.
  set (e := p_entryPrice position) in *. split.
  - intros [H|H].
    + rewrite (roundedPercent_ge u rnd u_nonneg u_small rounds currentPrice e 20)
        by lra. reflexivity.
    + pose proof (roundedPercent_le_neg u rnd u_nonneg u_small rounds currentPrice e 15)
        as L.
      change (- (15)) with (-15) in L. rewrite L by lra. by destruct (Qgeb _ _).
  - intros H1 H2.
    destruct (roundedPercent_lt u rnd u_nonneg u_small rounds currentPrice e 20)
      as [-> _]; [lra..|].
    pose proof (roundedPercent_gt_neg u rnd u_nonneg u_small rounds currentPrice e 15)
      as L.
    change (- (15)) with (-15) in L. rewrite L by lra. reflexivity.
Qed.

Lemma value_shouldExitRounded (position : Position) (price : Q) :
  let entry := p_entryPrice position in
  let held := p_currentPrice position in
  0 < entry ->
  (1.1501 * entry <= price
   \/ price <= 0.7999 * entry
   \/ 0.95 <= price
   \/ price <= 0.05
   \/ (1.1001 * entry <= held /\ price <= 1.0299 * entry) ->
   ValueBettingStrategy.shouldExitRounded rnd position price = true)
  /\ (0.8001 * entry <= price -> price <= 1.1499 * entry ->
      0.05 < price -> price < 0.95 ->
      held <= 1.0999 * entry \/ 1.0301 * entry <= price ->
      ValueBettingStrategy.shouldExitRounded rnd position price = false).
Proof.
  intros e c He. unfold ValueBettingStrategy.shouldExitRounded. cbv zeta.
  fold e c. set (rp := roundedPercent rnd price e). set (rc := roundedPercent rnd c e).
  pose proof (roundedPercent_ge u rnd u_nonneg u_small rounds) as GE.
  pose proof (roundedPercent_lt u rnd u_nonneg u_small rounds) as LT.
  pose proof (roundedPercent_le_neg u rnd u_nonneg u_small rounds) as LE.
  pose proof (roundedPercent_gt_neg u rnd u_nonneg u_small rounds) as GT.
  split.
  - intros H.
    destruct (Qgeb rp 15) eqn:T1; [reflexivity|].
    destruct (Qleb rp (-20)) eqn:T2; [reflexivity|].
    destruct (Qgeb price 0.95) eqn:T3; [reflexivity|].
    destruct (Qleb price 0.05) eqn:T4; [reflexivity|].
    cbn [orb].
    destruct H as [H|[H|[H|[H|[H1 H2]]]]].
    + exfalso. unfold rp in T1. rewrite (GE price e 15) in T1 by lra. discriminate T1.
    + exfalso. unfold rp in T2. pose proof (LE price e 20) as L.
      change (- (20)) with (-20) in L. rewrite L in T2 by lra. discriminate T2.
    + exfalso. q_tests. lra.
    + exfalso. q_tests. lra.
    + destruct (LT price e 3) as [_ L3]; [lra..|]. fold rp in L3. rewrite L3.
      assert (G : Qgeb rc 10 = true) by (unfold rc; apply GE; lra).
      assert (M : Qgeb (Qmax rc rp) 10 = true).
      { apply Qgeb_true. apply Qgeb_ge in G.
        eapply Qle_trans; [exact G|apply Q.le_max_l]. }
      rewrite M. reflexivity.
  - intros H1 H2 H3 H4 H5.
    destruct (LT price e 15) as [T1 _]; [lra..|]. fold rp in T1. rewrite T1.
    pose proof (GT price e 20) as T2. change (- (20)) with (-20) in T2.
    fold rp in T2. rewrite T2 by lra.
    rewrite (Qgeb_false price 0.95) by lra. rewrite (Qleb_false price 0.05) by lra.
    cbn [orb].
    destruct (Qltb rp 3) eqn:T6; [|by rewrite andb_false_r].
    destruct H5 as [H5|H5].
    + destruct (LT c e 10) as [_ L10]; [lra..|]. fold rc in L10.
      assert (M : Qgeb (Qmax rc rp) 10 = false).
      { apply Qgeb_false. q_tests. apply Q.max_lub_lt; lra. }
      rewrite M. reflexivity.
    + exfalso. pose proof (GE price e 3) as G. fold rp in G.
      assert (Qgeb rp 3 = true) by (apply G; lra). q_tests. lra.
Qed.

Lemma exitTestRounded_clear (assetId : string) (currentPrice : Q) (position : Position) :
  (p_outcomeId position = assetId -> offThreshold currentPrice position) ->
  exitTestRounded rnd assetId currentPrice position
  = clearExit assetId currentPrice position.
Proof.
  intros Hoff. unfold exitTestRounded, clearExit.
  case_bool_decide as Hid; [|reflexivity]. cbn [andb].
  destruct (Hoff Hid) as [He Hband]. f_equal.
  destruct Hband as [H|H].
  - rewrite (roundedPercent_ge u rnd u_nonneg u_small rounds) by lra.
    rewrite Qgeb_true by lra. reflexivity.
  - destruct (roundedPercent_lt u rnd u_nonneg u_small rounds currentPrice
                (p_entryPrice position) 15) as [-> _]; [lra..|].
    rewrite Qgeb_false by lra. reflexivity.
Qed.

End RoundedExits.

Section RoundedAbsolute.
Variables (u : Q) (rnd : Q -> Q).
Hypothesis u_nonneg : 0 <= u.
Hypothesis u_small : u <= 0.000000001.
Hypothesis rounds : roundsWithin u rnd.

(** A rounded number of magnitude at most [B] is within [u * B] of the
    exact one. *)
Lemma rounded_near (x B : Q) :
  - B <= x -> x <= B -> x - u * B <= rnd x /\ rnd x <= x + u * B.
Proof.
  intros L U. pose proof (rounds x) as H.
  assert (Hx : Qabs x <= B) by (apply Qabs_Qle_condition; split; lra).
  assert (0 <= u * (B - Qabs x)) by (apply Qmult_le_0_compat; lra).
  apply Qabs_Qle_condition in H. lra.
Qed.

(** Rounding keeps the sign. *)
Lemma rounded_nonneg (x : Q) : 0 <= x -> 0 <= rnd x.
Proof.
  intros Hx. destruct (rounded_factor u rnd u_nonneg rounds x) as (d & -> & L & U).
  apply Qmult_le_0_compat; lra.
Qed.

(** The rounded edge of a followed whale trade. *)
Lemma followEdgeRounded_bounds (price : Q) :
  0.05 <= price -> price <= 0.95 ->
  0 <= followEdgeRounded rnd price
  /\ followEdgeRounded rnd price <= 0.0801
  /\ (price <= 0.8699 -> 0.0799 <= followEdgeRounded rnd price).
Proof.
  intros Hlo Hhi. unfold followEdgeRounded. cbv zeta.
  destruct (rounded_near (price + 0.08) 2) as [L1 U1]; [lra..|].
  set (s := rnd (price + 0.08)) in *.
  set (d := Qmin 0.95 s - price).
  assert (Hd : 0 <= d /\ d <= 0.08 + u * 2 /\ (price <= 0.8699 -> 0.08 - u * 2 <= d)).
  { unfold d. destruct (Q.min_spec 0.95 s) as [[H ->]|[H ->]]; repeat split; intros; lra. }
  destruct Hd as (D0 & D1 & D2).
  destruct (rounded_near d 2) as [L2 U2]; [lra..|].
  split; [by apply rounded_nonneg|]. split; [lra|]. intros H. specialize (D2 H). lra.
Qed.

(** The rounded edge of a bullish whale signal. *)
Lemma bullishEdgeRounded_bounds (netVolume currentPrice : Q) :
  5000 <= netVolume -> 0 <= currentPrice -> currentPrice <= 1 ->
  (currentPrice <= 0.9199 ->
   0.03 <= WhaleTracking.bullishEdgeRounded rnd netVolume currentPrice
   /\ WhaleTracking.bullishEdgeRounded rnd netVolume currentPrice <= 0.2001)
  /\ (0.9201 <= currentPrice -> currentPrice <= 0.9799 ->
      Qabs (WhaleTracking.bullishEdgeRounded rnd netVolume currentPrice) < 0.03)
  /\ (0.9801 <= currentPrice ->
      WhaleTracking.bullishEdgeRounded rnd netVolume currentPrice <= -0.03).
Proof.
  intros Hnet Hp0 Hp1. unfold WhaleTracking.bullishEdgeRounded. cbv zeta.
  assert (Hx : 0.1 <= netVolume / 50000) by (apply Qle_shift_div_l; lra).
  destruct (rounded_factor u rnd u_nonneg rounds (netVolume / 50000)) as (d1 & E1 & L1 & U1).
  set (r1 := rnd (netVolume / 50000)) in *.
  assert (Hr1 : 0.0999 <= r1).
  { rewrite E1. assert (0 <= (netVolume / 50000 - 0.1) * (1 + d1))
      by (apply Qmult_le_0_compat; lra). lra. }
  assert (Hm : 0.0999 <= Qmin 0.15 r1 /\ Qmin 0.15 r1 <= 0.15).
  { destruct (Q.min_spec 0.15 r1) as [[H ->]|[H ->]]; split; lra. }
  destruct Hm as [Hm1 Hm2].
  destruct (rounded_near (0.05 + Qmin 0.15 r1) 2) as [L2 U2]; [lra..|].
  set (premium := rnd (0.05 + Qmin 0.15 r1)) in *.
  destruct (rounded_near (currentPrice + premium) 2) as [L3 U3]; [lra..|].
  set (s := rnd (currentPrice + premium)) in *.
  set (d := Qmin 0.95 s - currentPrice).
  assert (Hd : - 1 <= d /\ d <= 1
               /\ (currentPrice <= 0.9199 -> 0.0301 <= d /\ d <= 0.20001)
               /\ (0.9201 <= currentPrice -> d == 0.95 - currentPrice)).
  { unfold d. destruct (Q.min_spec 0.95 s) as [[H ->]|[H ->]];
      repeat split; intros; lra. }
  destruct Hd as (D0 & D1 & D2 & D3).
  destruct (rounded_near d 1) as [L4 U4]; [lra..|].
  split; [|split].
  - intros H. specialize (D2 H). split; lra.
  - intros Hl Hh. specialize (D3 Hl). apply Qabs_Qlt_condition. split; lra.
  - intros Hl. assert (0.9201 <= currentPrice) by lra. specialize (D3 H). lra.
Qed.

End RoundedAbsolute.

(** Counting in [Q]. *)
Lemma Qn_succ (n : nat) : inject_Z (Z.of_nat (S n)) == inject_Z (Z.of_nat n) + 1.
Proof. rewrite Nat2Z.inj_succ, <- Z.add_1_r, inject_Z_plus. reflexivity. Qed.

Lemma Qn_le (n m : nat) : (n <= m)%nat -> inject_Z (Z.of_nat n) <= inject_Z (Z.of_nat m).
Proof. intros H. rewrite <- Zle_Qle. lia. Qed.

Lemma Qmin_near (c a b t : Q) :
  a - t <= b -> b <= a + t -> Qmin c a - t <= Qmin c b /\ Qmin c b <= Qmin c a + t.
Proof.
  intros L U.
  destruct (Q.min_spec c a) as [[H1 ->]|[H1 ->]];
    destruct (Q.min_spec c b) as [[H2 ->]|[H2 ->]]; split; lra.
Qed.

Section RoundedDrop.
Variables (u : Q) (rnd : Q -> Q).
Hypothesis u_nonneg : 0 <= u.
Hypothesis u_small : u <= 0.000000001.
Hypothesis rounds : roundsWithin u rnd.
Import EventTrader.

(** The rounded sum of at most 10 prices is within [10 * 16 * u] of the
    exact one. *)
Lemma rounded_sum_near (l : list PricePoint) (k : nat) (acc acc_r : Q) :
  unitPrices l ->
  (k + length l <= 10)%nat ->
  0 <= acc -> acc <= inject_Z (Z.of_nat k) ->
  acc - inject_Z (Z.of_nat k) * (16 * u) <= acc_r ->
  acc_r <= acc + inject_Z (Z.of_nat k) * (16 * u) ->
  let S := fold_left (fun sum p => sum + pt_price p) l acc in
  let Sr := fold_left (fun sum p => rnd (sum + pt_price p)) l acc_r in
  0 <= S /\ S <= inject_Z (Z.of_nat (k + length l))
  /\ S - inject_Z (Z.of_nat (k + length l)) * (16 * u) <= Sr
  /\ Sr <= S + inject_Z (Z.of_nat (k + length l)) * (16 * u).
Proof.
  intros Hall. revert k acc acc_r.
  induction Hall as [|p l [Hp0 Hp1] _ IH]; intros k acc acc_r Hlen H0 Hk L U; cbv zeta.
  - cbn [fold_left length]. rewrite Nat.add_0_r. repeat split; assumption.
  - cbn [fold_left length] in *.
    assert (Hk10 : inject_Z (Z.of_nat k) <= 10).
    { change 10 with (inject_Z (Z.of_nat 10)). apply Qn_le. lia. }
    assert (Hk0 : 0 <= inject_Z (Z.of_nat k)).
    { change 0 with (inject_Z (Z.of_nat 0)). apply Qn_le. lia. }
    assert (Hku : 0 <= inject_Z (Z.of_nat k) * u) by (apply Qmult_le_0_compat; lra).
    assert (Hku' : inject_Z (Z.of_nat k) * u <= 10 * u).
    { assert (0 <= (10 - inject_Z (Z.of_nat k)) * u) by (apply Qmult_le_0_compat; lra).
      lra. }
    destruct (rounded_near u rnd u_nonneg rounds (acc_r + pt_price p) 16) as [L1 U1];
      [lra..|].
    replace (k + S (length l))%nat with (S k + length l)%nat by lia.
    apply IH.
    + lia.
    + lra.
    + rewrite Qn_succ. lra.
    + rewrite Qn_succ. lra.
    + rewrite Qn_succ. lra.
Qed.

(** The rounded mean of 3 to 10 prices is within [18 * u] of the exact
    one. *)
Lemma roundedMean_near (l : list PricePoint) :
  unitPrices l -> (3 <= length l)%nat -> (length l <= 10)%nat ->
  let mean := sumBy pt_price l / inject_Z (Z.of_nat (length l)) in
  0 <= mean /\ mean <= 1
  /\ mean - 18 * u <= roundedMean rnd l /\ roundedMean rnd l <= mean + 18 * u.
Proof.
  intros Hall H3 H10. cbv zeta. unfold roundedMean, sumBy.
  destruct (rounded_sum_near l 0 0 0 Hall) as (S0 & S1 & SL & SU);
    [lia|lra|change (inject_Z (Z.of_nat 0)) with 0; lra..|].
  cbn [Nat.add] in S1, SL, SU.
  set (S := fold_left (fun sum p => sum + pt_price p) l 0) in *.
  set (Sr := fold_left (fun sum p => rnd (sum + pt_price p)) l 0) in *.
  set (n := inject_Z (Z.of_nat (length l))) in *.
  assert (Hn : 3 <= n).
  { change 3 with (inject_Z (Z.of_nat 3)). apply Qn_le. exact H3. }
  assert (M0 : 0 <= S / n) by (apply Qle_shift_div_l; lra).
  assert (M1 : S / n <= 1) by (apply Qle_shift_div_r; lra).
  assert (ML : S / n - 16 * u <= Sr / n).
  { apply Qle_shift_div_l; [lra|].
    assert (E : (S / n - 16 * u) * n == S - n * (16 * u)) by (field; lra).
    rewrite E. exact SL. }
  assert (MU : Sr / n <= S / n + 16 * u).
  { apply Qle_shift_div_r; [lra|].
    assert (E : (S / n + 16 * u) * n == S + n * (16 * u)) by (field; lra).
    rewrite E. exact SU. }
  destruct (rounded_near u rnd u_nonneg rounds (Sr / n) 2) as [L U]; [lra..|].
  repeat split; lra.
Qed.

(** Away from the two thresholds of [handlePriceDrop] the rounded tests
    decide as the exact numbers do. *)
Lemma dropTestsRounded_clear (l : list PricePoint) (currentPrice : Q) :
  unitPrices l -> (3 <= length l)%nat -> (length l <= 10)%nat ->
  0.05 <= currentPrice -> currentPrice <= 0.95 ->
  let mean := sumBy pt_price l / inject_Z (Z.of_nat (length l)) in
  (currentPrice <= mean - 0.0301 ->
   0.0301 <= Qmin 0.9 (mean + 0.02) - currentPrice ->
   dropTestsRounded rnd l currentPrice = true)
  /\ (dropTestsRounded rnd l currentPrice = true ->
      currentPrice <= mean - 0.0299
      /\ 0.0299 <= Qmin 0.9 (mean + 0.02) - currentPrice).
Proof.
  intros Hall H3 H10 Hlo Hhi. cbv zeta.
  destruct (roundedMean_near l Hall H3 H10) as (M0 & M1 & ML & MU).
  unfold dropTestsRounded. cbv zeta.
  set (mean := sumBy pt_price l / inject_Z (Z.of_nat (length l))) in *.
  set (mr := roundedMean rnd l) in *.
  destruct (rounded_near u rnd u_nonneg rounds (currentPrice - mr) 2) as [DL DU];
    [lra..|].
  set (dev := rnd (currentPrice - mr)) in *.
  destruct (rounded_near u rnd u_nonneg rounds (mr + 0.02) 2) as [EL EU]; [lra..|].
  destruct (Qmin_near 0.9 (mean + 0.02) (rnd (mr + 0.02)) (20 * u)) as [QL QU]; [lra..|].
  set (est := Qmin 0.9 (rnd (mr + 0.02))) in *.
  pose proof (Q.le_min_l 0.9 (mean + 0.02)) as C1.
  pose proof (Q.le_min_l 0.9 (rnd (mr + 0.02))) as C2. fold est in C2.
  assert (C3 : 0 <= Qmin 0.9 (mean + 0.02)).
  { destruct (Q.min_spec 0.9 (mean + 0.02)) as [[_ ->]|[_ ->]]; lra. }
  destruct (rounded_near u rnd u_nonneg rounds (est - currentPrice) 2) as [GL GU];
    [lra..|].
  set (edge := rnd (est - currentPrice)) in *.
  split.
  - intros Hdrop Hedge.
    rewrite Qgtb_false by lra. rewrite Qltb_false by lra. reflexivity.
  - intros Htests.
    destruct (Qgtb dev (-0.03)) eqn:T1; [discriminate|].
    destruct (Qltb edge 0.03) eqn:T2; [discriminate|].
    q_tests. split; lra.
Qed.

End RoundedDrop.

(** ** The paper basket *)

Section PaperBasket.
Context {env : Env}.

Lemma getPortfolio_balance (s : SQLiteStore.t) (e : PaperExecutor.t) :
  PaperExecutor.balance (snd (PaperExecutor.getPortfolio s e)) = PaperExecutor.balance e
  /\ pf_balance (fst (PaperExecutor.getPortfolio s e)) = PaperExecutor.balance e
  /\ PaperExecutor.sellingPositions (snd (PaperExecutor.getPortfolio s e))
     = PaperExecutor.sellingPositions e.
Proof.
  unfold PaperExecutor.getPortfolio. cbv zeta. cbn [fst snd pf_balance].
  by destruct (Qgtb _ _).
Qed.

Lemma getPortfolio_totalValue (s : SQLiteStore.t) (e e' : PaperExecutor.t) :
  PaperExecutor.balance e' = PaperExecutor.balance e ->
  pf_totalValue (fst (PaperExecutor.getPortfolio s e'))
  = pf_totalValue (fst (PaperExecutor.getPortfolio s e)).
Proof.
  intros E. unfold PaperExecutor.getPortfolio. cbv zeta. cbn [fst pf_totalValue].
  by rewrite E.
Qed.

Lemma canTrade_state (s : SQLiteStore.t) (e : PaperExecutor.t) :
  snd (PaperExecutor.canTrade s e) = snd (PaperExecutor.getPortfolio s e).
Proof.
  unfold PaperExecutor.canTrade.
  destruct (PaperExecutor.getPortfolio s e) as [pf e1]. cbn [snd].
  destruct (Qgeb _ _); [done|]. cbv zeta. by destruct (Qltb _ _).
Qed.

(** [Q] divides by zero to 0, so an affordable set implies a non-zero cost. *)
Lemma zero_divisor_floor (x y : Q) : y == 0 -> Math_floor (x / y) == 0.
Proof.
  intros Hy. unfold Math_floor.
  assert (E : x / y == 0) by (unfold Qdiv; rewrite Hy; unfold Qinv; simpl; ring).
  rewrite (Qfloor_comp _ _ E). reflexivity.
Qed.


(** C10, as the code has it.  For every paper arbitrage buy that creates
    positions (trading is allowed and at least one whole outcome-set is
    affordable, [sets >= 1]): one position is created per outcome, and the
    shares of each are computed from the same net investment as
    [((netInvestment * price) / totalCost) / price], three operations whose
    result depends on the outcome's price only through their rounding.
    With every operation rounded to a relative error of at most [u] (for
    binary64, [u = 2^-53]), the shares of an outcome with a non-zero price
    are within [4 * u * (netInvestment / totalCost)] of
    [netInvestment / totalCost], where
    [netInvestment = totalInvestment - fees]; in exact arithmetic ([u = 0])
    they are equal to it. *)
Theorem basket_equal_shares (now : Z) (market : MarketRef) (outcomes : list ArbOutcome)
    (totalCost guaranteedProfit : Q) (s : SQLiteStore.t) (e : PaperExecutor.t) :
  let r := PaperExecutor.executeArbitrageBuy now market outcomes totalCost
             guaranteedProfit s e in
  let pf := fst (PaperExecutor.getPortfolio s e) in
  let maxSize := Qmin3 (pf_totalValue pf * maxPositionPct config)
                       (PaperExecutor.balance e * 0.9)
                       (maxPositionUsd config) in
  let sets := Math_floor (maxSize / totalCost) in
  let totalInvestment := sets * totalCost in
  let fees := totalInvestment * PaperExecutor.SIMULATED_FEE_RATE in
  let netInvestment := totalInvestment - fees in
  allowed (fst (PaperExecutor.canTrade s e)) = true ->
  1 <= sets ->
  length (fst r) = length outcomes
  /\ Forall2 (fun o position =>
                p_shares position = roundedShares (fun x => x) netInvestment totalCost
                                      (ao_price o)
                /\ p_shares position = (netInvestment * ao_price o / totalCost) / ao_price o
                /\ (~ ao_price o == 0 ->
                    forall u rnd,
                      0 <= u -> u <= 0.25 -> roundsWithin u rnd ->
                      Qabs (roundedShares rnd netInvestment totalCost (ao_price o)
                            - netInvestment / totalCost)
                      <= 4 * u * Qabs (netInvestment / totalCost)))
             outcomes (fst r).
Proof.
  intros r pf maxSize sets totalInvestment fees netInvestment Hallowed Hsets.
  assert (Hcost : ~ totalCost == 0).
  { intros Hz. pose proof (zero_divisor_floor maxSize totalCost Hz) as Hf.
    fold sets in Hf. rewrite Hf in Hsets. by apply Qle_bool_iff in Hsets. }
  subst r. unfold PaperExecutor.executeArbitrageBuy.
  pose proof (canTrade_state s e) as Hst.
  destruct (PaperExecutor.canTrade s e) as [can e1]. cbn [fst snd] in Hallowed, Hst.
  rewrite Hallowed. cbn [negb].
  destruct (getPortfolio_balance s e) as (Hb1 & _ & _). rewrite <- Hst in Hb1.
  pose proof (getPortfolio_totalValue s e e1 Hb1) as Htv.
  destruct (getPortfolio_balance s e1) as (Hb2 & _ & _).
  destruct (PaperExecutor.getPortfolio s e1) as [pf1 e2]. cbn [fst snd] in Htv, Hb2.
  cbv zeta. rewrite Htv, Hb2, Hb1. fold pf maxSize sets.
  rewrite (Qltb_false _ _ Hsets). fold totalInvestment fees netInvestment.
  match goal with
  | |- context [fold_left (PaperExecutor.arbitrageLeg ?a ?b ?c ?d ?e' ?f ?g) ?os (?ps, ?s0)] =>
      destruct (arbitrageLegs_spec a b c d e' f g os ps s0)
        as (new & rows & F1 & _ & H1 & _);
      destruct (fold_left (PaperExecutor.arbitrageLeg a b c d e' f g) os (ps, s0))
        as [ps1 s1]
  end.
  cbn [fst snd] in F1. subst ps1.
  destruct (PaperExecutor.getPortfolio _ _) as [pf2 e3]. cbn [fst app].
  split; [symmetry; eapply Forall2_length, H1|].
  clear -H1 Hcost. induction H1 as [|o position os ps (Hsh & _) _ IH].
  - constructor.
  - constructor; [|exact IH]. split; [exact Hsh|]. split; [exact Hsh|].
    intros Hp u rnd Hu0 Hu Hrnd. by apply (roundedShares_close u rnd).
Qed.
End PaperBasket.

(** C10 on the three-way basket: 105 sets for $99.75 leave a net investment
    of $99.5505, spread over the three outcomes by the same formula. *)
Lemma basket_equal_shares_witness :
  let r := @PaperExecutor.executeArbitrageBuy demoEnv 1000 threeWayRef threeWay
             0.95 0.05 emptyStore freshPaper in
  allowed (fst (@PaperExecutor.canTrade demoEnv emptyStore freshPaper)) = true
  /\ length (fst r) = 3%nat
  /\ Forall2 (fun o position =>
                p_shares position == (99.5505 * ao_price o / 0.95) / ao_price o)
             threeWay (fst r).
Proof.
  cbv zeta.
  assert (Hallowed : allowed (fst (@PaperExecutor.canTrade demoEnv emptyStore freshPaper))
                     = true) by (vm_compute; reflexivity).
  assert (Hsets : 1 <= Math_floor
                    (Qmin3 (pf_totalValue (fst (PaperExecutor.getPortfolio emptyStore freshPaper))
                            * maxPositionPct (@config demoEnv))
                           (PaperExecutor.balance freshPaper * 0.9)
                           (maxPositionUsd (@config demoEnv)) / 0.95))
    by (vm_compute; intros H; discriminate H).
  destruct (@basket_equal_shares demoEnv 1000 threeWayRef threeWay 0.95 0.05
              emptyStore freshPaper Hallowed Hsets) as [Hlen Hshares].
  split; [exact Hallowed|]. split; [exact Hlen|].
  eapply Forall2_impl; [exact Hshares|].
  intros o position (_ & Hsh & _). cbv beta. rewrite Hsh.
  match goal with
  | |- ?n * _ / _ / _ == _ =>
      assert (Hnet : n == 99.5505) by (vm_compute; reflexivity)
  end.
  by rewrite Hnet.
Defined.

#[local] Set Warnings "-inexact-float".

(** C10 fails in binary64.  The three-way basket at 0.30, 0.30 and 0.35
    (total cost 0.95) bought with a balance of $1000 and a position limit
    of 10% has a net investment of $99.5505; the code's own three
    operations give 104.79000000000001 shares at price 0.30 and
    104.79000000000002 shares at price 0.35, so the positions of one basket
    do not hold exactly the same number of shares. *)
Lemma basket_shares_differ_in_binary64 :
  let net := Binary64.netInvestment 1000 1000 (10 / 100) 5000 0.95 in
  length (fst (@PaperExecutor.executeArbitrageBuy demoEnv 1000 threeWayRef threeWay
                 0.95 0.05 emptyStore freshPaper)) = 3%nat
  /\ List.map ao_price threeWay = [0.30; 0.30; 0.35]
  /\ net = 99.5505%float
  /\ Binary64.shares net 0.95 0.30 = 104.79000000000001%float
  /\ Binary64.shares net 0.95 0.35 = 104.79000000000002%float
  /\ PrimFloat.eqb (Binary64.shares net 0.95 0.30) (Binary64.shares net 0.95 0.35) = false.
Proof. cbv zeta. repeat split; vm_compute; reflexivity. Qed.

(** ** Position sizing *)

Section Sizing.
Context {env : Env}.

Lemma Qmin_eq (a a' b b' : Q) : a == a' -> b == b' -> Qmin a b == Qmin a' b'.
Proof. intros -> ->. reflexivity. Qed.

Lemma Qmax_eq (a a' b b' : Q) : a == a' -> b == b' -> Qmax a b == Qmax a' b'.
Proof. intros -> ->. reflexivity. Qed.

Lemma paper_sizing (opportunity : Opportunity) (s : SQLiteStore.t) (e : PaperExecutor.t) :
  fst (PaperExecutor.calculatePositionSize opportunity s e)
  == sizerSpec PaperExecutor.kellyFractions 0.95 config
       (fst (PaperExecutor.getPortfolio s e)) opportunity.
Proof.
  unfold PaperExecutor.calculatePositionSize, sizerSpec.
  destruct (getPortfolio_balance s e) as (Hb & Hpb & _).
  destruct (PaperExecutor.getPortfolio s e) as [pf e1]. cbn [fst snd] in *.
  destruct (Qleb (opp_edge opportunity) 0); [reflexivity|].
  cbv zeta. cbn [fst].
  apply Qmax_eq; [reflexivity|].
  rewrite Hpb, Hb.
  assert (forall a b c d, a == b -> c == d ->
            (if Qgeb (pf_drawdownPercent pf) (drawdownWarningPct config * 100)
             then a * 0.5 else c)
            == (if Qgeb (pf_drawdownPercent pf) (drawdownWarningPct config * 100)
                then b / 2 else d)) as Hhalf.
  { intros a b c d Hab Hcd. destruct (Qgeb _ _); [|exact Hcd]. rewrite Hab. field. }
  apply Hhalf; (apply Qmin_eq; [|ring]); (apply Qmax_eq; [reflexivity|]);
    (apply Qmin_eq; [|reflexivity]); (apply Qmin_eq; [|ring]);
    (destruct (List.find _ _); [apply Qmin_eq; [reflexivity|ring] | reflexivity]).
Qed.

Lemma real_sizing (opportunity : Opportunity) (e : RealExecutor.t) :
  RealExecutor.calculatePositionSize opportunity e
  == realSizerSpec config (RealExecutor.realBalance e) opportunity.
Proof.
  unfold RealExecutor.calculatePositionSize, realSizerSpec.
  destruct (Qleb (opp_edge opportunity) 0); [reflexivity|].
  cbv zeta.
  apply Qmax_eq; [reflexivity|].
  apply Qmin_eq; [|ring]. apply Qmax_eq; [reflexivity|].
  apply Qmin_eq; [|field].
  assert (maxPositionPct config * 0.5 == maxPositionPct config / 2) as -> by field.
  reflexivity.
Qed.

Lemma real_multipliers_halved (c : ConfidenceLevel) :
  RealExecutor.kellyFractions c == PaperExecutor.kellyFractions c / 2
  /\ RealExecutor.kellyFractions c < PaperExecutor.kellyFractions c.
Proof. destruct c; split; vm_compute; reflexivity. Qed.


(** C5, as the code has it. In paper mode [calculatePositionSize] is the
    pipeline of the specification on the current portfolio snapshot: 0 when
    edge <= 0, otherwise the full Kelly fraction [edge / (1 - entryPrice)]
    times the confidence multiplier (0.15 / 0.25 / 0.40 / 0.50), capped at
    the max-position percent, times total value; capped by the remaining
    strategy budget and the remaining category budget; clamped to the
    [min, max] USD bounds; capped at 95% of cash; halved at or beyond the
    drawdown warning; floored at 0.  In real mode it is a shorter pipeline
    on the cash balance alone: the multipliers are half the paper ones, the
    percent cap and the USD maximum are halved, the cash cap is 80%, and
    there is no strategy cap, no category cap and no drawdown halving. *)
Theorem position_sizing_by_mode (opportunity : Opportunity)
    (s : SQLiteStore.t) (e : PaperExecutor.t) (re : RealExecutor.t) :
  fst (PaperExecutor.calculatePositionSize opportunity s e)
  == sizerSpec PaperExecutor.kellyFractions 0.95 config
       (fst (PaperExecutor.getPortfolio s e)) opportunity
  /\ RealExecutor.calculatePositionSize opportunity re
     == realSizerSpec config (RealExecutor.realBalance re) opportunity
  /\ (forall c, RealExecutor.kellyFractions c == PaperExecutor.kellyFractions c / 2
                /\ RealExecutor.kellyFractions c < PaperExecutor.kellyFractions c)
  /\ (opp_edge opportunity <= 0 ->
      fst (PaperExecutor.calculatePositionSize opportunity s e) = 0
      /\ RealExecutor.calculatePositionSize opportunity re = 0)
  /\ 0 <= fst (PaperExecutor.calculatePositionSize opportunity s e)
  /\ 0 <= RealExecutor.calculatePositionSize opportunity re.
Proof.
  split; [apply paper_sizing|]. split; [apply real_sizing|].
  split; [apply real_multipliers_halved|]. split; [|split].
  - intros Hedge. apply Qleb_true in Hedge.
    unfold PaperExecutor.calculatePositionSize, RealExecutor.calculatePositionSize.
    destruct (PaperExecutor.getPortfolio s e) as [pf e1]. by rewrite Hedge.
  - unfold PaperExecutor.calculatePositionSize.
    destruct (PaperExecutor.getPortfolio s e) as [pf e1].
    destruct (Qleb _ 0); cbn [fst]; [apply Qle_refl | apply Q.le_max_l].
  - unfold RealExecutor.calculatePositionSize.
    destruct (Qleb _ 0); [apply Qle_refl | apply Q.le_max_l].
Qed.
End Sizing.

(** C5 fails in real mode: at a 20% drawdown (warning threshold 15%) the
    adapter sizes the position at $33.33, not at the halved $16.67 of the
    pipeline. *)
Lemma real_sizing_ignores_drawdown :
  @RealExecutor.calculatePositionSize demoEnv yesOpportunity drawnDownReal == 100 / 3
  /\ sizerSpec RealExecutor.kellyFractions 0.8 defaultConfig drawnDownPortfolio
               yesOpportunity == 50 / 3
  /\ ~ @RealExecutor.calculatePositionSize demoEnv yesOpportunity drawnDownReal
       == sizerSpec RealExecutor.kellyFractions 0.8 defaultConfig drawnDownPortfolio
                    yesOpportunity.
Proof.
  assert (H1 : @RealExecutor.calculatePositionSize demoEnv yesOpportunity drawnDownReal
               == 100 / 3) by (vm_compute; reflexivity).
  assert (H2 : sizerSpec RealExecutor.kellyFractions 0.8 defaultConfig drawnDownPortfolio
                          yesOpportunity == 50 / 3) by (vm_compute; reflexivity).
  repeat split; try assumption.
  rewrite H1, H2. intros H. vm_compute in H. discriminate H.
Qed.

(** C5 on an opportunity without edge: both modes size it at 0. *)
Lemma position_sizing_by_mode_witness :
  opp_edge flatOpportunity <= 0
  /\ fst (@PaperExecutor.calculatePositionSize demoEnv flatOpportunity emptyStore freshPaper)
     = 0
  /\ @RealExecutor.calculatePositionSize demoEnv flatOpportunity drawnDownReal = 0.
Proof.
  assert (H : opp_edge flatOpportunity <= 0) by (vm_compute; intros E; discriminate E).
  split; [exact H|].
  exact (proj1 (proj2 (proj2 (proj2
           (@position_sizing_by_mode demoEnv flatOpportunity emptyStore
              freshPaper drawnDownReal)))) H).
Defined.

(** ** Trading gate *)

Section Gating.
Context {env : Env}.
Import UnifiedExecutor.

Lemma paper_canTrade_blocked (s : SQLiteStore.t) (e : PaperExecutor.t) :
  let pf := fst (PaperExecutor.getPortfolio s e) in
  allowed (fst (PaperExecutor.canTrade s e)) = false
  <-> drawdownHaltPct config * 100 <= pf_drawdownPercent pf
      \/ PaperExecutor.balance e < pf_totalValue pf * minBufferPct config.
Proof.
  cbv zeta. unfold PaperExecutor.canTrade.
  destruct (getPortfolio_balance s e) as (Hb & _).
  destruct (PaperExecutor.getPortfolio s e) as [pf e1]. cbn [fst snd] in *.
  rewrite <- Hb.
  destruct (Qgeb _ _) eqn:Hhalt; cbv zeta.
  - q_tests. cbn. tauto.
  - destruct (Qltb _ _) eqn:Hbuf; q_tests; cbn.
    + tauto.
    + split; [discriminate|]. intros [H|H]; exfalso.
      * exact (Qlt_not_le _ _ Hhalt H).
      * exact (Qlt_not_le _ _ H Hbuf).
Qed.

Lemma real_canTrade_blocked (re : RealExecutor.t) :
  allowed (RealExecutor.canTrade re) = false
  <-> RealExecutor.initialized re = false
      \/ RealExecutor.realBalance re < minPositionUsd config * 2.
Proof.
  unfold RealExecutor.canTrade.
  destruct (RealExecutor.initialized re); cbn [negb].
  - destruct (Qltb _ _) eqn:Hbal; q_tests; cbn.
    + tauto.
    + split; [discriminate|]. intros [H|H]; [discriminate|].
      exfalso. exact (Qlt_not_le _ _ H Hbal).
  - cbn. tauto.
Qed.

(** A sell through the gateway in paper mode goes through whenever it is
    not already in flight. *)
Lemma paper_sell_goes_through (now : Z) (io : Broker) (sold : Position)
    (currentPrice : Q) (w : World) :
  mode (gateway w) = paper ->
  p_id sold ∉ pendingSells (gateway w) ->
  p_id sold ∉ PaperExecutor.sellingPositions (paperExec w) ->
  exists trade,
    fst (executeSell now io sold currentPrice w) = Some trade
    /\ t_action trade = SELL
    /\ t_positionId trade = p_id sold
    /\ SQLiteStore.trades (store (snd (executeSell now io sold currentPrice w)))
       = SQLiteStore.trades (store w) ++ [trade].
Proof.
  intros Hmode Hpending Hselling. unfold executeSell, executeSell_enter.
  rewrite bool_decide_eq_false_2 by done.
  unfold sell_inner.
  cbn [with_gateway with_pendingSells gateway store paperExec realExec mode].
  rewrite Hmode.
  destruct (paper_sell_positions now sold currentPrice (store w) (paperExec w) Hselling)
    as (_ & trade & Hret & Hact & Hid & Htrades).
  destruct (PaperExecutor.executeSell _ _ _ _ _) as [r [s e]]. cbn [fst snd] in *.
  exists trade. by repeat split.
Qed.

Lemma real_sell_goes_through (now : Z) (io : Broker) (sold : Position)
    (currentPrice : Q) (w : World) (orderResult : ClobOrderResponse) (b : Q) :
  mode (gateway w) = real ->
  p_id sold ∉ pendingSells (gateway w) ->
  RealExecutor.initialized (realExec w) = true ->
  orders io 0 = Returned orderResult ->
  RealExecutor.notFilled orderResult = false ->
  bal io = Returned b ->
  exists trade, fst (executeSell now io sold currentPrice w) = Some trade.
Proof.
  intros Hmode Hpending Hinit Horder Hfilled Hbal. unfold executeSell, executeSell_enter.
  rewrite bool_decide_eq_false_2 by done.
  unfold sell_inner.
  cbn [with_gateway with_pendingSells gateway store paperExec realExec mode].
  rewrite Hmode. unfold RealExecutor.executeSell.
  rewrite Hinit, Horder, Hfilled, Hbal. cbn [negb]. cbv zeta.
  destruct (SQLiteStore.closePosition _ _ _ _) as [closed s1].
  destruct (SQLiteStore.recordTrade _ _) as [trade s2]. cbn [fst]. by exists trade.
Qed.

Lemma blocked_buys_refused (now : Z) (io : Broker) (w : World) :
  allowed (fst (canTrade w)) = false ->
  (forall opportunity, fst (executeBuy now io opportunity w) = None)
  /\ (forall market outcomes totalCost guaranteedProfit,
        fst (executeArbitrageBuy now io market outcomes totalCost guaranteedProfit w) = []).
Proof.
  unfold canTrade. intros Hblocked. split.
  - intros opportunity. unfold executeBuy.
    destruct (executeBuy_enter now opportunity (store w) (gateway w)) as [guard g] eqn:E.
    assert (Hg : mode g = mode (gateway w)).
    { unfold executeBuy_enter in E. destruct (List.find _ _); [by injection E as _ <-|].
      destruct (inCooldown _ _); by injection E as _ <-. }
    destruct guard; try reflexivity.
    unfold buy_inner. cbn [with_gateway gateway store paperExec realExec]. rewrite Hg.
    destruct (mode (gateway w)).
    + unfold PaperExecutor.executeBuy.
      destruct (PaperExecutor.canTrade (store w) (paperExec w)) as [can e1].
      cbn [fst] in Hblocked. by rewrite Hblocked.
    + unfold RealExecutor.executeBuy. cbn [fst] in Hblocked.
      destruct (negb (RealExecutor.initialized _)); [done|]. by rewrite Hblocked.
  - intros market outcomes totalCost guaranteedProfit. unfold executeArbitrageBuy.
    destruct (mode (gateway w)).
    + unfold PaperExecutor.executeArbitrageBuy.
      destruct (PaperExecutor.canTrade (store w) (paperExec w)) as [can e1].
      cbn [fst] in Hblocked. by rewrite Hblocked.
    + unfold RealExecutor.executeArbitrageBuy. cbn [fst] in Hblocked.
      destruct (negb (RealExecutor.initialized _)); [done|]. by rewrite Hblocked.
Qed.

(** C6, as the code has it. In paper mode [canTrade] answers
    [allowed = false] exactly when the drawdown percentage is at or above
    the halt threshold or the cash balance is below the minimum-buffer
    fraction of total value.  In real mode it answers [allowed = false]
    exactly when the adapter is not initialized or the cash balance is below
    twice the minimum position size; the drawdown is not consulted there.
    In a blocked state buys and arbitrage buys return nothing, while a sell
    is never gated: in paper mode it returns its trade whenever it is not
    already in flight, and in real mode whenever the broker fills it. *)
Theorem canTrade_by_mode (now : Z) (io : Broker) (w : World) :
  (mode (gateway w) = paper ->
   let pf := fst (PaperExecutor.getPortfolio (store w) (paperExec w)) in
   allowed (fst (canTrade w)) = false
   <-> drawdownHaltPct config * 100 <= pf_drawdownPercent pf
       \/ PaperExecutor.balance (paperExec w) < pf_totalValue pf * minBufferPct config)
  /\ (mode (gateway w) = real ->
      allowed (fst (canTrade w)) = false
      <-> RealExecutor.initialized (realExec w) = false
          \/ RealExecutor.realBalance (realExec w) < minPositionUsd config * 2)
  /\ (allowed (fst (canTrade w)) = false ->
      (forall opportunity, fst (executeBuy now io opportunity w) = None)
      /\ (forall market outcomes totalCost guaranteedProfit,
            fst (executeArbitrageBuy now io market outcomes totalCost guaranteedProfit w)
            = []))
  /\ (forall sold currentPrice,
        mode (gateway w) = paper ->
        p_id sold ∉ pendingSells (gateway w) ->
        p_id sold ∉ PaperExecutor.sellingPositions (paperExec w) ->
        exists trade, fst (executeSell now io sold currentPrice w) = Some trade)
  /\ (forall sold currentPrice orderResult b,
        mode (gateway w) = real ->
        p_id sold ∉ pendingSells (gateway w) ->
        RealExecutor.initialized (realExec w) = true ->
        orders io 0 = Returned orderResult ->
        RealExecutor.notFilled orderResult = false ->
        bal io = Returned b ->
        exists trade, fst (executeSell now io sold currentPrice w) = Some trade).
Proof.
  split; [|split; [|split; [|split]]].
  - intros Hmode. cbv zeta. unfold canTrade. rewrite Hmode.
    pose proof (paper_canTrade_blocked (store w) (paperExec w)) as H.
    destruct (PaperExecutor.canTrade (store w) (paperExec w)) as [can e1]. exact H.
  - intros Hmode. unfold canTrade. rewrite Hmode. apply real_canTrade_blocked.
  - apply blocked_buys_refused.
  - intros sold currentPrice Hmode Hpending Hselling.
    destruct (paper_sell_goes_through now io sold currentPrice w Hmode Hpending Hselling)
      as (trade & Htrade & _). by exists trade.
  - intros sold currentPrice orderResult b. apply real_sell_goes_through.
Qed.
End Gating.

(** C6 fails in real mode: at a 26% drawdown (halt threshold 25%), with
    the balance above the floor, [canTrade] still allows buys. *)
Lemma real_canTrade_ignores_drawdown :
  let re := UnifiedExecutor.realExec (haltedWorld UnifiedExecutor.real) in
  (RealExecutor.peakValue re - RealExecutor.realBalance re) / RealExecutor.peakValue re * 100
  == 26
  /\ drawdownHaltPct defaultConfig * 100 <= 26
  /\ RealExecutor.initialized re = true
  /\ minPositionUsd defaultConfig * 2 <= RealExecutor.realBalance re
  /\ allowed (fst (@UnifiedExecutor.canTrade demoEnv (haltedWorld UnifiedExecutor.real)))
     = true.
Proof.
  cbv zeta. repeat split; try (vm_compute; reflexivity);
    vm_compute; intros H; discriminate H.
Qed.

(** C6 on the example of the specification: peak value 1000, total value
    740 and a 25% halt threshold give [allowed = false] in paper mode. *)
Lemma canTrade_by_mode_witness :
  let w := haltedWorld UnifiedExecutor.paper in
  let pf := fst (PaperExecutor.getPortfolio (UnifiedExecutor.store w)
                                            (UnifiedExecutor.paperExec w)) in
  pf_peakValue pf == 1000
  /\ pf_totalValue pf == 740
  /\ drawdownHaltPct (@config demoEnv) * 100 <= pf_drawdownPercent pf
  /\ allowed (fst (@UnifiedExecutor.canTrade demoEnv w)) = false.
Proof.
  cbv zeta.
  assert (Hdd : drawdownHaltPct (@config demoEnv) * 100
                <= pf_drawdownPercent
                     (fst (PaperExecutor.getPortfolio
                             (UnifiedExecutor.store (haltedWorld UnifiedExecutor.paper))
                             (UnifiedExecutor.paperExec (haltedWorld UnifiedExecutor.paper)))))
    by (vm_compute; intros H; discriminate H).
  split; [vm_compute; reflexivity|]. split; [vm_compute; reflexivity|].
  split; [exact Hdd|].
  exact (proj2 (proj1 (@canTrade_by_mode demoEnv 0%Z silentBroker
                         (haltedWorld UnifiedExecutor.paper)) eq_refl)
               (or_introl Hdd)).
Defined.

(** ** Deduplication at the gateway *)

Section GatewayDedup.
Import UnifiedExecutor.

Lemma string_app_length (s1 s2 : string) :
  String.length (s1 +:+ s2) = (String.length s1 + String.length s2)%nat.
Proof. induction s1 as [|c s1 IH]; simpl; [done | by rewrite IH]. Qed.

Lemma string_app_inv_tail (s1 s2 suffix : string) :
  s1 +:+ suffix = s2 +:+ suffix -> s1 = s2.
Proof.
  revert s2. induction s1 as [|c s1 IH]; intros [|c' s2] E; simpl in E.
  - done.
  - apply (f_equal String.length) in E. simpl in E.
    rewrite !string_app_length in E. simpl in E. lia.
  - apply (f_equal String.length) in E. simpl in E.
    rewrite !string_app_length in E. simpl in E. lia.
  - injection E as -> E. f_equal. by apply IH.
Qed.

Lemma final_char_app (s1 : string) (c : ascii) (s2 : string) :
  final_char (s1 +:+ String c s2) = final_char (String c s2).
Proof.
  induction s1 as [|c1 s1 IH]; [done|].
  change (String c1 s1 +:+ String c s2) with (String c1 (s1 +:+ String c s2)).
  cbn [final_char]. rewrite IH.
  destruct (s1 +:+ String c s2) eqn:E; [|done].
  destruct s1; discriminate E.
Qed.

(** The key string determines the (marketId, side) pair. *)
Lemma keyOf_inj (m1 m2 : string) (sd1 sd2 : Side) :
  keyOf m1 sd1 = keyOf m2 sd2 -> m1 = m2 /\ sd1 = sd2.
Proof.
  intros E.
  assert (sd1 = sd2) as ->.
  { apply (f_equal final_char) in E.
    destruct sd1, sd2; try done.
    - change (final_char (m1 +:+ "|YES") = final_char (m2 +:+ "|NO")) in E.
      rewrite !final_char_app in E. discriminate E.
    - change (final_char (m1 +:+ "|NO") = final_char (m2 +:+ "|YES")) in E.
      rewrite !final_char_app in E. discriminate E. }
  split; [|done]. unfold keyOf in E. by apply string_app_inv_tail in E.
Qed.

Lemma buyKey_eq (o1 o2 : Opportunity) :
  buyKey o1 = buyKey o2
  <-> m_id (opp_market o1) = m_id (opp_market o2) /\ opp_side o1 = opp_side o2.
Proof.
  unfold buyKey. split; [apply keyOf_inj | by intros [-> ->]].
Qed.

Lemma step_keeps_mark (g : t) (ev : Event) (key : string) (t1 t2 : Z) :
  pendingBuys g !! key = Some t1 ->
  t1 <> 0%Z -> (t2 - t1 < BUY_COOLDOWN_MS)%Z ->
  buys_by t2 [ev] -> no_throw_on key [ev] ->
  pendingBuys (step g ev) !! key = Some t1.
Proof.
  intros Hmark Hnz Hwin Hby Hthrow.
  unfold buys_by, no_throw_on in Hby, Hthrow. rewrite Forall_singleton in Hby, Hthrow.
  destruct ev as [now opportunity s|opportunity [|]|position|position];
    cbn [step]; cbn beta iota in Hby, Hthrow.
  - unfold executeBuy_enter. destruct (List.find _ _); [exact Hmark|].
    destruct (decide (buyKey opportunity = key)) as [->|Hne].
    + rewrite Hmark. unfold inCooldown.
      replace (t1 =? 0)%Z with false by (symmetry; by apply Z.eqb_neq).
      replace (now - t1 <? BUY_COOLDOWN_MS)%Z with true
        by (symmetry; apply Z.ltb_lt; lia).
      exact Hmark.
    + destruct (inCooldown _ _); [exact Hmark|].
      cbn [snd with_pendingBuys pendingBuys]. by rewrite lookup_insert_ne.
  - cbn [executeBuy_settle snd with_pendingBuys pendingBuys].
    by rewrite lookup_delete_ne.
  - exact Hmark.
  - unfold executeSell_enter. by case_bool_decide.
  - exact Hmark.
Qed.

Lemma run_keeps_mark (evs : list Event) (g : t) (key : string) (t1 t2 : Z) :
  pendingBuys g !! key = Some t1 ->
  t1 <> 0%Z -> (t2 - t1 < BUY_COOLDOWN_MS)%Z ->
  buys_by t2 evs -> no_throw_on key evs ->
  pendingBuys (run g evs) !! key = Some t1.
Proof.
  revert g. induction evs as [|ev evs IH]; intros g Hmark Hnz Hwin Hby Hthrow; [done|].
  unfold buys_by, no_throw_on in Hby, Hthrow.
  rewrite Forall_cons in Hby, Hthrow.
  destruct Hby as [Hby1 Hby], Hthrow as [Hthrow1 Hthrow].
  cbn [run fold_left]. apply IH; try done.
  apply (step_keeps_mark g ev key t1 t2); try done;
    unfold buys_by, no_throw_on; by rewrite Forall_singleton.
Qed.

Lemma step_keeps_selling (g : t) (ev : Event) (i : string) :
  i ∈ pendingSells g -> no_settle_of i [ev] -> i ∈ pendingSells (step g ev).
Proof.
  intros Hin Hsettle. unfold no_settle_of in Hsettle. rewrite Forall_singleton in Hsettle.
  destruct ev as [now opportunity s|opportunity [|]|position|position];
    cbn [step]; cbn beta iota in Hsettle.
  - unfold executeBuy_enter. destruct (List.find _ _); [exact Hin|].
    by destruct (inCooldown _ _).
  - exact Hin.
  - exact Hin.
  - unfold executeSell_enter. case_bool_decide; [exact Hin|].
    cbn [snd with_pendingSells pendingSells]. set_solver.
  - cbn [executeSell_settle with_pendingSells pendingSells]. set_solver.
Qed.

Lemma run_keeps_selling (evs : list Event) (g : t) (i : string) :
  i ∈ pendingSells g -> no_settle_of i evs -> i ∈ pendingSells (run g evs).
Proof.
  revert g. induction evs as [|ev evs IH]; intros g Hin Hsettle; [done|].
  unfold no_settle_of in Hsettle. rewrite Forall_cons in Hsettle.
  destruct Hsettle as [Hsettle1 Hsettle].
  cbn [run fold_left]. apply IH; [|done].
  apply step_keeps_selling; [done|]. unfold no_settle_of. by rewrite Forall_singleton.
Qed.

Lemma with_gateway_same (w : World) : with_gateway (gateway w) w = w.
Proof. by destruct w. Qed.
End GatewayDedup.

Section GatewayCalls.
Context {env : Env}.
Import UnifiedExecutor.

Lemma no_open_position_found (marketId : string) (sd : Side) (s : SQLiteStore.t) :
  open_on marketId sd (SQLiteStore.positions s) = [] ->
  List.find (fun p => bool_decide (p_marketId p = marketId) && bool_decide (p_side p = sd))
            (SQLiteStore.getOpenPositions s) = None.
Proof.
  unfold SQLiteStore.getOpenPositions, open_on.
  induction (SQLiteStore.positions s) as [|r rows IH]; [done|].
  cbn [List.filter]. destruct (bool_decide (SQLiteStore.status r = st_open)); cbn [andb].
  - rewrite fmap_cons. cbn [List.find SQLiteStore.rowToPosition p_marketId p_side].
    destruct (bool_decide (SQLiteStore.market_id r = marketId)
              && bool_decide (SQLiteStore.side r = sd)); [discriminate | exact IH].
  - exact IH.
Qed.

Lemma sell_inner_gateway (now : Z) (io : Broker) (position : Position) (currentPrice : Q)
    (w : World) :
  gateway (snd (sell_inner now io position currentPrice w)) = gateway w.
Proof.
  unfold sell_inner. destruct (mode (gateway w)).
  - by destruct (PaperExecutor.executeSell _ _ _ _ _) as [r [s e]].
  - by destruct (RealExecutor.executeSell _ _ _ _ _ _ _) as [r [s e]].
Qed.

(** A refused buy returns null and changes nothing. *)
Lemma refused_buy_is_null (now : Z) (io : Broker) (opportunity : Opportunity) (w : World) :
  refused (fst (executeBuy_enter now opportunity (store w) (gateway w))) ->
  executeBuy now io opportunity w = (None, w).
Proof.
  unfold executeBuy.
  destruct (executeBuy_enter now opportunity (store w) (gateway w)) as [guard g] eqn:E.
  assert (Hg : guard <> Dispatch -> g = gateway w).
  { unfold executeBuy_enter in E. destruct (List.find _ _); [by injection E as _ <-|].
    destruct (inCooldown _ _); injection E as <- <-; done. }
  destruct guard; cbn [fst refused]; try done;
    intros _; rewrite Hg by done; by rewrite with_gateway_same.
Qed.


Lemma executeSell_enter_inv (position : Position) (g0 g1 : t) :
  executeSell_enter position g0 = (true, g1) ->
  (p_id position ∉ pendingSells g0)
  /\ g1 = with_pendingSells ({[ p_id position ]} ∪ pendingSells g0) g0.
Proof.
  unfold executeSell_enter. case_bool_decide; [discriminate|].
  by intros [= <-].
Qed.

End GatewayCalls.


(** ** The event reactor *)

Section Reactor.
Context {env : Env}.
Import EventTrader.



Lemma tracking_kept_refl (sys : System) : tracking_kept sys sys.
Proof. by repeat split. Qed.

Lemma tracking_kept_trans (s1 s2 s3 : System) :
  tracking_kept s1 s2 -> tracking_kept s2 s3 -> tracking_kept s1 s3.
Proof.
  intros ((Hw1 & Hp1) & Hm1 & Ha1) ((Hw2 & Hp2) & Hm2 & Ha2).
  split; [split|split]; [congruence| |congruence|congruence].
  intros a. by rewrite Hp2.
Qed.

Lemma with_engine_tracking (w : UnifiedExecutor.World) (sys : System) :
  tracking_kept sys (with_engine w sys).
Proof. by repeat split. Qed.

Lemma handlePriceDrop_tracking (now : Z) (io : UnifiedExecutor.Broker)
    (assetId : string) (currentPrice : Q) (sys : System) :
  tracking_kept sys (handlePriceDrop now io assetId currentPrice sys).
Proof.
  unfold handlePriceDrop. cbv zeta.
  destruct (priceHistory (trader sys) !! assetId) as [h|] eqn:Hh.
  - destruct (_ <? _)%Z; [apply tracking_kept_refl|].
    destruct (assetToMarket _ !! _) as [[market outcomeIndex]|]; [|apply tracking_kept_refl].
    destruct (_ || _); [apply tracking_kept_refl|].
    destruct (Qltb (m_liquidity _) _); [apply tracking_kept_refl|].
    destruct (_ <? 3)%nat; [apply tracking_kept_refl|].
    destruct (Qgtb _ _); [apply tracking_kept_refl|].
    destruct (Qltb _ 0.03); [apply tracking_kept_refl|].
    destruct (nth_error _ _); [|apply tracking_kept_refl].
    destruct (UnifiedExecutor.executeBuy _ _ _ _) as [[position|] w];
      [|apply with_engine_tracking].
    repeat split. intros a. unfold prices_of. cbn.
    destruct (decide (a = assetId)) as [->|Hne].
    + by rewrite lookup_insert_eq, Hh.
    + by rewrite lookup_insert_ne.
  - cbn. destruct (assetToMarket _ !! _) as [[market outcomeIndex]|];
      [|apply tracking_kept_refl].
    destruct (_ || _); [apply tracking_kept_refl|].
    destruct (Qltb (m_liquidity _) _); apply tracking_kept_refl.
Qed.

Lemma instantExitOne_tracking (now : Z) (ios : nat -> UnifiedExecutor.Broker)
    (assetId : string) (currentPrice : Q) (k : nat) (sys : System) (position : Position) :
  tracking_kept sys (snd (instantExitOne now ios assetId currentPrice (k, sys) position)).
Proof.
  unfold instantExitOne. destruct (negb _); [apply tracking_kept_refl|]. cbv zeta.
  destruct (_ || _); [|apply tracking_kept_refl].
  destruct (UnifiedExecutor.executeSell _ _ _ _ _) as [[trade|] w]; by repeat split.
Qed.

Lemma checkInstantExit_tracking (now : Z) (ios : nat -> UnifiedExecutor.Broker)
    (assetId : string) (currentPrice : Q) (sys : System) :
  tracking_kept sys (checkInstantExit now ios assetId currentPrice sys).
Proof.
  unfold checkInstantExit. cbv zeta.
  generalize (SQLiteStore.getOpenPositions (UnifiedExecutor.store (engine sys))) as ps.
  generalize 0%nat as k. intros k ps. revert k sys.
  induction ps as [|position ps IH]; intros k sys; cbn [fold_left snd].
  - apply tracking_kept_refl.
  - pose proof (instantExitOne_tracking now ios assetId currentPrice k sys position) as H1.
    destruct (instantExitOne now ios assetId currentPrice (k, sys) position) as [k' sys'].
    eapply tracking_kept_trans; [exact H1 | apply IH].
Qed.

Lemma checkArbSpread_history (now : Z) (io : UnifiedExecutor.Broker)
    (market : Market) (sys : System) :
  history_kept sys (checkArbSpread now io market sys).
Proof.
  unfold checkArbSpread.
  assert (Hr : priceHistory (snd (arbSpreadDecision now market (trader sys)))
               = priceHistory (trader sys)).
  { unfold arbSpreadDecision. destruct (marketPrices _ !! _); [|done].
    destruct (_ <? _)%Z; [done|]. cbv zeta.
    repeat (match goal with |- context [if ?b then _ else _] => destruct b end; try done). }
  destruct (arbSpreadDecision now market (trader sys)) as [[call|] r]; cbn [snd] in Hr.
  - destruct (UnifiedExecutor.executeArbitrageBuy _ _ _ _ _ _ _) as [positions w].
    split; [done|]. intros a. unfold prices_of.
    destruct (0 <? length positions)%nat; cbn; by rewrite Hr.
  - split; [done|]. intros a. unfold prices_of. cbn. by rewrite Hr.
Qed.

Lemma recordPrice_spec (update : PriceUpdate) (r : t) :
  let point := {| pt_price := pu_price update; pt_timestamp := pu_timestamp update |} in
  let old := default [] (prices_of r (pu_assetId update)) in
  let r' := snd (recordPrice update r) in
  prices_of r' (pu_assetId update)
  = Some (if (20 <? length (old ++ [point]))%nat then lastN 20 (old ++ [point])
          else old ++ [point])
  /\ (forall a, a <> pu_assetId update -> prices_of r' a = prices_of r a)
  /\ assetToMarket r' = assetToMarket r
  /\ enabled r' = enabled r.
Proof.
  cbv zeta. unfold recordPrice, prices_of. cbv zeta.
  set (h := match priceHistory r !! pu_assetId update with
            | Some h => h
            | None => {| ph_assetId := pu_assetId update; ph_prices := [];
                         ph_lastTradeTime := 0 |}
            end).
  assert (Hold : default [] (ph_prices <$> priceHistory r !! pu_assetId update)
                 = ph_prices h).
  { subst h. by destruct (priceHistory r !! pu_assetId update). }
  rewrite Hold.
  cbn [assetToMarket with_priceHistory marketPrices].
  destruct (assetToMarket r !! pu_assetId update) as [[market idx]|];
    [destruct (marketPrices r !! m_id market)|];
    cbn [snd priceHistory with_marketPrices with_priceHistory assetToMarket enabled];
    (repeat split; [by rewrite lookup_insert_eq
                   | intros a Ha; by rewrite lookup_insert_ne]).
Qed.

Lemma handleWhaleTrade_whales (now : Z) (io : UnifiedExecutor.Broker)
    (assetId : string) (price size : Q) (sys : System) :
  whales (handleWhaleTrade now io assetId price size sys) = whales sys.
Proof.
  unfold handleWhaleTrade. cbv zeta.
  destruct (_ <? _)%Z; [done|].
  destruct (assetToMarket _ !! _) as [[market outcomeIndex]|]; [|done].
  destruct (_ || _); [done|].
  destruct (Qltb _ _); [done|].
  destruct (nth_error _ _); [|done].
  by destruct (UnifiedExecutor.executeBuy _ _ _ _) as [[position|] w].
Qed.

(** The part of [handlePriceUpdate] between the bookkeeping and the
    arbitrage check leaves prices, price maps and the asset index alone. *)
Lemma handlePriceUpdate_shape (now : Z) (ios : nat -> nat -> UnifiedExecutor.Broker)
    (update : PriceUpdate) (sys : System) :
  exists mid,
    tracking_kept (with_trader (snd (recordPrice update (trader sys))) sys) mid
    /\ handlePriceUpdate now ios update sys
       = if enabled (trader sys)
         then match assetToMarket (trader sys) !! pu_assetId update with
              | Some (market, _) => checkArbSpread now (ios 2%nat 0%nat) market mid
              | None => mid
              end
         else sys.
Proof.
  unfold handlePriceUpdate.
  destruct (recordPrice_spec update (trader sys)) as (_ & _ & Ha & _).
  destruct (enabled (trader sys)); cbn [negb].
  2:{ eexists. split; [apply tracking_kept_refl|reflexivity]. }
  destruct (recordPrice update (trader sys)) as [lastPrice r]. cbn [snd] in *.
  cbv zeta. rewrite Ha.
  match goal with
  | |- exists mid, _ /\ match _ with Some _ => _ | None => ?m end = _ =>
      exists m
  end.
  split; [|reflexivity].
  destruct lastPrice as [lastPrice|]; [|apply tracking_kept_refl].
  destruct (Qgtb lastPrice 0); [|apply tracking_kept_refl].
  destruct (Qleb _ _), (Qgeb _ _).
  - eapply tracking_kept_trans; [apply handlePriceDrop_tracking|].
    apply checkInstantExit_tracking.
  - apply handlePriceDrop_tracking.
  - apply checkInstantExit_tracking.
  - apply tracking_kept_refl.
Qed.

Lemma lastN_length {A : Type} (n : nat) (xs : list A) :
  length (lastN n xs) = Nat.min n (length xs).
Proof. unfold lastN. rewrite length_skipn. lia. Qed.


(** C9, as the code has it. A disabled reactor returns from both
    handlers at once: a price notification and a trade notification leave
    the whole system, price history and whale aggregation included, as it
    was.  Switching off and on again changes only the flag, so the history
    accumulated so far is kept.  While enabled, a price notification
    appends its point to the asset's history, trimmed to the last 20
    points, and a trade of size at least 1000 is forwarded to the whale
    aggregation. *)
Theorem disabled_reactor_ignores_events (now : Z)
    (ios : nat -> nat -> UnifiedExecutor.Broker) (io : UnifiedExecutor.Broker)
    (update : PriceUpdate) (trade : TradeUpdate) (sys : System) :
  (enabled (trader sys) = false ->
   handlePriceUpdate now ios update sys = sys
   /\ handleTradeUpdate now io trade sys = sys)
  /\ (forall r,
        enable (disable r) = with_enabled true r
        /\ priceHistory (disable r) = priceHistory r
        /\ priceHistory (enable r) = priceHistory r
        /\ lastWhaleFollow (enable (disable r)) = lastWhaleFollow r)
  /\ (enabled (trader sys) = true ->
      let point := {| pt_price := pu_price update; pt_timestamp := pu_timestamp update |} in
      let old := default [] (prices_of (trader sys) (pu_assetId update)) in
      (exists recorded,
          prices_of (trader (handlePriceUpdate now ios update sys)) (pu_assetId update)
          = Some recorded
          /\ recorded = (if (20 <? length (old ++ [point]))%nat
                         then lastN 20 (old ++ [point]) else old ++ [point])
          /\ (length recorded <= 20)%nat
          /\ last recorded = Some point)
      /\ (1000 <= tu_size trade ->
          whales (handleTradeUpdate now io trade sys)
          = WhaleTracker.recordTrade now
              {| WhaleTracker.wt_assetId := tu_assetId trade;
                 WhaleTracker.wt_price := tu_price trade;
                 WhaleTracker.wt_size := tu_size trade;
                 WhaleTracker.wt_side := tu_side trade;
                 WhaleTracker.wt_timestamp := tu_timestamp trade |}
              (whales sys))).
Proof.
  split; [|split].
  - intros Hoff. unfold handlePriceUpdate, handleTradeUpdate. by rewrite Hoff.
  - intros r. by repeat split.
  - intros Hon. cbv zeta. split.
    + destruct (handlePriceUpdate_shape now ios update sys) as (mid & Hkept & Hshape).
      destruct (recordPrice_spec update (trader sys)) as (Hrec & _).
      destruct Hkept as ((_ & Hp) & _). cbn [trader with_trader] in Hp.
      rewrite Hshape, Hon.
      eexists. split; [|split; [reflexivity|]].
      * destruct (assetToMarket _ !! _) as [[market idx]|].
        -- destruct (checkArbSpread_history now (ios 2%nat 0%nat) market mid) as [_ Hh].
           rewrite Hh, Hp. exact Hrec.
        -- rewrite Hp. exact Hrec.
      * split.
        -- destruct (20 <? _)%nat eqn:Hlen.
           ++ rewrite lastN_length. lia.
           ++ apply Nat.ltb_ge in Hlen. exact Hlen.
        -- destruct (20 <? _)%nat eqn:Hlen.
           ++ unfold lastN. rewrite length_app. cbn [length].
              rewrite skipn_app.
              replace (length (default [] (prices_of (trader sys) (pu_assetId update)))
                       + 1 - 20 - length (default [] (prices_of (trader sys) (pu_assetId update))))%nat
                with 0%nat by lia.
              cbn [skipn]. by rewrite last_snoc.
           ++ by rewrite last_snoc.
    + intros Hbig. unfold handleTradeUpdate. rewrite Hon. cbn [negb]. cbv zeta.
      rewrite (Qgeb_true _ _ Hbig).
      destruct (_ && _); [|reflexivity].
      by rewrite handleWhaleTrade_whales.
Qed.
End Reactor.


(** C9 fails: with the reactor switched off, a price notification on a
    tracked asset records no price point, and a whale-sized trade
    notification (size 2000, threshold 1000) reaches no whale aggregation. *)
Lemma disabled_reactor_drops_notifications :
  EventTrader.enabled (EventTrader.trader disabledSystem) = false
  /\ (1000 <= EventTrader.tu_size whaleTick)
  /\ prices_of (EventTrader.trader disabledSystem) "tok-yes" = None
  /\ prices_of
       (EventTrader.trader
          (@EventTrader.handlePriceUpdate demoEnv 1000 (fun _ _ => silentBroker)
             tick disabledSystem))
       "tok-yes" = None
  /\ WhaleTracker.trades
       (EventTrader.whales
          (@EventTrader.handleTradeUpdate demoEnv 1000 silentBroker whaleTick
             disabledSystem)) = []
  /\ (exists recorded,
        prices_of
          (EventTrader.trader
             (@EventTrader.handlePriceUpdate demoEnv 1000 (fun _ _ => silentBroker)
                tick (systemOf (trackingTrader 0.40 0.55))))
          "tok-yes" = Some recorded
        /\ length recorded = 1%nat)
  /\ length (WhaleTracker.trades
       (EventTrader.whales
          (@EventTrader.handleTradeUpdate demoEnv 1000 silentBroker whaleTick
             (systemOf (trackingTrader 0.40 0.55))))) = 1%nat.
Proof.
  split; [reflexivity|].
  split; [vm_compute; intros H; discriminate H|].
  split; [vm_compute; reflexivity|].
  split; [vm_compute; reflexivity|].
  split; [vm_compute; reflexivity|].
  split; [|vm_compute; reflexivity].
  eexists. split; [vm_compute; reflexivity|reflexivity].
Qed.

(** C9, as the code has it, on the example: the reactor switched off
    leaves the system as it is on both notifications. *)
Lemma disabled_reactor_ignores_events_witness :
  EventTrader.enabled (EventTrader.trader disabledSystem) = false
  /\ @EventTrader.handlePriceUpdate demoEnv 1000 (fun _ _ => silentBroker) tick
       disabledSystem = disabledSystem
  /\ @EventTrader.handleTradeUpdate demoEnv 1000 silentBroker whaleTick disabledSystem
     = disabledSystem.
Proof.
  split; [reflexivity|].
  exact (proj1 (@disabled_reactor_ignores_events demoEnv 1000 (fun _ _ => silentBroker)
                  silentBroker tick whaleTick disabledSystem) eq_refl).
Defined.

(** ** Sums, filters and quotients *)

(** ** Arithmetic *)

Lemma Qdiv_nonneg (a b : Q) : 0 <= a -> 0 < b -> 0 <= a / b.
Proof.
  intros Ha Hb. unfold Qdiv. apply Qmult_le_0_compat; [exact Ha|].
  apply Qlt_le_weak, Qinv_lt_0_compat, Hb.
Qed.

Lemma Qdiv_le_one (a b : Q) : a <= b -> 0 < b -> a / b <= 1.
Proof.
  intros Hab Hb. apply Qle_shift_div_r; [exact Hb|]. by rewrite Qmult_1_l.
Qed.

Lemma Qgtb_irrefl (x : Q) : Qgtb x x = false.
Proof. apply Qgtb_false, Qle_refl. Qed.

(** The percentage tests of the exit rules, as tests on the price. *)
Lemma pct_ge (x e c : Q) :
  0 < e -> Qgeb ((x - e) / e * 100) c = Qgeb x ((1 + c * 0.01) * e).
Proof.
  intros He.
  assert (E : (x - e) / e * 100 - c == (x - (1 + c * 0.01) * e) * (100 / e))
    by (field; lra).
  assert (P : 0 < 100 / e) by (apply Qlt_shift_div_l; lra).
  destruct (Qgeb x _) eqn:G; q_tests.
  - apply Qgeb_true. assert (0 <= (x - (1 + c * 0.01) * e) * (100 / e)) by nra. lra.
  - apply Qgeb_false. assert ((x - (1 + c * 0.01) * e) * (100 / e) < 0) by nra. lra.
Qed.

Lemma pct_le (x e c : Q) :
  0 < e -> Qleb ((x - e) / e * 100) c = Qleb x ((1 + c * 0.01) * e).
Proof.
  intros He.
  assert (E : (x - e) / e * 100 - c == (x - (1 + c * 0.01) * e) * (100 / e))
    by (field; lra).
  assert (P : 0 < 100 / e) by (apply Qlt_shift_div_l; lra).
  destruct (Qleb x _) eqn:G; q_tests.
  - apply Qleb_true. assert ((x - (1 + c * 0.01) * e) * (100 / e) <= 0) by nra. lra.
  - apply Qleb_false. assert (0 < (x - (1 + c * 0.01) * e) * (100 / e)) by nra. lra.
Qed.

Lemma pct_lt (x e c : Q) :
  0 < e -> Qltb ((x - e) / e * 100) c = Qltb x ((1 + c * 0.01) * e).
Proof.
  intros He.
  assert (E : (x - e) / e * 100 - c == (x - (1 + c * 0.01) * e) * (100 / e))
    by (field; lra).
  assert (P : 0 < 100 / e) by (apply Qlt_shift_div_l; lra).
  destruct (Qltb x _) eqn:G; q_tests.
  - apply Qltb_true. assert ((x - (1 + c * 0.01) * e) * (100 / e) < 0) by nra. lra.
  - apply Qltb_false. assert (0 <= (x - (1 + c * 0.01) * e) * (100 / e)) by nra. lra.
Qed.

(** ** Sums *)

Lemma fold_sum_shift {A : Type} (f : A -> Q) (xs : list A) (a : Q) :
  fold_left (fun sum x => sum + f x) xs a == a + sumBy f xs.
Proof.
  unfold sumBy. revert a. induction xs as [|x xs IH]; intros a; cbn [fold_left].
  - ring.
  - rewrite IH, (IH (0 + f x)). ring.
Qed.

Lemma sumBy_cons {A : Type} (f : A -> Q) (x : A) (xs : list A) :
  sumBy f (x :: xs) == f x + sumBy f xs.
Proof. unfold sumBy at 1. cbn [fold_left]. rewrite fold_sum_shift. ring. Qed.

Lemma sumBy_app {A : Type} (f : A -> Q) (xs ys : list A) :
  sumBy f (xs ++ ys) == sumBy f xs + sumBy f ys.
Proof.
  unfold sumBy at 1. rewrite fold_left_app. fold (sumBy f xs).
  apply fold_sum_shift.
Qed.

Lemma sumBy_nonneg {A : Type} (f : A -> Q) (xs : list A) :
  Forall (fun x => 0 <= f x) xs -> 0 <= sumBy f xs.
Proof.
  induction 1 as [|x xs Hx _ IH]; [apply Qle_refl|]. rewrite sumBy_cons. lra.
Qed.

Lemma sumBy_pos {A : Type} (f : A -> Q) (xs : list A) :
  Forall (fun x => 0 < f x) xs -> xs <> [] -> 0 < sumBy f xs.
Proof.
  intros H Hne. destruct H as [|x xs Hx Hxs]; [done|]. rewrite sumBy_cons.
  assert (0 <= sumBy f xs).
  { apply sumBy_nonneg. eapply Forall_impl; [exact Hxs|]. intros y Hy. cbv beta in Hy. lra. }
  lra.
Qed.

(** ** Lists *)

Lemma Forall_filter_keep {A : Type} (P : A -> Prop) (f : A -> bool) (l : list A) :
  Forall P l -> Forall P (List.filter f l).
Proof.
  induction 1 as [|x l Hx _ IH]; cbn [List.filter]; [constructor|].
  destruct (f x); [by constructor|exact IH].
Qed.

Lemma Forall_filter_test {A : Type} (f : A -> bool) (l : list A) :
  Forall (fun x => f x = true) (List.filter f l).
Proof.
  induction l as [|x l IH]; cbn [List.filter]; [constructor|].
  destruct (f x) eqn:E; [by constructor|exact IH].
Qed.

Lemma filter_all_out {A : Type} (f : A -> bool) (l : list A) :
  List.Forall (fun x => f x = false) l -> List.filter f l = [].
Proof.
  induction 1 as [|x l Hx _ IH]; [reflexivity|]. cbn [List.filter]. by rewrite Hx.
Qed.

Lemma fold_left_filter_Forall {A B : Type} (f : B -> A -> B) (test : A -> bool)
    (l : list A) (b : B) :
  Forall (fun x => test x = false -> forall acc, f acc x = acc) l ->
  fold_left f l b = fold_left f (List.filter test l) b.
Proof.
  intros Hskip. revert b. induction Hskip as [|x l Hx _ IH]; intros b; [reflexivity|].
  cbn [fold_left List.filter]. destruct (test x) eqn:E.
  - cbn [fold_left]. apply IH.
  - rewrite (Hx eq_refl). apply IH.
Qed.

(** ** The ledger's reads and writes *)

Section StoreReads.
Context {env : Env}.
Import SQLiteStore.

Lemma find_app_none {A : Type} (f : A -> bool) (l1 l2 : list A) :
  List.find f l1 = None -> List.find f (l1 ++ l2) = List.find f l2.
Proof. induction l1 as [|x l1 IH]; simpl; [done|]. destruct (f x); [done|exact IH]. Qed.

Lemma find_app_some {A : Type} (f : A -> bool) (l1 l2 : list A) (x : A) :
  List.find f l1 = Some x -> List.find f (l1 ++ l2) = Some x.
Proof. induction l1 as [|y l1 IH]; simpl; [done|]. destruct (f y); [done|exact IH]. Qed.

Lemma getRow_appended (i : string) (s s' : t) (row : PositionRow) :
  positions s' = positions s ++ [row] ->
  getRow i s'
  = match getRow i s with
    | Some r => Some r
    | None => if bool_decide (id row = i) then Some row else None
    end.
Proof.
  intros E. unfold getRow. rewrite E.
  destruct (List.find _ (positions s)) as [r|] eqn:F.
  - by apply find_app_some.
  - rewrite (find_app_none _ _ _ F). reflexivity.
Qed.

(** X1. When the id drawn for a new position is not yet in the ledger,
    [createPosition] returns a position with that id, and [getPosition] on
    it reads back the fields that were passed in, with status open, the cost
    falling back to the size when zero, and the pnl recomputed as current
    price times shares minus cost.  The position is appended to the open
    positions, the lookup of every other id is unchanged, and the object
    returned by [createPosition] itself reports a pnl of 0. *)
Theorem createPosition_round_trip (position : NewPosition) (s : t) :
  getRow (randomUUID (uuid_draws s)) s = None ->
  let created := fst (createPosition position s) in
  let s' := snd (createPosition position s) in
  p_id created = randomUUID (uuid_draws s)
  /\ (exists stored,
        getPosition (p_id created) s' = Some stored
        /\ p_marketId stored = np_marketId position
        /\ p_marketQuestion stored = np_marketQuestion position
        /\ p_category stored = np_category position
        /\ p_strategy stored = np_strategy position
        /\ p_side stored = np_side position
        /\ p_outcomeId stored = np_outcomeId position
        /\ p_entryPrice stored = np_entryPrice position
        /\ p_currentPrice stored = np_currentPrice position
        /\ p_size stored = np_size position
        /\ p_shares stored = np_shares position
        /\ p_entryTime stored = np_entryTime position
        /\ p_status stored = st_open
        /\ p_cost stored = (if Qeq_bool (np_cost position) 0
                            then np_size position else np_cost position)
        /\ p_pnl stored = np_currentPrice position * np_shares position - p_cost stored
        /\ getOpenPositions s' = getOpenPositions s ++ [stored])
  /\ (forall j, j <> p_id created -> getPosition j s' = getPosition j s)
  /\ p_pnl created = 0.
Proof.
  intros Hfresh. cbv zeta. unfold createPosition. cbv zeta. cbn [fst snd p_id].
  split; [reflexivity|]. split; [|split; [|reflexivity]].
  - eexists. split.
    + unfold getPosition. erewrite getRow_appended by reflexivity.
      rewrite Hfresh. cbn [id]. rewrite bool_decide_eq_true_2 by reflexivity.
      reflexivity.
    + cbn. repeat split; try reflexivity.
      unfold getOpenPositions. cbn [positions].
      rewrite List.filter_app, fmap_app. reflexivity.
  - intros j Hj. unfold getPosition. erewrite getRow_appended by reflexivity.
    destruct (getRow j s) as [r|]; [done|]. cbn [id].
    rewrite bool_decide_eq_false_2 by congruence. reflexivity.
Qed.

Lemma getRow_update_other (i j : string) (f : PositionRow -> PositionRow)
    (rows : list PositionRow) :
  (forall x, id (f x) = id x) ->
  j <> i ->
  List.find (fun x => bool_decide (id x = j)) (update_where_id i f rows)
  = List.find (fun x => bool_decide (id x = j)) rows.
Proof.
  intros Hid Hj. unfold update_where_id.
  induction rows as [|r rows IH]; [reflexivity|]. cbn [List.map].
  case_bool_decide as Hr; cbn [List.find].
  - rewrite Hid, Hr. rewrite bool_decide_eq_false_2 by congruence. exact IH.
  - rewrite IH. reflexivity.
Qed.

Lemma getRow_update_none (i : string) (f : PositionRow -> PositionRow)
    (rows : list PositionRow) :
  List.find (fun x => bool_decide (id x = i)) rows = None ->
  update_where_id i f rows = rows.
Proof.
  unfold update_where_id. induction rows as [|r rows IH]; [reflexivity|].
  cbn [List.map List.find]. case_bool_decide; [discriminate|].
  intros E. by rewrite IH.
Qed.

(** X2. [updatePositionPrice] does nothing for an unknown id.  Otherwise it
    sets the current price of the row with that id and its pnl to price
    times shares minus cost (the size when the cost is zero), whatever the
    status of the row, so a closed row is rewritten as well; the status,
    exit price, shares, cost, size and entry price of the row, the rows of
    all other ids, the trades and the number of rows are unchanged. *)
Theorem updatePositionPrice_effect (i : string) (price : Q) (s : t) :
  let s' := updatePositionPrice i price s in
  (getRow i s = None -> s' = s)
  /\ (forall row, getRow i s = Some row ->
        exists row',
          getRow i s' = Some row'
          /\ current_price row' = price
          /\ pnl row' = price * shares row - cost_or_size row
          /\ p_pnl (rowToPosition row') = pnl row'
          /\ status row' = status row
          /\ exit_price row' = exit_price row
          /\ shares row' = shares row
          /\ cost row' = cost row
          /\ size row' = size row
          /\ entry_price row' = entry_price row)
  /\ (forall j, j <> i -> getRow j s' = getRow j s)
  /\ trades s' = trades s
  /\ length (positions s') = length (positions s).
Proof.
  cbv zeta. unfold updatePositionPrice, getPosition.
  split; [|split; [|split; [|split]]].
  - intros E. by rewrite E.
  - intros row E. rewrite E. cbn [fmap option_fmap option_map]. cbv zeta.
    eexists. split.
    + unfold getRow in *. cbn [with_positions positions].
      apply getRow_update; [reflexivity|exact E].
    + by repeat split.
  - intros j Hj. destruct (getRow i s) as [row|]; [|reflexivity].
    cbn [fmap option_fmap option_map]. cbv zeta.
    unfold getRow. cbn [with_positions positions].
    by apply getRow_update_other.
  - by destruct (getRow i s).
  - destruct (getRow i s); [|reflexivity].
    cbn [fmap option_fmap option_map with_positions positions].
    unfold update_where_id. by rewrite length_map.
Qed.

Lemma closePosition_open_filter (now : Z) (i : string) (p : Q) (s : SQLiteStore.t) :
  SQLiteStore.getOpenPositions (snd (SQLiteStore.closePosition now i p s))
  = List.filter (fun q => negb (bool_decide (p_id q = i)))
                (SQLiteStore.getOpenPositions s).
Proof.
  unfold SQLiteStore.closePosition, SQLiteStore.getPosition.
  unfold SQLiteStore.getOpenPositions.
  destruct (SQLiteStore.getRow i s) as [row|] eqn:E;
    cbn [fmap option_fmap option_map snd];
    cbv zeta; cbn [snd SQLiteStore.with_positions SQLiteStore.positions].
  - clear E. unfold SQLiteStore.update_where_id.
    induction (SQLiteStore.positions s) as [|r rows IH]; [reflexivity|].
    cbn [List.map]. case_bool_decide as Hr; cbn [List.filter].
    + rewrite (bool_decide_eq_false_2
                 (SQLiteStore.status (SQLiteStore.set_closed _ _ _ r) = st_open))
        by (cbn; discriminate).
      rewrite IH. destruct (bool_decide (SQLiteStore.status r = st_open)); [|reflexivity].
      cbn [fmap list_fmap List.filter p_id SQLiteStore.rowToPosition].
      rewrite bool_decide_eq_true_2 by exact Hr. reflexivity.
    + destruct (bool_decide (SQLiteStore.status r = st_open)); [|exact IH].
      cbn [fmap list_fmap List.filter p_id SQLiteStore.rowToPosition].
      rewrite bool_decide_eq_false_2 by exact Hr. cbn [negb].
      f_equal. exact IH.
  - unfold SQLiteStore.getRow in E.
    induction (SQLiteStore.positions s) as [|r rows IH]; [reflexivity|].
    cbn [List.find] in E. case_bool_decide as Hr; [discriminate|].
    cbn [List.filter].
    destruct (bool_decide (SQLiteStore.status r = st_open)); [|by apply IH].
    cbn [fmap list_fmap List.filter p_id SQLiteStore.rowToPosition].
    rewrite bool_decide_eq_false_2 by exact Hr. cbn [negb].
    f_equal. by apply IH.
Qed.

(** X3. After [closePosition] the open positions are the open
    positions from before without those of the given id; for an unknown id
    [closePosition] returns null and leaves the ledger as it is. *)
Theorem closePosition_open_positions (now : Z) (i : string) (p : Q) (s : t) :
  getOpenPositions (snd (closePosition now i p s))
  = List.filter (fun q => negb (bool_decide (p_id q = i))) (getOpenPositions s)
  /\ (getRow i s = None -> closePosition now i p s = (None, s)).
Proof.
  split; [apply closePosition_open_filter|].
  intros E. unfold closePosition, getPosition. by rewrite E.
Qed.

End StoreReads.

Lemma createPosition_round_trip_witness :
  SQLiteStore.getRow (demoUUID 0) emptyStore = None
  /\ p_id heldPosition = demoUUID 0
  /\ p_pnl heldPosition = 0.
Proof.
  assert (H : SQLiteStore.getRow
                (@randomUUID demoEnv (SQLiteStore.uuid_draws emptyStore)) emptyStore
              = None) by reflexivity.
  destruct (@createPosition_round_trip demoEnv heldNew emptyStore H)
    as (Hid & _ & _ & Hpnl).
  split; [exact H|]. split; [exact Hid|exact Hpnl].
Defined.

(** ** The paper simulator's accounts *)

Section PaperAccounts.
Context {env : Env}.
Import PaperExecutor.

(** X4. [getPortfolio] of the paper simulator never lowers the peak:
    the new peak is the old one or the total value, whichever is larger.  So
    the reported drawdown is peak minus total value and never negative, the
    drawdown percent is never negative (and at most 100 when the total value
    is not negative), the cash balance is untouched, and a second call
    returns the same portfolio. *)
Theorem getPortfolio_peak_and_drawdown (s : SQLiteStore.t) (e : t) :
  let pf := fst (getPortfolio s e) in
  let e' := snd (getPortfolio s e) in
  peakValue e <= peakValue e'
  /\ pf_totalValue pf <= peakValue e'
  /\ (peakValue e' = peakValue e \/ peakValue e' = pf_totalValue pf)
  /\ pf_peakValue pf = peakValue e'
  /\ pf_drawdown pf = peakValue e' - pf_totalValue pf
  /\ 0 <= pf_drawdown pf
  /\ 0 <= pf_drawdownPercent pf
  /\ (0 <= pf_totalValue pf -> pf_drawdownPercent pf <= 100)
  /\ balance e' = balance e
  /\ getPortfolio s e' = (pf, e').
Proof.
  cbv zeta. unfold getPortfolio. cbv zeta.
  set (tv := balance e + sumBy (fun p => p_currentPrice p * p_shares p)
                               (SQLiteStore.getOpenPositions s)).
  destruct (Qgtb tv (peakValue e)) eqn:Hpeak;
    cbn [fst snd peakValue with_peakValue balance startingBalance pf_totalValue
         pf_peakValue pf_drawdown pf_drawdownPercent]; fold tv.
  - apply Qgtb_gt in Hpeak.
    rewrite Qgtb_irrefl.
    cbn [fst snd peakValue with_peakValue balance startingBalance].
    repeat split; try reflexivity; try lra.
    + by right.
    + destruct (Qgtb tv 0) eqn:Hpos; [|lra]. apply Qgtb_gt in Hpos.
      assert (0 <= (tv - tv) / tv) by (apply Qdiv_nonneg; lra). lra.
    + intros _. destruct (Qgtb tv 0) eqn:Hpos; [|lra]. apply Qgtb_gt in Hpos.
      assert ((tv - tv) / tv <= 1) by (apply Qdiv_le_one; lra). lra.
  - rewrite Hpeak. apply Qgtb_le in Hpeak.
    repeat split; try reflexivity; try lra.
    + by left.
    + destruct (Qgtb (peakValue e) 0) eqn:Hpos; [|lra]. apply Qgtb_gt in Hpos.
      assert (0 <= (peakValue e - tv) / peakValue e) by (apply Qdiv_nonneg; lra). lra.
    + intros Htv. destruct (Qgtb (peakValue e) 0) eqn:Hpos; [|lra]. apply Qgtb_gt in Hpos.
      assert ((peakValue e - tv) / peakValue e <= 1) by (apply Qdiv_le_one; lra). lra.
Qed.

Lemma getPortfolio_idem (s : SQLiteStore.t) (e : t) :
  getPortfolio s (snd (getPortfolio s e)) = getPortfolio s e.
Proof.
  unfold getPortfolio. cbv zeta.
  set (tv := balance e + sumBy (fun p => p_currentPrice p * p_shares p)
                               (SQLiteStore.getOpenPositions s)).
  destruct (Qgtb tv (peakValue e)) eqn:Hpeak;
    cbn [fst snd peakValue with_peakValue balance startingBalance]; fold tv.
  - by rewrite Qgtb_irrefl.
  - by rewrite Hpeak.
Qed.

Lemma calculatePositionSize_state (opportunity : Opportunity) (s : SQLiteStore.t) (e : t) :
  snd (calculatePositionSize opportunity s e) = snd (getPortfolio s e).
Proof.
  unfold calculatePositionSize. destruct (getPortfolio s e) as [pf e1].
  by destruct (Qleb _ 0).
Qed.

Lemma calculatePositionSize_idem (opportunity : Opportunity) (s : SQLiteStore.t) (e : t) :
  calculatePositionSize opportunity s (snd (getPortfolio s e))
  = calculatePositionSize opportunity s e.
Proof. unfold calculatePositionSize. by rewrite getPortfolio_idem. Qed.

Lemma calculatePositionSize_bounds (opportunity : Opportunity) (s : SQLiteStore.t) (e : t) :
  0 <= fst (calculatePositionSize opportunity s e)
  /\ fst (calculatePositionSize opportunity s e) <= Qmax 0 (balance e * 0.95).
Proof.
  unfold calculatePositionSize.
  destruct (getPortfolio_balance s e) as (Hb & _).
  destruct (getPortfolio s e) as [pf e1]. cbn [snd] in Hb.
  destruct (Qleb _ 0); cbn [fst].
  - split; [apply Qle_refl|apply Q.le_max_l].
  - cbv zeta. split; [apply Q.le_max_l|]. rewrite Hb.
    match goal with |- context [Qmin ?a (balance e * 0.95)] => set (clamp := a) end.
    pose proof (Q.le_min_r clamp (balance e * 0.95)) as Hmin.
    pose proof (Q.le_max_l 0 (balance e * 0.95)) as H0.
    pose proof (Q.le_max_r 0 (balance e * 0.95)) as H1.
    apply Q.max_lub; [exact H0|].
    destruct (Qgeb _ _); [|lra].
    destruct (Qlt_le_dec (Qmin clamp (balance e * 0.95)) 0); lra.
Qed.

(** [executeBuy], with the intermediate states named. *)
Lemma paper_executeBuy_eq (now : Z) (opportunity : Opportunity)
    (s : SQLiteStore.t) (e : t) :
  let size := fst (calculatePositionSize opportunity s e) in
  let executionPrice :=
    Qmin 0.99 (opp_entryPrice opportunity * (1 + SIMULATED_SPREAD + SIMULATED_SLIPPAGE)) in
  let fees := size * SIMULATED_FEE_RATE in
  let market := opp_market opportunity in
  let np :=
    {| SQLiteStore.np_marketId := m_id market;
       SQLiteStore.np_marketQuestion := m_question market;
       SQLiteStore.np_category := m_category market;
       SQLiteStore.np_strategy := opp_strategy opportunity;
       SQLiteStore.np_side := opp_side opportunity;
       SQLiteStore.np_outcomeId :=
         match nth_error (m_outcomes market) (opp_outcomeIndex opportunity) with
         | Some o => o_id o
         | None => EmptyString
         end;
       SQLiteStore.np_entryPrice := executionPrice;
       SQLiteStore.np_currentPrice := executionPrice;
       SQLiteStore.np_size := size - fees;
       SQLiteStore.np_cost := size;
       SQLiteStore.np_shares := (size - fees) / executionPrice;
       SQLiteStore.np_entryTime := now |} in
  let created := SQLiteStore.createPosition np s in
  let trade :=
    {| t_id := EmptyString;
       t_positionId := p_id (fst created);
       t_marketId := m_id market;
       t_marketQuestion := m_question market;
       t_category := m_category market;
       t_strategy := opp_strategy opportunity;
       t_side := opp_side opportunity;
       t_action := BUY;
       t_price := executionPrice;
       t_size := size - fees;
       t_shares := (size - fees) / executionPrice;
       t_fees := fees;
       t_timestamp := now;
       t_pnl := None |} in
  let s2 := snd (SQLiteStore.recordTrade trade (snd created)) in
  let e0 := snd (getPortfolio s e) in
  let e1 := with_balance (balance e0 - size) e0 in
  executeBuy now opportunity s e
  = if negb (allowed (fst (canTrade s e))) then (None, (s, e0))
    else if Qltb size (minPositionUsd config) then (None, (s, e0))
    else (Some (fst created),
          (SQLiteStore.savePortfolioSnapshot now (fst (getPortfolio s2 e1)) s2,
           snd (getPortfolio s2 e1))).
Proof.
  cbv zeta. unfold executeBuy.
  pose proof (canTrade_state s e) as Hcan.
  destruct (canTrade s e) as [can e0]. cbn [snd fst] in *. subst e0.
  destruct (allowed can); cbn [negb]; [|reflexivity].
  rewrite calculatePositionSize_idem.
  pose proof (calculatePositionSize_state opportunity s e) as Hcalc.
  destruct (calculatePositionSize opportunity s e) as [size e2]. cbn [snd fst] in *. subst e2.
  destruct (Qltb size (minPositionUsd config)); [reflexivity|]. cbv zeta.
  destruct (SQLiteStore.createPosition _ s) as [created s1]. cbn [fst snd].
  destruct (SQLiteStore.recordTrade _ s1) as [trade s2]. cbn [fst snd].
  by destruct (getPortfolio s2 _) as [pf e2].
Qed.

(** X5. A paper buy that returns a position debits the balance by
    exactly the position's cost, which is the computed position size, at
    least the configured minimum and at most 95% of the balance.  The
    position's size is the cost less the fee, its entry price the quoted
    price raised by spread and slippage (at most 0.99), its shares size
    over entry price.  The ledger gains one open row, one BUY trade (fee =
    cost times fee rate, no pnl) and one snapshot with the new balance and
    peak. *)
Theorem paper_buy_accounting (now : Z) (opportunity : Opportunity)
    (s s' : SQLiteStore.t) (e e' : t) (position : Position) :
  executeBuy now opportunity s e = (Some position, (s', e')) ->
  p_cost position = fst (calculatePositionSize opportunity s e)
  /\ balance e' = balance e - p_cost position
  /\ minPositionUsd config <= p_cost position
  /\ p_cost position <= Qmax 0 (balance e * 0.95)
  /\ p_size position = p_cost position - p_cost position * SIMULATED_FEE_RATE
  /\ p_entryPrice position
     = Qmin 0.99 (opp_entryPrice opportunity * (1 + SIMULATED_SPREAD + SIMULATED_SLIPPAGE))
  /\ p_shares position = p_size position / p_entryPrice position
  /\ p_marketId position = m_id (opp_market opportunity)
  /\ p_side position = opp_side opportunity
  /\ p_strategy position = opp_strategy opportunity
  /\ p_status position = st_open
  /\ (exists row,
        SQLiteStore.positions s' = SQLiteStore.positions s ++ [row]
        /\ SQLiteStore.id row = p_id position
        /\ SQLiteStore.status row = st_open
        /\ SQLiteStore.cost row = p_cost position
        /\ SQLiteStore.size row = p_size position
        /\ SQLiteStore.shares row = p_shares position)
  /\ (exists trade,
        SQLiteStore.trades s' = SQLiteStore.trades s ++ [trade]
        /\ t_action trade = BUY
        /\ t_positionId trade = p_id position
        /\ t_size trade = p_size position
        /\ t_fees trade = p_cost position * SIMULATED_FEE_RATE
        /\ t_pnl trade = None)
  /\ (exists snap,
        SQLiteStore.portfolio_snapshots s' = SQLiteStore.portfolio_snapshots s ++ [snap]
        /\ SQLiteStore.snap_balance snap = balance e'
        /\ SQLiteStore.snap_peak_value snap = peakValue e').
Proof.
  intros H. rewrite paper_executeBuy_eq in H. cbv zeta in H.
  destruct (negb _); [discriminate|].
  destruct (Qltb _ (minPositionUsd config)) eqn:Hmin; [discriminate|].
  apply Qltb_ge in Hmin.
  apply pair_equal_spec in H as [Hposition H].
  apply pair_equal_spec in H as [Hs He].
  apply (inj Some) in Hposition.
  subst position s' e'.
  destruct (calculatePositionSize_bounds opportunity s e) as [_ Hcap].
  set (size := fst (calculatePositionSize opportunity s e)) in *.
  split; [reflexivity|]. split.
  { match goal with |- balance (snd (getPortfolio ?a ?b)) = _ =>
      destruct (getPortfolio_balance a b) as (Hb & _) end.
    etransitivity; [exact Hb|].
    cbn [balance with_balance SQLiteStore.createPosition fst p_cost].
    destruct (getPortfolio_balance s e) as (Hb0 & _). by rewrite Hb0. }
  split; [exact Hmin|]. split; [exact Hcap|].
  repeat (split; [reflexivity|]).
  split; [|split].
  - eexists. split; [reflexivity|]. by repeat split.
  - eexists. split; [reflexivity|]. by repeat split.
  - eexists. split; [reflexivity|]. split; [|reflexivity].
    cbn [SQLiteStore.snap_balance].
    match goal with |- pf_balance (fst (getPortfolio ?a ?b)) = _ =>
      destruct (getPortfolio_balance a b) as (Hb1 & Hb2 & _) end.
    by rewrite Hb1, Hb2.
Qed.

Lemma selling_released (i : string) (X : gset string) :
  i ∉ X -> ({[ i ]} ∪ X) ∖ {[ i ]} = X.
Proof.
  intros Hout. apply set_eq. intros x.
  rewrite elem_of_difference, elem_of_union, elem_of_singleton. split.
  - tauto.
  - intros Hx. split; [by right|]. intros ->. contradiction.
Qed.

(** [executeSell], with the intermediate states named. *)
Lemma paper_executeSell_eq (now : Z) (position : Position) (currentPrice : Q)
    (s : SQLiteStore.t) (e : t) :
  let executionPrice :=
    Qmax 0.01 (currentPrice * (1 - SIMULATED_SPREAD - SIMULATED_SLIPPAGE)) in
  let fees := p_shares position * executionPrice * SIMULATED_FEE_RATE in
  let netProceeds := p_shares position * executionPrice - fees in
  let s1 := snd (SQLiteStore.closePosition now (p_id position) executionPrice s) in
  let recorded :=
    SQLiteStore.recordTrade
      {| t_id := EmptyString;
         t_positionId := p_id position;
         t_marketId := p_marketId position;
         t_marketQuestion := p_marketQuestion position;
         t_category := p_category position;
         t_strategy := p_strategy position;
         t_side := p_side position;
         t_action := SELL;
         t_price := executionPrice;
         t_size := netProceeds;
         t_shares := p_shares position;
         t_fees := fees;
         t_timestamp := now;
         t_pnl := Some (netProceeds - p_size position) |} s1 in
  let e1 := with_balance (balance e + netProceeds)
              (with_selling ({[ p_id position ]} ∪ sellingPositions e) e) in
  let e2 := snd (getPortfolio (snd recorded) e1) in
  executeSell now position currentPrice s e
  = if bool_decide (p_id position ∈ sellingPositions e) then (None, (s, e))
    else (Some (fst recorded),
          (SQLiteStore.savePortfolioSnapshot now
             (fst (getPortfolio (snd recorded) e1)) (snd recorded),
           with_selling (sellingPositions e2 ∖ {[ p_id position ]}) e2)).
Proof.
  cbv zeta. unfold executeSell.
  destruct (bool_decide _); [reflexivity|]. cbv zeta.
  destruct (SQLiteStore.closePosition _ _ _ s) as [closed s1]. cbn [fst snd].
  destruct (SQLiteStore.recordTrade _ s1) as [trade s2]. cbn [fst snd].
  by destruct (getPortfolio s2 _) as [pf e2].
Qed.

(** X6. A paper sell of a position marked as being sold returns null
    and changes nothing.  Any other paper sell produces a SELL trade for all
    the position's shares at the quoted price lowered by spread and slippage
    (at least 0.01), with pnl = net proceeds minus the position's size,
    credits the net proceeds to the balance, leaves the selling marks as
    they were, and closes the rows of that id.  It does not consult the
    ledger: when no row has the id, the positions are unchanged and the
    balance is credited all the same. *)
Theorem paper_sell_accounting (now : Z) (position : Position) (currentPrice : Q)
    (s : SQLiteStore.t) (e : t) :
  let executionPrice :=
    Qmax 0.01 (currentPrice * (1 - SIMULATED_SPREAD - SIMULATED_SLIPPAGE)) in
  let fees := p_shares position * executionPrice * SIMULATED_FEE_RATE in
  let netProceeds := p_shares position * executionPrice - fees in
  (p_id position ∈ sellingPositions e ->
   executeSell now position currentPrice s e = (None, (s, e)))
  /\ (p_id position ∉ sellingPositions e ->
      exists trade s' e',
        executeSell now position currentPrice s e = (Some trade, (s', e'))
        /\ t_action trade = SELL
        /\ t_positionId trade = p_id position
        /\ t_price trade = executionPrice
        /\ t_shares trade = p_shares position
        /\ t_fees trade = fees
        /\ t_size trade = netProceeds
        /\ t_pnl trade = Some (netProceeds - p_size position)
        /\ balance e' = balance e + netProceeds
        /\ sellingPositions e' = sellingPositions e
        /\ SQLiteStore.trades s' = SQLiteStore.trades s ++ [trade]
        /\ SQLiteStore.positions s'
           = SQLiteStore.positions
               (snd (SQLiteStore.closePosition now (p_id position) executionPrice s))
        /\ (SQLiteStore.getRow (p_id position) s = None ->
            SQLiteStore.positions s' = SQLiteStore.positions s)).
Proof.
  cbv zeta. rewrite paper_executeSell_eq. cbv zeta. split.
  - intros Hin. by rewrite bool_decide_eq_true_2.
  - intros Hout. rewrite bool_decide_eq_false_2 by exact Hout.
    eexists _, _, _. split; [reflexivity|].
    repeat (split; [reflexivity|]).
    match goal with |- context [getPortfolio ?a ?b] =>
      destruct (getPortfolio_balance a b) as (Hb & _ & Hsell) end.
    split; [|split; [|split; [|split]]].
    + cbn [balance with_selling]. by rewrite Hb.
    + cbn [sellingPositions with_selling]. rewrite Hsell.
      cbn [sellingPositions with_selling with_balance]. by apply selling_released.
    + cbn [SQLiteStore.savePortfolioSnapshot SQLiteStore.trades SQLiteStore.recordTrade snd fst].
      by rewrite closePosition_trades.
    + reflexivity.
    + intros Hnone.
      cbn [SQLiteStore.savePortfolioSnapshot SQLiteStore.positions SQLiteStore.recordTrade snd].
      unfold SQLiteStore.closePosition, SQLiteStore.getPosition. by rewrite Hnone.
Qed.

(** X7. From a balance that is not negative, a paper buy and a paper
    arbitrage basket (of positive total cost) leave a balance that is not
    negative, and a paper sell of a position with non-negative shares never
    lowers the balance. *)
Theorem paper_balance_never_negative (now : Z) (s : SQLiteStore.t) (e : t) :
  0 <= balance e ->
  (forall opportunity,
      0 <= balance (snd (snd (executeBuy now opportunity s e))))
  /\ (forall market outcomes totalCost guaranteedProfit,
        0 < totalCost ->
        0 <= balance (snd (snd (executeArbitrageBuy now market outcomes totalCost
                                  guaranteedProfit s e))))
  /\ (forall position currentPrice,
        0 <= p_shares position ->
        balance e <= balance (snd (snd (executeSell now position currentPrice s e)))).
Proof.
  intros Hpos. split; [|split].
  - intros opportunity. rewrite paper_executeBuy_eq. cbv zeta.
    destruct (getPortfolio_balance s e) as (Hb0 & _).
    destruct (negb _); [cbn [snd]; by rewrite Hb0|].
    destruct (Qltb _ (minPositionUsd config)); [cbn [snd]; by rewrite Hb0|].
    cbn [snd].
    match goal with |- context [getPortfolio ?a ?b] =>
      destruct (getPortfolio_balance a b) as (Hb & _) end.
    rewrite Hb. cbn [balance with_balance]. rewrite Hb0.
    destruct (calculatePositionSize_bounds opportunity s e) as [_ Hcap].
    assert (Qmax 0 (balance e * 0.95) <= balance e)
      by (apply Q.max_lub; lra).
    lra.
  - intros market outcomes totalCost guaranteedProfit Hcost.
    unfold executeArbitrageBuy.
    pose proof (canTrade_state s e) as Hcan.
    destruct (getPortfolio_balance s e) as (Hb0 & _).
    destruct (canTrade s e) as [can e0]. cbn [snd] in Hcan. subst e0.
    destruct (negb _); [cbn [snd]; by rewrite Hb0|].
    rewrite getPortfolio_idem.
    destruct (getPortfolio s e) as [pf e0]. cbn [snd] in Hb0. cbv zeta.
    set (maxSize := Qmin3 _ _ _).
    destruct (Qltb _ 1); [cbn [snd]; by rewrite Hb0|].
    destruct (fold_left _ outcomes _) as [positions s1].
    match goal with |- context [getPortfolio ?a ?b] =>
      pose proof (getPortfolio_balance a b) as (Hb & _);
      destruct (getPortfolio a b) as [pf1 e1] end.
    cbn [snd] in *. rewrite Hb. cbn [balance with_balance]. rewrite Hb0.
    assert (Hfloor : Math_floor (maxSize / totalCost) <= maxSize / totalCost)
      by apply Qfloor_le.
    assert (Hmul : Math_floor (maxSize / totalCost) * totalCost <= maxSize).
    { assert (Hdiv : maxSize / totalCost * totalCost == maxSize)
        by (field; intros Hz; rewrite Hz in Hcost; by apply Qlt_irrefl in Hcost).
      eapply Qle_trans;
        [apply Qmult_le_compat_r; [exact Hfloor|by apply Qlt_le_weak]|].
      apply Qle_lteq. right. exact Hdiv. }
    assert (Hmax : maxSize <= balance e * 0.9).
    { subst maxSize. unfold Qmin3. rewrite <- Hb0.
      eapply Qle_trans; [apply Q.le_min_l|apply Q.le_min_r]. }
    lra.
  - intros position currentPrice Hshares. rewrite paper_executeSell_eq. cbv zeta.
    destruct (bool_decide _); [cbn [snd]; lra|]. cbn [snd balance with_selling].
    match goal with |- context [getPortfolio ?a ?b] =>
      destruct (getPortfolio_balance a b) as (Hb & _) end.
    rewrite Hb. cbn [balance with_selling with_balance].
    set (q := Qmax 0.01 _).
    assert (Hq : 0.01 <= q) by apply Q.le_max_l.
    unfold SIMULATED_FEE_RATE. nra.
Qed.

Lemma paper_executeBuy_fields (now : Z) (opportunity : Opportunity)
    (s s' : SQLiteStore.t) (e e' : t) (position : Position) :
  executeBuy now opportunity s e = (Some position, (s', e')) ->
  let size := fst (calculatePositionSize opportunity s e) in
  let executionPrice :=
    Qmin 0.99 (opp_entryPrice opportunity * (1 + SIMULATED_SPREAD + SIMULATED_SLIPPAGE)) in
  minPositionUsd config <= size
  /\ p_size position = size - size * SIMULATED_FEE_RATE
  /\ p_shares position = (size - size * SIMULATED_FEE_RATE) / executionPrice
  /\ balance e' = balance e - size
  /\ sellingPositions e' = sellingPositions e.
Proof.
  intros H. rewrite paper_executeBuy_eq in H. cbv zeta in H.
  destruct (negb _); [discriminate|].
  destruct (Qltb _ (minPositionUsd config)) eqn:Hmin; [discriminate|].
  apply Qltb_ge in Hmin.
  apply pair_equal_spec in H as [Hposition H].
  apply pair_equal_spec in H as [Hs He].
  apply (inj Some) in Hposition.
  subst position s' e'. cbv zeta.
  split; [exact Hmin|]. split; [reflexivity|]. split; [reflexivity|].
  match goal with |- context [getPortfolio ?a ?b] =>
    destruct (getPortfolio_balance a b) as (Hb & _ & Hsell) end.
  rewrite Hb, Hsell. cbn [balance sellingPositions with_balance].
  destruct (getPortfolio_balance s e) as (Hb0 & _ & Hsell0).
  by rewrite Hb0, Hsell0.
Qed.

Lemma bid_below_ask (p : Q) :
  0.01 <= p -> p <= 1 ->
  Qmax 0.01 (p * (1 - SIMULATED_SPREAD - SIMULATED_SLIPPAGE)) * (1 - SIMULATED_FEE_RATE)
  < Qmin 0.99 (p * (1 + SIMULATED_SPREAD + SIMULATED_SLIPPAGE))
  /\ 0 < Qmin 0.99 (p * (1 + SIMULATED_SPREAD + SIMULATED_SLIPPAGE)).
Proof.
  intros Hlo Hhi. unfold SIMULATED_SPREAD, SIMULATED_SLIPPAGE, SIMULATED_FEE_RATE.
  destruct (Q.max_spec 0.01 (p * (1 - 0.02 - 0.005))) as [[_ ->]|[_ ->]];
    destruct (Q.min_spec 0.99 (p * (1 + 0.02 + 0.005))) as [[_ ->]|[_ ->]];
    split; lra.
Qed.

(** X8. In the paper simulator, buying at a quoted price between 0.01
    and 1 and selling the position at the same quoted price gives a trade
    with negative pnl and a balance below the one before the buy: spread,
    slippage and fee are paid on both legs. *)
Theorem paper_round_trip_loses (now now' : Z) (opportunity : Opportunity)
    (s s1 : SQLiteStore.t) (e e1 : t) (position : Position) :
  executeBuy now opportunity s e = (Some position, (s1, e1)) ->
  0 < minPositionUsd config ->
  0.01 <= opp_entryPrice opportunity -> opp_entryPrice opportunity <= 1 ->
  p_id position ∉ sellingPositions e ->
  exists trade s2 e2 pnl,
    executeSell now' position (opp_entryPrice opportunity) s1 e1 = (Some trade, (s2, e2))
    /\ t_pnl trade = Some pnl
    /\ pnl < 0
    /\ balance e2 < balance e.
Proof.
  intros Hbuy Hmin Hlo Hhi Hfree.
  destruct (paper_executeBuy_fields _ _ _ _ _ _ _ Hbuy)
    as (Hsize & Hpsize & Hshares & Hbal & Hsell).
  cbv zeta in *.
  rewrite paper_executeSell_eq. cbv zeta.
  rewrite bool_decide_eq_false_2 by (by rewrite Hsell).
  eexists _, _, _, _. split; [reflexivity|]. split; [reflexivity|].
  destruct (bid_below_ask _ Hlo Hhi) as [Hspread Hask].
  set (size := fst (calculatePositionSize opportunity s e)) in *.
  set (ask := Qmin 0.99 _) in *. set (bid := Qmax 0.01 _) in *.
  assert (Hnet : 0 < size - size * SIMULATED_FEE_RATE)
    by (unfold SIMULATED_FEE_RATE; lra).
  set (netSize := size - size * SIMULATED_FEE_RATE) in *.
  assert (Hx : 0 < netSize / ask) by (apply Qlt_shift_div_l; lra).
  assert (Hback : netSize == netSize / ask * ask) by (field; lra).
  assert (Hloss : p_shares position * bid - p_shares position * bid * SIMULATED_FEE_RATE
                  < netSize).
  { rewrite Hshares. unfold SIMULATED_FEE_RATE in *. nra. }
  split.
  - rewrite Hpsize. lra.
  - cbn [balance with_selling].
    match goal with |- context [getPortfolio ?a ?b] =>
      destruct (getPortfolio_balance a b) as (Hb & _) end.
    rewrite Hb. cbn [balance with_balance with_selling]. rewrite Hbal.
    unfold netSize, SIMULATED_FEE_RATE in *. lra.
Qed.

Lemma getPortfolio_snapshot (s : SQLiteStore.t) (e : t) :
  pf_balance (fst (getPortfolio s e)) = balance (snd (getPortfolio s e))
  /\ pf_peakValue (fst (getPortfolio s e)) = peakValue (snd (getPortfolio s e)).
Proof. by unfold getPortfolio. Qed.

Lemma getLatestSnapshot_saved (now : Z) (portfolio : Portfolio) (s : SQLiteStore.t) :
  SQLiteStore.getLatestSnapshot (SQLiteStore.savePortfolioSnapshot now portfolio s)
  = Some (pf_balance portfolio, pf_peakValue portfolio).
Proof.
  unfold SQLiteStore.getLatestSnapshot, SQLiteStore.savePortfolioSnapshot.
  cbn [SQLiteStore.portfolio_snapshots]. by rewrite last_snoc.
Qed.

(** [executeArbitrageBuy], with the intermediate states named. *)
Lemma paper_executeArbitrageBuy_eq (now : Z) (market : MarketRef)
    (outcomes : list ArbOutcome) (totalCost guaranteedProfit : Q)
    (s : SQLiteStore.t) (e : t) :
  let pf := fst (getPortfolio s e) in
  let e0 := snd (getPortfolio s e) in
  let maxSize :=
    Qmin3 (pf_totalValue pf * maxPositionPct config) (balance e0 * 0.9)
          (maxPositionUsd config) in
  let sets := Math_floor (maxSize / totalCost) in
  let totalInvestment := sets * totalCost in
  let fees := totalInvestment * SIMULATED_FEE_RATE in
  let legs :=
    fold_left (arbitrageLeg now market (length outcomes) totalCost totalInvestment
                 (totalInvestment - fees) fees) outcomes ([], s) in
  let e1 := with_balance (balance e0 - totalInvestment) e0 in
  executeArbitrageBuy now market outcomes totalCost guaranteedProfit s e
  = if negb (allowed (fst (canTrade s e))) then ([], (s, e0))
    else if Qltb sets 1 then ([], (s, e0))
    else (fst legs,
          (SQLiteStore.savePortfolioSnapshot now (fst (getPortfolio (snd legs) e1)) (snd legs),
           snd (getPortfolio (snd legs) e1))).
Proof.
  cbv zeta. unfold executeArbitrageBuy.
  pose proof (canTrade_state s e) as Hcan.
  destruct (canTrade s e) as [can e0]. cbn [snd fst] in *. subst e0.
  destruct (allowed can); cbn [negb]; [|reflexivity].
  rewrite getPortfolio_idem.
  destruct (getPortfolio s e) as [pf e0]. cbn [fst snd]. cbv zeta.
  destruct (Qltb _ 1); [reflexivity|].
  destruct (fold_left _ outcomes _) as [positions s1]. cbn [fst snd].
  by destruct (getPortfolio s1 _) as [pf1 e1].
Qed.

(** X9. A paper simulator constructed over a ledger without snapshots
    starts with the configured starting balance as balance and peak;
    constructed over the ledger left by a buy that returned a position, by a
    sell that returned a trade, or by a basket that created positions, it
    has the balance and peak value the simulator had after that call. *)
Theorem paper_restart_restores (now : Z) (s s' : SQLiteStore.t) (e e' : t) :
  (SQLiteStore.portfolio_snapshots s = [] ->
   balance (constructor s) = startingBalance_cfg config
   /\ peakValue (constructor s) = startingBalance_cfg config)
  /\ (forall opportunity position,
        executeBuy now opportunity s e = (Some position, (s', e')) ->
        balance (constructor s') = balance e'
        /\ peakValue (constructor s') = peakValue e')
  /\ (forall sold currentPrice trade,
        executeSell now sold currentPrice s e = (Some trade, (s', e')) ->
        balance (constructor s') = balance e'
        /\ peakValue (constructor s') = peakValue e')
  /\ (forall market outcomes totalCost guaranteedProfit positions,
        executeArbitrageBuy now market outcomes totalCost guaranteedProfit s e
        = (positions, (s', e')) ->
        positions <> [] ->
        balance (constructor s') = balance e'
        /\ peakValue (constructor s') = peakValue e').
Proof.
  split; [|split; [|split]].
  - intros Hempty. unfold constructor, SQLiteStore.getLatestSnapshot. by rewrite Hempty.
  - intros opportunity position H. rewrite paper_executeBuy_eq in H. cbv zeta in H.
    destruct (negb _); [discriminate|].
    destruct (Qltb _ (minPositionUsd config)); [discriminate|].
    apply pair_equal_spec in H as [_ H]. apply pair_equal_spec in H as [<- <-].
    unfold constructor. rewrite getLatestSnapshot_saved.
    cbn [balance peakValue]. apply getPortfolio_snapshot.
  - intros sold currentPrice trade H. rewrite paper_executeSell_eq in H. cbv zeta in H.
    destruct (bool_decide _); [discriminate|].
    apply pair_equal_spec in H as [_ H]. apply pair_equal_spec in H as [<- <-].
    unfold constructor. rewrite getLatestSnapshot_saved.
    cbn [balance peakValue with_selling]. apply getPortfolio_snapshot.
  - intros market outcomes totalCost guaranteedProfit positions H Hsome.
    rewrite paper_executeArbitrageBuy_eq in H. cbv zeta in H.
    destruct (negb _); [apply pair_equal_spec in H as [<- _]; contradiction|].
    destruct (Qltb _ 1); [apply pair_equal_spec in H as [<- _]; contradiction|].
    apply pair_equal_spec in H as [_ H]. apply pair_equal_spec in H as [<- <-].
    unfold constructor. rewrite getLatestSnapshot_saved.
    cbn [balance peakValue]. apply getPortfolio_snapshot.
Qed.

(** X10. [resetPeakValue] sets the peak to the current total value and
    keeps the balance, so the portfolio read next has drawdown 0.  If
    trading is still refused afterwards (the halt threshold being positive),
    it is the cash buffer that refuses: the balance is below the buffer
    fraction of the total value. *)
Theorem resetPeakValue_clears_drawdown (s : SQLiteStore.t) (e : t) :
  let e' := resetPeakValue s e in
  let pf := fst (getPortfolio s e') in
  peakValue e' = pf_totalValue pf
  /\ balance e' = balance e
  /\ pf_drawdown pf == 0
  /\ pf_drawdownPercent pf == 0
  /\ (0 < drawdownHaltPct config ->
      allowed (fst (canTrade s e')) = false ->
      balance e < pf_totalValue pf * minBufferPct config).
Proof.
  cbv zeta. unfold resetPeakValue, canTrade.
  pose proof (getPortfolio_balance s e) as (Hb & _).
  destruct (getPortfolio s e) as [pf0 e0] eqn:E0. cbn [snd] in Hb.
  assert (Htv : pf_totalValue pf0
                = balance e + sumBy (fun p => p_currentPrice p * p_shares p)
                                    (SQLiteStore.getOpenPositions s)).
  { unfold getPortfolio in E0. cbv zeta in E0.
    apply pair_equal_spec in E0 as [<- _]. reflexivity. }
  unfold getPortfolio. cbv zeta.
  cbn [balance peakValue with_peakValue startingBalance]. rewrite Hb, <- Htv.
  rewrite Qgtb_irrefl.
  cbn [fst snd pf_totalValue pf_drawdown pf_drawdownPercent peakValue with_peakValue
       balance].
  split; [reflexivity|]. split; [reflexivity|]. split; [ring|].
  assert (Hdd : (if Qgtb (pf_totalValue pf0) 0
                 then (pf_totalValue pf0 - pf_totalValue pf0) / pf_totalValue pf0 * 100
                 else 0) == 0).
  { destruct (Qgtb _ 0) eqn:Hpos; [|reflexivity]. apply Qgtb_gt in Hpos. field. lra. }
  split; [exact Hdd|].
  intros Hhalt.
  destruct (Qgeb _ (drawdownHaltPct config * 100)) eqn:Hge.
  - apply Qgeb_ge in Hge. rewrite Hdd in Hge. lra.
  - cbn [pf_totalValue]. destruct (Qltb _ _) eqn:Hbuf; [|discriminate].
    intros _. apply Qltb_lt in Hbuf. by rewrite <- Hb.
Qed.

End PaperAccounts.

Lemma paper_buy_accounting_witness :
  exists position s' e',
    @PaperExecutor.executeBuy demoEnv 1000 yesOpportunity emptyStore freshPaper
    = (Some position, (s', e'))
    /\ PaperExecutor.balance e' = PaperExecutor.balance freshPaper - p_cost position.
Proof.
  destruct (@PaperExecutor.executeBuy demoEnv 1000 yesOpportunity emptyStore freshPaper)
    as [[position|] [s' e']] eqn:E; [|vm_compute in E; discriminate E].
  exists position, s', e'. split; [reflexivity|].
  exact (proj1 (proj2 (@paper_buy_accounting demoEnv 1000 yesOpportunity emptyStore s'
                         freshPaper e' position E))).
Defined.

Lemma paper_balance_never_negative_witness :
  0 <= PaperExecutor.balance freshPaper
  /\ 0 <= PaperExecutor.balance
            (snd (snd (@PaperExecutor.executeBuy demoEnv 1000 yesOpportunity emptyStore
                         freshPaper))).
Proof.
  assert (H : 0 <= PaperExecutor.balance freshPaper) by (vm_compute; discriminate).
  split; [exact H|].
  exact (proj1 (@paper_balance_never_negative demoEnv 1000 emptyStore freshPaper H)
               yesOpportunity).
Defined.

Lemma paper_round_trip_loses_witness :
  exists position s1 e1 trade s2 e2 pnl,
    @PaperExecutor.executeBuy demoEnv 1000 yesOpportunity emptyStore freshPaper
    = (Some position, (s1, e1))
    /\ @PaperExecutor.executeSell demoEnv 2000 position 0.40 s1 e1
       = (Some trade, (s2, e2))
    /\ t_pnl trade = Some pnl
    /\ pnl < 0
    /\ PaperExecutor.balance e2 < PaperExecutor.balance freshPaper.
Proof.
  destruct (@PaperExecutor.executeBuy demoEnv 1000 yesOpportunity emptyStore freshPaper)
    as [[position|] [s1 e1]] eqn:E; [|vm_compute in E; discriminate E].
  assert (H1 : 0 < minPositionUsd (@config demoEnv)) by (vm_compute; reflexivity).
  assert (H2 : 0.01 <= opp_entryPrice yesOpportunity) by (vm_compute; discriminate).
  assert (H3 : opp_entryPrice yesOpportunity <= 1) by (vm_compute; discriminate).
  assert (H4 : p_id position ∉ PaperExecutor.sellingPositions freshPaper)
    by apply not_elem_of_empty.
  destruct (@paper_round_trip_loses demoEnv 1000 2000 yesOpportunity emptyStore s1
              freshPaper e1 position E H1 H2 H3 H4)
    as (trade & s2 & e2 & pnl & Hsell & Hpnl & Hneg & Hbal).
  exists position, s1, e1, trade, s2, e2, pnl. by repeat split.
Defined.

(** ** The order of the scan, the static arbitrage checks and the default exit rule *)

Lemma omap_length_le {A B : Type} (f : A -> option B) (l : list A) :
  (length (omap f l) <= length l)%nat.
Proof.
  induction l as [|x l IH]; [reflexivity|]. cbn [omap list_omap].
  destruct (f x); cbn [length]; lia.
Qed.

Section ArbitrageOrder.
Context {env : Env}.
Import ArbitrageStrategy.

Lemma insert_by_profit_sorted (x : ArbitrageOpportunity) (l : list ArbitrageOpportunity) :
  StronglySorted by_profit l -> StronglySorted by_profit (insert_by_profit x l).
Proof.
  induction 1 as [|y ys Hys IH Hy]; cbn [insert_by_profit].
  - repeat constructor.
  - destruct (Qgtb _ _) eqn:Hgt.
    + apply Qgtb_gt in Hgt. constructor; [exact IH|].
      rewrite (insert_by_profit_perm x ys). constructor; [|exact Hy].
      unfold by_profit. lra.
    + apply Qgtb_le in Hgt. constructor; [by constructor|].
      constructor; [exact Hgt|].
      eapply Forall_impl; [exact Hy|]. unfold by_profit. intros z Hz. lra.
Qed.

Lemma sort_by_profit_sorted (l : list ArbitrageOpportunity) :
  StronglySorted by_profit (sort_by_profit l).
Proof.
  unfold sort_by_profit. induction l as [|x l IH]; cbn [fold_right].
  - constructor.
  - by apply insert_by_profit_sorted.
Qed.

(** What an accepted market looks like. *)
Lemma check_inv (market : Market) (opp : ArbitrageOpportunity) :
  checkMarketForArbitrage market = Some opp ->
  let S := sumBy o_price (m_outcomes market) in
  (2 <= length (m_outcomes market))%nat
  /\ minMarketLiquidity config <= m_liquidity market
  /\ Forall (fun o => 0 < o_price o /\ o_price o < 1) (m_outcomes market)
  /\ S < 1
  /\ MIN_PROFIT_PCT <= (1 - S) / S
  /\ (1 - S) / S <= MAX_PROFIT_PCT
  /\ opp_market (arb_base opp) = market
  /\ arb_totalCost opp = S
  /\ arb_guaranteedProfit opp = 1 - S
  /\ arb_profitPercent opp = (1 - S) / S.
Proof.
  cbv zeta. unfold checkMarketForArbitrage.
  destruct (Nat.ltb _ 2) eqn:Hlen; [discriminate|]. apply Nat.ltb_ge in Hlen.
  destruct (Qltb (m_liquidity market) _) eqn:Hliq; [discriminate|]. apply Qltb_ge in Hliq.
  destruct (existsb _ _) eqn:Hprices; [discriminate|].
  cbv zeta.
  destruct (Qgeb _ 1) eqn:Hcost; [discriminate|]. apply Qgeb_lt in Hcost.
  destruct (Qltb _ MIN_PROFIT_PCT) eqn:Hmin; [discriminate|]. apply Qltb_ge in Hmin.
  destruct (Qgtb _ MAX_PROFIT_PCT) eqn:Hmax; [discriminate|]. apply Qgtb_le in Hmax.
  intros H. apply (inj Some) in H. subst opp. cbn.
  repeat split; try assumption; try reflexivity.
  apply Forall_forall. intros o Ho.
  assert (Hno : (Qleb (o_price o) 0 || Qgeb (o_price o) 1) = false).
  { destruct (Qleb (o_price o) 0 || Qgeb (o_price o) 1) eqn:E; [|reflexivity].
    assert (existsb (fun o => Qleb (o_price o) 0 || Qgeb (o_price o) 1) (m_outcomes market)
            = true).
    { apply existsb_exists. exists o. split; [by apply list_elem_of_In|exact E]. }
    congruence. }
  apply orb_false_iff in Hno as [H1 H2]. apply Qleb_gt in H1. apply Qgeb_lt in H2.
  by split.
Qed.

(** X11. The arbitrage scan returns the opportunities of the markets
    that [checkMarketForArbitrage] accepts, each once, ordered by profit
    percent from the highest to the lowest; it never returns more
    opportunities than there are markets. *)
Theorem scan_sorted_by_profit (markets : list Market) :
  StronglySorted (fun a b => arb_profitPercent b <= arb_profitPercent a) (scan markets)
  /\ scan markets ≡ₚ omap checkMarketForArbitrage markets
  /\ (length (scan markets) <= length markets)%nat
  /\ (forall opp, opp ∈ scan markets ->
        exists market, market ∈ markets /\ checkMarketForArbitrage market = Some opp).
Proof.
  split; [apply sort_by_profit_sorted|]. split; [apply scan_perm|]. split.
  - rewrite (scan_perm markets). apply omap_length_le.
  - intros opp Hin. rewrite (scan_perm markets) in Hin.
    apply list_elem_of_omap in Hin as (market & Hm & Hcheck). by exists market.
Qed.

(** X12. [findMultiOutcomeArbitrage] reports an arbitrage exactly when
    the market has at least two outcomes, their prices sum to S with
    0 < S < 1, and (1 - S) / S > 0.02.  For every market the scanner accepts
    it reports the scanner's total cost, profit and profit percent, and it
    reports an arbitrage unless the profit percent is exactly 0.02: the
    scanner accepts 2% and the static check asks for more than 2%. *)
Theorem findMultiOutcomeArbitrage_exists (market : Market) :
  let S := sumBy o_price (m_outcomes market) in
  let check := findMultiOutcomeArbitrage market in
  (mc_exists check = true
   <-> (2 <= length (m_outcomes market))%nat /\ 0 < S /\ S < 1 /\ 0.02 < (1 - S) / S)
  /\ (forall opp,
        checkMarketForArbitrage market = Some opp ->
        mc_totalCost check = arb_totalCost opp
        /\ mc_profit check = arb_guaranteedProfit opp
        /\ mc_profitPct check = arb_profitPercent opp
        /\ (mc_exists check = true <-> ~ arb_profitPercent opp == 0.02)).
Proof.
  cbv zeta. split.
  - unfold findMultiOutcomeArbitrage.
    destruct (Nat.ltb _ 2) eqn:Hlen.
    + apply Nat.ltb_lt in Hlen. cbn [mc_exists]. split; [discriminate|]. intros [? _]. lia.
    + apply Nat.ltb_ge in Hlen. cbv zeta. cbn [mc_exists].
      rewrite andb_true_iff, Qltb_lt, Qgtb_gt.
      destruct (Qgtb _ 0) eqn:Hpos.
      * apply Qgtb_gt in Hpos. tauto.
      * apply Qgtb_le in Hpos. split; [intros [_ H]; lra|]. intros (_ & H & _). lra.
  - intros opp Hcheck. destruct (check_inv _ _ Hcheck) as
      (Hlen & _ & Hprices & Hcost & Hmin & _ & _ & -> & -> & ->).
    assert (Hpos : 0 < sumBy o_price (m_outcomes market)).
    { apply sumBy_pos.
      - eapply Forall_impl; [exact Hprices|]. by intros o [? _].
      - intros E. rewrite E in Hlen. cbn in Hlen. lia. }
    unfold findMultiOutcomeArbitrage.
    rewrite (proj2 (Nat.ltb_ge _ _) Hlen). cbv zeta.
    rewrite (Qgtb_true _ _ Hpos).
    cbn [mc_exists mc_totalCost mc_profit mc_profitPct].
    repeat (split; [reflexivity|]).
    rewrite andb_true_iff, Qltb_lt, Qgtb_gt. unfold MIN_PROFIT_PCT in Hmin.
    split.
    + intros [_ Hgt] Heq. rewrite Heq in Hgt. by apply Qlt_irrefl in Hgt.
    + intros Hne. split; [exact Hcost|].
      apply Qle_lteq in Hmin as [Hlt|Heq]; [exact Hlt|]. exfalso. apply Hne. by symmetry.
Qed.

(** X13. On a market with exactly two outcomes named yes and no (in
    any letter case, in either order) whose prices do not sum to zero,
    [findBinaryArbitrage] and [findMultiOutcomeArbitrage] agree on whether
    an arbitrage exists, on its total cost and on its profit. *)
Theorem findBinaryArbitrage_agrees (market : Market) (o1 o2 : Outcome) :
  m_outcomes market = [o1; o2] ->
  (toLowerCase (o_name o1) = "yes"%string /\ toLowerCase (o_name o2) = "no"%string)
  \/ (toLowerCase (o_name o1) = "no"%string /\ toLowerCase (o_name o2) = "yes"%string) ->
  ~ o_price o1 + o_price o2 == 0 ->
  let binary := findBinaryArbitrage market in
  let multi := findMultiOutcomeArbitrage market in
  bc_exists binary = mc_exists multi
  /\ bc_totalCost binary == mc_totalCost multi
  /\ bc_profit binary == mc_profit multi
  /\ bc_yesPrice binary + bc_noPrice binary == o_price o1 + o_price o2.
Proof.
  intros Hos Hnames Hnz. cbv zeta.
  unfold findBinaryArbitrage, findMultiOutcomeArbitrage. rewrite Hos.
  cbn [length Nat.eqb Nat.ltb Nat.leb negb List.find]. cbv zeta.
  assert (HS : sumBy o_price [o1; o2] == o_price o1 + o_price o2)
    by (unfold sumBy; cbn [fold_left]; ring).
  set (S := sumBy o_price [o1; o2]) in *.
  assert (Hbool : forall a, a == S ->
             Qltb a 1 && Qgtb ((1 - a) / a) 0.02
             = Qltb S 1 && Qgtb (if Qgtb S 0 then (1 - S) / S else 0) 0.02).
  { intros a Ha. apply eq_true_iff_eq.
    rewrite !andb_true_iff, !Qltb_lt, !Qgtb_gt.
    assert (Hd : (1 - a) / a == (1 - S) / S) by (by rewrite Ha).
    destruct (Qgtb S 0) eqn:Hpos.
    - rewrite Ha. tauto.
    - apply Qgtb_le in Hpos. rewrite Ha.
      assert (Hneg : S < 0).
      { apply Qle_lteq in Hpos as [Hlt|Heq]; [exact Hlt|]. exfalso. apply Hnz.
        by rewrite <- HS, Heq. }
      assert (Hq : (1 - S) / S <= 0).
      { assert (Hm : 0 <= (1 - S) / - S) by (apply Qdiv_nonneg; lra).
        assert (Hopp : (1 - S) / - S == - ((1 - S) / S)) by (field; lra).
        rewrite Hopp in Hm. lra. }
      split; [intros [_ H]; lra|intros [_ H]; lra]. }
  assert (Y1 : bool_decide ("yes"%string = "yes"%string) || includes "yes" "yes" = true)
    by (vm_compute; reflexivity).
  assert (Y2 : bool_decide ("no"%string = "yes"%string) || includes "yes" "no" = false)
    by (vm_compute; reflexivity).
  assert (N1 : bool_decide ("no"%string = "no"%string) || includes "no" "no" = true)
    by (vm_compute; reflexivity).
  assert (N2 : bool_decide ("yes"%string = "no"%string) || includes "no" "yes" = false)
    by (vm_compute; reflexivity).
  destruct Hnames as [[Hy Hn]|[Hn Hy]]; rewrite Hy, Hn, ?Y1, ?Y2, ?N1, ?N2;
    cbn [bc_exists bc_totalCost bc_profit bc_yesPrice bc_noPrice
         mc_exists mc_totalCost mc_profit].
  - split; [apply Hbool; by rewrite HS|]. split; [by rewrite HS|].
    split; [by rewrite HS|reflexivity].
  - split; [apply Hbool; rewrite HS; ring|]. split; [rewrite HS; ring|].
    split; [rewrite HS; ring|ring].
Qed.

(** The default exit rule in exact arithmetic, away from its thresholds. *)
Lemma base_shouldExit_margins (position : Position) (currentPrice : Q) :
  0 < p_entryPrice position ->
  (1.2001 * p_entryPrice position <= currentPrice ->
   BaseStrategy.shouldExit position currentPrice = true)
  /\ (currentPrice <= 0.8499 * p_entryPrice position ->
      BaseStrategy.shouldExit position currentPrice = true)
  /\ (0.8501 * p_entryPrice position <= currentPrice ->
      currentPrice <= 1.1999 * p_entryPrice position ->
      BaseStrategy.shouldExit position currentPrice = false)
  /\ ArbitrageStrategy.shouldExit position currentPrice = false.
Proof.
  intros He. unfold BaseStrategy.shouldExit. cbv zeta.
  set (e := p_entryPrice position) in *.
  rewrite (pct_ge currentPrice e 20 He), (pct_le currentPrice e (-15) He).
  split; [|split; [|split; [|reflexivity]]].
  - intros H. rewrite Qgeb_true by lra. reflexivity.
  - intros H. rewrite Qleb_true by lra. by destruct (Qgeb _ _).
  - intros H1 H2. rewrite Qgeb_false by lra. rewrite Qleb_false by lra. reflexivity.
Qed.

(** X14. The default exit rule of the strategy base class takes profit at
    +20% and stops the loss at -15%, tested on the percentage
    [((currentPrice - entryPrice) / entryPrice) * 100].  For a position with
    a positive entry price it holds when the current price is at least
    1.2001 times the entry price or at most 0.8499 times it, and it does
    not hold from 0.8501 to 1.1999 times the entry price; nearer to either
    threshold the rounding of the percentage decides.  The arbitrage
    strategy never exits.
    Under each of these conditions the rule computed with any rounding of
    relative error at most 1e-9 gives the same answer. *)
Theorem base_shouldExit_thresholds (position : Position) (currentPrice : Q) :
  0 < p_entryPrice position ->
  (1.2001 * p_entryPrice position <= currentPrice ->
   BaseStrategy.shouldExit position currentPrice = true)
  /\ (currentPrice <= 0.8499 * p_entryPrice position ->
      BaseStrategy.shouldExit position currentPrice = true)
  /\ (0.8501 * p_entryPrice position <= currentPrice ->
      currentPrice <= 1.1999 * p_entryPrice position ->
      BaseStrategy.shouldExit position currentPrice = false)
  /\ ArbitrageStrategy.shouldExit position currentPrice = false
  /\ (forall rnd,
        roundsFinely rnd ->
        1.2001 * p_entryPrice position <= currentPrice
        \/ currentPrice <= 0.8499 * p_entryPrice position
        \/ (0.8501 * p_entryPrice position <= currentPrice
            /\ currentPrice <= 1.1999 * p_entryPrice position) ->
        BaseStrategy.shouldExitRounded rnd position currentPrice
        = BaseStrategy.shouldExit position currentPrice).
Proof.
  intros He.
  destruct (base_shouldExit_margins position currentPrice He) as (A1 & A2 & A3 & A4).
  do 4 (split; [assumption|]).
  intros rnd (u & Hu0 & Hu1 & Hr) Hc.
  assert (Hu : u <= 0.000001) by lra.
  destruct (base_shouldExitRounded u rnd Hu0 Hu Hr position currentPrice He) as [Rt Rf].
  destruct Hc as [H|[H|[H1 H2]]].
  - rewrite Rt by (by left). by rewrite A1.
  - rewrite Rt by (by right). by rewrite A2.
  - rewrite Rf by assumption. by rewrite A3.
Qed.

End ArbitrageOrder.

Lemma findBinaryArbitrage_agrees_witness :
  ArbitrageStrategy.bc_exists (ArbitrageStrategy.findBinaryArbitrage yesNoMarket)
  = ArbitrageStrategy.mc_exists (ArbitrageStrategy.findMultiOutcomeArbitrage yesNoMarket).
Proof.
  refine (proj1 (findBinaryArbitrage_agrees yesNoMarket _ _ eq_refl _ _)).
  - left. split; vm_compute; reflexivity.
  - intros H. vm_compute in H. discriminate H.
Defined.

(** X14 on the held position (entry 0.41): an exit at 0.50, none at 0.45. *)
Lemma base_shouldExit_thresholds_witness :
  0 < p_entryPrice heldPosition
  /\ BaseStrategy.shouldExit heldPosition 0.5 = true
  /\ BaseStrategy.shouldExit heldPosition 0.45 = false.
Proof.
  assert (H : 0 < p_entryPrice heldPosition) by (vm_compute; reflexivity).
  destruct (base_shouldExit_thresholds heldPosition 0.5 H) as (Hup & _).
  destruct (base_shouldExit_thresholds heldPosition 0.45 H) as (_ & _ & Hin & _).
  split; [exact H|]. split.
  - apply Hup. vm_compute. discriminate.
  - apply Hin; vm_compute; discriminate.
Defined.

(** ** Whale signals *)

Section WhaleSignals.
Import WhaleTracker WhaleTracking.

Lemma Qabs_pos_eq (x : Q) : 0 < x -> Qabs x == x.
Proof. intros H. apply Qabs_pos. lra. Qed.

Lemma Qgeb_eq (x y c : Q) : x == y -> Qgeb x c = Qgeb y c.
Proof.
  intros E. apply eq_true_iff_eq. rewrite !Qgeb_ge. by rewrite E.
Qed.

(** The whale signal in exact arithmetic, away from the edge threshold. *)
Lemma whale_signal_margins (a : WhaleActivity) (currentPrice : Q) :
  (netVolume a <= 0 -> analyzeWhaleActivity a currentPrice = None)
  /\ (netVolume a < 5000 -> analyzeWhaleActivity a currentPrice = None)
  /\ ((tradeCount a < 3)%nat -> analyzeWhaleActivity a currentPrice = None)
  /\ (0.9201 <= currentPrice -> currentPrice <= 0.9799 ->
      analyzeWhaleActivity a currentPrice = None)
  /\ ((3 <= tradeCount a)%nat -> 5000 <= netVolume a ->
      currentPrice <= 0.9199 \/ 0.9801 <= currentPrice ->
      exists signal, analyzeWhaleActivity a currentPrice = Some signal)
  /\ (forall signal,
        analyzeWhaleActivity a currentPrice = Some signal ->
        (3 <= tradeCount a)%nat
        /\ 5000 <= netVolume a
        /\ sg_estimatedProb signal
           == Qmin 0.95 (currentPrice + (0.05 + Qmin 0.15 (netVolume a / 50000)))
        /\ sg_edge signal = sg_estimatedProb signal - currentPrice
        /\ sg_estimatedProb signal <= 0.95
        /\ (currentPrice <= 0.95 ->
            0.0299 <= sg_edge signal /\ sg_edge signal <= 0.2001)
        /\ (0.95 < currentPrice ->
            sg_estimatedProb signal == 0.95 /\ sg_edge signal <= -0.0299)
        /\ (sg_confidence signal = c_high
            <-> 20000 <= netVolume a /\ (5 <= tradeCount a)%nat)
        /\ (sg_confidence signal = c_low
            <-> netVolume a < 10000 /\ (tradeCount a < 4)%nat)).
Proof.
  unfold analyzeWhaleActivity, WHALE_SIGNAL_MIN_TRADES, WHALE_SIGNAL_MIN_NET_VOLUME.
  cbv zeta.
  destruct (Nat.ltb (tradeCount a) 3) eqn:Hcount.
  { apply Nat.ltb_lt in Hcount. do 4 (split; [done|]). split; [intros; lia|done]. }
  apply Nat.ltb_ge in Hcount.
  destruct (Qltb (Qabs (netVolume a)) 5000) eqn:Habs.
  { apply Qltb_lt in Habs. do 4 (split; [done|]). split; [|done].
    intros _ Hnet _. exfalso. rewrite Qabs_pos in Habs by lra. lra. }
  apply Qltb_ge in Habs.
  destruct (Qgtb (netVolume a) 0) eqn:Hbull.
  - apply Qgtb_gt in Hbull. pose proof (Qabs_pos_eq _ Hbull) as Hn.
    rewrite Hn in Habs.
    set (premium := 0.05 + Qmin 0.15 (Qabs (netVolume a) / 50000)).
    assert (Hprem : premium == 0.05 + Qmin 0.15 (netVolume a / 50000))
      by (unfold premium; by rewrite Hn).
    assert (Hp1 : 0.15 <= premium).
    { rewrite Hprem. assert (0.1 <= netVolume a / 50000).
      { apply Qle_shift_div_l; lra. }
      destruct (Q.min_spec 0.15 (netVolume a / 50000)) as [[_ ->]|[_ ->]]; lra. }
    assert (Hp2 : premium <= 0.2).
    { rewrite Hprem. pose proof (Q.le_min_l 0.15 (netVolume a / 50000)). lra. }
    set (est := Qmin 0.95 (currentPrice + premium)).
    assert (Hest : est <= 0.95) by apply Q.le_min_l.
    assert (Hest' : est <= currentPrice + premium) by apply Q.le_min_r.
    assert (Hcases : (est == 0.95 /\ 0.95 <= currentPrice + premium)
                     \/ (est == currentPrice + premium /\ currentPrice + premium <= 0.95)).
    { unfold est. destruct (Q.min_spec 0.95 (currentPrice + premium)) as [[H E]|[H E]].
      - left. split; [exact E|lra].
      - right. split; [exact E|exact H]. }
    destruct (Qltb (Qabs (est - currentPrice)) 0.03) eqn:Hedge.
    { apply Qltb_lt in Hedge. do 4 (split; [intros; first [lra|lia|reflexivity]|]).
      split; [|done]. intros _ _ Hprice. exfalso.
      apply Qabs_Qlt_condition in Hedge. destruct Hcases as [[E H]|[E H]];
        destruct Hprice; lra. }
    apply Qltb_ge in Hedge. cbn [negb].
    split; [intros; lra|]. split; [intros; lra|]. split; [lia|].
    split.
    { intros Hlo Hhi. exfalso.
      assert (Hsmall : Qabs (est - currentPrice) < 0.03).
      { apply Qabs_Qlt_condition. destruct Hcases as [[E H]|[E H]]; lra. }
      lra. }
    split; [intros; by eexists|].
    intros signal H. apply (inj Some) in H. subst signal.
    cbn [sg_estimatedProb sg_edge sg_confidence].
    split; [exact Hcount|]. split; [exact Habs|].
    split. { unfold est. by rewrite Hprem. }
    split; [reflexivity|]. split; [exact Hest|].
    split.
    { intros Hprice. assert (Hpos : 0 <= est - currentPrice)
        by (destruct Hcases as [[E H]|[E H]]; lra).
      rewrite Qabs_pos in Hedge by exact Hpos. split; lra. }
    split.
    { intros Hprice. assert (Hcap : est == 0.95)
        by (destruct Hcases as [[E H]|[E H]]; [exact E|lra]).
      split; [exact Hcap|]. rewrite Qabs_neg in Hedge by lra. lra. }
    rewrite !(Qgeb_eq _ _ _ Hn).
    destruct (Qgeb (netVolume a) 20000) eqn:H20;
      destruct (Nat.leb 5 (tradeCount a)) eqn:H5; cbn [andb];
      destruct (Qgeb (netVolume a) 10000) eqn:H10;
      destruct (Nat.leb 4 (tradeCount a)) eqn:H4; cbn [orb];
      q_tests;
      repeat match goal with
        | H : Nat.leb _ _ = true |- _ => apply Nat.leb_le in H
        | H : Nat.leb _ _ = false |- _ => apply Nat.leb_gt in H
        end;
      (split; (split; [first [discriminate|intros _; split; first [lra|lia]]
                      |first [reflexivity|intros [? ?]; exfalso; first [lra|lia]]])).
  - apply Qgtb_le in Hbull.
    destruct (Qltb _ 0.03); cbn [negb]; do 4 (split; [done|]);
      (split; [intros _ Hnet _; exfalso; lra|done]).
Qed.

(** X15. [analyzeWhaleActivity] gives no signal unless the net volume is
    at least 5000 and there are at least 3 trades, and none for a price
    from 0.9201 to 0.9799.  With that volume and that many trades it gives
    a signal for every price up to 0.9199 and for every price from 0.9801.
    A signal's estimated probability is
    min(0.95, price + (0.05 + min(0.15, net volume / 50000))), at most 0.95,
    and its edge that probability minus the price.  For a price up to 0.95
    the edge lies between 0.0299 and 0.2001.  For a price above 0.95 the
    estimated probability is 0.95 and the edge at most -0.0299: the edge
    test compares the absolute value, so a negative edge passes.  The
    confidence is high exactly for a net volume of 20000 or more with 5 or
    more trades, and low exactly for a net volume below 10000 with fewer
    than 4 trades.
    For a price between 0 and 1, the edge computed with any rounding of
    relative error at most 1e-9 passes the edge test up to a price of
    0.9199 and from 0.9801, and fails it from 0.9201 to 0.9799. *)
Theorem whale_signal_bounds (a : WhaleActivity) (currentPrice : Q) :
  (netVolume a <= 0 -> analyzeWhaleActivity a currentPrice = None)
  /\ (netVolume a < 5000 -> analyzeWhaleActivity a currentPrice = None)
  /\ ((tradeCount a < 3)%nat -> analyzeWhaleActivity a currentPrice = None)
  /\ (0.9201 <= currentPrice -> currentPrice <= 0.9799 ->
      analyzeWhaleActivity a currentPrice = None)
  /\ ((3 <= tradeCount a)%nat -> 5000 <= netVolume a ->
      currentPrice <= 0.9199 \/ 0.9801 <= currentPrice ->
      exists signal, analyzeWhaleActivity a currentPrice = Some signal)
  /\ (forall signal,
        analyzeWhaleActivity a currentPrice = Some signal ->
        (3 <= tradeCount a)%nat
        /\ 5000 <= netVolume a
        /\ sg_estimatedProb signal
           == Qmin 0.95 (currentPrice + (0.05 + Qmin 0.15 (netVolume a / 50000)))
        /\ sg_edge signal = sg_estimatedProb signal - currentPrice
        /\ sg_estimatedProb signal <= 0.95
        /\ (currentPrice <= 0.95 ->
            0.0299 <= sg_edge signal /\ sg_edge signal <= 0.2001)
        /\ (0.95 < currentPrice ->
            sg_estimatedProb signal == 0.95 /\ sg_edge signal <= -0.0299)
        /\ (sg_confidence signal = c_high
            <-> 20000 <= netVolume a /\ (5 <= tradeCount a)%nat)
        /\ (sg_confidence signal = c_low
            <-> netVolume a < 10000 /\ (tradeCount a < 4)%nat))
  /\ (forall signal,
        analyzeWhaleActivity a currentPrice = Some signal ->
        sg_edge signal
        = bullishEdgeRounded (fun x => x) (Qabs (netVolume a)) currentPrice)
  /\ (forall rnd,
        roundsFinely rnd ->
        5000 <= netVolume a -> 0 <= currentPrice -> currentPrice <= 1 ->
        let edge := bullishEdgeRounded rnd (Qabs (netVolume a)) currentPrice in
        (currentPrice <= 0.9199 -> 0.03 <= edge /\ edge <= 0.2001)
        /\ (0.9201 <= currentPrice -> currentPrice <= 0.9799 -> Qabs edge < 0.03)
        /\ (0.9801 <= currentPrice -> edge <= -0.03)).
Proof.
  destruct (whale_signal_margins a currentPrice) as (A1 & A2 & A3 & A4 & A5 & A6).
  do 6 (split; [assumption|]). split.
  - intros signal. unfold analyzeWhaleActivity. cbv zeta.
    destruct (Nat.ltb _ _); [discriminate|].
    destruct (Qltb (Qabs (netVolume a)) _); [discriminate|].
    destruct (Qltb _ 0.03); [discriminate|].
    destruct (Qgtb (netVolume a) 0); [|discriminate]. cbn [negb].
    intros H. apply (inj Some) in H. subst signal. reflexivity.
  - intros rnd (u & Hu0 & Hu1 & Hr) Hnet Hp0 Hp1. cbv zeta.
    apply (bullishEdgeRounded_bounds u rnd Hu0 Hu1 Hr); try assumption.
    rewrite Qabs_pos by lra. exact Hnet.
Qed.

(** X16. [getRecentTrades] of the whale tracker returns the last
    [limit] trades for a positive limit (all of them when there are fewer);
    with limit 0 it returns every trade, and with a negative limit all but
    the first [-limit] trades. *)
Theorem getRecentTrades_slice (limit : Z) (w : t) :
  ((0 < limit)%Z ->
   getRecentTrades limit w = skipn (length (trades w) - Z.to_nat limit) (trades w)
   /\ length (getRecentTrades limit w) = Nat.min (Z.to_nat limit) (length (trades w)))
  /\ (limit = 0%Z -> getRecentTrades limit w = trades w)
  /\ ((limit < 0)%Z -> getRecentTrades limit w = skipn (Z.to_nat (- limit)) (trades w)).
Proof.
  unfold getRecentTrades, slice_from. cbv zeta. split; [|split].
  - intros Hpos. rewrite (proj2 (Z.ltb_lt _ _)) by lia.
    assert (E : Z.to_nat (Z.max (Z.of_nat (length (trades w)) + - limit) 0)
                = (length (trades w) - Z.to_nat limit)%nat) by lia.
    rewrite E. split; [reflexivity|]. rewrite length_skipn. lia.
  - intros ->. change (- 0)%Z with 0%Z. cbn [Z.ltb Z.compare].
    assert (E : Z.to_nat (Z.min 0 (Z.of_nat (length (trades w)))) = 0%nat) by lia.
    by rewrite E.
  - intros Hneg. rewrite (proj2 (Z.ltb_ge _ _)) by lia.
    destruct (Z.min_spec (- limit) (Z.of_nat (length (trades w)))) as [[_ ->]|[Hle ->]];
      [reflexivity|].
    rewrite Nat2Z.id. rewrite !skipn_all2; [reflexivity|lia|lia].
Qed.

(** X17. [recordTrade] of the whale tracker ignores a trade below
    $1000.  Otherwise the trades kept are the earlier ones and the new one,
    without those more than 30 minutes older than the current time, and the
    activity table is recomputed from exactly the kept trades.  As only
    trades of $1000 or more are kept, the total volume is at least 1000
    times the number of trades.  The trades kept are those of the
    trades-only model [WhaleTracker] that the event reactor uses. *)
Theorem whale_retention (now : Z) (trade : WhaleTrade) (w : t) :
  let w' := recordTrade now trade w in
  (wt_size trade < 1000 -> w' = w)
  /\ (1000 <= wt_size trade ->
      trades w'
      = List.filter (fun tr => (now - LOOKBACK_WINDOW_MS <=? wt_timestamp tr)%Z)
                    (trades w ++ [trade])
      /\ activity w' = recalculate (trades w')
      /\ Forall (fun tr => (now - 1800000 <= wt_timestamp tr)%Z) (trades w'))
  /\ (Forall (fun tr => 1000 <= wt_size tr) (trades w) ->
      Forall (fun tr => 1000 <= wt_size tr) (trades w')
      /\ 1000 * inject_Z (Z.of_nat (st_totalTrades (getStats w')))
         <= st_totalVolume (getStats w'))
  /\ trades w'
     = WhaleTracker.trades
         (WhaleTracker.recordTrade now trade {| WhaleTracker.trades := trades w |}).
Proof.
  cbv zeta. unfold recordTrade, WhaleTracker.recordTrade, WHALE_TRADE_MIN_SIZE.
  assert (Hvol : forall l, Forall (fun tr => 1000 <= wt_size tr) l ->
                   1000 * inject_Z (Z.of_nat (length l)) <= sumBy wt_size l).
  { induction 1 as [|x l Hx _ IH].
    - unfold sumBy. cbn [length fold_left]. change (inject_Z (Z.of_nat 0)) with 0. lra.
    - rewrite sumBy_cons. cbn [length]. rewrite Nat2Z.inj_succ, <- Z.add_1_r, inject_Z_plus.
      change (inject_Z 1) with 1. lra. }
  destruct (Qltb (wt_size trade) 1000) eqn:Hsize.
  - apply Qltb_lt in Hsize. split; [done|]. split; [intros; lra|]. split; [|done].
    intros Hall. split; [exact Hall|]. by apply Hvol.
  - apply Qltb_ge in Hsize. split; [intros; lra|].
    unfold cleanup, WhaleTracker.cleanup. cbv zeta. cbn [trades activity WhaleTracker.trades].
    split; [|split; [|reflexivity]].
    + intros _. split; [reflexivity|]. split; [reflexivity|].
      eapply Forall_impl; [apply Forall_filter_test|].
      intros tr Htr. cbv beta in Htr. apply Z.leb_le in Htr.
      unfold LOOKBACK_WINDOW_MS in Htr. lia.
    + intros Hall.
      assert (Hkept : Forall (fun tr => 1000 <= wt_size tr)
                        (List.filter (fun tr => (now - LOOKBACK_WINDOW_MS <=? wt_timestamp tr)%Z)
                                     (trades w ++ [trade]))).
      { apply Forall_filter_keep. apply Forall_app. split; [exact Hall|].
        by constructor. }
      split; [exact Hkept|]. unfold getStats. cbn [st_totalTrades st_totalVolume trades].
      by apply Hvol.
Qed.

Lemma insert_by_edge_perm (x : Opportunity) (l : list Opportunity) :
  insert_by_edge x l ≡ₚ x :: l.
Proof.
  induction l as [|y ys IH]; cbn [insert_by_edge]; [reflexivity|].
  destruct (Qgtb _ _); [|reflexivity]. rewrite IH. apply Permutation_swap.
Qed.

Lemma sort_by_edge_perm (l : list Opportunity) : sort_by_edge l ≡ₚ l.
Proof.
  unfold sort_by_edge. induction l as [|x l IH]; cbn [fold_right]; [reflexivity|].
  by rewrite insert_by_edge_perm, IH.
Qed.

Lemma insert_by_edge_sorted (x : Opportunity) (l : list Opportunity) :
  StronglySorted (fun a b => opp_edge b <= opp_edge a) l ->
  StronglySorted (fun a b => opp_edge b <= opp_edge a) (insert_by_edge x l).
Proof.
  induction 1 as [|y ys Hys IH Hy]; cbn [insert_by_edge].
  - repeat constructor.
  - destruct (Qgtb _ _) eqn:Hgt.
    + apply Qgtb_gt in Hgt. constructor; [exact IH|].
      rewrite (insert_by_edge_perm x ys). constructor; [lra|exact Hy].
    + apply Qgtb_le in Hgt. constructor; [by constructor|].
      constructor; [exact Hgt|].
      eapply Forall_impl; [exact Hy|]. intros z Hz. cbv beta in Hz. lra.
Qed.

Lemma sort_by_edge_sorted (l : list Opportunity) :
  StronglySorted (fun a b => opp_edge b <= opp_edge a) (sort_by_edge l).
Proof.
  unfold sort_by_edge. induction l as [|x l IH]; cbn [fold_right].
  - constructor.
  - by apply insert_by_edge_sorted.
Qed.

(** X18. [getSignals] returns one whale opportunity for every outcome
    of the given markets that has a token id and whose activity gives a
    signal, with the outcome's price as entry price and the signal's
    probability, edge and confidence, ordered by edge from the highest to
    the lowest; with an empty activity table it returns nothing. *)
Theorem getSignals_sorted (w : t) (markets : list Market) :
  StronglySorted (fun a b => opp_edge b <= opp_edge a) (getSignals w markets)
  /\ getSignals w markets ≡ₚ concat (List.map (marketSignals w) markets)
  /\ (forall opp,
        opp ∈ getSignals w markets ->
        opp_strategy opp = s_whale
        /\ opp_market opp ∈ markets
        /\ exists outcome a signal,
             m_outcomes (opp_market opp) !! opp_outcomeIndex opp = Some outcome
             /\ o_tokenId outcome <> EmptyString
             /\ activity w !! o_tokenId outcome = Some a
             /\ analyzeWhaleActivity a (o_price outcome) = Some signal
             /\ opp_entryPrice opp = o_price outcome
             /\ opp_estimatedProb opp = sg_estimatedProb signal
             /\ opp_edge opp = sg_edge signal
             /\ opp_confidence opp = sg_confidence signal)
  /\ (activity w = ∅ -> getSignals w markets = []).
Proof.
  split; [apply sort_by_edge_sorted|]. split; [apply sort_by_edge_perm|]. split.
  - intros opp Hin. unfold getSignals in Hin. rewrite sort_by_edge_perm in Hin.
    apply list_elem_of_In, in_concat in Hin as (signals & Hsignals & Hopp).
    apply in_map_iff in Hsignals as (market & <- & Hmarket).
    apply list_elem_of_In in Hopp, Hmarket.
    unfold marketSignals in Hopp.
    apply list_elem_of_omap in Hopp as ([i outcome] & Hio & Hsome).
    apply elem_of_lookup_imap in Hio as (j & o & Heq & Hlook).
    injection Heq as -> ->.
    case_bool_decide as Htoken; [discriminate|].
    destruct (activity w !! o_tokenId o) as [a|] eqn:Hact; [|discriminate].
    destruct (analyzeWhaleActivity a (o_price o)) as [signal|] eqn:Hsig; [|discriminate].
    apply (inj Some) in Hsome. subst opp.
    cbn [opp_strategy opp_market opp_outcomeIndex opp_entryPrice opp_estimatedProb
         opp_edge opp_confidence].
    split; [reflexivity|]. split; [exact Hmarket|].
    exists o, a, signal. by repeat split.
  - intros Hempty. unfold getSignals.
    assert (Hnone : forall market, marketSignals w market = []).
    { intros market. unfold marketSignals. rewrite Hempty.
      induction (imap (fun i o => (i, o)) (m_outcomes market)) as [|[i o] l IH];
        [reflexivity|].
      cbn [omap list_omap]. rewrite lookup_empty. destruct (bool_decide _); exact IH. }
    assert (Hconcat : concat (List.map (marketSignals w) markets) = []).
    { induction markets as [|m ms IH]; [reflexivity|].
      cbn [List.map concat]. by rewrite Hnone, IH. }
    by rewrite Hconcat.
Qed.

End WhaleSignals.

(** ** The whale activity table *)

Section WhaleTable.
Import WhaleTracker WhaleTracking.

Lemma recalculate_lookup (l : list WhaleTrade) (table : gmap string WhaleActivity)
    (a : string) :
  fold_left stepTable l table !! a = fold_left stepEntry (tradesOf a l) (table !! a).
Proof.
  revert table. induction l as [|x l IH]; intros table; [reflexivity|].
  cbn [fold_left]. rewrite IH. unfold tradesOf. cbn [List.filter].
  unfold stepTable at 1. case_bool_decide as Hx.
  - cbn [fold_left]. rewrite Hx, lookup_insert_eq. reflexivity.
  - by rewrite lookup_insert_ne.
Qed.

Lemma volumeOf_cons (b : bool) (x : WhaleTrade) (l : list WhaleTrade) :
  volumeOf b (x :: l) == (if Bool.eqb (isBuy x) b then wt_size x else 0) + volumeOf b l.
Proof.
  unfold volumeOf. cbn [List.filter]. destruct (Bool.eqb _ _).
  - apply sumBy_cons.
  - ring.
Qed.


(** Folding the trades of one asset into its entry. *)
Lemma stepEntry_totals (l : list WhaleTrade) (a0 : WhaleActivity) :
  netVolume a0 = totalBuyVolume a0 - totalSellVolume a0 ->
  exists a,
    fold_left stepEntry l (Some a0) = Some a
    /\ wa_assetId a = wa_assetId a0
    /\ tradeCount a = (tradeCount a0 + length l)%nat
    /\ totalBuyVolume a == totalBuyVolume a0 + volumeOf true l
    /\ totalSellVolume a == totalSellVolume a0 + volumeOf false l
    /\ netVolume a = totalBuyVolume a - totalSellVolume a
    /\ (lastUpdate a0 <= lastUpdate a)%Z
    /\ Forall (fun tr => (wt_timestamp tr <= lastUpdate a)%Z) l.
Proof.
  revert a0. induction l as [|x l IH]; intros a0 Hnet.
  - exists a0. cbn [fold_left length]. unfold volumeOf, sumBy.
    cbn [List.filter fold_left].
    split; [reflexivity|]. split; [reflexivity|]. split; [lia|].
    split; [ring|]. split; [ring|]. split; [exact Hnet|]. split; [lia|constructor].
  - cbn [fold_left]. unfold stepEntry at 2. cbn [default].
    destruct (IH (reaggregate x a0))
      as (a & Hfold & Hid & Hcount & Hbuy & Hsell & Hnet' & Hlast & Hall);
      [reflexivity|].
    exists a. split; [exact Hfold|].
    rewrite !volumeOf_cons.
    unfold reaggregate in Hid, Hcount, Hbuy, Hsell, Hlast. cbv zeta in *.
    cbn [wa_assetId tradeCount totalBuyVolume totalSellVolume lastUpdate] in *.
    split; [exact Hid|]. split; [cbn [length]; lia|].
    assert (Hts : (wt_timestamp x <= lastUpdate a)%Z) by lia.
    unfold isBuy. destruct (wt_side x); cbn [Bool.eqb].
    + split; [rewrite Hbuy; ring|]. split; [rewrite Hsell; ring|].
      split; [exact Hnet'|]. split; [lia|by constructor].
    + split; [rewrite Hbuy; ring|]. split; [rewrite Hsell; ring|].
      split; [exact Hnet'|]. split; [lia|by constructor].
Qed.

(** X19. The activity table recomputed from a list of trades has an entry
    for an asset exactly when the list has a trade of that asset.  The
    entry counts those trades; its buy and sell volumes are the sums, in
    list order, of their sizes by side and its net volume their difference;
    and its last update is no earlier than any of the trades. *)
Theorem whale_aggregation (l : list WhaleTrade) (asset : string) :
  match recalculate l !! asset with
  | None => tradesOf asset l = []
  | Some a =>
      tradesOf asset l <> []
      /\ wa_assetId a = asset
      /\ tradeCount a = length (tradesOf asset l)
      /\ totalBuyVolume a == volumeOf true (tradesOf asset l)
      /\ totalSellVolume a == volumeOf false (tradesOf asset l)
      /\ netVolume a = totalBuyVolume a - totalSellVolume a
      /\ Forall (fun tr => (wt_timestamp tr <= lastUpdate a)%Z) (tradesOf asset l)
  end.
Proof.
  unfold recalculate.
  change (fold_left _ l ∅) with (fold_left stepTable l ∅).
  rewrite recalculate_lookup, lookup_empty.
  assert (Hasset : Forall (fun tr => wt_assetId tr = asset) (tradesOf asset l)).
  { eapply Forall_impl; [apply Forall_filter_test|].
    intros tr Htr. cbv beta in Htr. by apply bool_decide_eq_true in Htr. }
  destruct (tradesOf asset l) as [|x ts]; [reflexivity|].
  assert (Hstart : fold_left stepEntry (x :: ts) None
                   = fold_left stepEntry (x :: ts) (Some (newActivity x))) by reflexivity.
  rewrite Hstart.
  destruct (stepEntry_totals (x :: ts) (newActivity x))
    as (a & -> & Hid & Hcount & Hbuy & Hsell & Hnet & _ & Hall); [reflexivity|].
  cbn [newActivity wa_assetId tradeCount totalBuyVolume totalSellVolume] in *.
  split; [discriminate|]. split; [rewrite Hid; by inversion Hasset|].
  split; [exact Hcount|]. split; [rewrite Hbuy; ring|]. split; [rewrite Hsell; ring|].
  split; [exact Hnet|exact Hall].
Qed.

End WhaleTable.


(** ** What the real adapter records *)

Section RealOutcomes.
Context {env : Env}.
Import RealExecutor.

(** X20. A real buy by an initialised adapter that may trade, of at
    least the minimum size, on an outcome with a token id: when the order
    call throws or comes back unfilled, null is returned and nothing
    changes.  Otherwise one open row and one BUY trade are recorded, with
    the filled amount as shares (the requested shares when it is 0), the
    average fill price as entry price (the quoted price when it is 0) and
    shares times price as cost.  When the balance refresh that follows
    throws, the row and the trade stay recorded, but the call returns null
    and the cached balance is not updated. *)
Theorem real_buy_outcomes (now : Z) (order : Completion ClobOrderResponse)
    (bal : Completion Q) (opportunity : Opportunity) (s : SQLiteStore.t) (e : t)
    (o : Outcome) :
  initialized e = true ->
  allowed (canTrade e) = true ->
  minPositionUsd config <= calculatePositionSize opportunity e ->
  nth_error (m_outcomes (opp_market opportunity)) (opp_outcomeIndex opportunity) = Some o ->
  o_tokenId o <> EmptyString ->
  let r := executeBuy now order bal opportunity s e in
  let requested := calculatePositionSize opportunity e / opp_entryPrice opportunity in
  match order with
  | Threw => r = (None, (s, e))
  | Returned orderResult =>
      if notFilled orderResult then r = (None, (s, e))
      else
        let filledShares := num_or (or_filledAmount orderResult) requested in
        let avgPrice := num_or (or_avgFillPrice orderResult) (opp_entryPrice opportunity) in
        (exists row trade,
            SQLiteStore.positions (fst (snd r)) = SQLiteStore.positions s ++ [row]
            /\ SQLiteStore.trades (fst (snd r)) = SQLiteStore.trades s ++ [trade]
            /\ SQLiteStore.status row = st_open
            /\ SQLiteStore.market_id row = m_id (opp_market opportunity)
            /\ SQLiteStore.side row = opp_side opportunity
            /\ SQLiteStore.outcome_id row = o_tokenId o
            /\ SQLiteStore.shares row = filledShares
            /\ SQLiteStore.entry_price row = avgPrice
            /\ SQLiteStore.cost row = filledShares * avgPrice
            /\ SQLiteStore.size row
               = filledShares * avgPrice - filledShares * avgPrice * REAL_FEE_RATE
            /\ t_action trade = BUY
            /\ t_positionId trade = SQLiteStore.id row
            /\ match bal with
               | Returned b =>
                   (exists position,
                       fst r = Some position /\ p_id position = SQLiteStore.id row)
                   /\ snd (snd r) = with_realBalance b e
               | Threw => fst r = None /\ snd (snd r) = e
               end)
  end.
Proof.
  intros Hinit Hcan Hsize Hnth Htoken. cbv zeta. unfold executeBuy.
  rewrite Hinit, Hcan, Hnth. cbn [negb].
  rewrite (Qltb_false _ _ Hsize).
  rewrite bool_decide_eq_false_2 by exact Htoken.
  destruct order as [orderResult|]; [|reflexivity].
  destruct (notFilled orderResult); [reflexivity|]. cbv zeta.
  unfold SQLiteStore.createPosition, SQLiteStore.recordTrade. cbv zeta.
  eexists _, _.
  destruct bal as [b|]; cbn [fst snd SQLiteStore.positions SQLiteStore.trades];
    (split; [reflexivity|]); (split; [reflexivity|]);
    cbn [SQLiteStore.status SQLiteStore.market_id SQLiteStore.side SQLiteStore.outcome_id
         SQLiteStore.shares SQLiteStore.entry_price SQLiteStore.cost SQLiteStore.size
         SQLiteStore.id t_action t_positionId p_id];
    repeat (split; [reflexivity|]).
  - split; [|reflexivity]. eexists. by split.
  - by split.
Qed.

(** X21. A real sell returns null and changes nothing when the adapter
    is not initialised, the order call throws, or the order comes back
    unfilled.  Otherwise the rows of the position's id are closed at the
    average fill price, however much was filled, and one SELL trade is
    recorded with pnl = net proceeds minus the position's size; when the
    balance refresh throws, both stay recorded but the call returns null. *)
Theorem real_sell_outcomes (now : Z) (order : Completion ClobOrderResponse)
    (bal : Completion Q) (position : Position) (currentPrice : Q)
    (s : SQLiteStore.t) (e : t) :
  let r := executeSell now order bal position currentPrice s e in
  (initialized e = false -> r = (None, (s, e)))
  /\ (initialized e = true ->
      match order with
      | Threw => r = (None, (s, e))
      | Returned orderResult =>
          if notFilled orderResult then r = (None, (s, e))
          else
            let filledShares := num_or (or_filledAmount orderResult) (p_shares position) in
            let avgPrice := num_or (or_avgFillPrice orderResult) currentPrice in
            let netProceeds :=
              filledShares * avgPrice - filledShares * avgPrice * REAL_FEE_RATE in
            SQLiteStore.positions (fst (snd r))
            = SQLiteStore.positions
                (snd (SQLiteStore.closePosition now (p_id position) avgPrice s))
            /\ exists trade,
                 SQLiteStore.trades (fst (snd r)) = SQLiteStore.trades s ++ [trade]
                 /\ t_action trade = SELL
                 /\ t_positionId trade = p_id position
                 /\ t_shares trade = filledShares
                 /\ t_price trade = avgPrice
                 /\ t_size trade = netProceeds
                 /\ t_pnl trade = Some (netProceeds - p_size position)
                 /\ match bal with
                    | Returned b =>
                        fst r = Some trade /\ snd (snd r) = with_realBalance b e
                    | Threw => fst r = None /\ snd (snd r) = e
                    end
      end).
Proof.
  cbv zeta. unfold executeSell. split.
  - intros Hinit. by rewrite Hinit.
  - intros Hinit. rewrite Hinit. cbn [negb].
    destruct order as [orderResult|]; [|reflexivity].
    destruct (notFilled orderResult); [reflexivity|]. cbv zeta.
    pose proof (closePosition_trades now (p_id position)
                  (num_or (or_avgFillPrice orderResult) currentPrice) s) as Htrades.
    destruct (SQLiteStore.closePosition now (p_id position) _ s) as [closed s1].
    cbn [snd] in *. unfold SQLiteStore.recordTrade. cbv zeta.
    destruct bal as [b|]; cbn [fst snd SQLiteStore.positions SQLiteStore.trades];
      (split; [reflexivity|]); eexists; rewrite Htrades;
      (split; [reflexivity|]);
      cbn [t_action t_positionId t_shares t_price t_size t_pnl];
      repeat (split; [reflexivity|]); by split.
Qed.

Lemma createPosition_row (np : SQLiteStore.NewPosition) (s : SQLiteStore.t) :
  exists row,
    SQLiteStore.positions (snd (SQLiteStore.createPosition np s))
    = SQLiteStore.positions s ++ [row]
    /\ SQLiteStore.status row = st_open
    /\ SQLiteStore.market_id row = SQLiteStore.np_marketId np
    /\ SQLiteStore.strategy row = SQLiteStore.np_strategy np.
Proof. eexists. split; [reflexivity|]. by repeat split. Qed.

Lemma real_arbitrageLegs_count (now : Z) (market : MarketRef)
    (totalCost totalInvestment : Q) (orders : nat -> Completion ClobOrderResponse)
    (outcomes : list ArbOutcome) (k : nat) (positions : list Position)
    (s : SQLiteStore.t) :
  let r := arbitrageLegs now market totalCost totalInvestment orders k outcomes
             positions s in
  exists created rows,
    fst (fst r) = positions ++ created
    /\ SQLiteStore.positions (snd (fst r)) = SQLiteStore.positions s ++ rows
    /\ length created = filledLegs orders k (length outcomes)
    /\ length rows = filledLegs orders k (length outcomes)
    /\ Forall (fun row => SQLiteStore.status row = st_open
                          /\ SQLiteStore.market_id row = mr_id market
                          /\ SQLiteStore.strategy row = s_arbitrage) rows
    /\ (snd r = true <-> forall j, (j < length outcomes)%nat -> orders (k + j)%nat <> Threw).
Proof.
  cbv zeta. revert k positions s.
  induction outcomes as [|outcome rest IH]; intros k positions s.
  - exists [], []. cbn [arbitrageLegs fst snd length filledLegs].
    rewrite !app_nil_r. repeat split; try done. intros j Hj. lia.
  - cbn [arbitrageLegs length filledLegs].
    destruct (orders k) as [orderResult|] eqn:Hk.
    + cbv zeta. destruct (Qgtb (or_filledAmount orderResult) 0) eqn:Hfilled.
      * match goal with
        | |- context [SQLiteStore.createPosition ?np s] =>
            pose proof (createPosition_row np s) as (row & Hrow & Hopen & Hm & Hst);
            destruct (SQLiteStore.createPosition np s) as [p s1]
        end.
        cbn [fst snd] in *.
        match goal with
        | |- context [SQLiteStore.recordTrade ?tr s1] =>
            pose proof (recordTrade_positions tr s1) as Htr;
            destruct (SQLiteStore.recordTrade tr s1) as [recorded s2]
        end.
        cbn [fst snd] in *.
        destruct (IH (S k) (positions ++ [p]) s2)
          as (created & rows & Hc & Hr & Hlc & Hlr & Hall & Hdone).
        exists (p :: created), (row :: rows).
        rewrite Hc, Hr, Htr, Hrow, <- !app_assoc. cbn [app length].
        split; [reflexivity|]. split; [reflexivity|].
        split; [lia|]. split; [lia|]. split.
        -- constructor; [by repeat split|exact Hall].
        -- rewrite Hdone. split.
           ++ intros H j Hj. destruct j as [|j].
              ** rewrite Nat.add_0_r, Hk. discriminate.
              ** replace (k + S j)%nat with (S k + j)%nat by lia. apply H. lia.
           ++ intros H j Hj. replace (S k + j)%nat with (k + S j)%nat by lia.
              apply H. lia.
      * destruct (IH (S k) positions s)
          as (created & rows & Hc & Hr & Hlc & Hlr & Hall & Hdone).
        exists created, rows. rewrite Hc, Hr. cbn [Nat.add].
        split; [reflexivity|]. split; [reflexivity|].
        split; [exact Hlc|]. split; [exact Hlr|]. split; [exact Hall|].
        rewrite Hdone. split.
        -- intros H j Hj. destruct j as [|j].
           ++ rewrite Nat.add_0_r, Hk. discriminate.
           ++ replace (k + S j)%nat with (S k + j)%nat by lia. apply H. lia.
        -- intros H j Hj. replace (S k + j)%nat with (k + S j)%nat by lia.
           apply H. lia.
    + exists [], []. cbn [fst snd length]. rewrite !app_nil_r.
      repeat split; try done.
      intros H. exfalso. apply (H 0%nat); [lia|]. by rewrite Nat.add_0_r.
Qed.

(** X22. A real arbitrage basket is not all-or-nothing.  For an
    initialised adapter that may trade and can afford one set, the positions
    returned and the rows appended are as many as the legs filled before
    the first order call that throws, possibly fewer than the outcomes;
    each is open, on the market, of the arbitrage strategy.  The cached
    balance is refreshed only when no order call threw. *)
Theorem real_basket_partial (now : Z) (orders : nat -> Completion ClobOrderResponse)
    (bal : Completion Q) (market : MarketRef) (outcomes : list ArbOutcome)
    (totalCost guaranteedProfit : Q) (s : SQLiteStore.t) (e : t) :
  initialized e = true ->
  allowed (canTrade e) = true ->
  1 <= Math_floor (Qmin (realBalance e * 0.3) (maxPositionUsd config * 0.25) / totalCost) ->
  let r := executeArbitrageBuy now orders bal market outcomes totalCost guaranteedProfit
             s e in
  exists rows,
    SQLiteStore.positions (fst (snd r)) = SQLiteStore.positions s ++ rows
    /\ length (fst r) = filledLegs orders 0 (length outcomes)
    /\ length rows = filledLegs orders 0 (length outcomes)
    /\ (filledLegs orders 0 (length outcomes) <= length outcomes)%nat
    /\ Forall (fun row => SQLiteStore.status row = st_open
                          /\ SQLiteStore.market_id row = mr_id market
                          /\ SQLiteStore.strategy row = s_arbitrage) rows
    /\ (snd (snd r) = e
        \/ exists b,
             bal = Returned b
             /\ snd (snd r) = with_realBalance b e
             /\ forall j, (j < length outcomes)%nat -> orders j <> Threw).
Proof.
  intros Hinit Hcan Hsets. cbv zeta. unfold executeArbitrageBuy.
  rewrite Hinit, Hcan. cbn [negb]. cbv zeta.
  rewrite (Qltb_false _ _ Hsets).
  match goal with
  | |- context [arbitrageLegs now market totalCost ?ti orders 0 outcomes [] s] =>
      pose proof (real_arbitrageLegs_count now market totalCost ti orders outcomes 0 [] s)
        as (created & rows & Hc & Hr & Hlc & Hlr & Hall & Hdone);
      destruct (arbitrageLegs now market totalCost ti orders 0 outcomes [] s)
        as [[positions s1] completed]
  end.
  cbn [fst snd app] in *. subst positions.
  assert (Hle : forall k n, (filledLegs orders k n <= n)%nat).
  { intros k n. revert k. induction n as [|n IH]; intros k; cbn [filledLegs]; [lia|].
    destruct (orders k) as [r|]; [|lia]. specialize (IH (S k)).
    destruct (Qgtb _ 0); lia. }
  exists rows.
  destruct completed.
  - destruct bal as [b|]; cbn [fst snd];
      (split; [exact Hr|]); (split; [exact Hlc|]); (split; [exact Hlr|]);
      (split; [apply Hle|]); (split; [exact Hall|]).
    + right. exists b. split; [reflexivity|]. split; [reflexivity|].
      by apply Hdone.
    + by left.
  - cbn [fst snd]. split; [exact Hr|]. split; [exact Hlc|]. split; [exact Hlr|].
    split; [apply Hle|]. split; [exact Hall|]. by left.
Qed.

End RealOutcomes.

Lemma real_buy_outcomes_witness :
  exists row position,
    let r := @RealExecutor.executeBuy demoEnv 1000 (Returned demoFill) (Returned 900)
               yesOpportunity emptyStore drawnDownReal in
    SQLiteStore.positions (fst (snd r)) = [row]
    /\ SQLiteStore.shares row = 100
    /\ SQLiteStore.cost row = 100 * 0.41
    /\ fst r = Some position
    /\ snd (snd r) = RealExecutor.with_realBalance 900 drawnDownReal.
Proof.
  assert (H1 : RealExecutor.initialized drawnDownReal = true) by reflexivity.
  assert (H2 : allowed (@RealExecutor.canTrade demoEnv drawnDownReal) = true)
    by (vm_compute; reflexivity).
  assert (H3 : minPositionUsd (@config demoEnv)
               <= @RealExecutor.calculatePositionSize demoEnv yesOpportunity drawnDownReal)
    by (vm_compute; discriminate).
  assert (H4 : nth_error (m_outcomes (opp_market yesOpportunity))
                 (opp_outcomeIndex yesOpportunity)
               = Some {| o_id := "o-yes"; o_name := "Yes"; o_price := 0.40;
                         o_tokenId := "tok-yes" |}) by reflexivity.
  assert (H5 : o_tokenId {| o_id := "o-yes"; o_name := "Yes"; o_price := 0.40;
                            o_tokenId := "tok-yes" |} <> EmptyString) by discriminate.
  pose proof (@real_buy_outcomes demoEnv 1000 (Returned demoFill) (Returned 900)
                yesOpportunity emptyStore drawnDownReal _ H1 H2 H3 H4 H5) as W.
  cbv beta iota zeta in W.
  change (RealExecutor.notFilled demoFill) with false in W. cbv iota in W.
  destruct W as (row & trade & Hp & _ & _ & _ & _ & _ & Hsh & _ & Hc & _ & _ & _
                 & (position & Hr & _) & He).
  exists row, position. cbv zeta.
  split; [exact Hp|]. split; [exact Hsh|]. split; [exact Hc|]. split; [exact Hr|exact He].
Defined.

Lemma real_basket_partial_witness :
  let r := @RealExecutor.executeArbitrageBuy demoEnv 1000 partialOrders (Returned 900)
             threeWayRef threeWay 0.95 0.05 emptyStore drawnDownReal in
  length (fst r) = 1%nat
  /\ exists rows,
       SQLiteStore.positions (fst (snd r)) = rows /\ length rows = 1%nat.
Proof.
  assert (H1 : RealExecutor.initialized drawnDownReal = true) by reflexivity.
  assert (H2 : allowed (@RealExecutor.canTrade demoEnv drawnDownReal) = true)
    by (vm_compute; reflexivity).
  assert (H3 : 1 <= Math_floor (Qmin (RealExecutor.realBalance drawnDownReal * 0.3)
                                     (maxPositionUsd (@config demoEnv) * 0.25) / 0.95))
    by (vm_compute; discriminate).
  destruct (@real_basket_partial demoEnv 1000 partialOrders (Returned 900) threeWayRef
              threeWay 0.95 0.05 emptyStore drawnDownReal H1 H2 H3)
    as (rows & Hp & Hl & Hr & _).
  cbv zeta. split; [exact Hl|]. exists rows. split; [exact Hp|exact Hr].
Defined.

(** ** The reactor's exits and buys *)


Section ReactorExits.
Context {env : Env}.
Import EventTrader.

Lemma exitTest_clear (assetId : string) (currentPrice : Q) (position : Position) :
  (p_outcomeId position = assetId -> offThreshold currentPrice position) ->
  exitTest assetId currentPrice position = clearExit assetId currentPrice position.
Proof.
  intros Hoff. unfold exitTest, clearExit.
  case_bool_decide as Hid; [|reflexivity]. cbn [andb].
  destruct (Hoff Hid) as [He Hband]. f_equal.
  rewrite (pct_ge currentPrice _ 15 He).
  destruct Hband as [H|H].
  - rewrite !Qgeb_true by lra. reflexivity.
  - rewrite !Qgeb_false by lra. reflexivity.
Qed.

Lemma instantExitOne_skip (now : Z) (ios : nat -> UnifiedExecutor.Broker)
    (assetId : string) (currentPrice : Q) (acc : nat * System) (position : Position) :
  exitTest assetId currentPrice position = false ->
  instantExitOne now ios assetId currentPrice acc position = acc.
Proof.
  destruct acc as [k state]. intros Htest. unfold instantExitOne, exitTest in *.
  destruct (bool_decide (p_outcomeId position = assetId)); cbn [negb andb] in *;
    [|reflexivity].
  cbv zeta. by rewrite Htest.
Qed.

(** The instant exits in exact arithmetic, away from the 15% threshold. *)
Lemma checkInstantExit_margins (now : Z) (ios : nat -> UnifiedExecutor.Broker)
    (assetId : string) (currentPrice : Q) (sys : System) :
  let positions := SQLiteStore.getOpenPositions (UnifiedExecutor.store (engine sys)) in
  (Forall (fun position => p_outcomeId position = assetId ->
                           offThreshold currentPrice position) positions ->
   checkInstantExit now ios assetId currentPrice sys
   = snd (fold_left (instantExitOne now ios assetId currentPrice)
                    (List.filter (clearExit assetId currentPrice) positions) (0%nat, sys)))
  /\ (Forall (fun position => p_outcomeId position <> assetId) positions ->
      checkInstantExit now ios assetId currentPrice sys = sys)
  /\ (forall k state position,
        p_outcomeId position <> assetId
        \/ (0 < p_entryPrice position
            /\ currentPrice <= 1.1499 * p_entryPrice position
            /\ 0.03 < currentPrice /\ currentPrice < 0.97) ->
        instantExitOne now ios assetId currentPrice (k, state) position = (k, state))
  /\ (forall k state position,
        p_outcomeId position = assetId ->
        (0 < p_entryPrice position /\ 1.1501 * p_entryPrice position <= currentPrice)
        \/ 0.97 <= currentPrice \/ currentPrice <= 0.03 ->
        let sold := UnifiedExecutor.executeSell now (ios k) position currentPrice
                      (engine state) in
        let next := instantExitOne now ios assetId currentPrice (k, state) position in
        fst next = S k
        /\ engine (snd next) = snd sold
        /\ whales (snd next) = whales state
        /\ instantExits (stats (trader (snd next)))
           = (instantExits (stats (trader state))
              + match fst sold with Some _ => 1 | None => 0 end)%nat).
Proof.
  cbv zeta. split; [|split; [|split]].
  - intros Hoff. unfold checkInstantExit. f_equal.
    apply fold_left_filter_Forall.
    eapply Forall_impl; [exact Hoff|]. intros position Hp Hclear acc.
    apply instantExitOne_skip. by rewrite (exitTest_clear _ _ _ Hp).
  - intros Hnone. unfold checkInstantExit.
    rewrite (fold_left_filter_Forall _ (fun _ => false)).
    + rewrite filter_all_out; [reflexivity|]. by apply Forall_forall.
    + eapply Forall_impl; [exact Hnone|]. intros position Hp _ acc.
      apply instantExitOne_skip. unfold exitTest. by rewrite bool_decide_eq_false_2.
  - intros k state position Hskip. apply instantExitOne_skip. unfold exitTest.
    destruct Hskip as [Hid|(He & Hlow & Hlo & Hhi)].
    + by rewrite bool_decide_eq_false_2.
    + rewrite (pct_ge currentPrice _ 15 He).
      rewrite Qgeb_false by lra. rewrite Qgeb_false by lra. rewrite Qleb_false by lra.
      apply andb_false_r.
  - intros k state position Hid Hexit.
    assert (Htest : Qgeb (((currentPrice - p_entryPrice position) / p_entryPrice position)
                          * 100) 15
                    || (Qgeb currentPrice 0.97 || Qleb currentPrice 0.03) = true).
    { destruct Hexit as [[He Hup]|[Hhi|Hlo]].
      - rewrite (pct_ge currentPrice _ 15 He). rewrite Qgeb_true by lra. reflexivity.
      - rewrite (Qgeb_true currentPrice 0.97) by lra. apply orb_true_r.
      - rewrite (Qleb_true currentPrice 0.03) by lra. rewrite !orb_true_r. reflexivity. }
    unfold instantExitOne. rewrite bool_decide_eq_true_2 by exact Hid. cbn [negb].
    cbv zeta. rewrite Htest.
    destruct (UnifiedExecutor.executeSell now (ios k) position currentPrice (engine state))
      as [[trade|] w]; cbn [fst snd engine whales trader with_engine with_trader stats
                            with_stats bump_exits instantExits];
      repeat split; lia.
Qed.

(** X23. [checkInstantExit] walks the open positions in ledger order.  A
    position on another asset is skipped, and so is one priced strictly
    between 0.03 and 0.97 and at most 1.1499 times its positive entry
    price.  A position on the notified asset is sent to the gateway's
    [executeSell] when the price is 0.97 or more, or 0.03 or less, or at
    least 1.1501 times its positive entry price; the sale raises the
    counter of instant exits only when it returned a trade.  When no open
    position on the asset has the price within one part in ten thousand of
    1.15 times its entry price, where the rounding of the percentage
    decides, the positions sent are exactly those passing [clearExit], in
    ledger order.  With no open position on the asset the system is
    unchanged.
    For such a position the test computed with any rounding of relative
    error at most 1e-9 gives the same answer as the exact one. *)
Theorem checkInstantExit_selects (now : Z) (ios : nat -> UnifiedExecutor.Broker)
    (assetId : string) (currentPrice : Q) (sys : System) :
  let positions := SQLiteStore.getOpenPositions (UnifiedExecutor.store (engine sys)) in
  (Forall (fun position => p_outcomeId position = assetId ->
                           offThreshold currentPrice position) positions ->
   checkInstantExit now ios assetId currentPrice sys
   = snd (fold_left (instantExitOne now ios assetId currentPrice)
                    (List.filter (clearExit assetId currentPrice) positions) (0%nat, sys)))
  /\ (Forall (fun position => p_outcomeId position <> assetId) positions ->
      checkInstantExit now ios assetId currentPrice sys = sys)
  /\ (forall k state position,
        p_outcomeId position <> assetId
        \/ (0 < p_entryPrice position
            /\ currentPrice <= 1.1499 * p_entryPrice position
            /\ 0.03 < currentPrice /\ currentPrice < 0.97) ->
        instantExitOne now ios assetId currentPrice (k, state) position = (k, state))
  /\ (forall k state position,
        p_outcomeId position = assetId ->
        (0 < p_entryPrice position /\ 1.1501 * p_entryPrice position <= currentPrice)
        \/ 0.97 <= currentPrice \/ currentPrice <= 0.03 ->
        let sold := UnifiedExecutor.executeSell now (ios k) position currentPrice
                      (engine state) in
        let next := instantExitOne now ios assetId currentPrice (k, state) position in
        fst next = S k
        /\ engine (snd next) = snd sold
        /\ whales (snd next) = whales state
        /\ instantExits (stats (trader (snd next)))
           = (instantExits (stats (trader state))
              + match fst sold with Some _ => 1 | None => 0 end)%nat)
  /\ (forall rnd position,
        roundsFinely rnd ->
        (p_outcomeId position = assetId -> offThreshold currentPrice position) ->
        exitTestRounded rnd assetId currentPrice position
        = exitTest assetId currentPrice position).
Proof.
  destruct (checkInstantExit_margins now ios assetId currentPrice sys)
    as (A1 & A2 & A3 & A4).
  cbv zeta. do 4 (split; [assumption|]).
  intros rnd position (u & Hu0 & Hu1 & Hr) Hoff.
  assert (Hu : u <= 0.000001) by lra.
  rewrite (exitTestRounded_clear u rnd Hu0 Hu Hr _ _ _ Hoff).
  by rewrite (exitTest_clear _ _ _ Hoff).
Qed.

(** The price-drop buy in exact arithmetic, away from its two thresholds. *)
Lemma price_drop_margins (now : Z) (io : UnifiedExecutor.Broker) (assetId : string)
    (currentPrice : Q) (sys : System) :
  (handlePriceDrop now io assetId currentPrice sys = sys
   \/ exists market outcomeIndex outcome h,
        let opportunity := dropOpportunity market outcomeIndex outcome h currentPrice in
        dropReached now (trader sys) assetId currentPrice market outcomeIndex outcome h
        /\ currentPrice <= recentMean h - 0.0299
        /\ 0.0299 <= opp_edge opportunity
        /\ boughtBy now io opportunity (dropStamp now assetId) sys
             (handlePriceDrop now io assetId currentPrice sys))
  /\ (forall market outcomeIndex outcome h,
        dropReached now (trader sys) assetId currentPrice market outcomeIndex outcome h ->
        clearDrop h currentPrice ->
        let opportunity := dropOpportunity market outcomeIndex outcome h currentPrice in
        boughtBy now io opportunity (dropStamp now assetId) sys
          (handlePriceDrop now io assetId currentPrice sys)
        /\ opp_market opportunity = market
        /\ opp_strategy opportunity = s_value
        /\ opp_entryPrice opportunity = currentPrice
        /\ opp_estimatedProb opportunity <= 0.9
        /\ 0.0301 <= opp_edge opportunity
        /\ (0.0801 <= opp_edge opportunity -> opp_confidence opportunity = c_high)
        /\ (opp_edge opportunity <= 0.0799 -> opp_confidence opportunity = c_standard)).
Proof.
  assert (Hrun : forall market idx outcome h,
             dropReached now (trader sys) assetId currentPrice market idx outcome h ->
             currentPrice - recentMean h <= -0.03 ->
             0.03 <= Qmin 0.9 (recentMean h + 0.02) - currentPrice ->
             boughtBy now io (dropOpportunity market idx outcome h currentPrice)
               (dropStamp now assetId) sys
               (handlePriceDrop now io assetId currentPrice sys)).
  { intros market idx outcome h (Hh & Hcool & Hm & Ho & Hlo & Hhi & Hliq & Hlen) Hdev Hedge.
    unfold boughtBy, dropStamp. cbv zeta. unfold handlePriceDrop. cbv zeta.
    rewrite Hh, Hm, Ho.
    rewrite (proj2 (Z.ltb_ge _ _) Hcool).
    rewrite (Qltb_false _ _ Hlo), (Qgtb_false _ _ Hhi). cbn [orb].
    rewrite (Qltb_false _ _ Hliq).
    assert (Hlen' : Nat.ltb (length (lastN 10 (ph_prices h))) 3 = false)
      by (apply Nat.ltb_ge; rewrite lastN_length; lia).
    rewrite Hlen'. fold (recentMean h).
    rewrite (Qgtb_false _ _ Hdev), (Qltb_false _ _ Hedge).
    fold (dropOpportunity market idx outcome h currentPrice).
    destruct (UnifiedExecutor.executeBuy now io _ (engine sys)) as [[position|] w];
      cbn [fst snd engine whales trader with_engine with_trader stats with_stats
           bump_priceDrop priceDropTrades priceHistory with_priceHistory].
    - split; [reflexivity|]. split; [reflexivity|].
      split; [by rewrite lookup_insert_eq|reflexivity].
    - by repeat split. }
  split.
  - unfold handlePriceDrop at 1. cbv zeta.
    destruct (priceHistory (trader sys) !! assetId) as [h|] eqn:Hh.
    + destruct (now - ph_lastTradeTime h <? PRICE_TRADE_COOLDOWN)%Z eqn:Hcool; [by left|].
      apply Z.ltb_ge in Hcool.
      destruct (assetToMarket (trader sys) !! assetId) as [[market idx]|] eqn:Hm;
        [|by left].
      destruct (Qltb currentPrice 0.05) eqn:Hlo; [by left|]. apply Qltb_ge in Hlo.
      destruct (Qgtb currentPrice 0.95) eqn:Hhi; [by left|]. apply Qgtb_le in Hhi.
      cbn [orb].
      destruct (Qltb (m_liquidity market) _) eqn:Hliq; [by left|]. apply Qltb_ge in Hliq.
      destruct (Nat.ltb (length (lastN 10 (ph_prices h))) 3) eqn:Hlen; [by left|].
      apply Nat.ltb_ge in Hlen. rewrite lastN_length in Hlen.
      fold (recentMean h).
      destruct (Qgtb (currentPrice - recentMean h) (-0.03)) eqn:Hdev; [by left|].
      apply Qgtb_le in Hdev.
      destruct (Qltb (Qmin 0.9 (recentMean h + 0.02) - currentPrice) 0.03) eqn:Hedge;
        [by left|]. apply Qltb_ge in Hedge.
      destruct (nth_error (m_outcomes market) idx) as [outcome|] eqn:Ho; [|by left].
      right. exists market, idx, outcome, h. cbv zeta.
      assert (Hreached : dropReached now (trader sys) assetId currentPrice market idx
                           outcome h).
      { unfold dropReached. repeat split; try assumption. lia. }
      split; [exact Hreached|]. split; [lra|].
      split; [cbn [dropOpportunity opp_edge]; lra|].
      by apply Hrun.
    + destruct (assetToMarket (trader sys) !! assetId) as [[market idx]|]; [|by left].
      destruct (Qltb currentPrice 0.05 || Qgtb currentPrice 0.95); [by left|].
      destruct (Qltb (m_liquidity market) _); by left.
  - intros market idx outcome h Hreached [Hmean Hedge]. cbv zeta.
    pose proof (Q.le_min_l 0.9 (recentMean h + 0.02)) as Hest.
    split; [apply Hrun; [exact Hreached|lra|lra]|].
    cbn [dropOpportunity opp_market opp_strategy opp_entryPrice opp_estimatedProb
         opp_edge opp_confidence].
    split; [reflexivity|]. split; [reflexivity|]. split; [reflexivity|].
    split; [exact Hest|]. split; [exact Hedge|]. split.
    + intros H. rewrite Qgeb_true by lra. reflexivity.
    + intros H. rewrite Qgeb_false by lra. reflexivity.
Qed.

(** X24. [handlePriceDrop] changes nothing unless the asset has at least
    3 recorded prices, is past its trade cooldown, belongs to a tracked
    market outcome with enough liquidity, and the price lies in
    [0.05, 0.95], passes the drop test (it is then at least 0.0299 below
    the mean of the last 10 recorded prices) and the edge test (the edge
    min(0.9, mean + 0.02) - price is then at least 0.0299).  It then calls
    the gateway's [executeBuy] with the value opportunity built from these
    numbers; only when a position comes back does it stamp the asset's last
    trade time and count a price-drop trade.  The buy is made whenever,
    besides the first group of conditions, the drop is clear of both
    thresholds: the price is at least 0.0301 below that mean and the edge
    is at least 0.0301.  The opportunity has an estimated probability of at
    most 0.9, and its confidence is high from an edge of 0.0801 and
    standard up to 0.0799.
    For recorded prices between 0 and 1, the two tests computed with any
    rounding of relative error at most 1e-9 pass on every clear drop, and
    pass only when the price is at least 0.0299 below the mean and the edge
    at least 0.0299. *)
Theorem price_drop_dispatch (now : Z) (io : UnifiedExecutor.Broker) (assetId : string)
    (currentPrice : Q) (sys : System) :
  (handlePriceDrop now io assetId currentPrice sys = sys
   \/ exists market outcomeIndex outcome h,
        let opportunity := dropOpportunity market outcomeIndex outcome h currentPrice in
        dropReached now (trader sys) assetId currentPrice market outcomeIndex outcome h
        /\ currentPrice <= recentMean h - 0.0299
        /\ 0.0299 <= opp_edge opportunity
        /\ boughtBy now io opportunity (dropStamp now assetId) sys
             (handlePriceDrop now io assetId currentPrice sys))
  /\ (forall market outcomeIndex outcome h,
        dropReached now (trader sys) assetId currentPrice market outcomeIndex outcome h ->
        clearDrop h currentPrice ->
        let opportunity := dropOpportunity market outcomeIndex outcome h currentPrice in
        boughtBy now io opportunity (dropStamp now assetId) sys
          (handlePriceDrop now io assetId currentPrice sys)
        /\ opp_market opportunity = market
        /\ opp_strategy opportunity = s_value
        /\ opp_entryPrice opportunity = currentPrice
        /\ opp_estimatedProb opportunity <= 0.9
        /\ 0.0301 <= opp_edge opportunity
        /\ (0.0801 <= opp_edge opportunity -> opp_confidence opportunity = c_high)
        /\ (opp_edge opportunity <= 0.0799 -> opp_confidence opportunity = c_standard))
  /\ (forall rnd h,
        roundsFinely rnd ->
        unitPrices (lastN 10 (ph_prices h)) ->
        (3 <= length (ph_prices h))%nat ->
        0.05 <= currentPrice -> currentPrice <= 0.95 ->
        (clearDrop h currentPrice ->
         dropTestsRounded rnd (lastN 10 (ph_prices h)) currentPrice = true)
        /\ (dropTestsRounded rnd (lastN 10 (ph_prices h)) currentPrice = true ->
            currentPrice <= recentMean h - 0.0299
            /\ 0.0299 <= Qmin 0.9 (recentMean h + 0.02) - currentPrice)).
Proof.
  destruct (price_drop_margins now io assetId currentPrice sys) as [A1 A2].
  do 2 (split; [assumption|]).
  intros rnd h (u & Hu0 & Hu1 & Hr) Hunit Hlen Hlo Hhi.
  destruct (dropTestsRounded_clear u rnd Hu0 Hu1 Hr (lastN 10 (ph_prices h))
              currentPrice Hunit) as [R1 R2];
    [rewrite lastN_length; lia|rewrite lastN_length; lia|assumption|assumption|].
  cbv zeta in R1, R2. unfold clearDrop, recentMean.
  split; [intros [H1 H2]; by apply R1|exact R2].
Qed.

(** The whale follow in exact arithmetic. *)
Lemma whale_follow_margins (now : Z) (io : UnifiedExecutor.Broker) (assetId : string)
    (price size : Q) (sys : System) :
  (handleWhaleTrade now io assetId price size sys = sys
   \/ exists market outcomeIndex outcome,
        followConditions now (trader sys) assetId price market outcomeIndex outcome)
  /\ (forall market outcomeIndex outcome,
        followConditions now (trader sys) assetId price market outcomeIndex outcome ->
        let opportunity := followOpportunity market outcomeIndex outcome price size in
        boughtBy now io opportunity (followStamp now assetId) sys
          (handleWhaleTrade now io assetId price size sys)
        /\ opp_market opportunity = market
        /\ opp_strategy opportunity = s_whale
        /\ opp_entryPrice opportunity = price
        /\ opp_estimatedProb opportunity <= 0.95
        /\ 0 <= opp_edge opportunity
        /\ opp_edge opportunity <= 0.0801
        /\ (price <= 0.8699 -> 0.0799 <= opp_edge opportunity)
        /\ (opp_confidence opportunity = c_high <-> 10000 <= size))
  /\ (forall followed,
        lastWhaleFollow (trader sys) !! assetId = Some followed ->
        (now - followed < WHALE_TRADE_COOLDOWN)%Z ->
        handleWhaleTrade now io assetId price size sys = sys)
  /\ (forall update,
        tu_size update < WHALE_INSTANT_THRESHOLD \/ tu_side update = SELL ->
        engine (handleTradeUpdate now io update sys) = engine sys
        /\ trader (handleTradeUpdate now io update sys) = trader sys).
Proof.
  split; [|split; [|split]].
  - unfold handleWhaleTrade. cbv zeta.
    destruct (now - _ <? WHALE_TRADE_COOLDOWN)%Z eqn:Hcool; [by left|].
    apply Z.ltb_ge in Hcool.
    destruct (assetToMarket (trader sys) !! assetId) as [[market idx]|] eqn:Hm; [|by left].
    destruct (Qltb price 0.05) eqn:Hlo; [by left|]. apply Qltb_ge in Hlo.
    destruct (Qgtb price 0.95) eqn:Hhi; [by left|]. apply Qgtb_le in Hhi. cbn [orb].
    destruct (Qltb (m_liquidity market) _) eqn:Hliq; [by left|]. apply Qltb_ge in Hliq.
    destruct (nth_error (m_outcomes market) idx) as [outcome|] eqn:Ho; [|by left].
    right. exists market, idx, outcome. by repeat split.
  - intros market idx outcome (Hcool & Hm & Ho & Hlo & Hhi & Hliq).
    cbv zeta. unfold boughtBy, followStamp. cbv zeta. unfold handleWhaleTrade. cbv zeta.
    rewrite Hm, Ho.
    rewrite (proj2 (Z.ltb_ge _ _) Hcool).
    rewrite (Qltb_false _ _ Hlo), (Qgtb_false _ _ Hhi). cbn [orb].
    rewrite (Qltb_false _ _ Hliq).
    fold (followOpportunity market idx outcome price size).
    assert (Hedge : Qmin 0.95 (price + 0.08) <= 0.95
                    /\ 0 <= Qmin 0.95 (price + 0.08) - price
                    /\ Qmin 0.95 (price + 0.08) - price <= 0.0801
                    /\ (price <= 0.8699 -> 0.0799 <= Qmin 0.95 (price + 0.08) - price)).
    { destruct (Q.min_spec 0.95 (price + 0.08)) as [[H1 ->]|[H1 ->]];
        repeat split; intros; lra. }
    assert (Hconf : (if Qgeb size 10000 then c_high else c_standard) = c_high
                    <-> 10000 <= size).
    { destruct (Qgeb size 10000) eqn:H10; q_tests; split; (done || intros; lra). }
    destruct Hedge as (He0 & He1 & He2 & He3).
    destruct (UnifiedExecutor.executeBuy now io _ (engine sys)) as [[position|] w];
      cbn [fst snd engine whales trader with_engine with_trader stats with_stats
           bump_whaleFollow whaleFollowTrades lastWhaleFollow with_lastWhaleFollow
           followOpportunity opp_edge opp_confidence opp_market opp_strategy
           opp_entryPrice opp_estimatedProb].
    + split.
      { split; [reflexivity|]. split; [reflexivity|].
        split; [by rewrite lookup_insert_eq|reflexivity]. }
      do 3 (split; [reflexivity|]). split; [exact He0|]. split; [exact He1|].
      split; [exact He2|]. split; [exact He3|exact Hconf].
    + split; [by repeat split|].
      do 3 (split; [reflexivity|]). split; [exact He0|]. split; [exact He1|].
      split; [exact He2|]. split; [exact He3|exact Hconf].
  - intros followed Hlast Hcool. unfold handleWhaleTrade. cbv zeta.
    rewrite Hlast. cbn [from_option id]. by rewrite (proj2 (Z.ltb_lt _ _) Hcool).
  - intros update Hsmall. unfold handleTradeUpdate.
    destruct (negb (enabled (trader sys))); [done|]. cbv zeta.
    assert (Hno : Qgeb (tu_size update) WHALE_INSTANT_THRESHOLD
                  && match tu_side update with BUY => true | SELL => false end = false).
    { destruct Hsmall as [Hsize| ->].
      - by rewrite (Qgeb_false _ _ Hsize).
      - apply andb_false_r. }
    match goal with |- context [if ?c then handleWhaleTrade _ _ _ _ _ ?a else ?b] =>
      change (if c then handleWhaleTrade now io (tu_assetId update) (tu_price update)
                          (tu_size update) a else b)
        with (if Qgeb (tu_size update) WHALE_INSTANT_THRESHOLD
                 && match tu_side update with BUY => true | SELL => false end
              then handleWhaleTrade now io (tu_assetId update) (tu_price update)
                          (tu_size update) a else b)
    end.
    rewrite Hno. by destruct (Qgeb (tu_size update) 1000).
Qed.

(** X25. [handleWhaleTrade] changes nothing unless the asset is past its
    follow cooldown, belongs to a tracked market outcome with enough
    liquidity, and the price lies in [0.05, 0.95].  Then it calls the
    gateway's [executeBuy] with a whale opportunity of estimated
    probability min(0.95, price + 0.08) and edge that minus the price: the
    edge is not negative, at most 0.0801, and at least 0.0799 for a price
    up to 0.8699; the confidence is high exactly for a size of 10000 or
    more.  Only when a position comes back does it stamp the follow time
    and count the trade.  A trade notification below the instant threshold
    or on the SELL side never reaches the gateway.
    The edge computed with any rounding of relative error at most 1e-9
    keeps these bounds. *)
Theorem whale_follow_dispatch (now : Z) (io : UnifiedExecutor.Broker) (assetId : string)
    (price size : Q) (sys : System) :
  (handleWhaleTrade now io assetId price size sys = sys
   \/ exists market outcomeIndex outcome,
        followConditions now (trader sys) assetId price market outcomeIndex outcome)
  /\ (forall market outcomeIndex outcome,
        followConditions now (trader sys) assetId price market outcomeIndex outcome ->
        let opportunity := followOpportunity market outcomeIndex outcome price size in
        boughtBy now io opportunity (followStamp now assetId) sys
          (handleWhaleTrade now io assetId price size sys)
        /\ opp_market opportunity = market
        /\ opp_strategy opportunity = s_whale
        /\ opp_entryPrice opportunity = price
        /\ opp_estimatedProb opportunity <= 0.95
        /\ 0 <= opp_edge opportunity
        /\ opp_edge opportunity <= 0.0801
        /\ (price <= 0.8699 -> 0.0799 <= opp_edge opportunity)
        /\ (opp_confidence opportunity = c_high <-> 10000 <= size))
  /\ (forall followed,
        lastWhaleFollow (trader sys) !! assetId = Some followed ->
        (now - followed < WHALE_TRADE_COOLDOWN)%Z ->
        handleWhaleTrade now io assetId price size sys = sys)
  /\ (forall update,
        tu_size update < WHALE_INSTANT_THRESHOLD \/ tu_side update = SELL ->
        engine (handleTradeUpdate now io update sys) = engine sys
        /\ trader (handleTradeUpdate now io update sys) = trader sys)
  /\ (forall market outcomeIndex outcome,
        opp_edge (followOpportunity market outcomeIndex outcome price size)
        = followEdgeRounded (fun x => x) price)
  /\ (forall rnd,
        roundsFinely rnd -> 0.05 <= price -> price <= 0.95 ->
        0 <= followEdgeRounded rnd price
        /\ followEdgeRounded rnd price <= 0.0801
        /\ (price <= 0.8699 -> 0.0799 <= followEdgeRounded rnd price)).
Proof.
  destruct (whale_follow_margins now io assetId price size sys) as (A1 & A2 & A3 & A4).
  do 4 (split; [assumption|]). split; [reflexivity|].
  intros rnd (u & Hu0 & Hu1 & Hr) Hlo Hhi.
  by apply (followEdgeRounded_bounds u rnd Hu0 Hu1 Hr).
Qed.

End ReactorExits.

(** ** The reactor's tracking tables *)

Section ReactorTracking.
Import EventTrader.

Lemma trackedOutcomes_elem (market : Market) (i : nat) (o : Outcome) :
  (i, o) ∈ trackedOutcomes market
  <-> m_outcomes market !! i = Some o /\ o_tokenId o <> EmptyString.
Proof.
  unfold trackedOutcomes. rewrite list_elem_of_In, filter_In, <- list_elem_of_In.
  rewrite elem_of_lookup_imap. cbn [snd]. rewrite negb_true_iff, bool_decide_eq_false.
  split.
  - intros [(j & y & Heq & Hlook) Htoken]. injection Heq as -> ->. by split.
  - intros [Hlook Htoken]. split; [|exact Htoken]. by exists i, o.
Qed.

Lemma addAsset_fold (market : Market) (l : list (nat * Outcome))
    (m : gmap string (Market * nat)) (a : string) :
  (forall entry, fold_left (addAsset market) l m !! a = Some entry ->
     m !! a = Some entry
     \/ exists i o, (i, o) ∈ l /\ o_tokenId o = a /\ entry = (market, i))
  /\ (is_Some (m !! a) -> is_Some (fold_left (addAsset market) l m !! a))
  /\ (forall i o, (i, o) ∈ l -> o_tokenId o = a ->
        is_Some (fold_left (addAsset market) l m !! a)).
Proof.
  revert m. induction l as [|[j y] l IH]; intros m.
  - cbn [fold_left]. split; [by left|]. split; [done|].
    intros i o Hin. by apply elem_of_nil in Hin.
  - cbn [fold_left]. destruct (IH (addAsset market m (j, y))) as (IH1 & IH2 & IH3).
    assert (Hstep : is_Some (m !! a) \/ o_tokenId y = a -> is_Some (addAsset market m (j, y) !! a)).
    { unfold addAsset. cbn [fst snd]. intros [Hm|Hy].
      - destruct (decide (o_tokenId y = a)) as [->|Hne].
        + rewrite lookup_insert_eq. by eexists.
        + by rewrite lookup_insert_ne.
      - rewrite Hy, lookup_insert_eq. by eexists. }
    split; [|split].
    + intros entry Hentry. destruct (IH1 entry Hentry) as [Hm|(i & o & Hin & Ho & He)].
      * unfold addAsset in Hm. cbn [fst snd] in Hm.
        destruct (decide (o_tokenId y = a)) as [Hy|Hne].
        -- rewrite Hy, lookup_insert_eq in Hm. injection Hm as <-.
           right. exists j, y. split; [apply list_elem_of_here|by split].
        -- rewrite lookup_insert_ne in Hm by exact Hne. by left.
      * right. exists i, o. split; [by apply list_elem_of_further|by split].
    + intros Hm. apply IH2, Hstep. by left.
    + intros i o Hin Ho. apply elem_of_cons in Hin as [Heq|Hin].
      * injection Heq as -> ->. apply IH2, Hstep. by right.
      * by apply (IH3 i o).
Qed.

Lemma registerMarket_fold (markets : list Market) (r0 : t) :
  let r := fold_left registerMarket markets r0 in
  priceHistory r = priceHistory r0
  /\ lastWhaleFollow r = lastWhaleFollow r0
  /\ enabled r = enabled r0
  /\ stats r = stats r0
  /\ (forall a entry,
        assetToMarket r !! a = Some entry ->
        assetToMarket r0 !! a = Some entry
        \/ exists market i o,
             market ∈ markets /\ (i, o) ∈ trackedOutcomes market
             /\ o_tokenId o = a /\ entry = (market, i))
  /\ (forall a, is_Some (assetToMarket r0 !! a) -> is_Some (assetToMarket r !! a))
  /\ (forall market i o,
        market ∈ markets -> (i, o) ∈ trackedOutcomes market ->
        is_Some (assetToMarket r !! o_tokenId o))
  /\ (forall i priceMap,
        marketPrices r !! i = Some priceMap ->
        marketPrices r0 !! i = Some priceMap
        \/ (mp_lastArbCheck priceMap = 0%Z
            /\ mp_marketId priceMap = i
            /\ exists market,
                 market ∈ markets /\ m_id market = i
                 /\ mp_outcomes priceMap = trackedPrices market))
  /\ (forall i, is_Some (marketPrices r0 !! i) -> is_Some (marketPrices r !! i))
  /\ (forall market, market ∈ markets -> is_Some (marketPrices r !! m_id market)).
Proof.
  cbv zeta. revert r0. induction markets as [|m ms IH]; intros r0.
  - cbn [fold_left]. repeat split; try done.
    + by left.
    + intros market i o Hin. by apply elem_of_nil in Hin.
    + by left.
    + intros market Hin. by apply elem_of_nil in Hin.
  - cbn [fold_left].
    destruct (IH (registerMarket r0 m))
      as (H1 & H2 & H3 & H4 & HB & HB' & HC & HD & HD' & HE).
    assert (Ha2m : assetToMarket (registerMarket r0 m)
                   = fold_left (addAsset m) (trackedOutcomes m) (assetToMarket r0))
      by reflexivity.
    assert (Hmp : marketPrices (registerMarket r0 m)
                  = <[ m_id m := {| mp_marketId := m_id m;
                                    mp_outcomes := trackedPrices m;
                                    mp_lastArbCheck := 0 |} ]> (marketPrices r0))
      by reflexivity.
    split; [exact H1|]. split; [exact H2|]. split; [exact H3|]. split; [exact H4|].
    split; [|split; [|split; [|split; [|split]]]].
    + intros a entry Hentry. destruct (HB a entry Hentry) as [Hm|(market & i & o & Hin & Hrest)].
      * rewrite Ha2m in Hm.
        destruct (proj1 (addAsset_fold m (trackedOutcomes m) (assetToMarket r0) a) entry Hm)
          as [H0|(i & o & Hin & Ho & He)]; [by left|].
        right. exists m, i, o. split; [apply list_elem_of_here|by repeat split].
      * right. exists market, i, o. split; [by apply list_elem_of_further|exact Hrest].
    + intros a Ha. apply HB'. rewrite Ha2m.
      by apply (proj1 (proj2 (addAsset_fold m (trackedOutcomes m) (assetToMarket r0) a))).
    + intros market i o Hin Htracked. apply elem_of_cons in Hin as [->|Hin].
      * apply HB'. rewrite Ha2m.
        by apply (proj2 (proj2 (addAsset_fold m (trackedOutcomes m) (assetToMarket r0)
                                  (o_tokenId o))) i o).
      * by apply (HC market i o).
    + intros i priceMap Hpm. destruct (HD i priceMap Hpm) as [Hm|(Hz & Hid & market & Hin & Hrest)].
      * rewrite Hmp in Hm. destruct (decide (m_id m = i)) as [<-|Hne].
        -- rewrite lookup_insert_eq in Hm. injection Hm as <-.
           right. split; [reflexivity|]. split; [reflexivity|].
           exists m. split; [apply list_elem_of_here|by split].
        -- rewrite lookup_insert_ne in Hm by exact Hne. by left.
      * right. split; [exact Hz|]. split; [exact Hid|].
        exists market. split; [by apply list_elem_of_further|exact Hrest].
    + intros i Hi. apply HD'. rewrite Hmp. destruct (decide (m_id m = i)) as [<-|Hne].
      * rewrite lookup_insert_eq. by eexists.
      * by rewrite lookup_insert_ne.
    + intros market Hin. apply elem_of_cons in Hin as [->|Hin].
      * apply HD'. rewrite Hmp, lookup_insert_eq. by eexists.
      * by apply HE.
Qed.

(** X26. [registerMarkets] replaces the reactor's tracking tables:
    every tracked asset is the non-empty token id of an outcome of one of
    the given markets, stored with its index; every such outcome is
    tracked; every given market gets a price map of its outcomes with token
    ids, with a last arbitrage check of 0; and what was registered before is
    forgotten.  The price history, the follow times, the switch and the
    counters are kept. *)
Theorem registerMarkets_tracks (markets : list Market) (r : t) :
  let r' := registerMarkets markets r in
  priceHistory r' = priceHistory r
  /\ lastWhaleFollow r' = lastWhaleFollow r
  /\ enabled r' = enabled r
  /\ stats r' = stats r
  /\ (forall a market i,
        assetToMarket r' !! a = Some (market, i) ->
        market ∈ markets /\ a <> EmptyString
        /\ exists o, m_outcomes market !! i = Some o /\ o_tokenId o = a)
  /\ (forall market i o,
        market ∈ markets -> m_outcomes market !! i = Some o ->
        o_tokenId o <> EmptyString ->
        is_Some (assetToMarket r' !! o_tokenId o))
  /\ (forall i priceMap,
        marketPrices r' !! i = Some priceMap ->
        mp_lastArbCheck priceMap = 0%Z
        /\ mp_marketId priceMap = i
        /\ exists market,
             market ∈ markets /\ m_id market = i
             /\ mp_outcomes priceMap = trackedPrices market)
  /\ (forall market, market ∈ markets -> is_Some (marketPrices r' !! m_id market))
  /\ (forall earlier, registerMarkets markets (registerMarkets earlier r) = r').
Proof.
  cbv zeta.
  assert (Hagain : forall earlier,
             registerMarkets markets (registerMarkets earlier r)
             = registerMarkets markets r).
  { intros earlier. unfold registerMarkets at 1 3.
    unfold registerMarkets.
    match goal with |- context [fold_left registerMarket earlier ?r0] =>
      destruct (registerMarket_fold earlier r0) as (E1 & E2 & E3 & E4 & _)
    end.
    cbn [priceHistory lastWhaleFollow enabled stats] in *.
    by rewrite E1, E2, E3, E4. }
  split; [|split; [|split; [|split; [|split; [|split; [|split; [|split]]]]]]];
    [..|exact Hagain]; unfold registerMarkets;
  match goal with |- context [fold_left registerMarket markets ?r0] =>
    destruct (registerMarket_fold markets r0)
      as (H1 & H2 & H3 & H4 & HB & _ & HC & HD & _ & HE)
  end;
  cbn [priceHistory lastWhaleFollow enabled stats assetToMarket marketPrices] in *.
  - exact H1.
  - exact H2.
  - exact H3.
  - exact H4.
  - intros a market i Hentry.
    destruct (HB a (market, i) Hentry) as [H0|(market' & i' & o & Hin & Htracked & Ho & He)].
    + by rewrite lookup_empty in H0.
    + injection He as -> ->. apply trackedOutcomes_elem in Htracked as [Hlook Htoken].
      split; [exact Hin|]. split; [by rewrite <- Ho|]. by exists o.
  - intros market i o Hin Hlook Htoken. apply (HC market i o Hin).
    by apply trackedOutcomes_elem.
  - intros i priceMap Hpm. destruct (HD i priceMap Hpm) as [H0|Hrest]; [|exact Hrest].
    by rewrite lookup_empty in H0.
  - exact HE.
Qed.

End ReactorTracking.

(** ** The exit rule of the value strategy and the exit check *)

Section ExitRules.
Context {env : Env}.


(** The value strategy's exit rule in exact arithmetic, away from its thresholds. *)
Lemma value_shouldExit_margins (position : Position) (price : Q) :
  let entry := p_entryPrice position in
  let held := p_currentPrice position in
  0 < entry ->
  (1.1501 * entry <= price
   \/ price <= 0.7999 * entry
   \/ 0.95 <= price
   \/ price <= 0.05
   \/ (1.1001 * entry <= held /\ price <= 1.0299 * entry) ->
   ValueBettingStrategy.shouldExit position price = true)
  /\ (0.8001 * entry <= price -> price <= 1.1499 * entry ->
      0.05 < price -> price < 0.95 ->
      held <= 1.0999 * entry \/ 1.0301 * entry <= price ->
      ValueBettingStrategy.shouldExit position price = false).
Proof.
  intros e c He. unfold ValueBettingStrategy.shouldExit. cbv zeta.
  fold e c.
  rewrite (pct_ge price e 15 He), (pct_le price e (-20) He), (pct_lt price e 3 He).
  assert (M : Qltb price ((1 + 3 * 0.01) * e) = true ->
              Qgeb (Qmax ((c - e) / e * 100) ((price - e) / e * 100)) 10
              = Qgeb c ((1 + 10 * 0.01) * e)).
  { intros T6. q_tests. rewrite <- (pct_ge c e 10 He).
    assert (L : (price - e) / e * 100 < 3).
    { apply Qltb_lt. rewrite (pct_lt price e 3 He). by apply Qltb_true. }
    destruct (Qgeb ((c - e) / e * 100) 10) eqn:G; q_tests.
    - apply Qgeb_true. eapply Qle_trans; [exact G|apply Q.le_max_l].
    - apply Qgeb_false. apply Q.max_lub_lt; lra. }
  split.
  - intros H.
    destruct (Qgeb price ((1 + 15 * 0.01) * e)) eqn:T1; [reflexivity|].
    destruct (Qleb price ((1 + -20 * 0.01) * e)) eqn:T2; [reflexivity|].
    destruct (Qgeb price 0.95) eqn:T3; [reflexivity|].
    destruct (Qleb price 0.05) eqn:T4; [reflexivity|].
    cbn [orb]. q_tests.
    destruct H as [H|[H|[H|[H|[H1 H2]]]]]; try (exfalso; lra).
    assert (T6 : Qltb price ((1 + 3 * 0.01) * e) = true) by (apply Qltb_true; lra).
    rewrite (M T6), T6. rewrite Qgeb_true by lra. reflexivity.
  - intros H1 H2 H3 H4 H5.
    rewrite Qgeb_false by lra. rewrite Qleb_false by lra.
    rewrite (Qgeb_false price 0.95) by lra. rewrite (Qleb_false price 0.05) by lra.
    cbn [orb].
    destruct (Qltb price ((1 + 3 * 0.01) * e)) eqn:T6.
    + rewrite (M eq_refl). q_tests. destruct H5 as [H5|H5]; [|exfalso; lra].
      rewrite Qgeb_false by lra. reflexivity.
    + by rewrite andb_false_r.
Qed.

(** X27. The value strategy's exit rule tests the percentage
    [((price - entryPrice) / entryPrice) * 100] against +15%, -20% and, for
    the trailing stop, +10% on the price stored on the position and +3%.
    For a position with a positive entry price it holds when the price is
    at least 1.1501 times the entry price, or at most 0.7999 times it, or at
    least 0.95, or at most 0.05, or (trailing stop) when the stored price
    is at least 1.1001 times the entry price while the new price is at most
    1.0299 times it.  It does not hold when the price lies from 0.8001 to
    1.1499 times the entry price and strictly between 0.05 and 0.95, and the
    trailing stop is off: the stored price is at most 1.0999 times the
    entry price, or the new price at least 1.0301 times it.  Nearer to a
    threshold the rounding of the percentage decides.
    Under each of these conditions the rule computed with any rounding of
    relative error at most 1e-9 gives the same answer. *)
Theorem value_shouldExit_rule (position : Position) (price : Q) :
  let entry := p_entryPrice position in
  let held := p_currentPrice position in
  0 < entry ->
  (1.1501 * entry <= price
   \/ price <= 0.7999 * entry
   \/ 0.95 <= price
   \/ price <= 0.05
   \/ (1.1001 * entry <= held /\ price <= 1.0299 * entry) ->
   ValueBettingStrategy.shouldExit position price = true)
  /\ (0.8001 * entry <= price -> price <= 1.1499 * entry ->
      0.05 < price -> price < 0.95 ->
      held <= 1.0999 * entry \/ 1.0301 * entry <= price ->
      ValueBettingStrategy.shouldExit position price = false)
  /\ (forall rnd,
        roundsFinely rnd ->
        (1.1501 * entry <= price
         \/ price <= 0.7999 * entry
         \/ 0.95 <= price
         \/ price <= 0.05
         \/ (1.1001 * entry <= held /\ price <= 1.0299 * entry))
        \/ (0.8001 * entry <= price /\ price <= 1.1499 * entry
            /\ 0.05 < price /\ price < 0.95
            /\ (held <= 1.0999 * entry \/ 1.0301 * entry <= price)) ->
        ValueBettingStrategy.shouldExitRounded rnd position price
        = ValueBettingStrategy.shouldExit position price).
Proof.
  intros entry held He.
  destruct (value_shouldExit_margins position price He) as [A1 A2].
  fold entry held in A1, A2.
  do 2 (split; [assumption|]).
  intros rnd (u & Hu0 & Hu1 & Hr) Hc.
  assert (Hu : u <= 0.000001) by lra.
  destruct (value_shouldExitRounded u rnd Hu0 Hu Hr position price He) as [Rt Rf].
  fold entry held in Rt, Rf.
  destruct Hc as [H|(H1 & H2 & H3 & H4 & H5)].
  - rewrite (Rt H). by rewrite (A1 H).
  - rewrite (Rf H1 H2 H3 H4 H5). by rewrite (A2 H1 H2 H3 H4 H5).
Qed.

End ExitRules.

Section ExitLoop.
Context {env : Env}.
Import UnifiedExecutor PolymarketTrader.

Lemma updatePositionPrice_status (i : string) (price : Q) (s : SQLiteStore.t) :
  ledgerStatus (SQLiteStore.updatePositionPrice i price s) = ledgerStatus s
  /\ SQLiteStore.trades (SQLiteStore.updatePositionPrice i price s)
     = SQLiteStore.trades s.
Proof.
  unfold SQLiteStore.updatePositionPrice.
  destruct (SQLiteStore.getPosition i s); [|done].
  split; [|reflexivity].
  unfold ledgerStatus, SQLiteStore.with_positions, SQLiteStore.update_where_id.
  cbn [SQLiteStore.positions]. rewrite List.map_map.
  apply List.map_ext. intros r. by case_bool_decide.
Qed.

Lemma checkExitOne_held (nows : nat -> Z) (ios : nat -> Broker)
    (cache : gmap string Q) (markets : list Market) (k : nat) (w : World)
    (position : Position) :
  heldBack nows cache markets k position ->
  fst (checkExitOne nows ios cache markets (k, w) position) = S k
  /\ sameBooks w (snd (checkExitOne nows ios cache markets (k, w) position)).
Proof.
  intros H. unfold checkExitOne.
  destruct (currentPriceOf cache markets position) as [price|] eqn:P.
  2:{ by split. }
  destruct (updatePositionPrice_status (p_id position) price (store w)) as [U1 U2].
  destruct H as [H|[H|H]]; [congruence| |].
  - destruct (_ <? _)%Z; [by split|]. rewrite H.
    unfold ArbitrageStrategy.shouldExit. by split.
  - apply Z.ltb_lt in H. rewrite H. by split.
Qed.

Lemma checkExits_fold_held (nows : nat -> Z) (ios : nat -> Broker)
    (cache : gmap string Q) (markets : list Market) (l : list Position) :
  forall (k : nat) (w : World),
    (forall j position, l !! j = Some position ->
       heldBack nows cache markets (k + j) position) ->
    sameBooks w (snd (fold_left (checkExitOne nows ios cache markets) l (k, w))).
Proof.
  induction l as [|p l IH]; intros k w H; cbn [fold_left].
  { by repeat split. }
  destruct (checkExitOne_held nows ios cache markets k w p) as [E1 E2].
  { specialize (H 0%nat p eq_refl). by rewrite Nat.add_0_r in H. }
  destruct (checkExitOne nows ios cache markets (k, w) p) as [k1 w1].
  cbn [fst snd] in E1, E2. subst k1.
  specialize (IH (S k) w1).
  destruct IH as (I1 & I2 & I3 & I4 & I5).
  { intros j q Hj. specialize (H (S j) q Hj).
    by replace (S k + j)%nat with (k + S j)%nat by lia. }
  destruct E2 as (F1 & F2 & F3 & F4 & F5).
  repeat split; congruence.
Qed.

(** X28. [checkExits] sells nothing when every open position has no
    price (no non-zero price in the WebSocket cache or the market data),
    belongs to the arbitrage strategy, or has been held for less than 60
    seconds: the statuses of the ledger's rows, the trades, both executors
    and the gateway are as before. *)
Theorem checkExits_holds (nows : nat -> Z) (ios : nat -> Broker)
    (cache : gmap string Q) (markets : list Market) (w : World) :
  (forall k position,
     SQLiteStore.getOpenPositions (store w) !! k = Some position ->
     heldBack nows cache markets k position) ->
  sameBooks w (checkExits nows ios cache markets w).
Proof.
  intros H. unfold checkExits. cbv zeta.
  by apply checkExits_fold_held.
Qed.

Lemma getOpenPositions_ids (s : SQLiteStore.t) :
  List.map p_id (SQLiteStore.getOpenPositions s)
  = List.map fst (List.filter (fun x => bool_decide (snd x = st_open)) (ledgerStatus s)).
Proof.
  unfold SQLiteStore.getOpenPositions, ledgerStatus.
  induction (SQLiteStore.positions s) as [|r rows IH]; [reflexivity|].
  cbn [List.map List.filter snd].
  destruct (bool_decide (SQLiteStore.status r = st_open)); [|exact IH].
  cbn [fmap list_fmap List.map fst]. f_equal. exact IH.
Qed.


Lemma gateway_paper_sell (now : Z) (io : Broker) (sold : Position)
    (currentPrice : Q) (w : World) :
  mode (gateway w) = paper ->
  p_id sold ∉ pendingSells (gateway w) ->
  p_id sold ∉ PaperExecutor.sellingPositions (paperExec w) ->
  let q := Qmax 0.01 (currentPrice * (1 - PaperExecutor.SIMULATED_SPREAD
                                       - PaperExecutor.SIMULATED_SLIPPAGE)) in
  let r := executeSell now io sold currentPrice w in
  SQLiteStore.positions (store (snd r))
  = SQLiteStore.positions (snd (SQLiteStore.closePosition now (p_id sold) q (store w)))
  /\ exists trade,
       fst r = Some trade
       /\ t_action trade = SELL
       /\ t_positionId trade = p_id sold
       /\ SQLiteStore.trades (store (snd r)) = SQLiteStore.trades (store w) ++ [trade].
Proof.
  intros Hmode Hpending Hselling. cbv zeta. unfold executeSell, executeSell_enter.
  rewrite bool_decide_eq_false_2 by done.
  unfold sell_inner.
  cbn [with_gateway with_pendingSells gateway store paperExec realExec mode].
  rewrite Hmode.
  destruct (paper_sell_positions now sold currentPrice (store w) (paperExec w) Hselling)
    as (Hpos & trade & Hret & Hact & Hid & Htrades).
  destruct (PaperExecutor.executeSell _ _ _ _ _) as [r [s e]]. cbn [fst snd] in *.
  split; [exact Hpos|]. exists trade. by repeat split.
Qed.

(** X29. In paper mode, when the only open position is a position of
    a strategy other than arbitrage that has a price, has been held for 60
    seconds or more, meets the value strategy's exit rule and is not being
    sold already, [checkExits] sells it: one SELL trade for its id is
    appended and no position stays open. *)
Theorem checkExits_sells (nows : nat -> Z) (ios : nat -> Broker)
    (cache : gmap string Q) (markets : list Market) (w : World)
    (position : Position) (price : Q) :
  SQLiteStore.getOpenPositions (store w) = [position] ->
  currentPriceOf cache markets position = Some price ->
  (60000 <= nows 0%nat - p_entryTime position)%Z ->
  p_strategy position <> s_arbitrage ->
  ValueBettingStrategy.shouldExit position price = true ->
  mode (gateway w) = paper ->
  p_id position ∉ pendingSells (gateway w) ->
  p_id position ∉ PaperExecutor.sellingPositions (paperExec w) ->
  let w' := checkExits nows ios cache markets w in
  SQLiteStore.getOpenPositions (store w') = []
  /\ exists trade,
       SQLiteStore.trades (store w') = SQLiteStore.trades (store w) ++ [trade]
       /\ t_action trade = SELL
       /\ t_positionId trade = p_id position.
Proof.
  intros Hopen Hprice Hold Hstrat Hexit Hmode Hpend Hsell. cbv zeta.
  unfold checkExits. cbv zeta. rewrite Hopen. cbn [fold_left].
  unfold checkExitOne. rewrite Hprice.
  apply Z.ltb_ge in Hold. rewrite Hold.
  assert (X : match p_strategy position with
              | s_arbitrage => ArbitrageStrategy.shouldExit position price
              | _ => ValueBettingStrategy.shouldExit position price
              end = true).
  { destruct (p_strategy position); try exact Hexit. done. }
  rewrite X. cbn [snd].
  destruct (updatePositionPrice_status (p_id position) price (store w)) as [U1 U2].
  match goal with
  | |- context [executeSell ?n ?i ?p ?c ?w0] =>
      destruct (gateway_paper_sell n i p c w0 Hmode Hpend Hsell)
        as (Hpos & trade & _ & Hact & Hid & Htrades)
  end.
  cbn [store] in Hpos, Htrades.
  split.
  - unfold SQLiteStore.getOpenPositions at 1. rewrite Hpos.
    fold (SQLiteStore.getOpenPositions
            (snd (SQLiteStore.closePosition (nows 0%nat) (p_id position)
                    (Qmax 0.01 (price * (1 - PaperExecutor.SIMULATED_SPREAD
                                         - PaperExecutor.SIMULATED_SLIPPAGE)))
                    (SQLiteStore.updatePositionPrice (p_id position) price (store w))))).
    rewrite closePosition_open_filter.
    apply filter_all_out.
    assert (Ids : List.map p_id
                    (SQLiteStore.getOpenPositions
                       (SQLiteStore.updatePositionPrice (p_id position) price (store w)))
                  = [p_id position]).
    { rewrite getOpenPositions_ids, U1, <- getOpenPositions_ids, Hopen. reflexivity. }
    apply List.Forall_forall. intros q Hq.
    apply (List.in_map p_id) in Hq. rewrite Ids in Hq.
    destruct Hq as [<-|[]]. by rewrite bool_decide_eq_true_2.
  - exists trade. rewrite Htrades, U2. by repeat split.
Qed.

End ExitLoop.

(** X27 on the held position (entry 0.41): an exit at 0.50, none at 0.45. *)
Lemma value_shouldExit_rule_witness :
  0 < p_entryPrice heldPosition
  /\ ValueBettingStrategy.shouldExit heldPosition 0.5 = true
  /\ ValueBettingStrategy.shouldExit heldPosition 0.45 = false.
Proof.
  assert (H : 0 < p_entryPrice heldPosition) by (vm_compute; reflexivity).
  destruct (value_shouldExit_rule heldPosition 0.5 H) as (Hup & _).
  destruct (value_shouldExit_rule heldPosition 0.45 H) as (_ & Hin & _).
  split; [exact H|]. split.
  - apply Hup. left. vm_compute. discriminate.
  - apply Hin; try (vm_compute; first [discriminate|reflexivity]).
    left. vm_compute. discriminate.
Defined.

Lemma checkExits_holds_witness :
  sameBooks heldWorld
    (@PolymarketTrader.checkExits demoEnv (fun _ => 30000%Z) (fun _ => silentBroker)
       yesCache [] heldWorld).
Proof.
  apply (@checkExits_holds demoEnv).
  intros [|k] position H; vm_compute in H; [|discriminate H].
  apply (inj Some) in H. subst position.
  right; right. vm_compute. reflexivity.
Defined.

Lemma checkExits_sells_witness :
  let w' := @PolymarketTrader.checkExits demoEnv (fun _ => 100000%Z)
              (fun _ => silentBroker) yesCache [] heldWorld in
  SQLiteStore.getOpenPositions (UnifiedExecutor.store w') = []
  /\ exists trade,
       SQLiteStore.trades (UnifiedExecutor.store w')
       = SQLiteStore.trades (UnifiedExecutor.store heldWorld) ++ [trade]
       /\ t_action trade = SELL
       /\ t_positionId trade = p_id storedHeld.
Proof.
  apply (@checkExits_sells demoEnv (fun _ => 100000%Z) (fun _ => silentBroker)
           yesCache [] heldWorld storedHeld 0.5).
  - vm_compute. reflexivity.
  - vm_compute. reflexivity.
  - vm_compute. discriminate.
  - vm_compute. discriminate.
  - vm_compute. reflexivity.
  - reflexivity.
  - apply not_elem_of_empty.
  - apply not_elem_of_empty.
Defined.

(** ** The ledger's statistics *)

Section LedgerStats.
Context {env : Env}.
Import SQLiteStore.

Lemma sumBy_wins_bounds (pnls : list Q) :
  0 <= sumBy (fun x => if Qgtb x 0 then 1 else 0) pnls
  /\ sumBy (fun x => if Qgtb x 0 then 1 else 0) pnls
     <= inject_Z (Z.of_nat (length pnls)).
Proof.
  induction pnls as [|x pnls [IH1 IH2]].
  - split; vm_compute; discriminate.
  - rewrite sumBy_cons. cbn [length]. rewrite Nat2Z.inj_succ.
    unfold Z.succ. rewrite inject_Z_plus.
    change (inject_Z 1) with 1.
    destruct (Qgtb x 0); split; lra.
Qed.

Lemma omap_snoc {A B : Type} (f : A -> option B) (l : list A) (x : A) :
  omap f (l ++ [x]) = omap f l ++ match f x with Some y => [y] | None => [] end.
Proof. rewrite omap_app. simpl. by destruct (f x). Qed.

(** X30. [getTotalStats] covers the trades that carry a pnl: their number
    is at most the number of trades, the win rate lies between 0 and 1, and
    over an empty trade table all three figures are 0.  Recording a trade
    without pnl (a buy) leaves the statistics as they are; recording a trade
    with a pnl adds one to the count and its pnl to the total. *)
Theorem getTotalStats_counts_closed (trade : Trade) (s : t) :
  let stats := getTotalStats s in
  let stats' := getTotalStats (snd (recordTrade trade s)) in
  (totalTrades stats <= length (trades s))%nat
  /\ 0 <= winRate stats
  /\ winRate stats <= 1
  /\ (trades s = [] -> totalTrades stats = 0%nat /\ totalPnl stats = 0 /\ winRate stats = 0)
  /\ match t_pnl trade with
     | None => stats' = stats
     | Some pnl =>
         totalTrades stats' = S (totalTrades stats)
         /\ totalPnl stats' == totalPnl stats + pnl
     end.
Proof.
  cbv zeta. unfold getTotalStats. cbv zeta. cbn [totalTrades totalPnl winRate].
  split; [|split; [|split; [|split]]].
  - apply omap_length_le.
  - destruct (omap t_pnl (trades s)) as [|p pnls] eqn:E; [apply Qle_refl|].
    destruct (sumBy_wins_bounds (p :: pnls)) as [H1 _].
    apply Qdiv_nonneg; [exact H1|].
    cbn [length]. rewrite Nat2Z.inj_succ. replace 0 with (inject_Z 0) by reflexivity.
    rewrite <- Zlt_Qlt. lia.
  - destruct (omap t_pnl (trades s)) as [|p pnls] eqn:E; [discriminate|].
    destruct (sumBy_wins_bounds (p :: pnls)) as [_ H2].
    apply Qdiv_le_one; [exact H2|].
    cbn [length]. rewrite Nat2Z.inj_succ. replace 0 with (inject_Z 0) by reflexivity.
    rewrite <- Zlt_Qlt. lia.
  - intros E. rewrite E. by cbn.
  - unfold recordTrade. cbv zeta. cbn [snd trades]. rewrite omap_snoc. cbn [t_pnl].
    destruct (t_pnl trade) as [pnl|].
    + rewrite length_app. cbn [length]. split; [lia|].
      rewrite sumBy_app, sumBy_cons.
      change (sumBy (fun x : Q => x) []) with 0. ring.
    + by rewrite app_nil_r.
Qed.

End LedgerStats.

(** * The gateway's deduplication, closed positions and the arbitrage check *)

(** ** The gateway's buys, run to completion *)

Section GatewayBuys.
Context {env : Env}.
Import UnifiedExecutor.

(** C1. Take a buy that passes the gateway's guards at time [t1]: its key
    is marked with [t1] in the synchronous head of the call, before the
    executor is awaited.  Whatever other gateway steps follow (buys and
    sells on any key, none of them a failure of a buy on this key), a
    second buy on the same (marketId, side) starting at [t2], less than 5
    seconds after [t1], returns null without reaching an executor and
    changes nothing.  When the awaited call returns (with a position or
    with null) the mark is left standing; it is removed only when the call
    throws.  With the mark standing, a third buy on the key at least 5
    seconds after [t1], with no open position on it, passes both guards,
    re-marks the key with its own time and returns what the executor of
    the current mode returns on the ledger as it stands: in paper mode,
    when trading is allowed and the position size reaches the minimum, a
    position on that market and side, which the ledger then holds open. *)
Theorem buy_cooldown (g0 g1 : t) (t1 : Z) (first : Opportunity) (s1 : SQLiteStore.t) :
  t1 <> 0%Z ->
  executeBuy_enter t1 first s1 g0 = (Dispatch, g1) ->
  pendingBuys g1 !! buyKey first = Some t1
  /\ (forall evs t2,
        (t2 - t1 < 5000)%Z -> buys_by t2 evs -> no_throw_on (buyKey first) evs ->
        (forall second io (w : World),
            m_id (opp_market second) = m_id (opp_market first) ->
            opp_side second = opp_side first ->
            gateway w = run g1 evs ->
            refused (fst (executeBuy_enter t2 second (store w) (gateway w)))
            /\ executeBuy t2 io second w = (None, w))
        /\ (forall third t3 s3,
              m_id (opp_market third) = m_id (opp_market first) ->
              opp_side third = opp_side first ->
              (5000 <= t3 - t1)%Z ->
              open_on (m_id (opp_market third)) (opp_side third)
                      (SQLiteStore.positions s3) = [] ->
              executeBuy_enter t3 third s3 (run g1 evs)
              = (Dispatch,
                 with_pendingBuys (<[ buyKey third := t3 ]> (pendingBuys (run g1 evs)))
                                  (run g1 evs)))
        /\ (forall third t3 io (w : World),
              m_id (opp_market third) = m_id (opp_market first) ->
              opp_side third = opp_side first ->
              (5000 <= t3 - t1)%Z ->
              open_on (m_id (opp_market third)) (opp_side third)
                      (SQLiteStore.positions (store w)) = [] ->
              gateway w = run g1 evs ->
              let g3 :=
                with_pendingBuys (<[ buyKey third := t3 ]> (pendingBuys (gateway w)))
                                 (gateway w) in
              let bought := executeBuy t3 io third w in
              bought
              = match mode (gateway w) with
                | paper =>
                    let r := PaperExecutor.executeBuy t3 third (store w) (paperExec w) in
                    (fst r, {| store := fst (snd r); paperExec := snd (snd r);
                               realExec := realExec w; gateway := g3 |})
                | real =>
                    let r := RealExecutor.executeBuy t3 (orders io 0%nat) (bal io) third
                               (store w) (realExec w) in
                    (fst r, {| store := fst (snd r); paperExec := paperExec w;
                               realExec := snd (snd r); gateway := g3 |})
                end
              /\ (mode (gateway w) = paper ->
                  allowed (fst (PaperExecutor.canTrade (store w) (paperExec w))) = true ->
                  minPositionUsd config
                  <= fst (PaperExecutor.calculatePositionSize third (store w)
                            (paperExec w)) ->
                  exists position,
                    fst bought = Some position
                    /\ p_marketId position = m_id (opp_market third)
                    /\ p_side position = opp_side third
                    /\ p_status position = st_open
                    /\ appended_open (m_id (opp_market third)) (opp_side third)
                                     (store w) (store (snd bought))
                    /\ pendingBuys (gateway (snd bought)) !! buyKey third = Some t3)))
  /\ (forall (A : Type) (r : A) g, executeBuy_settle first (Returned r) g = (Returned r, g))
  /\ (forall (A : Type) g,
        executeBuy_settle first (@Threw A) g
        = (Threw, with_pendingBuys (delete (buyKey first) (pendingBuys g)) g)).
Proof.
  intros Hnz Henter.
  assert (Hmark : pendingBuys g1 !! buyKey first = Some t1).
  { unfold executeBuy_enter in Henter. destruct (List.find _ _); [discriminate|].
    destruct (inCooldown _ _); [discriminate|]. injection Henter as <-.
    cbn [with_pendingBuys pendingBuys]. by rewrite lookup_insert_eq. }
  split; [exact Hmark|]. split; [|by split].
  intros evs t2 Hwin Hby Hthrow.
  pose proof (run_keeps_mark evs g1 (buyKey first) t1 t2 Hmark Hnz Hwin Hby Hthrow) as Hrun.
  split; [|split].
  - intros second io w Hm Hs Hgw.
    assert (Hkey : buyKey second = buyKey first) by (apply buyKey_eq; by split).
    assert (Href : refused (fst (executeBuy_enter t2 second (store w) (gateway w)))).
    { unfold executeBuy_enter. destruct (List.find _ _); [done|].
      rewrite Hgw, Hkey, Hrun. unfold inCooldown.
      replace (t1 =? 0)%Z with false by (symmetry; by apply Z.eqb_neq).
      replace (t2 - t1 <? BUY_COOLDOWN_MS)%Z with true
        by (symmetry; apply Z.ltb_lt; unfold BUY_COOLDOWN_MS; lia).
      done. }
    split; [exact Href | by apply refused_buy_is_null].
  - intros third t3 s3 Hm Hs Hlate Hnone.
    assert (Hkey : buyKey third = buyKey first) by (apply buyKey_eq; by split).
    unfold executeBuy_enter.
    assert (List.find (fun p => bool_decide (p_marketId p = m_id (opp_market third))
                                && bool_decide (p_side p = opp_side third))
                      (SQLiteStore.getOpenPositions s3) = None) as ->.
    { by apply no_open_position_found. }
    rewrite Hkey, Hrun. unfold inCooldown.
    replace (t3 - t1 <? BUY_COOLDOWN_MS)%Z with false
      by (symmetry; apply Z.ltb_ge; unfold BUY_COOLDOWN_MS; lia).
    by rewrite andb_false_r.
  - intros third t3 io w Hm Hs Hlate Hnone Hgw g3 bought.
    assert (Hkey : buyKey third = buyKey first) by (apply buyKey_eq; by split).
    assert (Henter3 : executeBuy_enter t3 third (store w) (gateway w) = (Dispatch, g3)).
    { unfold executeBuy_enter.
      rewrite (no_open_position_found _ _ _ Hnone), Hgw, Hkey, Hrun. unfold inCooldown.
      replace (t3 - t1 <? BUY_COOLDOWN_MS)%Z with false
        by (symmetry; apply Z.ltb_ge; unfold BUY_COOLDOWN_MS; lia).
      rewrite andb_false_r. subst g3. by rewrite Hgw, Hkey. }
    assert (Hbought : bought
              = match mode (gateway w) with
                | paper =>
                    let r := PaperExecutor.executeBuy t3 third (store w) (paperExec w) in
                    (fst r, {| store := fst (snd r); paperExec := snd (snd r);
                               realExec := realExec w; gateway := g3 |})
                | real =>
                    let r := RealExecutor.executeBuy t3 (orders io 0%nat) (bal io) third
                               (store w) (realExec w) in
                    (fst r, {| store := fst (snd r); paperExec := paperExec w;
                               realExec := snd (snd r); gateway := g3 |})
                end).
    { subst bought. unfold executeBuy. rewrite Henter3. unfold buy_inner.
      cbn [with_gateway gateway store paperExec realExec].
      assert (mode g3 = mode (gateway w)) as -> by reflexivity.
      destruct (mode (gateway w)).
      - by destruct (PaperExecutor.executeBuy _ _ _ _) as [r [s e]].
      - by destruct (RealExecutor.executeBuy _ _ _ _ _ _) as [r [s e]]. }
    split; [exact Hbought|].
    intros Hmode Hallowed Hmin. rewrite Hbought, Hmode. cbv zeta. cbn [fst snd store gateway].
    pose proof (paper_executeBuy_eq t3 third (store w) (paperExec w)) as Heq.
    cbv zeta in Heq. rewrite Hallowed, (Qltb_false _ _ Hmin) in Heq. cbn [negb] in Heq.
    destruct (paper_executeBuy_positions t3 third (store w) (paperExec w))
      as [[Hnone' _]|(position & Hsome & Happ)].
    { rewrite Heq in Hnone'. discriminate Hnone'. }
    exists position. split; [exact Hsome|].
    pose proof Hsome as Hpos. rewrite Heq in Hpos. cbn [fst] in Hpos.
    apply (inj Some) in Hpos.
    split; [by rewrite <- Hpos|]. split; [by rewrite <- Hpos|].
    split; [by rewrite <- Hpos|].
    split; [exact Happ|].
    subst g3. cbn [with_pendingBuys pendingBuys]. by rewrite lookup_insert_eq.
Qed.

End GatewayBuys.

(** C1 on the binary market: a buy of [yesOpportunity] entered at time
    1000 marks (m2, YES); a second buy on the key at time 3000 returns null
    and changes nothing; a third at time 7000 returns an open position on
    side YES. *)
Lemma buy_cooldown_witness :
  UnifiedExecutor.pendingBuys buyingGateway !! UnifiedExecutor.buyKey yesOpportunity
  = Some 1000%Z
  /\ @UnifiedExecutor.executeBuy demoEnv 3000 silentBroker yesOpportunity
       (UnifiedExecutor.with_gateway buyingGateway freshWorld)
     = (None, UnifiedExecutor.with_gateway buyingGateway freshWorld)
  /\ exists position,
       fst (@UnifiedExecutor.executeBuy demoEnv 7000 silentBroker yesOpportunity
              (UnifiedExecutor.with_gateway buyingGateway freshWorld))
       = Some position
       /\ p_side position = YES
       /\ p_status position = st_open.
Proof.
  assert (Hnz : 1000%Z <> 0%Z) by lia.
  assert (Henter : UnifiedExecutor.executeBuy_enter 1000 yesOpportunity emptyStore
                     (freshGateway UnifiedExecutor.paper)
                   = (UnifiedExecutor.Dispatch, buyingGateway))
    by (vm_compute; reflexivity).
  destruct (@buy_cooldown demoEnv (freshGateway UnifiedExecutor.paper) buyingGateway
              1000 yesOpportunity emptyStore Hnz Henter) as (Hmark & Hlater & _).
  split; [exact Hmark|].
  assert (Hwin : (3000 - 1000 < 5000)%Z) by lia.
  destruct (Hlater [] 3000%Z Hwin (Forall_nil_2 _) (Forall_nil_2 _))
    as (Hsecond & _ & Hthird).
  split.
  - exact (proj2 (Hsecond yesOpportunity silentBroker
                    (UnifiedExecutor.with_gateway buyingGateway freshWorld)
                    eq_refl eq_refl eq_refl)).
  - assert (Hlate : (5000 <= 7000 - 1000)%Z) by lia.
    destruct (Hthird yesOpportunity 7000%Z silentBroker
                (UnifiedExecutor.with_gateway buyingGateway freshWorld)
                eq_refl eq_refl Hlate eq_refl eq_refl) as [_ Hpaper].
    destruct Hpaper as (position & Hsome & _ & Hside & Hopen & _).
    + reflexivity.
    + vm_compute. reflexivity.
    + vm_compute. discriminate.
    + exists position. by repeat split.
Defined.

(** C1 fails for a first call that is refused.  With a position open on
    (m2, YES), a buy on that key at time 1000 returns null at the
    open-position guard and sets no mark.  The position is sold through
    the gateway at time 2000, and a second buy on the key at time 3000,
    within 5 seconds of the first, reaches the executor and returns a
    position. *)
Lemma refused_buy_starts_no_cooldown :
  let first := @UnifiedExecutor.executeBuy demoEnv 1000 silentBroker yesOpportunity
                 heldWorld in
  let sold := @UnifiedExecutor.executeSell demoEnv 2000 silentBroker storedHeld 0.41
                (snd first) in
  let second := @UnifiedExecutor.executeBuy demoEnv 3000 silentBroker yesOpportunity
                  (snd sold) in
  first = (None, heldWorld)
  /\ (exists trade, fst sold = Some trade /\ t_positionId trade = p_id storedHeld)
  /\ (3000 - 1000 < UnifiedExecutor.BUY_COOLDOWN_MS)%Z
  /\ (exists position,
        fst second = Some position
        /\ p_marketId position = m_id (opp_market yesOpportunity)
        /\ p_side position = opp_side yesOpportunity).
Proof.
  cbv zeta.
  assert (H1 : @UnifiedExecutor.executeBuy demoEnv 1000 silentBroker yesOpportunity heldWorld
               = (None, heldWorld)) by (vm_compute; reflexivity).
  rewrite H1. cbn [snd]. split; [reflexivity|]. split; [|split; [reflexivity|]].
  - destruct (fst (@UnifiedExecutor.executeSell demoEnv 2000 silentBroker storedHeld 0.41
                     heldWorld)) as [trade|] eqn:E; [|vm_compute in E; discriminate E].
    exists trade. split; [reflexivity|].
    vm_compute in E. apply (inj Some) in E. subst trade. reflexivity.
  - destruct (fst (@UnifiedExecutor.executeBuy demoEnv 3000 silentBroker yesOpportunity
                     (snd (@UnifiedExecutor.executeSell demoEnv 2000 silentBroker
                             storedHeld 0.41 heldWorld)))) as [position|] eqn:E;
      [|vm_compute in E; discriminate E].
    exists position. split; [reflexivity|].
    vm_compute in E. apply (inj Some) in E. subst position. split; reflexivity.
Qed.

(** ** The gateway's sells, run to completion *)

Section GatewaySells.
Context {env : Env}.
Import UnifiedExecutor.

(** C2. Take a sell of a position that passes the gateway's guard: the
    position id is marked in flight in the synchronous head of the call.
    Until that call completes, every other sell of the same id returns null
    and changes nothing, whatever other gateway steps happen in between.
    Completion always clears the mark, whatever the executor answered, so a
    later sell of that id passes the guard again.  The call itself returns
    what the executor of the current mode returns and leaves the gateway as
    it found it.  In paper mode that is a trade, so of two concurrent sells
    of one position exactly one produces a trade.  In real mode it is a
    trade when the broker fills the order and reports the balance, and null,
    with the ledger untouched, when the broker call throws: then neither of
    two concurrent sells produces a trade. *)
Theorem sell_in_flight (g0 g1 : t) (position : Position) :
  executeSell_enter position g0 = (true, g1) ->
  (p_id position ∈ pendingSells g1)
  /\ (forall evs other now io currentPrice (w : World),
        no_settle_of (p_id position) evs ->
        p_id other = p_id position ->
        gateway w = run g1 evs ->
        executeSell now io other currentPrice w = (None, w))
  /\ (forall g,
        (p_id position ∉ pendingSells (executeSell_settle position g))
        /\ fst (executeSell_enter position (executeSell_settle position g)) = true)
  /\ (forall now io currentPrice (w : World),
        gateway w = g0 ->
        p_id position
        ∉ pendingSells (gateway (snd (executeSell now io position currentPrice w))))
  /\ (forall now io currentPrice (w : World),
        gateway w = g0 ->
        mode g0 = paper ->
        p_id position ∉ PaperExecutor.sellingPositions (paperExec w) ->
        let first := sell_inner now io position currentPrice (with_gateway g1 w) in
        exists trade,
          fst first = Some trade
          /\ SQLiteStore.trades (store (snd first)) = SQLiteStore.trades (store w) ++ [trade]
          /\ (forall other now' io' currentPrice',
                p_id other = p_id position ->
                executeSell now' io' other currentPrice' (snd first) = (None, snd first)))
  /\ (forall now io currentPrice (w : World),
        gateway w = g0 ->
        let sold := executeSell now io position currentPrice w in
        sold
        = match mode g0 with
          | paper =>
              let r := PaperExecutor.executeSell now position currentPrice
                         (store w) (paperExec w) in
              (fst r, {| store := fst (snd r); paperExec := snd (snd r);
                         realExec := realExec w; gateway := g0 |})
          | real =>
              let r := RealExecutor.executeSell now (orders io 0%nat) (bal io) position
                         currentPrice (store w) (realExec w) in
              (fst r, {| store := fst (snd r); paperExec := paperExec w;
                         realExec := snd (snd r); gateway := g0 |})
          end
        /\ (mode g0 = paper ->
            p_id position ∉ PaperExecutor.sellingPositions (paperExec w) ->
            exists trade,
              fst sold = Some trade
              /\ t_action trade = SELL
              /\ t_positionId trade = p_id position
              /\ SQLiteStore.trades (store (snd sold))
                 = SQLiteStore.trades (store w) ++ [trade])
        /\ (mode g0 = real ->
            RealExecutor.initialized (realExec w) = true ->
            forall orderResult b,
              orders io 0%nat = Returned orderResult ->
              RealExecutor.notFilled orderResult = false ->
              bal io = Returned b ->
              exists trade, fst sold = Some trade)
        /\ (mode g0 = real ->
            orders io 0%nat = Threw ->
            fst sold = None /\ store (snd sold) = store w)).
Proof.
  intros Henter. destruct (executeSell_enter_inv position g0 g1 Henter) as [Hfree ->].
  assert (Hin : p_id position
                ∈ pendingSells (with_pendingSells ({[p_id position]} ∪ pendingSells g0) g0))
    by (cbn [with_pendingSells pendingSells]; set_solver).
  assert (Hnull : forall other now io currentPrice (w : World),
             p_id other = p_id position ->
             p_id position ∈ pendingSells (gateway w) ->
             executeSell now io other currentPrice w = (None, w)).
  { intros other now io currentPrice w Hid Hpending.
    unfold executeSell, executeSell_enter. rewrite Hid.
    rewrite bool_decide_eq_true_2 by done. by rewrite with_gateway_same. }
  split; [exact Hin|]. split; [|split; [|split; [|split]]].
  - intros evs other now io currentPrice w Hsettle Hid Hgw.
    apply Hnull; [done|]. rewrite Hgw. by apply run_keeps_selling.
  - intros g.
    assert (Hout : p_id position ∉ pendingSells (executeSell_settle position g))
      by (cbn [executeSell_settle with_pendingSells pendingSells];
          rewrite elem_of_difference, elem_of_singleton; tauto).
    split; [exact Hout|]. unfold executeSell_enter.
    by rewrite bool_decide_eq_false_2.
  - intros now io currentPrice w Hgw. unfold executeSell, executeSell_enter.
    rewrite Hgw, bool_decide_eq_false_2 by done.
    destruct (sell_inner _ _ _ _ _) as [r w'].
    cbn [snd with_gateway gateway executeSell_settle with_pendingSells pendingSells].
    rewrite elem_of_difference, elem_of_singleton. tauto.
  - intros now io currentPrice w Hgw Hmode Hselling. cbv zeta.
    unfold sell_inner at 1 2.
    cbn [with_gateway with_pendingSells gateway store paperExec realExec mode].
    rewrite Hmode.
    destruct (paper_sell_positions now position currentPrice (store w) (paperExec w)
                Hselling) as (_ & trade & Hret & _ & _ & Htrades).
    pose proof (sell_inner_gateway now io position currentPrice
                  (with_gateway (with_pendingSells ({[p_id position]} ∪ pendingSells g0) g0)
                                w)) as Hgw'.
    unfold sell_inner in Hgw' |- *.
    cbn [with_gateway with_pendingSells gateway store paperExec realExec mode] in Hgw' |- *.
    rewrite Hmode in Hgw' |- *.
    destruct (PaperExecutor.executeSell _ _ _ _ _) as [r [s e]]. cbn [fst snd] in *.
    exists trade. split; [done|]. split; [done|].
    intros other now' io' currentPrice' Hid. apply Hnull; [done|].
    cbn [gateway pendingSells]. set_solver.
  - intros now io currentPrice w Hgw sold.
    assert (Hsettle : executeSell_settle position
                        (with_pendingSells ({[p_id position]} ∪ pendingSells g0) g0) = g0).
    { unfold executeSell_settle. cbn [with_pendingSells pendingSells mode pendingBuys].
      rewrite (selling_released _ _ Hfree). by destruct g0. }
    assert (Hsold : sold
              = match mode g0 with
                | paper =>
                    let r := PaperExecutor.executeSell now position currentPrice
                               (store w) (paperExec w) in
                    (fst r, {| store := fst (snd r); paperExec := snd (snd r);
                               realExec := realExec w; gateway := g0 |})
                | real =>
                    let r := RealExecutor.executeSell now (orders io 0%nat) (bal io) position
                               currentPrice (store w) (realExec w) in
                    (fst r, {| store := fst (snd r); paperExec := paperExec w;
                               realExec := snd (snd r); gateway := g0 |})
                end).
    { subst sold. unfold executeSell, executeSell_enter.
      rewrite Hgw, bool_decide_eq_false_2 by done.
      unfold sell_inner.
      cbn [with_gateway with_pendingSells gateway store paperExec realExec mode].
      destruct (mode g0).
      - destruct (PaperExecutor.executeSell _ _ _ _ _) as [r [s e]].
        cbn [fst snd with_gateway gateway store paperExec realExec]. by rewrite Hsettle.
      - destruct (RealExecutor.executeSell _ _ _ _ _ _ _) as [r [s e]].
        cbn [fst snd with_gateway gateway store paperExec realExec]. by rewrite Hsettle. }
    split; [exact Hsold|]. split; [|split].
    + intros Hmode Hselling. subst sold.
      apply paper_sell_goes_through; [by rewrite Hgw|by rewrite Hgw|done].
    + intros Hmode Hinit orderResult b Horder Hfilled Hbal. subst sold.
      eapply real_sell_goes_through; eauto; by rewrite Hgw.
    + intros Hmode Horder. rewrite Hsold, Hmode. cbv zeta. cbn [fst snd store].
      unfold RealExecutor.executeSell. rewrite Horder.
      by destruct (negb (RealExecutor.initialized (realExec w))).
Qed.

End GatewaySells.

(** C2 on the held position: while a sell of it is in flight a second sell
    returns null and changes nothing; the sell itself, in paper mode,
    returns a SELL trade. *)
Lemma sell_in_flight_witness :
  (p_id heldPosition ∈ UnifiedExecutor.pendingSells sellingGateway)
  /\ @UnifiedExecutor.executeSell demoEnv 2000 silentBroker heldPosition 0.5
       (UnifiedExecutor.with_gateway sellingGateway heldWorld)
     = (None, UnifiedExecutor.with_gateway sellingGateway heldWorld)
  /\ exists trade,
       fst (@UnifiedExecutor.executeSell demoEnv 2000 silentBroker heldPosition 0.5
              heldWorld) = Some trade
       /\ t_action trade = SELL.
Proof.
  assert (Henter : UnifiedExecutor.executeSell_enter heldPosition
                     (freshGateway UnifiedExecutor.paper)
                   = (true, sellingGateway))
    by (vm_compute; reflexivity).
  destruct (@sell_in_flight demoEnv (freshGateway UnifiedExecutor.paper) sellingGateway
              heldPosition Henter) as (Hmark & Hlater & _ & _ & _ & Hsold).
  split; [exact Hmark|]. split.
  - exact (Hlater [] heldPosition 2000%Z silentBroker 0.5
             (UnifiedExecutor.with_gateway sellingGateway heldWorld)
             (Forall_nil_2 _) eq_refl eq_refl).
  - destruct (Hsold 2000%Z silentBroker 0.5 heldWorld eq_refl) as (_ & Hpaper & _).
    destruct (Hpaper eq_refl) as (trade & Hsome & Hact & _).
    + apply not_elem_of_empty.
    + by exists trade.
Defined.

(** C2 fails in real mode when the broker call throws.  The held position
    is in the ledger of an initialised real adapter and a sell of it is in
    flight: a second sell of the same id returns null at the gateway, and
    the first, whose order call throws, returns null as well.  Of the two
    concurrent sells none produces a trade, and the position stays open. *)
Lemma concurrent_real_sells_without_trade :
  let entered := UnifiedExecutor.executeSell_enter storedHeld
                   (UnifiedExecutor.gateway heldRealWorld) in
  let second := @UnifiedExecutor.executeSell demoEnv 2000 silentBroker storedHeld 0.5
                  (UnifiedExecutor.with_gateway (snd entered) heldRealWorld) in
  let first := @UnifiedExecutor.executeSell demoEnv 2000 silentBroker storedHeld 0.5
                 heldRealWorld in
  UnifiedExecutor.mode (UnifiedExecutor.gateway heldRealWorld) = UnifiedExecutor.real
  /\ RealExecutor.initialized (UnifiedExecutor.realExec heldRealWorld) = true
  /\ fst entered = true
  /\ fst second = None
  /\ fst first = None
  /\ SQLiteStore.trades (UnifiedExecutor.store (snd first)) = []
  /\ SQLiteStore.getOpenPositions (UnifiedExecutor.store (snd first)) = [storedHeld].
Proof. cbv zeta. repeat split; vm_compute; reflexivity. Qed.

(** ** The two steps of a real buy *)

Section RealBuyPhases.
Context {env : Env}.
Import UnifiedExecutor.

(** The two halves of a real buy, run one after the other, are the buy. *)
Lemma real_executeBuy_begin_resume (now : Z) (order : Completion ClobOrderResponse)
    (bal : Completion Q) (opportunity : Opportunity) (s : SQLiteStore.t)
    (e : RealExecutor.t) :
  RealExecutor.executeBuy now order bal opportunity s e
  = match RealExecutor.executeBuy_begin opportunity e with
    | Some pending => RealExecutor.executeBuy_resume now order bal opportunity pending s e
    | None => (None, (s, e))
    end.
Proof.
  unfold RealExecutor.executeBuy, RealExecutor.executeBuy_begin,
    RealExecutor.executeBuy_resume.
  destruct (negb (RealExecutor.initialized e)); [reflexivity|].
  destruct (negb (allowed _)); [reflexivity|].
  destruct (Qltb _ _); [reflexivity|]. cbv zeta.
  destruct (nth_error _ _) as [o|]; [|reflexivity].
  case_bool_decide; [reflexivity|].
  cbn [RealExecutor.pb_tokenId RealExecutor.pb_shares]. reflexivity.
Qed.

Lemma real_executeBuy_phases (now : Z) (io : Broker) (opportunity : Opportunity)
    (w : World) :
  mode (gateway w) = real ->
  executeBuy now io opportunity w
  = match realBuy_enter now opportunity w with
    | (Some pending, w1) => realBuy_resume now io opportunity pending w1
    | (None, w1) => (None, w1)
    end.
Proof.
  intros Hmode. unfold executeBuy, realBuy_enter.
  destruct (executeBuy_enter now opportunity (store w) (gateway w)) as [guard g] eqn:E.
  assert (Hg : mode g = real).
  { unfold executeBuy_enter in E. destruct (List.find _ _); [by injection E as _ <-|].
    destruct (inCooldown _ _); injection E as _ <-; done. }
  destruct guard; try reflexivity.
  unfold buy_inner, realBuy_resume.
  cbn [with_gateway gateway store paperExec realExec]. rewrite Hg.
  rewrite real_executeBuy_begin_resume.
  destruct (RealExecutor.executeBuy_begin opportunity (realExec w)) as [pending|];
    reflexivity.
Qed.

Lemma open_on_single (marketId : string) (sd : Side) (row : SQLiteStore.PositionRow) :
  SQLiteStore.market_id row = marketId -> SQLiteStore.side row = sd ->
  SQLiteStore.status row = st_open ->
  length (open_on marketId sd [row]) = 1%nat.
Proof.
  intros Hm Hs Ho. unfold open_on. cbn [List.filter].
  by rewrite !bool_decide_eq_true_2.
Qed.

(** The second half checks nothing: a filled order appends an open
    position on the key to whatever the ledger holds. *)
Lemma realBuy_resume_appends (now : Z) (io : Broker) (opportunity : Opportunity)
    (pending : RealExecutor.PendingBuy) (orderResult : ClobOrderResponse) (w : World) :
  orders io 0%nat = Returned orderResult ->
  RealExecutor.notFilled orderResult = false ->
  appended_open (m_id (opp_market opportunity)) (opp_side opportunity)
                (store w) (store (snd (realBuy_resume now io opportunity pending w))).
Proof.
  intros Horder Hfilled. unfold realBuy_resume, RealExecutor.executeBuy_resume.
  rewrite Horder, Hfilled. cbv zeta.
  match goal with
  | |- context [SQLiteStore.createPosition ?np ?s0] =>
      pose proof (createPosition_appends np s0) as [A _];
      destruct (SQLiteStore.createPosition np s0) as [position s1]; cbn [fst snd] in A
  end.
  match goal with
  | |- context [SQLiteStore.recordTrade ?tr ?s0] =>
      pose proof (recordTrade_positions tr s0) as B;
      destruct (SQLiteStore.recordTrade tr s0) as [recorded s2]; cbn [fst snd] in B
  end.
  cbn [SQLiteStore.np_marketId SQLiteStore.np_side] in A.
  destruct (bal io); cbn [fst snd store]; eapply appended_open_same; eauto.
Qed.

Lemma realBuy_resume_gateway (now : Z) (io : Broker) (opportunity : Opportunity)
    (pending : RealExecutor.PendingBuy) (w : World) :
  gateway (snd (realBuy_resume now io opportunity pending w)) = gateway w.
Proof.
  unfold realBuy_resume.
  by destruct (RealExecutor.executeBuy_resume _ _ _ _ _ _ _) as [r [s e]].
Qed.

(** A second real buy on the key, entered 5 seconds or more after the first
    and before the broker has answered the first, passes both guards. *)
Lemma interleaved_real_buys (now : Z) (io : Broker) (w : World) :
  forall t2 opportunity pending w1,
    realBuy_enter now opportunity w = (Some pending, w1) ->
    (5000 <= t2 - now)%Z ->
    exists w2,
      realBuy_enter t2 opportunity w1 = (Some pending, w2)
      /\ forall now1 now2 io2 reply1 reply2,
           orders io 0%nat = Returned reply1 ->
           orders io2 0%nat = Returned reply2 ->
           RealExecutor.notFilled reply1 = false ->
           RealExecutor.notFilled reply2 = false ->
           let after :=
             store (snd (realBuy_resume now2 io2 opportunity pending
                           (snd (realBuy_resume now1 io opportunity pending w2)))) in
           length (open_on (m_id (opp_market opportunity)) (opp_side opportunity)
                           (SQLiteStore.positions after)) = 2%nat
           /\ ~ at_most_one_open after.
Proof.
  intros t2 opportunity pending w1 Henter Hlate.
  unfold realBuy_enter in Henter.
  destruct (executeBuy_enter now opportunity (store w) (gateway w)) as [guard g] eqn:E.
  destruct guard; try (apply pair_equal_spec in Henter as [Hn _]; discriminate Hn).
  apply pair_equal_spec in Henter as [Hbegin <-].
  unfold executeBuy_enter in E.
  destruct (List.find _ _) as [existing|] eqn:Hfind; [discriminate E|].
  destruct (inCooldown _ _); [discriminate E|].
  apply pair_equal_spec in E as [_ <-].
  pose proof (no_existing_position _ _ _ Hfind) as Hnone.
  eexists. split.
  - unfold realBuy_enter, executeBuy_enter.
    cbn [with_gateway with_pendingBuys gateway store realExec pendingBuys].
    rewrite Hfind, lookup_insert_eq. unfold inCooldown.
    replace (t2 - now <? BUY_COOLDOWN_MS)%Z with false
      by (symmetry; apply Z.ltb_ge; unfold BUY_COOLDOWN_MS; lia).
    rewrite andb_false_r, Hbegin. reflexivity.
  - intros now1 now2 io2 reply1 reply2 Ho1 Ho2 Hf1 Hf2. cbv zeta.
    match goal with
    | |- context [realBuy_resume now1 io opportunity pending ?x] => set (w2 := x)
    end.
    destruct (realBuy_resume_appends now1 io opportunity pending reply1 w2 Ho1 Hf1)
      as (row1 & E1 & Hm1 & Hs1 & Hst1).
    destruct (realBuy_resume_appends now2 io2 opportunity pending reply2
                (snd (realBuy_resume now1 io opportunity pending w2)) Ho2 Hf2)
      as (row2 & E2 & Hm2 & Hs2 & Hst2).
    change (store w2) with (store w) in E1.
    assert (Hlen : length (open_on (m_id (opp_market opportunity)) (opp_side opportunity)
                     (SQLiteStore.positions
                        (store (snd (realBuy_resume now2 io2 opportunity pending
                           (snd (realBuy_resume now1 io opportunity pending w2)))))))
                   = 2%nat).
    { rewrite E2, E1, !open_on_app, !length_app, Hnone.
      rewrite (open_on_single _ _ row1 Hm1 Hs1 Hst1),
              (open_on_single _ _ row2 Hm2 Hs2 Hst2). reflexivity. }
    split; [exact Hlen|]. intros Hinv.
    specialize (Hinv (m_id (opp_market opportunity)) (opp_side opportunity)).
    rewrite Hlen in Hinv. lia.
Qed.

(** C3, as the code has it.  A buy through the gateway that runs from its
    guards to the executor's insert with no other call in between keeps "at
    most one open position per (marketId, side)": it is refused when such a
    position is open, and otherwise opens at most one.  A paper buy always
    runs so.  A real buy is two steps, [realBuy_enter] up to the broker
    call and [realBuy_resume] from the broker's reply on, and the second
    checks nothing: whatever the ledger holds by then, a filled order
    appends an open position on the key.  So when a second real buy on the
    key is entered 5 seconds or more after the first and before the
    broker has answered the first, it passes both guards as well, and two
    filled orders leave two open positions on the key.  An arbitrage buy
    makes no check at all: in paper mode it either does nothing or opens
    one position per outcome of the basket, on side YES for an outcome
    named "yes" (in any letter case) and on side NO for every other
    outcome. *)
Theorem executeBuy_keeps_one_open (now : Z) (io : Broker) (w : World) :
  (forall opportunity,
     at_most_one_open (store w) ->
     at_most_one_open (store (snd (executeBuy now io opportunity w))))
  /\ (forall market outcomes totalCost guaranteedProfit,
        mode (gateway w) = paper ->
        let r := executeArbitrageBuy now io market outcomes totalCost guaranteedProfit w in
        (fst r = [] /\ store (snd r) = store w)
        \/ (exists rows,
              SQLiteStore.positions (store (snd r)) = SQLiteStore.positions (store w) ++ rows
              /\ length (fst r) = length outcomes
              /\ Forall2 (fun o row =>
                            SQLiteStore.market_id row = mr_id market
                            /\ SQLiteStore.side row = PaperExecutor.sideOfName (ao_name o)
                            /\ SQLiteStore.status row = st_open)
                         outcomes rows))
  /\ (forall opportunity,
        mode (gateway w) = real ->
        executeBuy now io opportunity w
        = match realBuy_enter now opportunity w with
          | (Some pending, w1) => realBuy_resume now io opportunity pending w1
          | (None, w1) => (None, w1)
          end)
  /\ (forall opportunity pending orderResult,
        orders io 0%nat = Returned orderResult ->
        RealExecutor.notFilled orderResult = false ->
        let after := store (snd (realBuy_resume now io opportunity pending w)) in
        appended_open (m_id (opp_market opportunity)) (opp_side opportunity)
                      (store w) after
        /\ (open_on (m_id (opp_market opportunity)) (opp_side opportunity)
                    (SQLiteStore.positions (store w)) <> [] ->
            ~ at_most_one_open after))
  /\ (forall t2 opportunity pending w1,
        realBuy_enter now opportunity w = (Some pending, w1) ->
        (5000 <= t2 - now)%Z ->
        exists w2,
          realBuy_enter t2 opportunity w1 = (Some pending, w2)
          /\ forall now1 now2 io2 reply1 reply2,
               orders io 0%nat = Returned reply1 ->
               orders io2 0%nat = Returned reply2 ->
               RealExecutor.notFilled reply1 = false ->
               RealExecutor.notFilled reply2 = false ->
               let after :=
                 store (snd (realBuy_resume now2 io2 opportunity pending
                               (snd (realBuy_resume now1 io opportunity pending w2)))) in
               length (open_on (m_id (opp_market opportunity)) (opp_side opportunity)
                               (SQLiteStore.positions after)) = 2%nat
               /\ ~ at_most_one_open after).
Proof.
  split; [|split; [|split; [|split; [|apply interleaved_real_buys]]]].
  - intros opportunity Hinv. unfold executeBuy.
    destruct (executeBuy_enter now opportunity (store w) (gateway w)) as [guard g] eqn:E.
    unfold executeBuy_enter in E.
    destruct (List.find _ _) as [existing|] eqn:Hfind.
    { injection E as <- <-. exact Hinv. }
    apply no_existing_position in Hfind.
    destruct (inCooldown _ _); injection E as <- <-; [exact Hinv|].
    unfold buy_inner.
    cbn [with_gateway with_pendingBuys gateway store paperExec realExec mode].
    destruct (mode (gateway w)).
    + destruct (paper_executeBuy_positions now opportunity (store w) (paperExec w))
        as [[_ Hsame]|(_ & _ & A)];
        destruct (PaperExecutor.executeBuy _ _ _ _) as [r [s e]];
        cbn [fst snd store] in *.
      * by subst s.
      * eapply appended_open_keeps_one; eauto.
    + destruct (real_executeBuy_positions now (orders io 0) (bal io) opportunity
                  (store w) (realExec w)) as [Hsame|A];
        destruct (RealExecutor.executeBuy _ _ _ _ _ _) as [r [s e]];
        cbn [fst snd store] in *.
      * by subst s.
      * eapply appended_open_keeps_one; eauto.
  - intros market outcomes totalCost guaranteedProfit Hmode. cbv zeta.
    unfold executeArbitrageBuy. rewrite Hmode.
    destruct (paper_executeArbitrageBuy_positions now market outcomes totalCost
                guaranteedProfit (store w) (paperExec w))
      as [[Hnil Hsame]|(rows & E & F & Hlen)];
      destruct (PaperExecutor.executeArbitrageBuy _ _ _ _ _ _ _) as [r [s e]];
      cbn [fst snd store] in *.
    + left. by subst.
    + right. exists rows. by repeat split.
  - intros opportunity Hmode. by apply real_executeBuy_phases.
  - intros opportunity pending orderResult Horder Hfilled. cbv zeta.
    pose proof (realBuy_resume_appends now io opportunity pending orderResult w
                  Horder Hfilled) as Happ.
    split; [exact Happ|]. intros Hsome Hinv.
    destruct Happ as (row & E & Hm & Hs & Ho).
    specialize (Hinv (m_id (opp_market opportunity)) (opp_side opportunity)).
    rewrite E, open_on_app, length_app in Hinv.
    assert (length (open_on (m_id (opp_market opportunity)) (opp_side opportunity) [row])
            = 1%nat) as Hone by (by apply open_on_single).
    destruct (open_on _ _ (SQLiteStore.positions (store w))); [done|].
    cbn [length] in Hinv. lia.
Qed.

End RealBuyPhases.

(** C3 at work.  A paper buy on the empty ledger keeps the invariant.  In
    real mode a buy of [yesOpportunity] entered at time 1000 and a second
    one entered at time 7000, before the broker has answered the first,
    both pass the guards; the two fills, at times 8000 and 9000, leave two
    open positions on (m2, YES). *)
Lemma executeBuy_keeps_one_open_witness :
  at_most_one_open (UnifiedExecutor.store freshWorld)
  /\ at_most_one_open
       (UnifiedExecutor.store
          (snd (@UnifiedExecutor.executeBuy demoEnv 1000 silentBroker
                  yesOpportunity freshWorld)))
  /\ exists pending w1 w2,
       @UnifiedExecutor.realBuy_enter demoEnv 1000 yesOpportunity
         (haltedWorld UnifiedExecutor.real) = (Some pending, w1)
       /\ @UnifiedExecutor.realBuy_enter demoEnv 7000 yesOpportunity w1 = (Some pending, w2)
       /\ length (open_on "m2" YES
                    (SQLiteStore.positions
                       (UnifiedExecutor.store
                          (snd (@UnifiedExecutor.realBuy_resume demoEnv 9000 fillingBroker
                                  yesOpportunity pending
                                  (snd (@UnifiedExecutor.realBuy_resume demoEnv 8000
                                          fillingBroker yesOpportunity pending w2)))))))
          = 2%nat.
Proof.
  assert (H0 : at_most_one_open (UnifiedExecutor.store freshWorld))
    by (intros m sd; simpl; lia).
  split; [exact H0|]. split.
  - exact (proj1 (@executeBuy_keeps_one_open demoEnv 1000 silentBroker freshWorld)
                 yesOpportunity H0).
  - destruct (@UnifiedExecutor.realBuy_enter demoEnv 1000 yesOpportunity
                (haltedWorld UnifiedExecutor.real)) as [[pending|] w1] eqn:E;
      [|vm_compute in E; discriminate E].
    destruct (@executeBuy_keeps_one_open demoEnv 1000 fillingBroker
                (haltedWorld UnifiedExecutor.real)) as (_ & _ & _ & _ & Hinter).
    assert (Hlate : (5000 <= 7000 - 1000)%Z) by lia.
    destruct (Hinter 7000%Z yesOpportunity pending w1 E Hlate) as (w2 & E2 & Hafter).
    exists pending, w1, w2. split; [reflexivity|]. split; [exact E2|].
    exact (proj1 (Hafter 8000%Z 9000%Z fillingBroker demoFill demoFill
                    eq_refl eq_refl eq_refl eq_refl)).
Defined.

(** C3 fails for arbitrage buys: from an empty ledger, one paper basket on
    a three-way market opens three positions on (m1, NO). *)
Lemma basket_opens_three_on_one_side :
  let w' :=
    snd (@UnifiedExecutor.executeArbitrageBuy demoEnv 1000 silentBroker
           threeWayRef threeWay 0.95 0.05 freshWorld) in
  at_most_one_open (UnifiedExecutor.store freshWorld)
  /\ length (open_on "m1" NO (SQLiteStore.positions (UnifiedExecutor.store w'))) = 3%nat
  /\ ~ at_most_one_open (UnifiedExecutor.store w').
Proof.
  cbv zeta.
  assert (H3 : length (open_on "m1" NO
                 (SQLiteStore.positions
                    (UnifiedExecutor.store
                       (snd (@UnifiedExecutor.executeArbitrageBuy demoEnv 1000 silentBroker
                               threeWayRef threeWay 0.95 0.05 freshWorld))))) = 3%nat)
    by (vm_compute; reflexivity).
  split; [|split].
  - intros m sd. simpl. lia.
  - exact H3.
  - intros Hinv. specialize (Hinv "m1"%string NO). rewrite H3 in Hinv. lia.
Qed.

(** ** The stored pnl of a closed position *)

Section ClosedPnl.
Context {env : Env}.
Import SQLiteStore.

Lemma apply_keeps_row (i : string) (m : Mutation) (s : t) (row : PositionRow) :
  keeps_pnl_of i m -> getRow i s = Some row -> getRow i (apply s m) = Some row.
Proof.
  intros Hm Hrow. destruct m as [np|j q|now j q|trade|now pf|st wgt score];
    cbn [apply keeps_pnl_of] in *.
  - erewrite getRow_appended by reflexivity. by rewrite Hrow.
  - unfold updatePositionPrice. destruct (getPosition j s); [|exact Hrow].
    unfold getRow in *. cbn [with_positions positions].
    rewrite getRow_update_other; [exact Hrow|reflexivity|congruence].
  - unfold closePosition. destruct (getPosition j s); [|exact Hrow].
    cbn [snd]. unfold getRow in *. cbn [with_positions positions].
    rewrite getRow_update_other; [exact Hrow|reflexivity|congruence].
  - exact Hrow.
  - exact Hrow.
  - exact Hrow.
Qed.

Lemma applyAll_keeps_row (i : string) (ms : list Mutation) (s : t) (row : PositionRow) :
  Forall (keeps_pnl_of i) ms -> getRow i s = Some row ->
  getRow i (applyAll s ms) = Some row.
Proof.
  intros H. revert s. induction H as [|m ms Hm _ IH]; intros s Hrow; [exact Hrow|].
  cbn [applyAll fold_left]. apply IH. by apply apply_keeps_row.
Qed.

Lemma updatePositionPrice_row (i : string) (q : Q) (s : t) (row : PositionRow) :
  getRow i s = Some row ->
  getRow i (updatePositionPrice i q s)
  = Some (set_price q (q * shares row - cost_or_size row) row).
Proof.
  intros Hrow. unfold updatePositionPrice, getPosition. rewrite Hrow.
  cbn [fmap option_fmap option_map]. cbv zeta.
  unfold getRow in *. cbn [with_positions positions].
  by apply getRow_update.
Qed.

(** C7. Closing the position with id [i] at exit price [p] stores
    [pnl = p * shares - cost] exactly, with [shares] and [cost] those of the
    position as the ledger held it, and marks it closed.  A paper sell
    closes it so at the simulated bid, a filled real sell at the average
    fill price.  From then on no sequence of store mutations (creating
    positions, price updates, closing again, recording trades, snapshots,
    allocation updates) and no buy, sell or arbitrage buy through the
    gateway makes it open again.  The stored row, and with it the exit price
    and the pnl, is the same after every sequence of store mutations that
    neither reprices nor closes that id.  A price update of the closed id,
    however, is applied: [updatePositionPrice] has no status filter, so the
    row stays closed with its exit price [p], but its current price becomes
    [q] and its stored pnl [q * shares - cost]. *)
Theorem closed_position_pnl_and_status (now : Z) (i : string) (p : Q)
    (s : t) (position : Position) :
  getPosition i s = Some position ->
  let s' := snd (closePosition now i p s) in
  (exists closed row,
     fst (closePosition now i p s) = Some closed
     /\ getPosition i s' = Some closed
     /\ getRow i s' = Some row
     /\ p_status closed = st_closed
     /\ status row = st_closed
     /\ exit_price row = Some p
     /\ pnl row = p * p_shares position - p_cost position
     /\ p_pnl closed = p * p_shares position - p_cost position)
  /\ (forall (e : PaperExecutor.t) sold currentPrice,
        p_id sold = i ->
        i ∉ PaperExecutor.sellingPositions e ->
        exists row,
          getRow i (fst (snd (PaperExecutor.executeSell now sold currentPrice s e)))
          = Some row
          /\ status row = st_closed
          /\ pnl row
             = Qmax 0.01 (currentPrice * (1 - PaperExecutor.SIMULATED_SPREAD
                                           - PaperExecutor.SIMULATED_SLIPPAGE))
               * p_shares position - p_cost position)
  /\ (forall (e : RealExecutor.t) orderResult bal sold currentPrice,
        p_id sold = i ->
        RealExecutor.initialized e = true ->
        RealExecutor.notFilled orderResult = false ->
        exists row,
          getRow i (fst (snd (RealExecutor.executeSell now (Returned orderResult) bal
                                sold currentPrice s e)))
          = Some row
          /\ status row = st_closed
          /\ pnl row
             = num_or (or_avgFillPrice orderResult) currentPrice
               * p_shares position - p_cost position)
  /\ (forall ms, exists later,
        getPosition i (applyAll s' ms) = Some later /\ p_status later = st_closed)
  /\ (forall (w : UnifiedExecutor.World) now' io,
        UnifiedExecutor.store w = s' ->
        (forall opportunity, exists later,
            getPosition i (UnifiedExecutor.store
                             (snd (UnifiedExecutor.executeBuy now' io opportunity w)))
            = Some later /\ p_status later = st_closed)
        /\ (forall sold currentPrice, exists later,
              getPosition i (UnifiedExecutor.store
                               (snd (UnifiedExecutor.executeSell now' io sold currentPrice w)))
              = Some later /\ p_status later = st_closed)
        /\ (forall market outcomes totalCost guaranteedProfit, exists later,
              getPosition i (UnifiedExecutor.store
                               (snd (UnifiedExecutor.executeArbitrageBuy now' io market
                                       outcomes totalCost guaranteedProfit w)))
              = Some later /\ p_status later = st_closed))
  /\ (forall ms,
        Forall (keeps_pnl_of i) ms -> getRow i (applyAll s' ms) = getRow i s')
  /\ (forall q, exists row,
        getRow i (updatePositionPrice i q s') = Some row
        /\ status row = st_closed
        /\ exit_price row = Some p
        /\ current_price row = q
        /\ pnl row = q * p_shares position - p_cost position).
Proof.
  intros Hpos s'.
  destruct (closePosition_spec now i p s position Hpos)
    as (row & Hrow & Hret & Hst & Hexit & _ & Hpnl & Hpnl' & _).
  fold s' in Hrow.
  assert (Hclosed : getPosition i s' = Some (rowToPosition row))
    by (unfold getPosition; by rewrite Hrow).
  split; [|split; [|split; [|split; [|split; [|split]]]]].
  - exists (rowToPosition row), row. by repeat split.
  - intros e sold currentPrice <- Hfree.
    destruct (paper_sell_positions now sold currentPrice s e Hfree) as [Epos _].
    match type of Epos with
    | _ = positions (snd (closePosition _ _ ?q _)) =>
        destruct (closePosition_spec now (p_id sold) q s position Hpos)
          as (row' & Hrow' & _ & Hst' & _ & _ & Hpnl2 & _)
    end.
    exists row'. rewrite (getRow_same_positions _ _ _ Epos). by repeat split.
  - intros e orderResult bal sold currentPrice <- Hinit Hfilled.
    pose proof (real_sell_positions now orderResult bal sold currentPrice s e
                  Hinit Hfilled) as Epos.
    cbv zeta in Epos.
    match type of Epos with
    | _ = positions (snd (closePosition _ _ ?q _)) =>
        destruct (closePosition_spec now (p_id sold) q s position Hpos)
          as (row' & Hrow' & _ & Hst' & _ & _ & Hpnl2 & _)
    end.
    exists row'. rewrite (getRow_same_positions _ _ _ Epos). by repeat split.
  - intros ms.
    exact (closed_stays_closed i s' _ _ (applyAll_grows ms s') Hclosed Hst).
  - intros w now' io Hw. subst s'. rewrite <- Hw in Hclosed.
    repeat split; intros.
    + exact (closed_stays_closed i _ _ _
               (gateway_executeBuy_grows now' io _ w) Hclosed Hst).
    + exact (closed_stays_closed i _ _ _
               (gateway_executeSell_grows now' io _ _ w) Hclosed Hst).
    + exact (closed_stays_closed i _ _ _
               (gateway_executeArbitrageBuy_grows now' io _ _ _ _ w) Hclosed Hst).
  - intros ms Hms. rewrite Hrow. by apply applyAll_keeps_row.
  - intros q.
    destruct (closePosition_spec now i p s position Hpos)
      as (row0 & Hrow0 & _ & Hst0 & Hexit0 & _ & _ & _ & Hsh & Hco).
    fold s' in Hrow0. rewrite (updatePositionPrice_row i q s' row0 Hrow0).
    eexists. split; [reflexivity|]. cbn [status exit_price current_price pnl set_price].
    repeat split; try assumption. by rewrite Hsh, Hco.
Qed.

End ClosedPnl.

(** C7 on the held position: closed at 0.50, its 200 shares bought for
    $82.164 leave a pnl of $17.836. *)
Lemma closed_position_pnl_and_status_witness :
  exists position closed,
    SQLiteStore.getPosition "uuid-0" heldStore = Some position
    /\ fst (SQLiteStore.closePosition 2000 "uuid-0" 0.5 heldStore) = Some closed
    /\ p_status closed = st_closed
    /\ p_pnl closed = 0.5 * p_shares position - p_cost position
    /\ p_pnl closed == 17.836.
Proof.
  destruct (SQLiteStore.getPosition "uuid-0" heldStore) as [position|] eqn:Hheld;
    [|vm_compute in Hheld; discriminate Hheld].
  destruct (proj1 (@closed_position_pnl_and_status demoEnv 2000 "uuid-0" 0.5 heldStore
                     position Hheld))
    as (closed & row & Hclose & _ & _ & Hstatus & _ & _ & _ & Hpnl).
  exists position, closed. split; [reflexivity|]. split; [exact Hclose|].
  split; [exact Hstatus|]. split; [exact Hpnl|].
  rewrite Hpnl. vm_compute in Hheld. injection Hheld as <-. vm_compute. reflexivity.
Defined.

(** C7 fails for the stored pnl.  The held position (200 shares bought for
    $82.164) is closed at 0.50, which stores a pnl of $17.836.  A price
    update to 0.60 on the same id, a store mutation like any other, leaves
    the row closed with exit price 0.50 and rewrites its stored pnl to
    $37.836, which is not [0.50 * shares - cost]. *)
Lemma price_update_rewrites_closed_pnl :
  let closed := snd (SQLiteStore.closePosition 2000 "uuid-0" 0.5 heldStore) in
  let later := SQLiteStore.updatePositionPrice "uuid-0" 0.6 closed in
  exists row row',
    SQLiteStore.getRow "uuid-0" closed = Some row
    /\ SQLiteStore.status row = st_closed
    /\ SQLiteStore.exit_price row = Some 0.5
    /\ SQLiteStore.pnl row == 0.5 * SQLiteStore.shares row - SQLiteStore.cost row
    /\ SQLiteStore.pnl row == 17.836
    /\ later = @SQLiteStore.apply demoEnv closed (SQLiteStore.UpdatePositionPrice "uuid-0" 0.6)
    /\ SQLiteStore.getRow "uuid-0" later = Some row'
    /\ SQLiteStore.status row' = st_closed
    /\ SQLiteStore.exit_price row' = Some 0.5
    /\ SQLiteStore.shares row' = SQLiteStore.shares row
    /\ SQLiteStore.cost row' = SQLiteStore.cost row
    /\ SQLiteStore.pnl row' == 37.836
    /\ ~ SQLiteStore.pnl row' == 0.5 * SQLiteStore.shares row' - SQLiteStore.cost row'.
Proof.
  cbv zeta.
  destruct (SQLiteStore.getRow "uuid-0"
              (snd (SQLiteStore.closePosition 2000 "uuid-0" 0.5 heldStore)))
    as [row|] eqn:E1; [|vm_compute in E1; discriminate E1].
  destruct (SQLiteStore.getRow "uuid-0"
              (SQLiteStore.updatePositionPrice "uuid-0" 0.6
                 (snd (SQLiteStore.closePosition 2000 "uuid-0" 0.5 heldStore))))
    as [row'|] eqn:E2; [|vm_compute in E2; discriminate E2].
  exists row, row'.
  vm_compute in E1. apply (inj Some) in E1. subst row.
  vm_compute in E2. apply (inj Some) in E2. subst row'.
  repeat split; try reflexivity.
  intros H. vm_compute in H. discriminate H.
Qed.

(** ** The price maps behind the arbitrage check *)

Section ReactorArb.
Context {env : Env}.
Import EventTrader.


End ReactorArb.


